(* ===== verification/_CoqProject ===== *)
-Q . S2P
Prelude.v
Decoding.v
PyText.v
PySort.v
Worklist.v
PyHeap.v
Machine.v
Device.v
JumpDevice.v
Guesser.v
Day19.v
Day21.v
Day01.v
Day05.v
Day02.v
Day03.v
Day18.v
Day11.v
Day08.v
Day10.v
Day25.v
Day04.v
Day20.v
Day06.v
Day07.v
Day23.v
Day24.v
Day22.v
Day13.v
Day17.v
Day15Path.v
