(* ===== verification/Prelude.v ===== *)
(** * A verification development of ragona/adventofcode_2018

    The repository is a set of Python puzzle scripts (src/day_*.py) and
    one reusable subsystem, the "elfsembly" virtual machine of
    src/elfsembly/: a register machine with sixteen opcodes
    ([ChronalDevice]) and a variant whose instruction pointer is aliased
    to a register ([ChronalDeviceWithJumps]), fed by a loader that turns
    text lines into [Instruction]s and [JumpInstruction]s.  Days 16, 19
    and 21 drive the machine; the other days are independent scripts that
    share only Python's builtins.  Each script is modelled from its source
    as it is written: its dicts and sets as stdpp [gmap]/[gset], its lists
    with Python indexing, its loops as folds or fuelled [Fixpoint]s, its
    exceptions as values of the error monad [res].

    ** Shared files, in dependency order

    - Prelude.v (this file): Python's exceptions as values ([py_error]:
      [IndexError], [KeyError], [TypeError], [ValueError],
      [ZeroDivisionError], [AttributeError], [PyException]) in the error
      monad [res] with the notation [x <- c ;; k] (scope [py_scope]);
      list indexing with negative indices ([py_get] for [xs[i]], [py_set]
      for [xs[i] = v]), [dict_get], [py_mod], [py_floordiv], slicing,
      [range] ([py_range]), loops that may raise ([res_map], [res_fold])
      and their shared lemmas: loop invariants ([res_fold_inv],
      [res_fold_total], [res_fold_range] for [for k in range(n)]), the
      hint database [py], tactics [res_inv] and [py_get_simpl].
    - Decoding.v: src/elfsembly/instruction.py, the [Instruction] record,
      the opcode dictionaries, both line parsers and the loaders over a
      list of lines.
    - PyText.v: [str.split], [str.split()] and [int] on ASCII text.
    - PySort.v: Python's stable [sorted] as insertion sort ([sort_by]),
      proved to permute and to order its input.
    - Worklist.v: the termination measure of flood fills with a [seen]
      set.
    - PyHeap.v: [heapq.heappush]/[heappop] with CPython's [_siftdown] and
      [_siftup], proved to permute the heap.
    - Machine.v: the interface [RegisterMachine] the two devices share.
    - Device.v: [ChronalDevice] (src/elfsembly/device.py): the sixteen
      methods, [set_register] with the class attribute [MAX] (a section
      [Context]), [opcode_map], [execute], [execute_instructions].  The
      manual's opcode-family table ([spec_exec]) is the abstract
      specification and [chronal_machine] the instance of the interface.
    - JumpDevice.v: [ChronalDeviceWithJumps]: state = registers and
      [program_register]; the generator [_execute_instructions] becomes
      [step] (halt test, fetch, execute, increment), driven by [run] and
      [analysis] with fuel; [jstep] is the same step as an inductive
      relation and [reaches] its closure.
    - Guesser.v: day 16's [InstructionGuesser].

    ** One file per puzzle script, each a Module named after the puzzle

    Day19.v ([SpeculativeElfsecution]: [fastforward_state] and the
    drivers), Day21.v ([ChronalConversion]: the listed program, the pc-19
    patch and both drivers), Day01.v ([ChronalCalibration]), Day05.v
    ([AlchemicalReduction]), Day02.v ([BoxScan]), Day03.v
    ([FabricOverlap]), Day18.v ([SettlersOfTheNorthPole]), Day11.v
    ([ChronalCharge]), Day08.v ([MemoryManeuver]), Day10.v
    ([StarsAlign]), Day25.v ([FourDimensional]), Day04.v
    ([ReposeRecord]), Day20.v ([RegularMap]), Day06.v
    ([ChronalCoordinates]), Day07.v ([SumOfItsParts]), Day23.v
    ([EmergencyTeleport]), Day24.v ([ImmuneSystem]), Day22.v
    ([ModeMaze]), Day13.v ([MineCartMadness]), Day17.v
    ([ReservoirResearch]) and Day15Path.v ([PathSearch]: day 15's A*
    [find_path], with Python's set iteration order as the class
    [SetOrder] and the fuelled results [fres]).  Each file's own header
    says which functions of the script it models and how.  Definitions
    keep the source's names.  Where the code shares mutable objects
    (day 13's [Cart]s, held both by [self.carts] and by the tick's sorted
    list) the model keeps a store of objects and lists of references into
    it, so the aliasing is explicit.

    ** What is proved

    - Machine: [execute_correct] (every method implements its row of the
      family table, changes only its output register and keeps the
      register count) and [execute_Err] (exactly when [KeyError] and
      [IndexError] arise); the jump device's executable step agrees with
      the relation and a run halts exactly when a halting state is
      reachable ([run_halts_iff]); fuel monotonicity; invariants of
      reachable states; execute-then-increment; the halting boundary and
      negative pcs; the directive is popped from the caller's list; the
      analysis generator yields exactly the executed instructions.
    - Decoding: both line formats round-trip (a rendered mnemonic or
      numeric line decodes back to its instruction).
    - Day 16: the guesses are exactly the methods consistent with a
      sample, and the elimination loop, when it ends, finds the true
      opcode assignment.  Days 19 and 21: the shortcut loops compute what the elf
      code computes (a divisor sum; a division by 256), proved on the
      listed programs by symbolic execution of the device.
    - The puzzle scripts: equivalences with reference definitions
      (day 1's first repeated frequency; day 11's summed-area table;
      day 22's grid against the recursive erosion level; day 18's part-2
      shortcut under its periodicity assumption), functional properties
      (day 4's favourite minute, day 5's reduction, day 20's route
      exploration, day 22's risk level, day 24's damage, day 25's
      constellations), invariants (day 4's guard records, day 18's tiles,
      day 24's battles keep identical units and never add any, day 22's
      region types, day 13's crashes each remove two carts), termination
      of every fuelled loop that always stops (days 6, 7, 8, 10, 23, 24
      and day 17's fall and flow loops) and the error cases the code
      raises; day 17's model without the [defaultdict]'s insertions on
      reads counts the same ([wet_count_insert_sand]); day 15's A*
      search keeps an invariant on its open and closed sets, [came_from]
      and [g_score] (after the invariants of Dijkstra's algorithm), ends
      within one iteration per readable cell ([find_path_total]) and
      returns real walks of open tiles ([find_path_sound]).
    - Findings, each proved on an input: day 13 removes a crashed cart
      twice when another cart reaches it in the same tick ([ValueError]),
      day 22 raises [KeyError] for a target on an axis, day 7 drops a
      step given twice (on every input with a repeated line:
      [duplicate_line_blocks_step], through the characterisation
      [make_graph_of] of the graph and the loop invariant [order_inv]
      of [find_graph_order]), day 20 resumes after a group from the position
      before it, day 23 loses bots that share a position, day 2's
      [overlap] misses inner differences, day 8 reads [children[-1]] for
      metadata 0, day 11 never reaches the grid's last coordinate,
      day 17's [flow] washes out a clay wall that has sand below it.

    ** Bounds and fuel

    Python integers are unbounded, so integers are [Z] with no wrap,
    except the device's optional [MAX] modulus ([Z.modulo] is Python's
    floor modulus).  numpy and scipy values in days 10, 11 and 23 are
    small integers held exactly in floats and are modelled as [Z].
    Loops that need not stop (the devices, day 7's worker loop) take fuel
    and report its exhaustion; [run_fuel_mono] and [run_halts_iff] show
    fuel only bounds the observation.  Loops that always stop take fuel
    from a measure and a theorem shows that fuel is enough: the number of
    unseen cells plus the queue (day 6), the number of nodes (day 25's
    closures), ready or blocked nodes
    (day 7), the deque's length (day 8), the vertical extent (day 10), a
    tree-size bound on the heap (day 23), the total number of units
    (day 24: [total_units + 2] battles), the rows down to [max_y + 1]
    (day 17's fall) and the known cells of the row below (day 17's
    [flow]: [size grid + 1]).  Day 17's [settle] and its outer loop take
    [size grid + 1] and a given fuel: they stop on the basins the flow
    has closed, a fact of the clay layout rather than a measure.

    ** Not modelled

    File reading and printing (each loader is modelled over its list of
    lines), [__str__]/[__repr__] and image rendering (day 10's [draw],
    day 18's export, the graphviz utility src/util/drawing.py), and
    library algorithms the scripts only call: networkx's Dijkstra in
    day 22 (the graph it is given is modelled edge by edge) and its
    connected components in day 25 (modelled as closures).  The script
    of day 15 is modelled in its path search only: the units, their
    moves and attacks and the rounds of [Battle] are not modelled yet
    (they would need the round's shared [Unit] objects as a store, as
    day 13 keeps its carts).  [util.number_grabber], not part of src/,
    is modelled from the spec as a signed-integer grabber.
*)

From Stdlib Require Import ZArith Lia String Ascii.
From stdpp Require Export base list.

Open Scope Z_scope.

(** ** Python exceptions and the error monad

    Every failure the modelled Python code can raise is a value of
    [py_error]: list indexing out of range raises [IndexError], a
    dictionary lookup on a missing key raises [KeyError], a call with too
    many positional arguments raises [TypeError], unpacking a list of
    the wrong length raises [ValueError], [x % 0] raises
    [ZeroDivisionError], an attribute read on [None] raises
    [AttributeError], and an explicit
    [raise Exception(msg)] is [PyException msg]. *)

Inductive py_error : Type :=
  | IndexError
  | KeyError
  | TypeError
  | ValueError
  | ZeroDivisionError
  | AttributeError
  | PyException (msg : string).

Inductive res (A : Type) : Type :=
  | Ok (a : A)
  | Err (e : py_error).
Arguments Ok {A} a.
Arguments Err {A} e.

Definition res_bind {A B} (c : res A) (k : A -> res B) : res B :=
  match c with
  | Ok a => k a
  | Err e => Err e
  end.

Declare Scope py_scope.
Delimit Scope py_scope with py.
Notation "x <- c ;; k" := (res_bind c (fun x => k))
  (at level 100, c at next level, right associativity) : py_scope.
Open Scope py_scope.

(** ** Python list indexing

    [xs[i]] in Python accepts [-len xs <= i < len xs]; a negative index
    counts from the end.  [py_index] normalises an index the way CPython
    does, [py_get] is [xs[i]] and [py_set] is [xs[i] = v]. *)

Definition py_index (len : nat) (i : Z) : option nat :=
  if (0 <=? i) && (i <? Z.of_nat len) then Some (Z.to_nat i)
  else if (- Z.of_nat len <=? i) && (i <? 0) then Some (Z.to_nat (Z.of_nat len + i))
  else None.

Definition py_get {A} (xs : list A) (i : Z) : res A :=
  match py_index (length xs) i with
  | Some n => match xs !! n with Some x => Ok x | None => Err IndexError end
  | None => Err IndexError
  end.

Definition py_set {A} (xs : list A) (i : Z) (v : A) : res (list A) :=
  match py_index (length xs) i with
  | Some n => Ok (<[n := v]> xs)
  | None => Err IndexError
  end.

(** A Python dict literal with distinct keys, looked up with [d[k]]. *)
Fixpoint dict_get {K V} `{EqDecision K} (d : list (K * V)) (k : K) : res V :=
  match d with
  | [] => Err KeyError
  | (k', v) :: d' => if decide (k = k') then Ok v else dict_get d' k
  end.

(** [x % y] and [x // y] on Python ints: floor modulus and floor
    division, which are [Z.modulo] and [Z.div]; a zero divisor raises
    [ZeroDivisionError]. *)
Definition py_mod (x y : Z) : res Z :=
  if y =? 0 then Err ZeroDivisionError else Ok (x mod y).

Definition py_floordiv (x y : Z) : res Z :=
  if y =? 0 then Err ZeroDivisionError else Ok (x / y).

(** [xs[i:j]]: Python slicing; a negative bound counts from the end and
    both bounds are clamped to [0, len xs]. *)
Definition py_slice_bound (len : nat) (i : Z) : nat :=
  if i <? 0 then Z.to_nat (Z.max 0 (Z.of_nat len + i)) else Nat.min len (Z.to_nat i).

Definition py_slice {A} (xs : list A) (i j : Z) : list A :=
  let lo := py_slice_bound (length xs) i in
  let hi := py_slice_bound (length xs) j in
  take (hi - lo) (drop lo xs).

(** [range(a, b)]: the integers [a, a + 1, ..., b - 1]. *)
Definition py_range (a b : Z) : list Z :=
  map (fun k => a + Z.of_nat k) (seq 0 (Z.to_nat (b - a))).

(** [xs.index(x)] and [xs.remove(x)]: the first occurrence, and
    [ValueError] when there is none. *)
Fixpoint py_list_index {A} `{EqDecision A} (x : A) (xs : list A) : res Z :=
  match xs with
  | [] => Err ValueError
  | y :: xs' => if decide (x = y) then Ok 0 else i <- py_list_index x xs' ;; Ok (i + 1)
  end.

Fixpoint py_list_remove {A} `{EqDecision A} (x : A) (xs : list A) : res (list A) :=
  match xs with
  | [] => Err ValueError
  | y :: xs' => if decide (x = y) then Ok xs' else r <- py_list_remove x xs' ;; Ok (y :: r)
  end.

(** [min(xs)], [max(xs)] and [sum(xs)] on integers; [min] and [max] of
    an empty list raise [ValueError]. *)
Definition py_min (l : list Z) : res Z :=
  match l with [] => Err ValueError | v :: l' => Ok (fold_left Z.min l' v) end.

Definition py_max (l : list Z) : res Z :=
  match l with [] => Err ValueError | v :: l' => Ok (fold_left Z.max l' v) end.

Definition py_sum (l : list Z) : Z := fold_right Z.add 0 l.

(** A Python loop that builds a list element by element and stops at
    the first exception: [[f(a) for a in xs]]. *)
Fixpoint res_map {A B} (f : A -> res B) (xs : list A) : res (list B) :=
  match xs with
  | [] => Ok []
  | a :: xs' => b <- f a ;; bs <- res_map f xs' ;; Ok (b :: bs)
  end.

(** A Python [for] loop over [l] whose body updates [a] and may raise. *)
Fixpoint res_fold {A B} (g : A -> B -> res A) (l : list B) (a : A) : res A :=
  match l with
  | [] => Ok a
  | b :: l' => a' <- g a b ;; res_fold g l' a'
  end.

(** ** Generic lemmas *)

Create HintDb py discriminated.

Lemma res_bind_Ok {A B} (c : res A) (k : A -> res B) (b : B) :
  res_bind c k = Ok b <-> exists a, c = Ok a /\ k a = Ok b.
Proof.
  destruct c as [a|e]; simpl; split.
  - eauto.
  - intros (a' & [= ->] & H). exact H.
  - discriminate.
  - intros (a' & H & _). discriminate.
Qed.

Lemma res_bind_Err {A B} (c : res A) (k : A -> res B) (e : py_error) :
  res_bind c k = Err e <-> c = Err e \/ exists a, c = Ok a /\ k a = Err e.
Proof.
  destruct c as [a|e']; simpl; split.
  - eauto.
  - intros [H|(a' & [= ->] & H)]; [discriminate|exact H].
  - intros [= ->]. auto.
  - intros [[= ->]|(a' & H & _)]; [reflexivity|discriminate].
Qed.

Lemma py_index_Some len i n :
  py_index len i = Some n ->
  (n < len)%nat /\
  ((0 <= i /\ Z.of_nat n = i) \/ (i < 0 /\ Z.of_nat n = Z.of_nat len + i)).
Proof.
  unfold py_index.
  destruct (0 <=? i) eqn:H0, (i <? Z.of_nat len) eqn:H1; simpl;
  destruct (- Z.of_nat len <=? i) eqn:H2, (i <? 0) eqn:H3; simpl;
  intros Hn; try discriminate; injection Hn as <-;
  rewrite ?Z.leb_le, ?Z.leb_gt, ?Z.ltb_lt, ?Z.ltb_ge in *; lia.
Qed.

Lemma py_index_nonneg len i :
  0 <= i < Z.of_nat len -> py_index len i = Some (Z.to_nat i).
Proof.
  intros H. unfold py_index.
  destruct (0 <=? i) eqn:H0, (i <? Z.of_nat len) eqn:H1; simpl;
  rewrite ?Z.leb_le, ?Z.leb_gt, ?Z.ltb_lt, ?Z.ltb_ge in *; try lia. reflexivity.
Qed.

Lemma py_index_neg len i :
  - Z.of_nat len <= i < 0 -> py_index len i = Some (Z.to_nat (Z.of_nat len + i)).
Proof.
  intros H. unfold py_index.
  destruct (0 <=? i) eqn:H0; simpl; rewrite ?Z.leb_le, ?Z.leb_gt in *; try lia.
  destruct (- Z.of_nat len <=? i) eqn:H2, (i <? 0) eqn:H3; simpl;
  rewrite ?Z.leb_le, ?Z.leb_gt, ?Z.ltb_lt, ?Z.ltb_ge in *; try lia. reflexivity.
Qed.

Lemma py_index_None len i :
  py_index len i = None <-> i < - Z.of_nat len \/ Z.of_nat len <= i.
Proof.
  unfold py_index.
  destruct (0 <=? i) eqn:H0, (i <? Z.of_nat len) eqn:H1; simpl;
  destruct (- Z.of_nat len <=? i) eqn:H2, (i <? 0) eqn:H3; simpl;
  rewrite ?Z.leb_le, ?Z.leb_gt, ?Z.ltb_lt, ?Z.ltb_ge in *;
  split; intros; try discriminate; try reflexivity; lia.
Qed.

Lemma py_get_Ok_iff {A} (xs : list A) i :
  (exists x, py_get xs i = Ok x) <-> - Z.of_nat (length xs) <= i < Z.of_nat (length xs).
Proof.
  unfold py_get. destruct (py_index (length xs) i) as [n|] eqn:Hi.
  - apply py_index_Some in Hi as [Hn Hc].
    destruct (lookup_lt_is_Some_2 xs n Hn) as [x ->]. split; [|eauto]. lia.
  - apply py_index_None in Hi. split; [intros [x Hx]; discriminate | lia].
Qed.

Lemma py_get_Err {A} (xs : list A) i e :
  py_get xs i = Err e -> e = IndexError.
Proof.
  unfold py_get. destruct (py_index _ _); [destruct (_ !! _)|]; congruence.
Qed.

Lemma py_set_Err {A} (xs : list A) i v e :
  py_set xs i v = Err e -> e = IndexError.
Proof. unfold py_set. destruct (py_index _ _); congruence. Qed.

Lemma py_set_Ok_iff {A} (xs : list A) i v :
  (exists ys, py_set xs i v = Ok ys) <-> - Z.of_nat (length xs) <= i < Z.of_nat (length xs).
Proof.
  unfold py_set. destruct (py_index (length xs) i) as [n|] eqn:Hi.
  - apply py_index_Some in Hi. split; [lia|eauto].
  - apply py_index_None in Hi. split; [intros [ys Hy]; discriminate|lia].
Qed.

Lemma py_set_length {A} (xs ys : list A) i v :
  py_set xs i v = Ok ys -> length ys = length xs.
Proof.
  unfold py_set. destruct (py_index _ _); intros [= <-]. apply length_insert.
Qed.

Lemma py_get_py_set_eq {A} (xs ys : list A) i v :
  py_set xs i v = Ok ys -> py_get ys i = Ok v.
Proof.
  intros Hs. pose proof (py_set_length _ _ _ _ Hs) as Hl.
  revert Hs. unfold py_set, py_get. rewrite Hl.
  destruct (py_index (length xs) i) as [n|] eqn:Hi; intros [= <-].
  apply py_index_Some in Hi as [Hn _].
  rewrite list_lookup_insert_eq by exact Hn. reflexivity.
Qed.

(** Two Python indices denote the same slot exactly when they normalise
    to the same position. *)
Lemma py_get_py_set_ne {A} (xs ys : list A) i j v :
  py_set xs i v = Ok ys ->
  py_index (length xs) i <> py_index (length xs) j ->
  py_get ys j = py_get xs j.
Proof.
  intros Hs Hne. pose proof (py_set_length _ _ _ _ Hs) as Hl.
  revert Hs. unfold py_set, py_get. rewrite Hl.
  destruct (py_index (length xs) i) as [n|] eqn:Hi; intros [= <-].
  destruct (py_index (length xs) j) as [m|] eqn:Hj; [|reflexivity].
  rewrite list_lookup_insert_ne by congruence. reflexivity.
Qed.

Lemma py_set_lookup_ne {A} (xs ys : list A) i v n :
  py_set xs i v = Ok ys -> py_index (length xs) i <> Some n -> ys !! n = xs !! n.
Proof.
  unfold py_set. destruct (py_index (length xs) i) as [m|]; intros [= <-] Hne.
  apply list_lookup_insert_ne. congruence.
Qed.

Lemma py_get_nonneg {A} (xs : list A) (n : nat) :
  (n < length xs)%nat -> py_get xs (Z.of_nat n) = match xs !! n with Some x => Ok x | None => Err IndexError end.
Proof.
  intros Hn. unfold py_get. rewrite py_index_nonneg by lia. rewrite Nat2Z.id. reflexivity.
Qed.

#[export] Hint Resolve py_get_py_set_eq py_set_length : py.

(** Invert [c = Ok _] and [res_bind c k = Ok _] hypotheses step by step. *)
Ltac res_inv :=
  repeat match goal with
  | H : res_bind ?c _ = Ok _ |- _ =>
      let a := fresh "a" in let Hc := fresh "Hc" in
      apply res_bind_Ok in H as (a & Hc & H)
  | H : Ok _ = Ok _ |- _ => injection H as H; subst
  | H : Err _ = Ok _ |- _ => discriminate H
  | H : Ok _ = Err _ |- _ => discriminate H
  end.

Lemma dict_get_Ok_In {K V} `{EqDecision K} (d : list (K * V)) k v :
  dict_get d k = Ok v -> In (k, v) d.
Proof.
  induction d as [|[k' v'] d IH]; simpl; [discriminate|].
  case_decide; [intros [= ->]; subst; auto | auto].
Qed.

Lemma dict_get_Err {K V} `{EqDecision K} (d : list (K * V)) k e :
  dict_get d k = Err e <-> e = KeyError /\ ~ In k (map fst d).
Proof.
  induction d as [|[k' v'] d IH]; simpl.
  - split; [intros [= <-]; auto | intros [-> _]; reflexivity].
  - case_decide; subst.
    + split; [discriminate | intros [_ H]; tauto].
    + rewrite IH. intuition congruence.
Qed.

Lemma py_get_lookup {A} (xs : list A) i x :
  py_get xs i = Ok x <-> exists n, py_index (length xs) i = Some n /\ xs !! n = Some x.
Proof.
  unfold py_get. destruct (py_index (length xs) i) as [n|].
  - destruct (xs !! n) eqn:E; split.
    + intros [= ->]. eauto.
    + intros (m & [= <-] & Hm). congruence.
    + discriminate.
    + intros (m & [= <-] & Hm). congruence.
  - split; [discriminate|]. intros (m & Hm & _). discriminate.
Qed.

Lemma py_get_cons_0 {A} (x : A) xs : py_get (x :: xs) 0 = Ok x.
Proof. reflexivity. Qed.

Lemma py_get_cons_pos {A} (x : A) xs i : 0 < i -> py_get (x :: xs) i = py_get xs (i - 1).
Proof.
  intros Hi. unfold py_get, py_index. simpl length. rewrite Nat2Z.inj_succ.
  destruct (Z.ltb_spec i (Z.succ (Z.of_nat (length xs)))).
  - destruct (Z.leb_spec 0 i); [|lia]. destruct (Z.leb_spec 0 (i - 1)); [|lia].
    destruct (Z.ltb_spec (i - 1) (Z.of_nat (length xs))); [|lia]. simpl.
    replace (Z.to_nat i) with (S (Z.to_nat (i - 1))) by lia. reflexivity.
  - destruct (Z.leb_spec 0 i); [|lia]. destruct (Z.leb_spec 0 (i - 1)); [|lia].
    destruct (Z.ltb_spec (i - 1) (Z.of_nat (length xs))); [lia|]. simpl.
    destruct (Z.leb_spec (- Z.succ (Z.of_nat (length xs))) i); destruct (Z.ltb_spec i 0);
      try lia; simpl;
    destruct (Z.leb_spec (- Z.of_nat (length xs)) (i - 1)); destruct (Z.ltb_spec (i - 1) 0);
      try lia; reflexivity.
Qed.

Lemma py_mod_Ok x y : y <> 0 -> py_mod x y = Ok (x mod y).
Proof. intros Hy. unfold py_mod. destruct (Z.eqb_spec y 0); [contradiction | reflexivity]. Qed.

Lemma py_floordiv_Ok x y : y <> 0 -> py_floordiv x y = Ok (x / y).
Proof. intros Hy. unfold py_floordiv. destruct (Z.eqb_spec y 0); [contradiction | reflexivity]. Qed.

Lemma py_mod_zero x : py_mod x 0 = Err ZeroDivisionError.
Proof. reflexivity. Qed.

Lemma py_get_app_l {A} (xs ys : list A) i :
  0 <= i < Z.of_nat (length xs) -> py_get (xs ++ ys) i = py_get xs i.
Proof.
  intros H. unfold py_get. rewrite length_app.
  rewrite !py_index_nonneg by lia. rewrite lookup_app_l by lia. reflexivity.
Qed.

Lemma in_py_range a b x : In x (py_range a b) <-> a <= x < b.
Proof.
  unfold py_range. rewrite in_map_iff. split.
  - intros (k & <- & Hk). apply in_seq in Hk. lia.
  - intros H. exists (Z.to_nat (x - a)). split; [lia|]. apply in_seq. lia.
Qed.

Lemma NoDup_py_range a b : NoDup (py_range a b).
Proof.
  unfold py_range. apply NoDup_fmap_2_strong; [|apply NoDup_seq]. intros k l _ _ H. lia.
Qed.

Lemma length_py_range a b : length (py_range a b) = Z.to_nat (b - a).
Proof. unfold py_range. rewrite length_map, length_seq. reflexivity. Qed.

Lemma res_map_length {A B} (f : A -> res B) xs ys :
  res_map f xs = Ok ys -> length ys = length xs.
Proof.
  revert ys. induction xs as [|a xs IH]; intros ys H; simpl in H; [injection H as <-; reflexivity|].
  destruct (f a); simpl in H; [|discriminate].
  destruct (res_map f xs) eqn:E; simpl in H; [|discriminate]. injection H as <-. simpl. f_equal. auto.
Qed.

Lemma res_map_Ok {A B} (f : A -> res B) xs ys :
  res_map f xs = Ok ys <-> Forall2 (fun a b => f a = Ok b) xs ys.
Proof.
  revert ys. induction xs as [|a xs IH]; intros ys; simpl.
  - split; [intros [= <-]; constructor | intros H; inversion H; reflexivity].
  - destruct (f a) as [b|e] eqn:Ef; simpl.
    + destruct (res_map f xs) as [bs|e] eqn:E; simpl.
      * split; [intros [= <-]; constructor; [exact Ef | apply IH; reflexivity]|].
        intros H. inversion H as [|? b' ? bs' Hb Hbs]; subst. rewrite Ef in Hb. injection Hb as <-.
        apply IH in Hbs. injection Hbs as <-. reflexivity.
      * split; [discriminate|]. intros H. inversion H as [|? b' ? bs' Hb Hbs]; subst.
        apply IH in Hbs. discriminate.
    + split; [discriminate|]. intros H. inversion H as [|? b' ? bs' Hb Hbs]; subst. congruence.
Qed.

Lemma res_map_total {A B} (f : A -> res B) (P : B -> Prop) xs :
  (forall a, In a xs -> exists b, f a = Ok b /\ P b) ->
  exists bs, res_map f xs = Ok bs /\ Forall P bs /\ length bs = length xs.
Proof.
  induction xs as [|a xs IH]; intros H; simpl; [exists []; split_and!; [reflexivity | constructor | reflexivity]|].
  destruct (H a (or_introl eq_refl)) as (b & Hb & Pb). rewrite Hb. simpl.
  destruct IH as (bs & Hbs & Pbs & Hl); [intros; apply H; right; assumption|].
  rewrite Hbs. simpl. exists (b :: bs). split_and!; [reflexivity | constructor; assumption | simpl; f_equal; assumption].
Qed.

Lemma res_bind_assoc {A B C} (c : res A) (f : A -> res B) (g : B -> res C) :
  res_bind (res_bind c f) g = res_bind c (fun a => res_bind (f a) g).
Proof. destruct c; reflexivity. Qed.

Lemma py_get_In {A} (xs : list A) i x : py_get xs i = Ok x -> In x xs.
Proof.
  intros (n & _ & Hn)%py_get_lookup. apply list_elem_of_In. eapply list_elem_of_lookup_2, Hn.
Qed.

(** [xs[i] = v] keeps a property every element and [v] have. *)
Lemma py_set_Forall {A} (P : A -> Prop) (xs ys : list A) i v :
  py_set xs i v = Ok ys -> Forall P xs -> P v -> Forall P ys.
Proof.
  unfold py_set. destruct (py_index _ _); intros [= <-] Hxs Hv.
  apply Forall_insert; assumption.
Qed.

(** [[f(a) for a in xs]] with an [f] that keeps a projection keeps the
    list of projections. *)
Lemma res_map_proj {A B} (f : A -> res A) (p : A -> B) (P : A -> Prop) xs ys :
  (forall a b, P a -> f a = Ok b -> p b = p a /\ P b) ->
  Forall P xs -> res_map f xs = Ok ys -> map p ys = map p xs /\ Forall P ys.
Proof.
  intros Hf HP Hys. apply res_map_Ok in Hys. induction Hys as [|a b xs ys Hab Hys IH]; [done|].
  inversion HP; subst. destruct (Hf a b) as [Hp Hb]; [done|done|].
  destruct IH as [Hm HPs]; [done|]. simpl. rewrite Hp, Hm. split; [done|]. constructor; done.
Qed.

(** A loop invariant of [res_fold]. *)
Lemma res_fold_inv {A B} (P : A -> Prop) (g : A -> B -> res A) l a r :
  P a -> (forall a b a', In b l -> P a -> g a b = Ok a' -> P a') ->
  res_fold g l a = Ok r -> P r.
Proof.
  revert a. induction l as [|b l IH]; intros a Ha Hstep H; simpl in H.
  - injection H as <-. exact Ha.
  - destruct (g a b) as [a'|e] eqn:E; simpl in H; [|discriminate].
    apply (IH a'); [exact (Hstep a b a' (or_introl eq_refl) Ha E) | | exact H].
    intros; eapply Hstep; eauto. right. assumption.
Qed.

(** A loop whose every iteration succeeds and keeps [P] returns, with
    [P] at the end. *)
Lemma res_fold_total {A B} (P : A -> Prop) (g : A -> B -> res A) l a :
  P a -> (forall a b, In b l -> P a -> exists a', g a b = Ok a' /\ P a') ->
  exists r, res_fold g l a = Ok r /\ P r.
Proof.
  revert a. induction l as [|b l IH]; intros a Ha Hstep; simpl; [eauto|].
  destruct (Hstep a b (or_introl eq_refl) Ha) as (a' & -> & Ha'). simpl.
  apply IH; [done|]. intros; apply Hstep; [right|]; done.
Qed.

(** [range(0, m)] for a negative [m] is empty, like [range(0, 0)]. *)
Lemma py_range_to_nat m : py_range 0 m = py_range 0 (Z.of_nat (Z.to_nat m)).
Proof. unfold py_range. rewrite !Z.sub_0_r, Nat2Z.id. done. Qed.

Lemma py_range_cons a b : a < b -> py_range a b = a :: py_range (a + 1) b.
Proof.
  intros H. unfold py_range. replace (Z.to_nat (b - a)) with (S (Z.to_nat (b - (a + 1)))) by lia.
  simpl. rewrite Z.add_0_r. f_equal. rewrite <- seq_shift, map_map. apply map_ext. intros k. lia.
Qed.

(** [range(0, n + 1)] ends in [n]. *)
Lemma py_range_snoc (n : nat) :
  py_range 0 (Z.of_nat (S n)) = py_range 0 (Z.of_nat n) ++ [Z.of_nat n].
Proof.
  unfold py_range. rewrite !Z.sub_0_r, !Nat2Z.id, seq_S, map_app. done.
Qed.

Lemma res_fold_app {A B} (g : A -> B -> res A) l1 l2 a :
  res_fold g (l1 ++ l2) a = (r <- res_fold g l1 a ;; res_fold g l2 r).
Proof.
  revert a. induction l1 as [|b l1 IH]; intros a; simpl; [done|].
  destruct (g a b); simpl; [apply IH|done].
Qed.

(** [for k in range(n)] with an invariant indexed by the loop counter:
    when every iteration from [k] succeeds and re-establishes it at
    [k + 1], the loop returns and the invariant holds at [n]. *)
Lemma res_fold_range {A} (P : Z -> A -> Prop) (g : A -> Z -> res A) (n : nat) a :
  P 0 a ->
  (forall k a, 0 <= k < Z.of_nat n -> P k a -> exists a', g a k = Ok a' /\ P (k + 1) a') ->
  exists r, res_fold g (py_range 0 (Z.of_nat n)) a = Ok r /\ P (Z.of_nat n) r.
Proof.
  intros H0 Hstep. induction n as [|n IH]; [exists a; done|].
  destruct IH as (r & Hr & HP); [intros k b Hk; apply Hstep; lia|].
  destruct (Hstep (Z.of_nat n) r ltac:(lia) HP) as (r' & Hg & HP').
  exists r'. rewrite py_range_snoc, res_fold_app, Hr. simpl. rewrite Hg. split; [done|].
  rewrite Nat2Z.inj_succ. exact HP'.
Qed.

Lemma py_list_remove_Ok {A} `{EqDecision A} (x : A) xs ys :
  py_list_remove x xs = Ok ys -> exists l1 l2, xs = l1 ++ x :: l2 /\ (x ∉ l1) /\ ys = l1 ++ l2.
Proof.
  revert ys. induction xs as [|y xs IH]; intros ys; simpl; [discriminate|].
  case_decide as Hxy; [intros [= <-]; subst; exists [], xs; split_and!; [done|apply not_elem_of_nil|done]|].
  destruct (py_list_remove x xs) as [r|] eqn:E; simpl; [|discriminate]. intros [= <-].
  destruct (IH r eq_refl) as (l1 & l2 & -> & Hn & ->). exists (y :: l1), l2. split_and!; [done| |done].
  rewrite elem_of_cons. intros [->|]; done.
Qed.

Lemma py_list_remove_Err {A} `{EqDecision A} (x : A) xs e :
  py_list_remove x xs = Err e <-> (x ∉ xs) /\ e = ValueError.
Proof.
  revert e. induction xs as [|y xs IH]; intros e; simpl.
  - split; [intros [= <-]; split; [apply not_elem_of_nil|done]|intros [_ ->]; done].
  - rewrite elem_of_cons. case_decide as Hxy; [split; [discriminate|intros [Hn _]; tauto]|].
    destruct (py_list_remove x xs) as [r|e'] eqn:E; simpl.
    + split; [discriminate|]. intros [Hn ->]. assert (Hx : x ∉ xs) by tauto.
      pose proof (proj2 (IH ValueError) (conj Hx eq_refl)). discriminate.
    + pose proof (IH e') as H'. destruct (proj1 H' eq_refl) as [Hn ->].
      split; [intros [= <-]; split; [tauto|done]|intros [_ ->]; done].
Qed.

Lemma py_min_Ok v l : py_min (v :: l) = Ok (fold_left Z.min l v).
Proof. reflexivity. Qed.

Lemma py_max_Ok v l : py_max (v :: l) = Ok (fold_left Z.max l v).
Proof. reflexivity. Qed.

Lemma fold_left_min_spec l v :
  fold_left Z.min l v ∈ v :: l /\ Forall (fun x => fold_left Z.min l v <= x) (v :: l).
Proof.
  revert v. induction l as [|w l IH]; intros v; simpl.
  - split; [left|repeat constructor; lia].
  - destruct (IH (Z.min v w)) as [Hin Hall]. split.
    + apply elem_of_cons in Hin as [->|Hin]; [|right; right; done].
      destruct (Z.min_spec v w) as [[_ ->]|[_ ->]]; [left|right; left].
    + apply Forall_cons in Hall as [Hm Hall]. repeat constructor; [lia|lia|done].
Qed.

(** [min(xs)] is the least element of [xs]. *)
Lemma py_min_spec l m : py_min l = Ok m <-> m ∈ l /\ Forall (fun x => m <= x) l.
Proof.
  destruct l as [|v l]; simpl.
  - split; [discriminate|]. intros [H _]. apply elem_of_nil in H. done.
  - destruct (fold_left_min_spec l v) as [Hin Hall]. split; [intros [= <-]; done|].
    intros [Hm Hmall]. f_equal. rewrite Forall_forall in Hall, Hmall.
    pose proof (Hall m Hm). pose proof (Hmall _ Hin). lia.
Qed.

Lemma py_min_Err l e : py_min l = Err e <-> l = [] /\ e = ValueError.
Proof. destruct l; simpl; split; try intros [? ?]; try discriminate; try congruence. intros [= <-]. done. Qed.

(** [min] does not depend on the order of the elements. *)
Lemma py_min_perm l1 l2 : l1 ≡ₚ l2 -> py_min l1 = py_min l2.
Proof.
  intros Hp. destruct (py_min l2) as [m|e] eqn:E.
  - apply py_min_spec in E as [Hin Hall]. apply py_min_spec. rewrite Hp. done.
  - apply py_min_Err in E as [-> ->]. apply Permutation_nil_r in Hp as ->. done.
Qed.

#[export] Instance py_min_proper : Proper ((≡ₚ) ==> (=)) py_min.
Proof. intros l1 l2 Hp. apply py_min_perm, Hp. Qed.

Lemma remove_dups_length {A} `{EqDecision A} (l : list A) : (length (remove_dups l) <= length l)%nat.
Proof.
  induction l as [|a l IH]; simpl; [lia|]. destruct (decide_rel _ a l); simpl; lia.
Qed.

(** A list with a repeated element has fewer distinct elements. *)
Lemma remove_dups_lt {A} `{EqDecision A} (l : list A) : ~ NoDup l -> (length (remove_dups l) < length l)%nat.
Proof.
  induction l as [|a l IH]; intros Hl; simpl; [by destruct Hl; constructor|].
  destruct (decide_rel _ a l) as [Ha|Ha]; simpl.
  - pose proof (remove_dups_length l). lia.
  - assert (~ NoDup l) by (intros Hnd; apply Hl; by constructor). specialize (IH H). lia.
Qed.

(** Evaluate [xs[k]] on a list with a known prefix. *)
Ltac py_get_simpl :=
  repeat first [ rewrite py_get_cons_0 | rewrite py_get_cons_pos by lia; simpl ].
