(* ===== verification/Decoding.v ===== *)
(** * Instruction decoding (src/elfsembly/instruction.py)

    The [Instruction] dataclass, the two opcode dictionaries
    [str_to_int] / [int_to_str], the [JumpInstruction] subclass that
    carries the [#ip] binding directive, and the two line parsers
    [Instruction.instruction_from_string] (numeric lines of day 16) and
    [JumpInstruction.instruction_from_string] (mnemonic lines of days 19
    and 21).  Numbers are extracted by [number_grabber], a regular
    expression [findall] written here as a finite automaton over the
    characters of the line. *)

From Stdlib Require Import ZArith Lia String Ascii.
From stdpp Require Import strings.
From S2P Require Import Prelude.

Open Scope Z_scope.
Open Scope py_scope.

(** ** Number extraction

    [re.findall(r"\d+", s)] (day 16) and [re.findall(r"-?\d+", s)] (the
    signed grabber the elfsembly loader imports from [util]) return the
    maximal runs of digits, the second with an immediately preceding
    minus sign.  [grab_go signed minus cur s] scans [s]: [minus] says that
    the previous character was ['-'], [cur] is the number being read with
    its sign. *)

Definition digit_val (c : ascii) : option Z :=
  let n := Z.of_nat (nat_of_ascii c) in
  if (48 <=? n) && (n <=? 57) then Some (n - 48) else None.

Definition flush (cur : option (bool * Z)) : list Z :=
  match cur with
  | None => []
  | Some (neg, v) => [if neg then - v else v]
  end.

Fixpoint grab_go (signed minus : bool) (cur : option (bool * Z)) (s : list ascii) : list Z :=
  match s with
  | [] => flush cur
  | c :: s' =>
      match digit_val c with
      | Some d =>
          match cur with
          | Some (neg, v) => grab_go signed false (Some (neg, 10 * v + d)) s'
          | None => grab_go signed false (Some (signed && minus, d)) s'
          end
      | None => flush cur ++ grab_go signed (Ascii.eqb c "-"%char) None s'
      end
  end.

Definition grab (signed : bool) (s : string) : list Z :=
  grab_go signed false None (list_ascii_of_string s).

(** [util.number_grabber]: integers of a line, with their sign. *)
Definition number_grabber (s : string) : list Z := grab true s.

(** ** Decimal rendering of integers

    [str(z)]: the decimal digits of [|z|], most significant first, after
    a [-] for a negative [z].  The digits are computed with fuel
    [log2 n + 1], more than the number of decimal digits of [n]. *)
Definition digit_char (d : Z) : ascii := ascii_of_nat (Z.to_nat (48 + d)).

Fixpoint digits_go (fuel : nat) (n : Z) (acc : list Z) : list Z :=
  match fuel with
  | O => acc
  | S fuel' => if n <? 10 then n :: acc else digits_go fuel' (n / 10) (n mod 10 :: acc)
  end.

Definition digits (n : Z) : list Z := digits_go (S (Z.to_nat (Z.log2 n))) n [].

Definition show_int (z : Z) : list ascii :=
  if z <? 0 then "-"%char :: map digit_char (digits (- z)) else map digit_char (digits z).

(** [str.isspace()] on one character (code points 0..255): the ASCII
    whitespace [\t \n \v \f \r] and space, the separators
    [\x1c]..[\x1f], [\x85] and the no-break space [\xa0].  [str.strip()]
    removes these at both ends. *)
Definition is_space (c : ascii) : bool :=
  match nat_of_ascii c with
  | 9 | 10 | 11 | 12 | 13 | 28 | 29 | 30 | 31 | 32 | 133 | 160 => true
  | _ => false
  end%nat.

Fixpoint lstrip_chars (s : list ascii) : list ascii :=
  match s with
  | c :: s' => if is_space c then lstrip_chars s' else s
  | [] => []
  end.

Definition strip (s : string) : string :=
  string_of_list_ascii (rev (lstrip_chars (rev (lstrip_chars (list_ascii_of_string s))))).

Module Instruction.

(** The dataclass: four integer fields, all defaulting to 0. *)
Record instruction := mk_instruction {
  opcode : Z;
  a : Z;
  b : Z;
  output : Z
}.

Definition str_to_int : list (string * Z) := [
  ("gtir", 0); ("mulr", 1); ("seti", 2); ("gtrr", 3);
  ("bori", 4); ("borr", 5); ("banr", 6); ("eqri", 7);
  ("bani", 8); ("addr", 9); ("addi", 10); ("eqrr", 11);
  ("gtri", 12); ("eqir", 13); ("setr", 14); ("muli", 15)
]%string.

Definition int_to_str : list (Z * string) := [
  (0, "gtir"); (1, "mulr"); (2, "seti"); (3, "gtrr");
  (4, "bori"); (5, "borr"); (6, "banr"); (7, "eqri");
  (8, "bani"); (9, "addr"); (10, "addi"); (11, "eqrr");
  (12, "gtri"); (13, "eqir"); (14, "setr"); (15, "muli")
]%string.

(** [Instruction( *ns )]: positional arguments fill the fields in order,
    missing ones keep their default 0, a fifth argument is a
    [TypeError]. *)
Definition of_args (ns : list Z) : res instruction :=
  match ns with
  | [] => Ok (mk_instruction 0 0 0 0)
  | [o] => Ok (mk_instruction o 0 0 0)
  | [o; x] => Ok (mk_instruction o x 0 0)
  | [o; x; y] => Ok (mk_instruction o x y 0)
  | [o; x; y; z] => Ok (mk_instruction o x y z)
  | _ => Err TypeError
  end.

Definition instruction_from_string (s : string) : res instruction :=
  of_args (number_grabber s).

(** A list comprehension over the lines: the first failure propagates. *)
Fixpoint instructions_from_lines (lines : list string) : res (list instruction) :=
  match lines with
  | [] => Ok []
  | l :: ls =>
      i <- instruction_from_string (strip l) ;;
      rest <- instructions_from_lines ls ;;
      Ok (i :: rest)
  end.

End Instruction.

Module JumpInstruction.
Import Instruction.

(** A line of an elf program: a plain [Instruction], or a
    [JumpInstruction], which is an [Instruction] (with the inherited
    fields) extended with [program_register]. *)
Inductive item :=
  | IPlain (i : instruction)
  | IJump (base : instruction) (program_register : Z).

(** The [Instruction] an item is, as the device sees it when it runs it. *)
Definition item_instr (it : item) : instruction :=
  match it with IPlain i => i | IJump i _ => i end.

Definition is_jump_instruction (line : string) : bool :=
  String.eqb (substring 0 3 line) "#ip".

Definition instruction_from_string (s : string) : res item :=
  if String.eqb (substring 0 3 s) "#ip" then
    r <- py_get (number_grabber s) 0 ;;
    Ok (IJump (mk_instruction 0 0 0 0) r)
  else
    op <- dict_get str_to_int (substring 0 4 s) ;;
    let numbers := number_grabber s in
    x <- py_get numbers 0 ;;
    y <- py_get numbers 1 ;;
    z <- py_get numbers 2 ;;
    Ok (IPlain (mk_instruction op x y z)).

Fixpoint instructions_from_lines (lines : list string) : res (list item) :=
  match lines with
  | [] => Ok []
  | l :: ls =>
      it <- instruction_from_string l ;;
      its <- instructions_from_lines ls ;;
      Ok (it :: its)
  end.

(** The two line formats of the puzzle inputs: a day-16 line of four
    integers, and a mnemonic line of days 19 and 21, fields separated by
    single spaces. *)
Definition render_numeric (i : instruction) : string :=
  string_of_list_ascii (show_int (opcode i) ++ concat (map (fun z => " "%char :: show_int z) [a i; b i; output i])).

Definition render_mnemonic (i : instruction) : res string :=
  name <- dict_get int_to_str (opcode i) ;;
  Ok (name ++ string_of_list_ascii (concat (map (fun z => " "%char :: show_int z) [a i; b i; output i])))%string.


(** ** Round trip of the line formats *)

Lemma log2_div10 n : 10 <= n -> Z.log2 (n / 10) < Z.log2 n.
Proof.
  intros Hn. assert (Hq : 1 <= n / 10) by (apply Z.div_le_lower_bound; lia).
  assert (H2 : (n / 10) * 2 ^ 1 <= n) by (pose proof (Z.mul_div_le n 10 ltac:(lia)); simpl; lia).
  apply Z.log2_le_mono in H2. rewrite Z.log2_mul_pow2 in H2 by lia. lia.
Qed.

Lemma digit_val_digit_char d : 0 <= d <= 9 -> digit_val (digit_char d) = Some d.
Proof.
  intros Hd. assert (d = 0 \/ d = 1 \/ d = 2 \/ d = 3 \/ d = 4 \/ d = 5 \/ d = 6 \/ d = 7 \/ d = 8 \/ d = 9)
    as H by lia. repeat destruct H as [H|H]; subst; reflexivity.
Qed.

(** [digits n] are decimal digits whose value is [n]. *)
Lemma digits_go_spec fuel n acc :
  0 <= n -> (Z.to_nat (Z.log2 n) < fuel)%nat ->
  exists ds, digits_go fuel n acc = ds ++ acc /\ ds <> [] /\ Forall (fun d => 0 <= d <= 9) ds /\
             fold_left (fun v d => 10 * v + d) ds 0 = n.
Proof.
  revert n acc. induction fuel as [|fuel IH]; intros n acc Hn Hf; [lia|]. simpl.
  destruct (Z.ltb_spec n 10).
  - exists [n]. split_and!; try done; try (constructor; [lia|constructor]); simpl; lia.
  - pose proof (log2_div10 n ltac:(lia)). pose proof (Z.log2_nonneg (n / 10)).
    destruct (IH (n / 10) (n mod 10 :: acc)) as (ds & Hds & Hne & Hdig & Hv);
      [apply Z.div_pos; lia|lia|].
    exists (ds ++ [n mod 10]). rewrite Hds, <- app_assoc. split_and!; [done| | |].
    + destruct ds; done.
    + apply Forall_app. split; [done|]. constructor; [|constructor]. pose proof (Z.mod_pos_bound n 10). lia.
    + rewrite fold_left_app, Hv. simpl. pose proof (Z.div_mod n 10). lia.
Qed.

Lemma digits_spec n :
  0 <= n -> exists d0 ds, digits n = d0 :: ds /\ Forall (fun d => 0 <= d <= 9) (d0 :: ds) /\
                          fold_left (fun v d => 10 * v + d) ds d0 = n.
Proof.
  intros Hn. destruct (digits_go_spec (S (Z.to_nat (Z.log2 n))) n [] Hn ltac:(lia)) as (ds & Hds & Hne & Hdig & Hv).
  rewrite app_nil_r in Hds. destruct ds as [|d0 ds]; [done|]. exists d0, ds. unfold digits. rewrite Hds.
  split_and!; done.
Qed.

Lemma grab_go_digits signed neg v ds tail :
  Forall (fun d => 0 <= d <= 9) ds ->
  grab_go signed false (Some (neg, v)) (map digit_char ds ++ tail) =
  grab_go signed false (Some (neg, fold_left (fun v d => 10 * v + d) ds v)) tail.
Proof.
  revert v. induction ds as [|d ds IH]; intros v Hds; [done|]. inversion Hds as [|? ? Hd Hds']; subst.
  simpl. rewrite digit_val_digit_char by done. apply IH, Hds'.
Qed.

(** [str(z)] followed by the end of the line or a space reads back as
    [z]. *)
Lemma grab_show_int z tail :
  tail = [] \/ (exists t, tail = " "%char :: t) ->
  grab_go true false None (show_int z ++ tail) = z :: grab_go true false None tail.
Proof.
  intros Htail. unfold show_int. destruct (Z.ltb_spec z 0) as [Hz|Hz].
  - destruct (digits_spec (- z)) as (d0 & ds & Hd & Hdig & Hv); [lia|]. rewrite Hd.
    inversion Hdig as [|? ? Hd0 Hds]. simpl. rewrite digit_val_digit_char by done. simpl.
    rewrite grab_go_digits by done. rewrite Hv.
    destruct Htail as [->|[t ->]]; simpl; f_equal; lia.
  - destruct (digits_spec z) as (d0 & ds & Hd & Hdig & Hv); [lia|]. rewrite Hd.
    inversion Hdig as [|? ? Hd0 Hds]. simpl. rewrite digit_val_digit_char by done. simpl.
    rewrite grab_go_digits by done. rewrite Hv.
    destruct Htail as [->|[t ->]]; reflexivity.
Qed.

Lemma grab_fields zs :
  grab_go true false None (concat (map (fun z => " "%char :: show_int z) zs)) = zs.
Proof.
  induction zs as [|z zs IH]; [done|]. simpl. rewrite grab_show_int; [by rewrite IH|].
  destruct zs as [|z' zs]; [by left|right; eexists; reflexivity].
Qed.

(** ** Properties of decoding *)

(** Round trip. [int_to_str] and [str_to_int] are inverse
    bijections between the opcodes 0..15 and the sixteen mnemonics:
    decoding a mnemonic and rendering the opcode back gives the
    mnemonic, and conversely. *)
Theorem opcode_names_bijective n s :
  dict_get int_to_str n = Ok s <-> dict_get str_to_int s = Ok n.
Proof.
  split; intros H; apply dict_get_Ok_In in H; simpl in H;
  repeat destruct H as [H|H]; try contradiction; injection H as <- <-; reflexivity.
Qed.

Lemma list_ascii_of_string_app s1 s2 :
  list_ascii_of_string (s1 ++ s2) = list_ascii_of_string s1 ++ list_ascii_of_string s2.
Proof. induction s1 as [|c s1 IH]; simpl; [done|]. by rewrite IH. Qed.

Lemma substring_app_prefix s1 s2 n :
  (n <= String.length s1)%nat -> substring 0 n (s1 ++ s2) = substring 0 n s1.
Proof.
  revert n. induction s1 as [|c s1 IH]; intros n Hn.
  - destruct n as [|n]; [destruct s2; reflexivity|simpl in Hn; lia].
  - destruct n as [|n]; [reflexivity|]. simpl in *. rewrite IH by lia. done.
Qed.

Lemma substring_full s : substring 0 (String.length s) s = s.
Proof. induction s as [|c s IH]; simpl; [done|]. by rewrite IH. Qed.

(** Characters that are neither digits nor [-] are skipped. *)
Lemma grab_go_letters cs tail :
  Forall (fun c => digit_val c = None /\ Ascii.eqb c "-" = false) cs ->
  grab_go true false None (cs ++ tail) = grab_go true false None tail.
Proof.
  induction cs as [|c cs IH]; intros Hcs; [done|]. inversion Hcs as [|? ? [Hd Hm] Hcs']; subst.
  simpl. rewrite Hd, Hm. simpl. apply IH, Hcs'.
Qed.

(** The sixteen mnemonics: four letters, none starting with [#ip]. *)
Lemma mnemonic_shape o name :
  dict_get int_to_str o = Ok name ->
  String.length name = 4%nat /\ String.eqb (substring 0 3 name) "#ip" = false /\
  Forall (fun c => digit_val c = None /\ Ascii.eqb c "-" = false) (list_ascii_of_string name).
Proof.
  intros H. apply dict_get_Ok_In in H. simpl in H.
  repeat destruct H as [H|H]; try contradiction; inversion H; subst;
    (split; [reflexivity|split; [reflexivity|repeat constructor]]).
Qed.

Lemma opcode_has_name o : 0 <= o <= 15 -> exists name, dict_get int_to_str o = Ok name.
Proof.
  intros Ho. assert (o = 0 \/ o = 1 \/ o = 2 \/ o = 3 \/ o = 4 \/ o = 5 \/ o = 6 \/ o = 7 \/ o = 8 \/ o = 9 \/
            o = 10 \/ o = 11 \/ o = 12 \/ o = 13 \/ o = 14 \/ o = 15) as H by lia.
  repeat destruct H as [H|H]; subst o; eexists; reflexivity.
Qed.

(** C9: round trip of the two line formats.  For an instruction whose
    opcode is one of the sixteen, its mnemonic line (the [int_to_str]
    name and the three fields, space-separated, as in the inputs of days
    19 and 21) decodes back to that instruction with
    [JumpInstruction.instruction_from_string], and its day-16 line of
    four integers decodes back to it with
    [Instruction.instruction_from_string]; negative fields included. *)
Theorem instruction_roundtrip i :
  0 <= opcode i <= 15 ->
  (exists line, render_mnemonic i = Ok line /\ instruction_from_string line = Ok (IPlain i)) /\
  Instruction.instruction_from_string (render_numeric i) = Ok i.
Proof.
  intros Ho. split.
  - destruct i as [o x y z]. cbn [opcode] in Ho. destruct (opcode_has_name o Ho) as [name Hn].
    destruct (mnemonic_shape o name Hn) as (Hlen & Hip & Hletters).
    exists (name ++ string_of_list_ascii (concat (map (fun z => " "%char :: show_int z) [x; y; z])))%string.
    unfold render_mnemonic. cbn [opcode a b output]. rewrite Hn. split; [done|].
    unfold instruction_from_string, number_grabber, grab.
    rewrite !substring_app_prefix by lia. rewrite Hip, <- Hlen, substring_full.
    rewrite (proj1 (opcode_names_bijective o name) Hn). cbn [res_bind].
    rewrite list_ascii_of_string_app, list_ascii_of_string_of_list_ascii, grab_go_letters by done.
    rewrite grab_fields. reflexivity.
  - destruct i as [o x y z]. unfold render_numeric, Instruction.instruction_from_string, number_grabber, grab.
    cbn [opcode a b output]. rewrite list_ascii_of_string_of_list_ascii.
    rewrite grab_show_int by (right; eexists; reflexivity). rewrite grab_fields. reflexivity.
Qed.

(** C8: decoding errors. A mnemonic line fails with [KeyError] exactly
    when its first four characters are not one of the sixteen
    mnemonics, and with [IndexError] when it has fewer than three
    integers; a [#ip] line fails with [IndexError] when it has no
    integer.  There is no other failure. *)
Theorem instruction_from_string_Err s e :
  instruction_from_string s = Err e <->
  (is_jump_instruction s = true /\ number_grabber s = [] /\ e = IndexError) \/
  (is_jump_instruction s = false /\ ~ In (substring 0 4 s) (map fst str_to_int) /\
     e = KeyError) \/
  (is_jump_instruction s = false /\ In (substring 0 4 s) (map fst str_to_int) /\
     (length (number_grabber s) < 3)%nat /\ e = IndexError).
Proof.
  unfold instruction_from_string, is_jump_instruction.
  destruct (String.eqb (substring 0 3 s) "#ip") eqn:Hj.
  - unfold py_get. destruct (number_grabber s) as [|x ns]; simpl.
    + split; [intros [= <-]; auto | intros [(_ & _ & ->)|[(H & _)|(H & _)]]; [reflexivity|discriminate|discriminate]].
    + split; [discriminate|]. intros [(_ & H & _)|[(H & _)|(H & _)]]; discriminate.
  - destruct (dict_get str_to_int (substring 0 4 s)) as [op|e'] eqn:Hop; simpl.
    + assert (Hin : In (substring 0 4 s) (map fst str_to_int)).
      { apply dict_get_Ok_In in Hop. apply in_map_iff. exists (substring 0 4 s, op). auto. }
      destruct (number_grabber s) as [|x [|y [|z ns]]];
        py_get_simpl; simpl;
        (split; [intros Heq; try discriminate Heq; injection Heq as <-; right; right; simpl; repeat split; auto; lia
                | intros [(H & _)|[(_ & H & _)|(_ & _ & Hl & ->)]];
                  [discriminate|contradiction|simpl in Hl; try reflexivity; lia]]).
    + apply dict_get_Err in Hop as [-> Hn].
      split; [intros [= <-]; right; left; auto|].
      intros [(H & _)|[(_ & _ & ->)|(_ & H & _)]]; [discriminate|reflexivity|contradiction].
Qed.

(** Classification. A line decodes to a binding directive exactly
    when it starts with [#ip] and carries an integer; the directive
    binds the first integer of the line and has the default fields of
    an [Instruction]. *)
Theorem directive_decoding s it :
  instruction_from_string s = Ok it ->
  (is_jump_instruction s = true <->
     exists r rest, number_grabber s = r :: rest /\ it = IJump (mk_instruction 0 0 0 0) r).
Proof.
  unfold instruction_from_string, is_jump_instruction.
  destruct (String.eqb (substring 0 3 s) "#ip").
  - unfold py_get. destruct (number_grabber s) as [|r rest]; simpl; [discriminate|].
    intros [= <-]. split; [eauto|reflexivity].
  - destruct (dict_get str_to_int (substring 0 4 s)); simpl; [|discriminate].
    destruct (number_grabber s) as [|x [|y [|z ns]]];
      py_get_simpl; simpl; try discriminate;
      intros [= <-]; split; [discriminate | intros (r & rest & _ & H); discriminate].
Qed.


Lemma directive_decoding_witness :
  instruction_from_string "#ip 3" = Ok (IJump (mk_instruction 0 0 0 0) 3) /\
  (is_jump_instruction "#ip 3" = true <->
     exists r rest, number_grabber "#ip 3" = r :: rest /\
                    IJump (mk_instruction 0 0 0 0) 3 = IJump (mk_instruction 0 0 0 0) r).
Proof.
  split; [reflexivity|]. apply directive_decoding. reflexivity.
Defined.

Lemma instruction_roundtrip_witness :
  0 <= opcode (mk_instruction 10 1 (-2) 345) <= 15 /\
  (exists line, render_mnemonic (mk_instruction 10 1 (-2) 345) = Ok line /\
     instruction_from_string line = Ok (IPlain (mk_instruction 10 1 (-2) 345))) /\
  Instruction.instruction_from_string (render_numeric (mk_instruction 10 1 (-2) 345)) = Ok (mk_instruction 10 1 (-2) 345).
Proof.
  assert (H : 0 <= opcode (mk_instruction 10 1 (-2) 345) <= 15) by (simpl; lia).
  split; [exact H|]. exact (instruction_roundtrip _ H).
Defined.

End JumpInstruction.
