(* ===== verification/PyText.v ===== *)
(** * Python text builtins shared by the puzzle parsers

    [str.split(sep)], [str.split()] and [int(s)] on ASCII text, as the
    puzzle scripts call them on their input lines.  Characters are
    [ascii]; whitespace is [str.isspace] ([is_space] of Decoding.v). *)

From Stdlib Require Import ZArith Ascii String Lia.
From stdpp Require Import base list strings.
From S2P Require Import Prelude Decoding.

Open Scope Z_scope.
Open Scope py_scope.

(** [s.split(sep)] for a one-character separator: every separator cuts,
    so [n] separators give [n + 1] pieces, empty ones included. *)
Fixpoint split_sep_go (sep : ascii) (cur : list ascii) (s : list ascii) : list (list ascii) :=
  match s with
  | [] => [rev cur]
  | c :: s' =>
      if Ascii.eqb c sep then rev cur :: split_sep_go sep [] s'
      else split_sep_go sep (c :: cur) s'
  end.

Definition py_split (sep : ascii) (s : list ascii) : list (list ascii) := split_sep_go sep [] s.

(** [s.split()]: the maximal runs of non-whitespace characters. *)
Fixpoint split_ws_go (cur : list ascii) (s : list ascii) : list (list ascii) :=
  match s with
  | [] => match cur with [] => [] | _ => [rev cur] end
  | c :: s' =>
      if is_space c then (match cur with [] => [] | _ => [rev cur] end) ++ split_ws_go [] s'
      else split_ws_go (c :: cur) s'
  end.

Definition split_ws (s : list ascii) : list (list ascii) := split_ws_go [] s.

(** The value of a non-empty run of decimal digits. *)
Definition digits_value (ds : list ascii) : option Z :=
  match ds with
  | [] => None
  | _ => fold_left (fun acc c => v ← acc; d ← digit_val c; Some (10 * v + d)) ds (Some 0)
  end.

(** [int(s)]: surrounding whitespace, an optional sign and decimal
    digits, else [ValueError] (the underscores [int] also accepts
    between digits are not modelled). *)
Definition py_int (t : list ascii) : res Z :=
  let t := list_ascii_of_string (strip (string_of_list_ascii t)) in
  match t with
  | "-"%char :: ds => match digits_value ds with Some v => Ok (- v) | None => Err ValueError end
  | "+"%char :: ds => match digits_value ds with Some v => Ok v | None => Err ValueError end
  | ds => match digits_value ds with Some v => Ok v | None => Err ValueError end
  end.
