(* ===== verification/PySort.v ===== *)
(** * Python's stable sort

    [list.sort(key=...)] and [sorted(..., key=...)] are stable: the result
    is ordered by the key and elements with equal keys keep their order.
    [sort_by le] is insertion sort by a boolean "key of a <= key of b",
    inserting each element after every element not greater than it, which
    yields that same arrangement.  [sort_by_sorted] and [sort_by_perm] show
    it orders and permutes its input; [py_last] is [xs[-1]]. *)

From Stdlib Require Import ZArith Sorting.Sorted.
From stdpp Require Import base list.
From S2P Require Import Prelude.

Open Scope Z_scope.
Open Scope py_scope.

(** [xs[-1]]: [IndexError] on an empty list. *)
Definition py_last {A} (l : list A) : res A := py_get l (-1).

Section Sort.
Context {A : Type} (le : A -> A -> bool).

Fixpoint insert_by (v : A) (l : list A) : list A :=
  match l with
  | [] => [v]
  | w :: l' => if le w v then w :: insert_by v l' else v :: l
  end.

Definition sort_by (l : list A) : list A :=
  fold_left (fun acc v => insert_by v acc) l [].

Lemma insert_by_perm v l : insert_by v l ≡ₚ v :: l.
Proof.
  induction l as [|w l IH]; simpl; [done|].
  destruct (le w v); [|done]. rewrite IH. constructor.
Qed.

Lemma sort_by_perm_acc l acc :
  fold_left (fun acc v => insert_by v acc) l acc ≡ₚ rev l ++ acc.
Proof.
  revert acc. induction l as [|v l IH]; intros acc; simpl; [done|].
  rewrite IH, insert_by_perm, <- app_assoc. done.
Qed.

Lemma sort_by_perm l : sort_by l ≡ₚ l.
Proof. unfold sort_by. rewrite sort_by_perm_acc, app_nil_r. symmetry. apply Permutation_rev. Qed.

Section Total.
Hypothesis le_total : forall a b, le a b = false -> le b a = true.

Lemma insert_by_sorted v l :
  Sorted (fun a b => le a b = true) l -> Sorted (fun a b => le a b = true) (insert_by v l).
Proof.
  induction 1 as [|w l Hs IH Hhd]; simpl; [repeat constructor|].
  destruct (le w v) eqn:E.
  - constructor; [exact IH|].
    destruct l as [|u l]; simpl; [constructor; exact E|].
    inversion Hhd; subst. destruct (le u v); constructor; auto.
  - constructor; [constructor; auto|]. constructor. apply le_total, E.
Qed.

Lemma sort_by_sorted l : Sorted (fun a b => le a b = true) (sort_by l).
Proof.
  unfold sort_by. generalize (@Sorted_nil _ (fun a b => le a b = true)).
  generalize (@nil A). induction l as [|v l IH]; intros acc Hacc; simpl; [done|].
  apply IH, insert_by_sorted, Hacc.
Qed.
End Total.
End Sort.
