(* ===== verification/Worklist.v ===== *)
(** * Flood fills with a [seen] set

    Several scripts flood a grid from a deque: pop a cell, and push each
    neighbour that is not yet in a [seen] set, adding it there.  Every key
    pushed lies in a finite [box] (the grid and its border), so
    [2 * (keys of box not seen) + (length of the deque)] drops at each
    iteration.  [unseen] counts those keys, and [push_fold_measure] shows
    the pushes of one iteration do not raise the measure. *)

From Stdlib Require Import Lia.
From stdpp Require Import base list gmap sets.
From S2P Require Import Prelude.

Local Open Scope nat_scope.

Section Unseen.
Context {K : Type} `{Countable K}.

Definition unseen (box : list K) (sn : gset K) : nat :=
  length (filter (fun k => k ∉ sn) box).

Lemma filter_length_le {A} (P Q : A -> Prop) `{!forall a, Decision (P a), !forall a, Decision (Q a)}
    (l : list A) :
  (forall a, Q a -> P a) -> length (filter Q l) <= length (filter P l).
Proof.
  intros HQP. induction l as [|a l IH]; simpl; [lia|].
  rewrite !filter_cons. destruct (decide (Q a)), (decide (P a)); simpl; try lia.
  exfalso. auto.
Qed.

Lemma unseen_union box sn k :
  unseen box (sn ∪ {[k]}) <= unseen box sn.
Proof. apply filter_length_le. set_solver. Qed.

Lemma unseen_add box sn k :
  k ∈ box -> k ∉ sn -> unseen box (sn ∪ {[k]}) < unseen box sn.
Proof.
  unfold unseen. intros Hk Hn. induction box as [|a box IH]; [inversion Hk|].
  rewrite !filter_cons. apply elem_of_cons in Hk as [->|Hk].
  - destruct (decide (a ∉ sn ∪ {[a]})) as [Hc|]; [set_solver|].
    destruct (decide (a ∉ sn)); [|done]. simpl.
    pose proof (filter_length_le (fun b => b ∉ sn) (fun b => b ∉ sn ∪ {[a]}) box) as Hle.
    lia || (apply Nat.lt_succ_r, Hle; set_solver).
  - specialize (IH Hk).
    destruct (decide (a ∉ sn ∪ {[k]})), (decide (a ∉ sn)); simpl; try lia. set_solver.
Qed.
End Unseen.

Section Push.
Context {K C B : Type} `{Countable K}.
Context (box : list K) (Q : C -> Prop) (P : B -> Prop).
Context (f : gset K * list C -> B -> gset K * list C).

(** One push: nothing, or a new key of the box with one more element
    at one end of the deque. *)
Hypothesis f_push : forall sn q b, P b ->
  f (sn, q) b = (sn, q) \/
  exists k c, k ∈ box /\ (k ∉ sn) /\ Q c /\
    (f (sn, q) b = (sn ∪ {[k]}, q ++ [c]) \/ f (sn, q) b = (sn ∪ {[k]}, c :: q)).

Lemma push_fold_measure bs sn q :
  Forall P bs -> Forall Q q ->
  let '(sn', q') := fold_left f bs (sn, q) in
  2 * unseen box sn' + length q' <= 2 * unseen box sn + length q /\ Forall Q q'.
Proof.
  intros Hbs. revert sn q. induction Hbs as [|b bs Hb Hbs IH]; intros sn q Hq; simpl; [split; [lia|done]|].
  destruct (f_push sn q b Hb) as [E|(k & c & Hk & Hn & Hc & [E|E])]; rewrite E.
  - apply IH, Hq.
  - pose proof (IH (sn ∪ {[k]}) (q ++ [c])) as IH'.
    destruct (fold_left f bs _) as [sn' q'].
    destruct IH' as [Hm HQ]; [apply Forall_app; split; [done|]; constructor; done|].
    pose proof (unseen_add box sn k Hk Hn). rewrite length_app in Hm. simpl in Hm. split; [lia|done].
  - pose proof (IH (sn ∪ {[k]}) (c :: q)) as IH'.
    destruct (fold_left f bs _) as [sn' q'].
    destruct IH' as [Hm HQ]; [constructor; done|].
    pose proof (unseen_add box sn k Hk Hn). simpl in Hm. split; [lia|done].
Qed.
End Push.
