(* ===== verification/PyHeap.v ===== *)
(** * Python's [heapq]

    [heappush] and [heappop] as CPython writes them ([_siftdown] and
    [_siftup] over the list, with the element type's [<]), so the order in
    which equal-priority items come out is the library's.  [heappush_perm]
    and [heappop_perm] show both only permute the items. *)

From Stdlib Require Import Lia.
From stdpp Require Import base list.
From S2P Require Import Prelude.

Local Open Scope nat_scope.
#[local] Set Warnings "-deprecated-syntactic-definition-since-8.17".

Section Heap.
Context {A : Type} (lt : A -> A -> bool) (dflt : A).

Definition hget (h : list A) (k : nat) : A := default dflt (h !! k).

(** [_siftdown(heap, startpos, pos)] with [newitem] taken out at [pos]:
    move parents down while [newitem < parent]; [fuel] bounds [pos]. *)
Fixpoint siftdown_go (fuel : nat) (h : list A) (startpos pos : nat) (newitem : A) : list A :=
  match fuel with
  | O => <[pos := newitem]> h
  | S fuel' =>
      if startpos <? pos then
        let parentpos := (pos - 1) / 2 in
        let parent := hget h parentpos in
        if lt newitem parent then siftdown_go fuel' (<[pos := parent]> h) startpos parentpos newitem
        else <[pos := newitem]> h
      else <[pos := newitem]> h
  end.

Definition siftdown (h : list A) (startpos pos : nat) : list A :=
  siftdown_go pos h startpos pos (hget h pos).

(** The first loop of [_siftup]: move the smaller child up until a
    leaf, then [_siftdown] from there. *)
Fixpoint siftup_go (fuel : nat) (h : list A) (pos : nat) : list A * nat :=
  match fuel with
  | O => (h, pos)
  | S fuel' =>
      let childpos := 2 * pos + 1 in
      if childpos <? length h then
        let rightpos := childpos + 1 in
        let childpos := if (rightpos <? length h) && negb (lt (hget h childpos) (hget h rightpos))
                        then rightpos else childpos in
        siftup_go fuel' (<[pos := hget h childpos]> h) childpos
      else (h, pos)
  end.

Definition siftup (h : list A) (pos : nat) : list A :=
  let newitem := hget h pos in
  let '(h', pos') := siftup_go (length h) h pos in
  siftdown_go pos' (<[pos' := newitem]> h') pos pos' newitem.

(** [heappush(heap, item)]. *)
Definition heappush (h : list A) (item : A) : list A :=
  siftdown (h ++ [item]) 0 (length h).

(** [heappop(heap)]: [IndexError] on an empty heap. *)
Definition heappop (h : list A) : res (A * list A) :=
  match rev h with
  | [] => Err IndexError
  | lastelt :: rrest =>
      let rest := rev rrest in
      match rest with
      | [] => Ok (lastelt, [])
      | returnitem :: _ => Ok (returnitem, siftup (<[0 := lastelt]> rest) 0)
      end
  end.

Lemma hget_lookup h k : k < length h -> h !! k = Some (hget h k).
Proof. intros Hk. unfold hget. destruct (lookup_lt_is_Some_2 h k Hk) as [v ->]. done. Qed.

(** Moving the hole from [pos] to [j]: write [h[j]] at [pos], then
    [x] at [j], is a permutation of writing [x] at [pos]. *)
Lemma move_hole h pos j x :
  pos < length h -> j < length h -> pos <> j ->
  <[j := x]> (<[pos := hget h j]> h) ≡ₚ <[pos := x]> h.
Proof.
  intros Hp Hj Hne. rewrite <- (list_insert_insert_eq h pos (hget h j) x).
  apply Permutation_insert_swap.
  - apply list_lookup_insert_eq. done.
  - rewrite list_lookup_insert_ne by done. apply hget_lookup, Hj.
Qed.

Lemma siftdown_go_perm fuel h startpos pos newitem :
  pos < length h -> siftdown_go fuel h startpos pos newitem ≡ₚ <[pos := newitem]> h.
Proof.
  revert h pos. induction fuel as [|fuel IH]; intros h pos Hp; cbn [siftdown_go]; [done|].
  destruct (Nat.ltb_spec startpos pos); [|done].
  destruct (lt newitem _); [|done].
  assert (Hpp : (pos - 1) / 2 < pos) by (apply Nat.div_lt_upper_bound; lia).
  set (pp := (pos - 1) / 2) in *.
  rewrite IH by (rewrite length_insert; lia). apply move_hole; lia.
Qed.

Lemma siftdown_perm h startpos pos : pos < length h -> siftdown h startpos pos ≡ₚ h.
Proof.
  intros Hp. unfold siftdown. rewrite siftdown_go_perm by done.
  rewrite list_insert_id; [done|]. apply hget_lookup, Hp.
Qed.

Lemma siftup_go_perm fuel h pos h' pos' x :
  pos < length h -> siftup_go fuel h pos = (h', pos') ->
  pos' < length h' /\ length h' = length h /\ <[pos' := x]> h' ≡ₚ <[pos := x]> h.
Proof.
  revert h pos. induction fuel as [|fuel IH]; intros h pos Hp; cbn [siftup_go].
  { intros Hs. injection Hs as <- <-. done. }
  destruct (Nat.ltb_spec (2 * pos + 1) (length h)) as [Hc|]; [|intros Hs; injection Hs as <- <-; done].
  set (c := if (2 * pos + 1 + 1 <? length h) && negb (lt (hget h (2 * pos + 1)) (hget h (2 * pos + 1 + 1)))
            then 2 * pos + 1 + 1 else 2 * pos + 1).
  assert (Hc' : c < length h /\ pos <> c).
  { subst c. destruct (_ && _) eqn:E; [|lia]. apply andb_true_iff in E as [E _].
    apply Nat.ltb_lt in E. lia. }
  intros Hs. apply IH in Hs as (Hp' & Hl & Hperm); [|rewrite length_insert; lia].
  rewrite length_insert in Hl. split_and!; [done|done|]. rewrite Hperm. apply move_hole; lia.
Qed.

Lemma siftup_perm h pos : pos < length h -> siftup h pos ≡ₚ h.
Proof.
  intros Hp. unfold siftup. destruct (siftup_go (length h) h pos) as [h' pos'] eqn:E.
  destruct (siftup_go_perm _ _ _ _ _ (hget h pos) Hp E) as (Hp' & Hl & Hperm).
  rewrite siftdown_go_perm by (rewrite length_insert; lia).
  rewrite list_insert_insert_eq, Hperm, list_insert_id; [done|]. apply hget_lookup, Hp.
Qed.

(** [heappush] adds the item. *)
Lemma heappush_perm h item : heappush h item ≡ₚ item :: h.
Proof.
  unfold heappush. rewrite siftdown_perm by (rewrite length_app; simpl; lia).
  rewrite Permutation_app_comm. done.
Qed.

(** [heappop] returns one item and the others. *)
Lemma heappop_perm h m h' : heappop h = Ok (m, h') -> m :: h' ≡ₚ h.
Proof.
  unfold heappop. rewrite <- (rev_involutive h) at 2. destruct (rev h) as [|lastelt rrest]; [discriminate|].
  simpl. destruct (rev rrest) as [|r rest] eqn:E; [intros [= <- <-]; done|].
  intros [= <- <-]. rewrite siftup_perm by (simpl; lia). simpl.
  rewrite Permutation_app_comm. simpl. constructor. done.
Qed.

Lemma heappop_Err h e : heappop h = Err e <-> h = [] /\ e = IndexError.
Proof.
  unfold heappop. split.
  - destruct (rev h) eqn:E; [intros [= <-]; split; [|done] | destruct (rev l); discriminate].
    apply (f_equal (@rev A)) in E. rewrite rev_involutive in E. done.
  - intros [-> ->]. done.
Qed.
End Heap.
