(* ===== verification/Machine.v ===== *)
(** * The register-machine interface between the two devices

    [ChronalDeviceWithJumps] (src/elfsembly/device.py) inherits
    [execute] from [ChronalDevice] and relies on two of its properties
    only: executing an instruction never resizes the register list, and
    it changes at most the register named by the instruction's [output]
    field.  [RegisterMachine] states this contract; Device.v provides the
    instance for [ChronalDevice], and JumpDevice.v proves its theorems
    against the class. *)

From Stdlib Require Import ZArith.
From S2P Require Import Prelude Decoding.
Import Instruction.

Class RegisterMachine := {
  rm_execute : list Z -> instruction -> res (list Z);
  rm_execute_length : forall regs i regs',
    rm_execute regs i = Ok regs' -> length regs' = length regs;
  rm_execute_frame : forall regs i regs' n,
    rm_execute regs i = Ok regs' ->
    py_index (length regs) (output i) <> Some n ->
    regs' !! n = regs !! n
}.
