(* ===== verification/Device.v ===== *)
(** * The base device [ChronalDevice] (src/elfsembly/device.py)

    The sixteen register-transfer methods, [set_register] with the
    class-wide modulus [ChronalDevice.MAX], the dispatch table
    [opcode_map], [execute] and [execute_instructions].  The registers
    are a Python list of unbounded integers ([list Z]); every read and
    write goes through Python list indexing ([py_get], [py_set]), so an
    out-of-range index is an [IndexError] and a negative one wraps.

    [MAX] is a class attribute shared by every device of the process, so
    it is a [Context] of the section rather than a field of the state.
    The abstract specification is the opcode-family table of the
    manual: [signature] gives each method its family and operand kinds,
    and [spec_exec] executes a method from the table alone. *)

From Stdlib Require Import ZArith Lia String.
From stdpp Require Import strings.
From S2P Require Import Prelude Decoding Machine.
Import Instruction.

Open Scope Z_scope.
Open Scope py_scope.

Module ChronalDevice.

Section WithMax.
(** [ChronalDevice.MAX]: [None] (the default) or a modulus. *)
Context (MAX : option Z).

Definition set_register (registers : list Z) (register value : Z) : res (list Z) :=
  match MAX with
  | Some m => if m =? 0 then py_set registers register value
            else py_set registers register (value mod m)
  | None => py_set registers register value
  end.

Definition addr (registers : list Z) (i : instruction) : res (list Z) :=
  va <- py_get registers (a i) ;; vb <- py_get registers (b i) ;;
  set_register registers (output i) (va + vb).

Definition addi (registers : list Z) (i : instruction) : res (list Z) :=
  va <- py_get registers (a i) ;;
  set_register registers (output i) (va + b i).

Definition mulr (registers : list Z) (i : instruction) : res (list Z) :=
  va <- py_get registers (a i) ;; vb <- py_get registers (b i) ;;
  set_register registers (output i) (va * vb).

Definition muli (registers : list Z) (i : instruction) : res (list Z) :=
  va <- py_get registers (a i) ;;
  set_register registers (output i) (va * b i).

Definition banr (registers : list Z) (i : instruction) : res (list Z) :=
  va <- py_get registers (a i) ;; vb <- py_get registers (b i) ;;
  set_register registers (output i) (Z.land va vb).

Definition bani (registers : list Z) (i : instruction) : res (list Z) :=
  va <- py_get registers (a i) ;;
  set_register registers (output i) (Z.land va (b i)).

Definition borr (registers : list Z) (i : instruction) : res (list Z) :=
  va <- py_get registers (a i) ;; vb <- py_get registers (b i) ;;
  set_register registers (output i) (Z.lor va vb).

Definition bori (registers : list Z) (i : instruction) : res (list Z) :=
  va <- py_get registers (a i) ;;
  set_register registers (output i) (Z.lor va (b i)).

Definition setr (registers : list Z) (i : instruction) : res (list Z) :=
  va <- py_get registers (a i) ;;
  set_register registers (output i) va.

Definition seti (registers : list Z) (i : instruction) : res (list Z) :=
  set_register registers (output i) (a i).

Definition gtir (registers : list Z) (i : instruction) : res (list Z) :=
  vb <- py_get registers (b i) ;;
  if a i >? vb then set_register registers (output i) 1
  else set_register registers (output i) 0.

Definition gtri (registers : list Z) (i : instruction) : res (list Z) :=
  va <- py_get registers (a i) ;;
  if va >? b i then set_register registers (output i) 1
  else set_register registers (output i) 0.

Definition gtrr (registers : list Z) (i : instruction) : res (list Z) :=
  va <- py_get registers (a i) ;; vb <- py_get registers (b i) ;;
  if va >? vb then set_register registers (output i) 1
  else set_register registers (output i) 0.

Definition eqir (registers : list Z) (i : instruction) : res (list Z) :=
  vb <- py_get registers (b i) ;;
  if a i =? vb then set_register registers (output i) 1
  else set_register registers (output i) 0.

Definition eqri (registers : list Z) (i : instruction) : res (list Z) :=
  va <- py_get registers (a i) ;;
  if va =? b i then set_register registers (output i) 1
  else set_register registers (output i) 0.

Definition eqrr (registers : list Z) (i : instruction) : res (list Z) :=
  va <- py_get registers (a i) ;; vb <- py_get registers (b i) ;;
  if va =? vb then set_register registers (output i) 1
  else set_register registers (output i) 0.

End WithMax.

(** The bound methods of a device, by name. *)
Inductive method :=
  | Gtir | Mulr | Seti | Gtrr | Bori | Borr | Banr | Eqri
  | Bani | Addr | Addi | Eqrr | Gtri | Eqir | Setr | Muli.

#[export] Instance method_eq_dec : EqDecision method.
Proof. solve_decision. Defined.

(** [method.__name__]. *)
Definition method_name (m : method) : string :=
  match m with
  | Gtir => "gtir" | Mulr => "mulr" | Seti => "seti" | Gtrr => "gtrr"
  | Bori => "bori" | Borr => "borr" | Banr => "banr" | Eqri => "eqri"
  | Bani => "bani" | Addr => "addr" | Addi => "addi" | Eqrr => "eqrr"
  | Gtri => "gtri" | Eqir => "eqir" | Setr => "setr" | Muli => "muli"
  end%string.

(** Calling a bound method [self.m(instruction)]. *)
Definition run_method (MAX : option Z) (m : method) : list Z -> instruction -> res (list Z) :=
  match m with
  | Gtir => gtir MAX | Mulr => mulr MAX | Seti => seti MAX | Gtrr => gtrr MAX
  | Bori => bori MAX | Borr => borr MAX | Banr => banr MAX | Eqri => eqri MAX
  | Bani => bani MAX | Addr => addr MAX | Addi => addi MAX | Eqrr => eqrr MAX
  | Gtri => gtri MAX | Eqir => eqir MAX | Setr => setr MAX | Muli => muli MAX
  end.

(** [self.opcode_map], built once in [__init__]. *)
Definition opcode_map : list (Z * method) := [
  (0, Gtir); (1, Mulr); (2, Seti); (3, Gtrr);
  (4, Bori); (5, Borr); (6, Banr); (7, Eqri);
  (8, Bani); (9, Addr); (10, Addi); (11, Eqrr);
  (12, Gtri); (13, Eqir); (14, Setr); (15, Muli)
  ].

(** [ChronalDevice()]: four registers, all 0. *)
Definition init_registers : list Z := repeat 0 4.

Definition execute (MAX : option Z) (registers : list Z) (i : instruction) : res (list Z) :=
  m <- dict_get opcode_map (opcode i) ;;
  run_method MAX m registers i.

Fixpoint execute_instructions (MAX : option Z) (registers : list Z)
    (instructions : list instruction) : res (list Z) :=
  match instructions with
  | [] => Ok registers
  | i :: rest =>
      registers' <- execute MAX registers i ;;
      execute_instructions MAX registers' rest
  end.

(** ** The abstract specification: the manual's opcode-family table *)

Inductive family := FAdd | FMul | FBan | FBor | FSet | FGt | FEq.
Inductive operand_kind := Reg | Imm | Ignored.

Definition signature (m : method) : family * operand_kind * operand_kind :=
  match m with
  | Addr => (FAdd, Reg, Reg) | Addi => (FAdd, Reg, Imm)
  | Mulr => (FMul, Reg, Reg) | Muli => (FMul, Reg, Imm)
  | Banr => (FBan, Reg, Reg) | Bani => (FBan, Reg, Imm)
  | Borr => (FBor, Reg, Reg) | Bori => (FBor, Reg, Imm)
  | Setr => (FSet, Reg, Ignored) | Seti => (FSet, Imm, Ignored)
  | Gtrr => (FGt, Reg, Reg) | Gtri => (FGt, Reg, Imm) | Gtir => (FGt, Imm, Reg)
  | Eqrr => (FEq, Reg, Reg) | Eqri => (FEq, Reg, Imm) | Eqir => (FEq, Imm, Reg)
  end.

Definition operand (registers : list Z) (k : operand_kind) (v : Z) : res Z :=
  match k with
  | Reg => py_get registers v
  | Imm => Ok v
  | Ignored => Ok 0
  end.

Definition family_value (f : family) (x y : Z) : Z :=
  match f with
  | FAdd => x + y
  | FMul => x * y
  | FBan => Z.land x y
  | FBor => Z.lor x y
  | FSet => x
  | FGt => if x >? y then 1 else 0
  | FEq => if x =? y then 1 else 0
  end.

(** The value [set_register] actually stores. *)
Definition wrap (MAX : option Z) (v : Z) : Z :=
  match MAX with
  | Some m => if m =? 0 then v else v mod m
  | None => v
  end.

Definition spec_exec (MAX : option Z) (m : method) (registers : list Z) (i : instruction)
    : res (list Z) :=
  let '(f, ka, kb) := signature m in
  x <- operand registers ka (a i) ;;
  y <- operand registers kb (b i) ;;
  py_set registers (output i) (wrap MAX (family_value f x y)).

(** A register index usable by [registers[v]]. *)
Definition in_range (registers : list Z) (v : Z) : Prop :=
  - Z.of_nat (length registers) <= v < Z.of_nat (length registers).

Definition operand_ok (registers : list Z) (k : operand_kind) (v : Z) : Prop :=
  match k with Reg => in_range registers v | _ => True end.

(** ** Lemmas *)

Lemma set_register_wrap MAX registers r v :
  set_register MAX registers r v = py_set registers r (wrap MAX v).
Proof. unfold set_register, wrap. destruct MAX as [m|]; [destruct (m =? 0)|]; reflexivity. Qed.

Lemma if_set_register MAX registers r (c : bool) :
  (if c then set_register MAX registers r 1 else set_register MAX registers r 0)
  = set_register MAX registers r (if c then 1 else 0).
Proof. destruct c; reflexivity. Qed.

Lemma operand_Ok registers k v :
  (exists x, operand registers k v = Ok x) <-> operand_ok registers k v.
Proof.
  destruct k; simpl; [apply py_get_Ok_iff | split; eauto | split; eauto].
Qed.

Lemma operand_Err registers k v e :
  operand registers k v = Err e -> e = IndexError /\ ~ operand_ok registers k v.
Proof.
  intros H. destruct k; simpl in *; try discriminate.
  split; [exact (py_get_Err _ _ _ H)|].
  intros Hr. apply py_get_Ok_iff in Hr as [x Hx]. congruence.
Qed.

Lemma spec_exec_length MAX m registers i registers' :
  spec_exec MAX m registers i = Ok registers' -> length registers' = length registers.
Proof.
  unfold spec_exec. destruct (signature m) as [[f ka] kb]. intros H. res_inv.
  eauto using py_set_length.
Qed.

Lemma spec_exec_frame MAX m registers i registers' n :
  spec_exec MAX m registers i = Ok registers' ->
  py_index (length registers) (output i) <> Some n -> registers' !! n = registers !! n.
Proof.
  unfold spec_exec. destruct (signature m) as [[f ka] kb]. intros H. res_inv.
  eauto using py_set_lookup_ne.
Qed.

Lemma spec_exec_Err MAX m registers i e :
  spec_exec MAX m registers i = Err e <->
  e = IndexError /\
  ~ (operand_ok registers (signature m).1.2 (a i) /\
   operand_ok registers (signature m).2 (b i) /\
   in_range registers (output i)).
Proof.
  unfold spec_exec. destruct (signature m) as [[f ka] kb]; simpl.
  destruct (operand registers ka (a i)) as [x|e1] eqn:Ha; simpl.
  - destruct (operand registers kb (b i)) as [y|e2] eqn:Hb; simpl.
    + destruct (py_set registers (output i) _) as [r|e3] eqn:Hs.
      * split; [discriminate|]. intros [_ Hn]. exfalso. apply Hn.
        split; [apply operand_Ok; eauto|]. split; [apply operand_Ok; eauto|].
        apply (py_set_Ok_iff registers (output i) (wrap MAX (family_value f x y))). eauto.
      * pose proof (py_set_Err _ _ _ _ Hs) as ->.
        split; [intros [= <-]|intros [-> _]; reflexivity].
        split; [reflexivity|]. intros (_ & _ & Hr).
        apply (py_set_Ok_iff registers (output i) (wrap MAX (family_value f x y))) in Hr as [r Hr].
        congruence.
    + apply operand_Err in Hb as [-> Hb].
      split; [intros [= <-]|intros [-> _]; reflexivity]. tauto.
  - apply operand_Err in Ha as [-> Ha].
    split; [intros [= <-]|intros [-> _]; reflexivity]. tauto.
Qed.

(** The sixteen hand-written methods implement the manual's table. *)
Lemma run_method_spec MAX m registers i :
  run_method MAX m registers i = spec_exec MAX m registers i.
Proof.
  destruct m; simpl;
    unfold gtir, mulr, seti, gtrr, bori, borr, banr, eqri, bani, addr, addi,
      eqrr, gtri, eqir, setr, muli, spec_exec; simpl;
    destruct (py_get registers (a i)); destruct (py_get registers (b i)); simpl;
    rewrite ?if_set_register, ?set_register_wrap; reflexivity.
Qed.

Lemma execute_spec MAX registers i :
  execute MAX registers i = (m <- dict_get opcode_map (opcode i) ;; spec_exec MAX m registers i).
Proof.
  unfold execute. destruct (dict_get opcode_map (opcode i)); simpl; [apply run_method_spec|reflexivity].
Qed.

Lemma execute_length MAX registers i registers' :
  execute MAX registers i = Ok registers' -> length registers' = length registers.
Proof. rewrite execute_spec. intros H. res_inv. eauto using spec_exec_length. Qed.

Lemma execute_frame MAX registers i registers' n :
  execute MAX registers i = Ok registers' ->
  py_index (length registers) (output i) <> Some n -> registers' !! n = registers !! n.
Proof. rewrite execute_spec. intros H. res_inv. eauto using spec_exec_frame. Qed.

Lemma execute_instructions_app MAX registers p1 p2 :
  execute_instructions MAX registers (p1 ++ p2) =
  (r <- execute_instructions MAX registers p1 ;; execute_instructions MAX r p2).
Proof.
  revert registers. induction p1 as [|i p1 IH]; intros registers; simpl; [reflexivity|].
  destruct (execute MAX registers i); simpl; [apply IH|reflexivity].
Qed.

Lemma wrap_bit MAX v :
  (MAX = None \/ exists M, MAX = Some M /\ 0 < M) ->
  v = 0 \/ v = 1 -> wrap MAX v = 0 \/ wrap MAX v = 1.
Proof.
  intros [-> | (M & -> & HM)] Hv; simpl; [exact Hv|].
  destruct (M =? 0) eqn:E; [exact Hv|].
  destruct Hv as [-> | ->]; [rewrite Z.mod_0_l by lia; auto|].
  destruct (Z.eq_dec M 1) as [-> | Hne]; [auto|right; apply Z.mod_small; lia].
Qed.

#[export] Instance chronal_machine (MAX : option Z) : RegisterMachine := {|
  rm_execute := execute MAX;
  rm_execute_length := execute_length MAX;
  rm_execute_frame := execute_frame MAX
  |}.

(** ** Properties of the base device *)

(** C2: refinement. Executing an instruction of the device is: look its
  opcode up in [opcode_map], read the operands the manual's table
  prescribes, and store the family's value (reduced by [MAX]) in the
  output register, leaving every other register and the register count
  unchanged. *)
Theorem execute_correct MAX registers i registers' :
  execute MAX registers i = Ok registers' ->
  exists m x y,
  dict_get opcode_map (opcode i) = Ok m /\
  operand registers (signature m).1.2 (a i) = Ok x /\
  operand registers (signature m).2 (b i) = Ok y /\
  py_get registers' (output i) = Ok (wrap MAX (family_value (signature m).1.1 x y)) /\
  length registers' = length registers /\
  (forall n, py_index (length registers) (output i) <> Some n -> registers' !! n = registers !! n).
Proof.
  intros H. pose proof (execute_length _ _ _ _ H) as Hl.
  pose proof (fun n => execute_frame _ _ _ _ n H) as Hf.
  rewrite execute_spec in H. res_inv. rename a0 into m.
  unfold spec_exec in H. destruct (signature m) as [[f ka] kb] eqn:Hs; simpl. res_inv.
  exists m, a0, a1. rewrite Hs. repeat split; eauto with py.
Qed.

(** C7: error paths. [execute] fails with [KeyError] exactly when the
  opcode is outside 0..15, and otherwise with [IndexError] exactly when
  a register operand or the output index is outside the Python index
  range of the register list. *)
Theorem execute_Err MAX registers i e :
  execute MAX registers i = Err e <->
  (e = KeyError /\ ~ (0 <= opcode i <= 15)) \/
  (exists m, dict_get opcode_map (opcode i) = Ok m /\ e = IndexError /\
   ~ (operand_ok registers (signature m).1.2 (a i) /\
      operand_ok registers (signature m).2 (b i) /\
      in_range registers (output i))).
Proof.
  rewrite execute_spec, res_bind_Err.
  setoid_rewrite spec_exec_Err. rewrite dict_get_Err.
  assert (Hk : In (opcode i) (map fst opcode_map) <-> 0 <= opcode i <= 15).
  { simpl. split; [intuition lia|].
    intros Hr. assert (Hn : exists k, (k < 16)%nat /\ opcode i = Z.of_nat k)
      by (exists (Z.to_nat (opcode i)); lia).
    destruct Hn as [k [Hk ->]].
    do 16 (destruct k as [|k]; [simpl; tauto|]). lia. }
    rewrite Hk. firstorder.
Qed.

(** Bounds. The greater-than and equality methods write exactly 0 or
  1 into their output register, whenever [MAX] is unset or positive. *)
Theorem compare_writes_bit MAX m registers i registers' :
  (signature m).1.1 = FGt \/ (signature m).1.1 = FEq ->
  (MAX = None \/ exists M, MAX = Some M /\ 0 < M) ->
  run_method MAX m registers i = Ok registers' ->
  py_get registers' (output i) = Ok 0 \/ py_get registers' (output i) = Ok 1.
Proof.
  intros Hf HM. rewrite run_method_spec. unfold spec_exec.
  destruct (signature m) as [[f ka] kb]; simpl in Hf. intros H. res_inv.
  apply py_get_py_set_eq in H. rewrite H.
  destruct (wrap_bit MAX (family_value f a0 a1) HM) as [-> | ->]; auto.
  destruct Hf as [-> | ->]; simpl; [destruct (a0 >? a1) | destruct (a0 =? a1)]; auto.
Qed.

(** A negative [MAX] breaks the 0/1 convention: with [MAX = -2],
  [gtir 1 0 0] on zero registers stores [1 mod -2 = -1] (Python's
  floor modulus, which [Z.modulo] is). *)
Theorem compare_negative_modulus :
  run_method (Some (-2)) Gtir [0; 0; 0; 0] (mk_instruction 0 1 0 0) = Ok [-1; 0; 0; 0].
Proof. reflexivity. Qed.

(** [setr] and [seti] ignore operand B: two instructions that differ
  only in B give the same result on every register list, and so does
  every method whose signature ignores B. *)
Theorem ignored_b_irrelevant MAX m registers o x y y' z :
  (signature m).2 = Ignored ->
  run_method MAX m registers (mk_instruction o x y z) =
  run_method MAX m registers (mk_instruction o x y' z).
Proof.
  rewrite !run_method_spec. unfold spec_exec.
  destruct (signature m) as [[f ka] kb]; simpl. intros ->. reflexivity.
Qed.

(** [opcode_map] (device.py) and [int_to_str] (instruction.py) agree:
  opcode [n] dispatches to the method whose name [int_to_str] gives for
  [n]. *)
Theorem opcode_map_int_to_str n m :
  dict_get opcode_map n = Ok m <-> dict_get int_to_str n = Ok (method_name m).
Proof.
  split; intros H; apply dict_get_Ok_In in H; simpl in H;
    repeat destruct H as [H|H]; try contradiction; injection H as <- Hm;
    destruct m; try discriminate Hm; reflexivity.
Qed.

(** Invariant. Running a whole program on the base device never
  changes the number of registers. *)
Theorem execute_instructions_length MAX registers p registers' :
  execute_instructions MAX registers p = Ok registers' -> length registers' = length registers.
Proof.
  revert registers. induction p as [|i p IH]; intros registers H; simpl in H; res_inv; [reflexivity|].
  rewrite (IH _ H). eauto using execute_length.
Qed.

(** The manual's sample [addi 2 1 2] (opcode 10) on [3 2 1 1] stores
  register 2 plus 1, that is 2, in register 2. *)
Example execute_addi_sample :
  execute None [3; 2; 1; 1] (mk_instruction 10 2 1 2) = Ok [3; 2; 2; 1].
Proof. reflexivity. Qed.

(** ** Witnesses *)

Lemma execute_correct_witness :
  execute None [3; 2; 1; 1] (mk_instruction 10 2 1 2) = Ok [3; 2; 2; 1] /\
  exists m x y,
  dict_get opcode_map 10 = Ok m /\
  operand [3; 2; 1; 1] (signature m).1.2 2 = Ok x /\
  operand [3; 2; 1; 1] (signature m).2 1 = Ok y /\
  py_get [3; 2; 2; 1] 2 = Ok (wrap None (family_value (signature m).1.1 x y)) /\
  length [3; 2; 2; 1] = length [3; 2; 1; 1] /\
  (forall n, py_index 4 2 <> Some n -> [3; 2; 2; 1] !! n = [3; 2; 1; 1] !! n).
Proof.
  split; [reflexivity|].
  exact (execute_correct None [3; 2; 1; 1] (mk_instruction 10 2 1 2) [3; 2; 2; 1] eq_refl).
Defined.

Lemma compare_writes_bit_witness :
  ((signature Gtrr).1.1 = FGt \/ (signature Gtrr).1.1 = FEq) /\
  (@None Z = None \/ exists M, @None Z = Some M /\ 0 < M) /\
  run_method None Gtrr [3; 2; 1; 1] (mk_instruction 3 0 1 2) = Ok [3; 2; 1; 1] /\
  (py_get [3; 2; 1; 1] 2 = Ok 0 \/ py_get [3; 2; 1; 1] 2 = Ok 1).
Proof.
  split; [left; reflexivity|]. split; [left; reflexivity|]. split; [reflexivity|].
  apply (compare_writes_bit None Gtrr [3; 2; 1; 1] (mk_instruction 3 0 1 2));
    [left; reflexivity | left; reflexivity | reflexivity].
Defined.

Lemma ignored_b_irrelevant_witness :
  (signature Setr).2 = Ignored /\
  run_method None Setr [3; 2; 1; 1] (mk_instruction 14 0 1 3) =
  run_method None Setr [3; 2; 1; 1] (mk_instruction 14 0 99 3).
Proof.
  split; [reflexivity|]. apply ignored_b_irrelevant. reflexivity.
Defined.

Lemma execute_instructions_length_witness :
  execute_instructions None [0; 0; 0; 0]
  [mk_instruction 2 7 0 1; mk_instruction 9 1 1 2] = Ok [0; 7; 14; 0] /\
  length [0; 7; 14; 0] = length [0; 0; 0; 0].
Proof.
  split; [reflexivity|].
  apply (execute_instructions_length None [0; 0; 0; 0]
           [mk_instruction 2 7 0 1; mk_instruction 9 1 1 2]). reflexivity.
Defined.

End ChronalDevice.
