(* ===== verification/JumpDevice.v ===== *)
(** * The jump-capable device [ChronalDeviceWithJumps] (src/elfsembly/device.py)

    The instruction pointer is not separate storage: it is the register
    [registers[program_register]].  [_execute_instructions] is a Python
    generator; one resumption of it is [step]: read the pc, stop if it is
    at least the program length, otherwise fetch [instructions[pc]], run
    it with the inherited [execute], add one to the pc register, and yield
    the instruction.  The generator may never stop, so [run] drives it
    with a fuel bound; [jstep] is the same step as a relation, and
    [reaches] its reflexive-transitive closure.

    [_execute_instructions] first checks that the program starts with a
    [JumpInstruction] and pops it from the caller's list: the caller's
    list object is shared, so [execute_instructions] returns the list as
    the caller sees it afterwards together with the outcome.

    Everything is proved against the [RegisterMachine] class of
    Machine.v; the concrete scenarios use the base device of Device.v. *)

From Stdlib Require Import ZArith Lia String.
From stdpp Require Import strings.
From S2P Require Import Prelude Decoding Machine Device.
Import Instruction JumpInstruction.

Open Scope Z_scope.
Open Scope py_scope.

Module ChronalDeviceWithJumps.

Record state := mk_state {
  registers : list Z;
  program_register : Z
  }.

(** [ChronalDeviceWithJumps(registers=None)]: a falsy argument (absent
  or empty) gives six zero registers, anything else is used as is. *)
Definition init (regs : option (list Z)) : state :=
  match regs with
  | None | Some [] => mk_state (repeat 0 6) 0
  | Some r => mk_state r 0
  end.

(** The [pc] property: getter and setter. *)
Definition pc (st : state) : res Z :=
  py_get (registers st) (program_register st).

Definition set_pc (st : state) (i : Z) : res state :=
  regs <- py_set (registers st) (program_register st) i ;;
  Ok (mk_state regs (program_register st)).

(** [inc_pc]: [self.registers[self.program_register] += 1]. *)
Definition inc_pc (st : state) : res state :=
  v <- pc st ;; set_pc st (v + 1).

Definition missing_binding : py_error :=
  PyException "Expected first instruction to set program register".

(** The check at the top of [_execute_instructions]: [instructions[0]]
  must be a [JumpInstruction]; its register is returned together with
  the list after [instructions.pop(0)]. *)
Definition load (instructions : list item) : res (Z * list item) :=
  match instructions with
  | [] => Err IndexError
  | IJump _ r :: rest => Ok (r, rest)
  | IPlain _ :: _ => Err missing_binding
  end.

(** What one resumption of the generator produces. *)
Inductive step_result :=
  | Halted
  | Yielded (it : item) (st' : state).

(** What driving the generator produces. *)
Inductive outcome :=
  | Done (st : state)
  | OutOfFuel (st : state).

Section WithMachine.
Context `{RM : RegisterMachine}.

(** One iteration of the [while True] loop of [_execute_instructions]. *)
Definition step (instructions : list item) (st : state) : res step_result :=
  p <- pc st ;;
  if Z.of_nat (length instructions) <=? p then Ok Halted
  else
    it <- py_get instructions p ;;
    regs <- rm_execute (registers st) (item_instr it) ;;
    st2 <- inc_pc (mk_state regs (program_register st)) ;;
    Ok (Yielded it st2).

(** [execute_instructions]' loop [next(gen)] until [StopIteration],
    bounded by [fuel] resumptions. *)
Fixpoint run (fuel : nat) (instructions : list item) (st : state) : res outcome :=
  match fuel with
  | O => Ok (OutOfFuel st)
  | S fuel' =>
    r <- step instructions st ;;
    match r with
    | Halted => Ok (Done st)
    | Yielded _ st' => run fuel' instructions st'
    end
  end.

(** [execute_instructions(instructions)]: the caller's list after the
    call, and the outcome. *)
Definition execute_instructions (fuel : nat) (st : state) (instructions : list item)
  : list item * res outcome :=
  match load instructions with
  | Err e => (instructions, Err e)
  | Ok (r, prog) => (prog, run fuel prog (mk_state (registers st) r))
  end.

(** [execute_instructions_with_analysis]: the values the caller's
    [next] calls return, the instructions executed and a final [None]. *)
Fixpoint analysis (fuel : nat) (instructions : list item) (st : state)
  : res (list (option item) * state) :=
  match fuel with
  | O => Ok ([], st)
  | S fuel' =>
    r <- step instructions st ;;
    match r with
    | Halted => Ok ([None], st)
    | Yielded it st' =>
        tr <- analysis fuel' instructions st' ;;
        Ok (Some it :: tr.1, tr.2)
    end
  end.

(** ** The step as a relation *)

Inductive jstep (instructions : list item) : state -> item -> state -> Prop :=
  | jstep_exec st p it regs v regs' :
    pc st = Ok p ->
    p < Z.of_nat (length instructions) ->
    py_get instructions p = Ok it ->
    rm_execute (registers st) (item_instr it) = Ok regs ->
    py_get regs (program_register st) = Ok v ->
    py_set regs (program_register st) (v + 1) = Ok regs' ->
    jstep instructions st it (mk_state regs' (program_register st)).

Definition halts (instructions : list item) (st : state) : Prop :=
  exists p, pc st = Ok p /\ Z.of_nat (length instructions) <= p.

Inductive reaches (instructions : list item) : state -> state -> Prop :=
  | reaches_refl st : reaches instructions st st
  | reaches_step st it st' st'' :
    jstep instructions st it st' -> reaches instructions st' st'' ->
    reaches instructions st st''.

(** [executes instructions st its st']: from [st] the device executes
    the items [its], in order, and arrives in [st']. *)
Inductive executes (instructions : list item) : state -> list item -> state -> Prop :=
  | executes_nil st : executes instructions st [] st
  | executes_cons st it st1 its st' :
    jstep instructions st it st1 -> executes instructions st1 its st' ->
    executes instructions st (it :: its) st'.

End WithMachine.

Section Proofs.
Context `{RM : RegisterMachine}.

Lemma inc_pc_Ok st st2 :
  inc_pc st = Ok st2 <->
  exists v regs', pc st = Ok v /\
  py_set (registers st) (program_register st) (v + 1) = Ok regs' /\
  st2 = mk_state regs' (program_register st).
Proof.
  unfold inc_pc, set_pc. split.
  - intros H. res_inv. eauto 6.
  - intros (v & regs' & Hv & Hs & ->). rewrite Hv; simpl. rewrite Hs. reflexivity.
Qed.

(** The executable step and the relation agree on every yield. *)
Lemma step_Yielded prog st it st' :
  step prog st = Ok (Yielded it st') <-> jstep prog st it st'.
Proof.
  unfold step. split.
  - intros H. destruct (pc st) as [p|e] eqn:Hp; simpl in H; [|discriminate].
    destruct (Z.of_nat (length prog) <=? p) eqn:Hlen; [discriminate|].
    apply Z.leb_gt in Hlen.
    destruct (py_get prog p) as [it0|e] eqn:Hit; simpl in H; [|discriminate].
    destruct (rm_execute (registers st) (item_instr it0)) as [regs|e] eqn:Hex;
      simpl in H; [|discriminate].
    destruct (inc_pc _) as [st2|e] eqn:Hi; simpl in H; [|discriminate].
    apply inc_pc_Ok in Hi as (v & regs' & Hv & Hs & ->). injection H as <- <-.
    econstructor; eauto.
  - intros [st0 p it0 regs v regs' Hp Hlt Hit Hex Hv Hs].
    rewrite Hp; simpl. destruct (Z.leb_spec (Z.of_nat (length prog)) p); [lia|].
    rewrite Hit; simpl. rewrite Hex; simpl.
    assert (Hi : inc_pc (mk_state regs (program_register st0)) =
                 Ok (mk_state regs' (program_register st0)))
      by (apply inc_pc_Ok; eauto 6).
    rewrite Hi. reflexivity.
Qed.

Lemma step_Halted prog st :
  step prog st = Ok Halted <-> halts prog st.
Proof.
  unfold step, halts. split.
  - intros H. destruct (pc st) as [p|e] eqn:Hp; simpl in H; [|discriminate].
    exists p. split; [reflexivity|].
    destruct (Z.leb_spec (Z.of_nat (length prog)) p); [assumption|].
    destruct (py_get prog p); simpl in H; [|discriminate].
    destruct (rm_execute _ _); simpl in H; [|discriminate].
    destruct (inc_pc _); discriminate.
  - intros (p & Hp & Hle). rewrite Hp; simpl.
    destruct (Z.leb_spec (Z.of_nat (length prog)) p); [reflexivity|lia].
Qed.

(** A step whose pc is known to lie inside the program: fetch, execute,
    increment.  Symbolic runs over a program with an unknown tail use
    it in place of the halt test. *)
Lemma step_fetch prog st p it :
  pc st = Ok p -> p < Z.of_nat (length prog) -> py_get prog p = Ok it ->
  step prog st =
    (regs <- rm_execute (registers st) (item_instr it) ;;
     st2 <- inc_pc (mk_state regs (program_register st)) ;;
     Ok (Yielded it st2)).
Proof.
  intros Hp Hlt Hit. unfold step. rewrite Hp; simpl.
  destruct (Z.leb_spec (Z.of_nat (length prog)) p); [lia|]. rewrite Hit. reflexivity.
Qed.

Lemma jstep_deterministic prog st it1 st1 it2 st2 :
  jstep prog st it1 st1 -> jstep prog st it2 st2 -> it1 = it2 /\ st1 = st2.
Proof.
  rewrite <- !step_Yielded. intros H1 H2. rewrite H1 in H2. injection H2 as -> ->. auto.
Qed.

Lemma jstep_not_halts prog st it st' :
  jstep prog st it st' -> ~ halts prog st.
Proof. rewrite <- step_Yielded, <- step_Halted. congruence. Qed.

Lemma jstep_shape prog st it st' :
  jstep prog st it st' ->
  length (registers st') = length (registers st) /\
  program_register st' = program_register st.
Proof.
  intros [st0 p it0 regs v regs' _ _ _ Hex _ Hs]; simpl.
  rewrite (py_set_length _ _ _ _ Hs). split; [|reflexivity].
  eapply rm_execute_length; eauto.
Qed.

Lemma run_S fuel prog st :
  run (S fuel) prog st =
  (r <- step prog st ;; match r with Halted => Ok (Done st) | Yielded _ st' => run fuel prog st' end).
Proof. reflexivity. Qed.

Lemma reaches_shape prog st st' :
  reaches prog st st' ->
  length (registers st') = length (registers st) /\
  program_register st' = program_register st.
Proof.
  induction 1 as [|st it st1 st2 Hs _ [IH1 IH2]]; [auto|].
  destruct (jstep_shape _ _ _ _ Hs) as [H1 H2]. split; congruence.
Qed.

Lemma reaches_trans prog s1 s2 s3 :
  reaches prog s1 s2 -> reaches prog s2 s3 -> reaches prog s1 s3.
Proof.
  induction 1 as [|st it st1 st2 Hs _ IH]; intros H; [exact H|].
  econstructor; [exact Hs | exact (IH H)].
Qed.

Lemma run_sound fuel prog st st' :
  run fuel prog st = Ok (Done st') -> reaches prog st st' /\ halts prog st'.
Proof.
  revert st. induction fuel as [|fuel IH]; intros st H; simpl in H; [discriminate|].
  destruct (step prog st) as [[|it st1]|e] eqn:Hs; simpl in H; try discriminate.
  - injection H as <-. split; [constructor|]. apply step_Halted. exact Hs.
  - destruct (IH _ H) as [Hr Hh]. split; [|exact Hh].
    econstructor; [apply step_Yielded; eauto | exact Hr].
Qed.

Lemma run_complete prog st st' :
  reaches prog st st' -> halts prog st' -> exists fuel, run fuel prog st = Ok (Done st').
Proof.
  induction 1 as [st|st it st1 st2 Hs _ IH]; intros Hh.
  - exists 1%nat. simpl. apply step_Halted in Hh. rewrite Hh. reflexivity.
  - destruct (IH Hh) as [fuel Hf]. exists (S fuel).
    rewrite run_S. apply step_Yielded in Hs. rewrite Hs. exact Hf.
Qed.

Lemma run_Done_step fuel prog st st' :
  run fuel prog st = Ok (Done st') ->
  (step prog st = Ok Halted /\ st' = st) \/
  exists it st1 fuel', fuel = S fuel' /\ step prog st = Ok (Yielded it st1) /\
                   run fuel' prog st1 = Ok (Done st').
Proof.
  destruct fuel as [|fuel]; simpl; [discriminate|].
  destruct (step prog st) as [[|it st1]|e]; simpl; try discriminate.
  - intros [= <-]. auto.
  - intros H. right. eauto 6.
Qed.

(** ** Properties of the jump-capable device *)

(** C1: termination and refinement. Driving the generator halts in state
    [st'] within some number of resumptions exactly when [st'] is
    reachable from [st] by the step relation and its pc is at or past
    the end of the program. *)
Theorem run_halts_iff prog st st' :
  (exists fuel, run fuel prog st = Ok (Done st')) <-> reaches prog st st' /\ halts prog st'.
Proof.
  split.
  - intros [fuel H]. exact (run_sound _ _ _ _ H).
  - intros [Hr Hh]. exact (run_complete _ _ _ Hr Hh).
Qed.

(** More fuel never changes a completed run. *)
Theorem run_fuel_mono n m prog st st' :
  run n prog st = Ok (Done st') -> (n <= m)%nat -> run m prog st = Ok (Done st').
Proof.
  revert m st. induction n as [|n IH]; intros m st H Hle; [discriminate|].
  destruct m as [|m]; [lia|].
  destruct (run_Done_step _ _ _ _ H) as [[Hs ->] | (it & st1 & n' & [= <-] & Hs & Hr)];
    rewrite run_S, Hs; [reflexivity|].
  apply IH; [exact Hr|lia].
Qed.

(** Invariant. In every state reachable by the device, the register
    list has its initial length and the program register is the one
    bound at the start. *)
Theorem reachable_registers_fixed prog st st' :
  reaches prog st st' ->
  length (registers st') = length (registers st) /\
  program_register st' = program_register st.
Proof. apply reaches_shape. Qed.

Lemma jstep_inv prog st it st' :
  jstep prog st it st' ->
  exists p regs v regs',
  pc st = Ok p /\ py_get prog p = Ok it /\
  rm_execute (registers st) (item_instr it) = Ok regs /\
  py_get regs (program_register st) = Ok v /\
  py_set regs (program_register st) (v + 1) = Ok regs' /\
  st' = mk_state regs' (program_register st).
Proof. intros [st0 p it0 regs v regs' Hp _ Hit Hex Hv Hs]. eauto 12. Qed.

(** C3: execute, then increment. If the instruction run by a step leaves
    the value [V] in the program register, the next step fetches the
    instruction at index [V + 1] (not [V]). *)
Theorem next_fetch_after_write prog st it st' regs V it' st'' :
  jstep prog st it st' ->
  rm_execute (registers st) (item_instr it) = Ok regs ->
  py_get regs (program_register st) = Ok V ->
  jstep prog st' it' st'' ->
  pc st' = Ok (V + 1) /\ py_get prog (V + 1) = Ok it'.
Proof.
  intros H1 Hex HV H2.
  destruct (jstep_inv _ _ _ _ H1) as (p & regs0 & v & regs' & _ & _ & Hex0 & Hv & Hs & ->).
  rewrite Hex in Hex0. injection Hex0 as <-. rewrite HV in Hv. injection Hv as <-.
  assert (Hpc : pc (mk_state regs' (program_register st)) = Ok (V + 1))
    by (unfold pc; simpl; eauto with py).
  split; [exact Hpc|].
  destruct (jstep_inv _ _ _ _ H2) as (p2 & _ & _ & _ & Hp2 & Hit2 & _).
  rewrite Hpc in Hp2. injection Hp2 as <-. exact Hit2.
Qed.

(** An instruction whose output register is not the program register
    falls through: the pc advances by exactly one. *)
Theorem step_falls_through prog st it st' p :
  jstep prog st it st' -> pc st = Ok p ->
  py_index (length (registers st)) (output (item_instr it)) <>
  py_index (length (registers st)) (program_register st) ->
  pc st' = Ok (p + 1).
Proof.
  intros H Hp Hne.
  destruct (jstep_inv _ _ _ _ H) as (p0 & regs & v & regs' & Hp0 & _ & Hex & Hv & Hs & ->).
  unfold pc; simpl. eapply py_get_py_set_eq in Hs. rewrite Hs. do 2 f_equal.
  unfold pc in Hp. apply py_get_lookup in Hp as (n & Hn & Hl).
  apply py_get_lookup in Hv as (n' & Hn' & Hl').
  rewrite (rm_execute_length _ _ _ Hex) in Hn'. rewrite Hn in Hn'. injection Hn' as <-.
  rewrite (rm_execute_frame _ _ _ n Hex) in Hl' by congruence. congruence.
Qed.

(** C4: the halting boundary. With pc [p], the generator stops exactly
    when [p >= len(instructions)]; every [p] in [0, len) fetches the
    instruction at position [p]; a [p] below [-len] raises
    [IndexError] and does not halt, where the puzzle text kept in
    src/day_19.py (lines 363-365) says that a fetch outside the program
    halts it: the code diverges from that text below [-len] (and,
    [negative_pc_fetches_from_end], in [-len, 0)). *)
Theorem halting_boundary prog st p :
  pc st = Ok p ->
  (step prog st = Ok Halted <-> Z.of_nat (length prog) <= p) /\
  (0 <= p < Z.of_nat (length prog) ->
 exists it, py_get prog p = Ok it /\ prog !! Z.to_nat p = Some it) /\
  (p < - Z.of_nat (length prog) -> step prog st = Err IndexError).
Proof.
  intros Hp. split; [|split].
  - rewrite step_Halted. unfold halts. split; [intros (p' & Hp' & Hl); congruence | eauto].
  - intros Hr. destruct (lookup_lt_is_Some_2 prog (Z.to_nat p)) as [it Hit]; [lia|].
    exists it. split; [|exact Hit]. apply py_get_lookup. rewrite py_index_nonneg by lia. eauto.
  - intros Hlt. unfold step. rewrite Hp; simpl.
    destruct (Z.leb_spec (Z.of_nat (length prog)) p); [lia|].
    unfold py_get. rewrite (proj2 (py_index_None _ _)) by lia. reflexivity.
Qed.

(** C5: a negative pc does not halt. A pc [p] with [-len <= p < 0] is
    not treated as out of range: Python's negative indexing fetches the
    instruction at position [len + p], counted from the end. *)
Theorem negative_pc_fetches_from_end prog st p :
  pc st = Ok p -> - Z.of_nat (length prog) <= p < 0 ->
  step prog st <> Ok Halted /\
  exists it, py_get prog p = Ok it /\ prog !! Z.to_nat (Z.of_nat (length prog) + p) = Some it.
Proof.
  intros Hp Hr. split.
  - rewrite step_Halted. intros (p' & Hp' & Hl). rewrite Hp in Hp'. injection Hp' as <-. lia.
  - destruct (lookup_lt_is_Some_2 prog (Z.to_nat (Z.of_nat (length prog) + p))) as [it Hit]; [lia|].
    exists it. split; [|exact Hit]. apply py_get_lookup. rewrite py_index_neg by lia. eauto.
Qed.

(** C10: the analysis mode ([execute_instructions_with_analysis]) and the
    run-to-completion mode agree: when a run halts in [st'], the
    analysis generator yields exactly the instructions the device
    executes from [st] to [st'], in order (each one the item the step
    relation fetches), then [None], and leaves the device in [st'],
    where it halts. *)
Theorem analysis_matches_run fuel prog st st' :
  run fuel prog st = Ok (Done st') ->
  exists its, analysis fuel prog st = Ok (map Some its ++ [None], st') /\
              executes prog st its st' /\ halts prog st'.
Proof.
  revert st. induction fuel as [|fuel IH]; intros st H; [discriminate|].
  destruct (run_Done_step _ _ _ _ H) as [[Hs ->] | (it & st1 & n' & [= <-] & Hs & Hr)];
    simpl; rewrite Hs; simpl.
  - exists []. split_and!; [reflexivity|constructor|by apply step_Halted].
  - destruct (IH _ Hr) as (its & Hits & Hex & Hh). rewrite Hits; simpl.
    exists (it :: its). split_and!; [reflexivity| |done].
    econstructor; [apply step_Yielded, Hs|exact Hex].
Qed.

(** C11: the binding directive is consumed from the caller's list.
    [execute_instructions] pops the [#ip] item off the very list object
    it was given, so running that list again raises the missing-binding
    exception when the program starts with an ordinary instruction,
    and a program that does not start with [#ip] is refused before any
    instruction runs. *)
Theorem binding_directive_consumed fuel fuel' st st' j r i rest :
  (execute_instructions fuel st (IJump j r :: IPlain i :: rest)).1 = IPlain i :: rest /\
  execute_instructions fuel' st' (IPlain i :: rest) = (IPlain i :: rest, Err missing_binding).
Proof. split; reflexivity. Qed.

End Proofs.

(** ** Runs of the concrete device ([ChronalDevice.MAX] unset) *)

(** The sample program of day 19 ([#ip 0; seti 5 0 1; seti 6 0 2;
  addi 0 1 0; addr 1 2 3; setr 1 0 0; seti 8 0 4; seti 9 0 5]),
  parsed and run from zero registers, halts with registers
  [7 5 6 0 0 9]: [addi 0 1 0] makes the pc skip [addr 1 2 3]. *)
Theorem sample_program_result :
  (prog <- instructions_from_lines
      ["#ip 0"; "seti 5 0 1"; "seti 6 0 2"; "addi 0 1 0"; "addr 1 2 3";
       "setr 1 0 0"; "seti 8 0 4"; "seti 9 0 5"]%string ;;
   (@execute_instructions (ChronalDevice.chronal_machine None) 6 (init None) prog).2)
  = Ok (Done (mk_state [7; 5; 6; 0; 0; 9] 0)).
Proof. vm_compute. reflexivity. Qed.

(** C6: a program that drives the pc to [-1] never halts: [#ip 0;
  seti -2 0 0; seti 7 0 1] bounces between pc [0] and pc [-1] (which
  fetches the last instruction) for ever, so no amount of fuel ends the
  run. *)
Theorem negative_pc_program_diverges fuel st' :
  (prog <- instructions_from_lines ["#ip 0"; "seti -2 0 0"; "seti 7 0 1"]%string ;;
   (@execute_instructions (ChronalDevice.chronal_machine None) fuel (init None) prog).2)
  <> Ok (Done st').
Proof.
  set (code := [IPlain (mk_instruction 2 (-2) 0 0); IPlain (mk_instruction 2 7 0 1)]).
  assert (Hp : instructions_from_lines ["#ip 0"; "seti -2 0 0"; "seti 7 0 1"]%string =
               Ok (IJump (mk_instruction 0 0 0 0) 0 :: code)) by reflexivity.
  rewrite Hp. cbn [res_bind execute_instructions load init fst snd]. intros H.
  apply run_sound in H as [Hr Hh].
  set (P := fun s : state => program_register s = 0 /\
          In (registers s) [[0; 0; 0; 0; 0; 0]; [-1; 0; 0; 0; 0; 0];
                            [0; 7; 0; 0; 0; 0]; [-1; 7; 0; 0; 0; 0]]).
  assert (Hinv : forall s s', reaches (RM := ChronalDevice.chronal_machine None) code s s' ->
                              P s -> P s').
  { induction 1 as [s|s it s1 s2 Hs _ IH]; intros HP; [exact HP|]. apply IH.
    destruct s as [regs pr]. destruct HP as [Hpr Hin]; simpl in Hpr, Hin; subst pr.
    apply step_Yielded in Hs.
    repeat destruct Hin as [<- | Hin]; try contradiction;
      vm_compute in Hs; injection Hs as <- <-; split; simpl; tauto. }
  destruct (Hinv _ _ Hr) as [Hpr Hin]; [split; simpl; tauto|].
  destruct Hh as (p & Hpc & Hle). destruct st' as [regs pr]; simpl in Hpr, Hin; subst pr.
  repeat destruct Hin as [<- | Hin]; try contradiction;
    vm_compute in Hpc; injection Hpc as <-; simpl in Hle; lia.
Qed.

(** ** Witnesses, on the sample program of day 19 after loading *)

Local Abbreviation elf := (ChronalDevice.chronal_machine None).
Local Abbreviation sample :=
  [IPlain (mk_instruction 2 5 0 1); IPlain (mk_instruction 2 6 0 2);
   IPlain (mk_instruction 10 0 1 0); IPlain (mk_instruction 9 1 2 3);
   IPlain (mk_instruction 14 1 0 0); IPlain (mk_instruction 2 8 0 4);
   IPlain (mk_instruction 2 9 0 5)].
Local Abbreviation s0 := (mk_state [0; 0; 0; 0; 0; 0] 0).
Local Abbreviation sfinal := (mk_state [7; 5; 6; 0; 0; 9] 0).

Lemma run_fuel_mono_witness :
  @run elf 6 sample s0 = Ok (Done sfinal) /\ (6 <= 10)%nat /\
  @run elf 10 sample s0 = Ok (Done sfinal).
Proof.
  split; [vm_compute; reflexivity|]. split; [lia|].
  apply (run_fuel_mono 6 10); [vm_compute; reflexivity | lia].
Defined.

Lemma reachable_registers_fixed_witness :
  @reaches elf sample s0 sfinal /\
  length (registers sfinal) = length (registers s0) /\
  program_register sfinal = program_register s0.
Proof.
  assert (H : @reaches elf sample s0 sfinal)
    by (apply (run_sound 6 sample s0 sfinal); vm_compute; reflexivity).
  split; [exact H|]. exact (reachable_registers_fixed sample s0 sfinal H).
Defined.

Lemma next_fetch_after_write_witness :
  @jstep elf sample (mk_state [2; 5; 6; 0; 0; 0] 0) (IPlain (mk_instruction 10 0 1 0))
  (mk_state [4; 5; 6; 0; 0; 0] 0) /\
  ChronalDevice.execute None [2; 5; 6; 0; 0; 0] (mk_instruction 10 0 1 0) = Ok [3; 5; 6; 0; 0; 0] /\
  py_get [3; 5; 6; 0; 0; 0] 0 = Ok 3 /\
  @jstep elf sample (mk_state [4; 5; 6; 0; 0; 0] 0) (IPlain (mk_instruction 14 1 0 0))
  (mk_state [6; 5; 6; 0; 0; 0] 0) /\
  pc (mk_state [4; 5; 6; 0; 0; 0] 0) = Ok (3 + 1) /\
  py_get sample (3 + 1) = Ok (IPlain (mk_instruction 14 1 0 0)).
Proof.
  assert (H1 : @jstep elf sample (mk_state [2; 5; 6; 0; 0; 0] 0) (IPlain (mk_instruction 10 0 1 0))
                 (mk_state [4; 5; 6; 0; 0; 0] 0)) by (apply step_Yielded; vm_compute; reflexivity).
  assert (H2 : @jstep elf sample (mk_state [4; 5; 6; 0; 0; 0] 0) (IPlain (mk_instruction 14 1 0 0))
                 (mk_state [6; 5; 6; 0; 0; 0] 0)) by (apply step_Yielded; vm_compute; reflexivity).
  do 3 (split; [first [exact H1 | reflexivity]|]). split; [exact H2|].
  exact (next_fetch_after_write sample _ _ _ [3; 5; 6; 0; 0; 0] 3 _ _ H1 eq_refl eq_refl H2).
Defined.

Lemma step_falls_through_witness :
  @jstep elf sample s0 (IPlain (mk_instruction 2 5 0 1)) (mk_state [1; 5; 0; 0; 0; 0] 0) /\
  pc s0 = Ok 0 /\ py_index 6 1 <> py_index 6 0 /\
  pc (mk_state [1; 5; 0; 0; 0; 0] 0) = Ok (0 + 1).
Proof.
  assert (H : @jstep elf sample s0 (IPlain (mk_instruction 2 5 0 1)) (mk_state [1; 5; 0; 0; 0; 0] 0))
    by (apply step_Yielded; vm_compute; reflexivity).
  assert (Hn : py_index 6 1 <> py_index 6 0) by (vm_compute; congruence).
  split; [exact H|]. split; [reflexivity|]. split; [exact Hn|].
  exact (step_falls_through sample s0 _ _ 0 H eq_refl Hn).
Defined.

Lemma halting_boundary_witness :
  pc sfinal = Ok 7 /\
  (@step elf sample sfinal = Ok Halted <-> Z.of_nat (length sample) <= 7) /\
  (0 <= 7 < Z.of_nat (length sample) ->
   exists it, py_get sample 7 = Ok it /\ sample !! Z.to_nat 7 = Some it) /\
  (7 < - Z.of_nat (length sample) -> @step elf sample sfinal = Err IndexError).
Proof.
  split; [reflexivity|]. exact (halting_boundary sample sfinal 7 eq_refl).
Defined.

Lemma negative_pc_fetches_from_end_witness :
  pc (mk_state [-1; 0; 0; 0; 0; 0] 0) = Ok (-1) /\
  - Z.of_nat (length sample) <= -1 < 0 /\
  @step elf sample (mk_state [-1; 0; 0; 0; 0; 0] 0) <> Ok Halted /\
  exists it, py_get sample (-1) = Ok it /\
  sample !! Z.to_nat (Z.of_nat (length sample) + -1) = Some it.
Proof.
  split; [reflexivity|]. split; [simpl; lia|].
  apply (negative_pc_fetches_from_end sample _ (-1)); [reflexivity | simpl; lia].
Defined.

Lemma analysis_matches_run_witness :
  @run elf 6 sample s0 = Ok (Done sfinal) /\
  exists its, @analysis elf 6 sample s0 = Ok (map Some its ++ [None], sfinal) /\
              @executes elf sample s0 its sfinal /\ halts sample sfinal.
Proof.
  split; [vm_compute; reflexivity|]. apply analysis_matches_run. vm_compute. reflexivity.
Defined.

End ChronalDeviceWithJumps.
