(* ===== verification/Guesser.v ===== *)
(** * Opcode discovery of day 16 (src/day_16.py)

    [InstructionGuesser.guess] runs all sixteen methods of a scratch
    [ChronalDevice] on a copy of the [before] registers and keeps the
    names of those whose output register then matches [after];
    [guess_from_lines] parses one sample (two register lines read with
    the day's own unsigned [number_grabber], one numeric instruction line
    read with [Instruction.instruction_from_string]), and
    [guesses_from_lines] cuts a file into samples of four lines.  The set
    of names is a [gset string].

    [test_find_unique_results] sorts the guesses by size and then passes
    over them until sixteen opcodes are known: a singleton is popped into
    the [opcodes] dict, and every known name is removed from the guesses
    of unknown opcodes.  The guesses are updated in place, so the loop is
    a fold over positions of the list ([eliminate]); it need not end, so
    it runs on fuel.  [find_unique_results_sound] shows that when it
    ends, the dict is the true assignment. *)

From Stdlib Require Import ZArith Lia String.
From stdpp Require Import strings gmap.
From S2P Require Import Prelude Decoding Device PySort.
Import Instruction ChronalDevice.

Open Scope Z_scope.
Open Scope py_scope.

Module InstructionGuesser.

(** The day's [number_grabber]: [re.findall(r"\d+", s)], no signs. *)
Definition number_grabber (s : string) : list Z := grab false s.

Record Guess := mk_guess {
  opcode : Z;
  guesses : gset string
}.

(** The [methods] list of [guess], in its order. *)
Definition methods : list method :=
  [Addi; Addr; Bani; Banr; Bori; Borr; Eqir; Eqri; Eqrr;
   Gtir; Gtri; Gtrr; Muli; Mulr; Seti; Setr].

Section WithMax.
Context (MAX : option Z).

(** The [for method in methods] loop. *)
Fixpoint guess_loop (before after : list Z) (i : instruction) (ms : list method)
    (acc : gset string) : res (gset string) :=
  match ms with
  | [] => Ok acc
  | m :: ms' =>
      registers <- run_method MAX m before i ;;
      r <- py_get registers (output i) ;;
      t <- py_get after (output i) ;;
      guess_loop before after i ms'
        (if decide (r = t) then {[method_name m]} ∪ acc else acc)
  end.

Definition guess (before after : list Z) (i : instruction) : res Guess :=
  g <- guess_loop before after i methods ∅ ;;
  Ok (mk_guess (Instruction.opcode i) g).

Definition guess_from_lines (lines : list string) : res Guess :=
  l0 <- py_get lines 0 ;;
  l1 <- py_get lines 1 ;;
  l2 <- py_get lines 2 ;;
  i <- instruction_from_string l1 ;;
  guess (number_grabber l0) (number_grabber l2) i.

(** [for i in range(0, len(lines), 4): guess_from_lines(lines[i:i+3])]. *)
Fixpoint guesses_from_lines (lines : list string) : res (list Guess) :=
  match lines with
  | [] => Ok []
  | l0 :: l1 :: l2 :: _ :: rest =>
      g <- guess_from_lines [l0; l1; l2] ;;
      gs <- guesses_from_lines rest ;;
      Ok (g :: gs)
  | short => g <- guess_from_lines short ;; Ok [g]
  end.

(** Part 1: the number of samples that behave like three or more
    opcodes. *)
Definition part_1 (gs : list Guess) : nat :=
  length (filter (fun g => 3 <= size (guesses g))%nat gs).

End WithMax.

(** ** [test_find_unique_results]: eliminating opcodes *)

(** One iteration of [for guess in guesses] on the guess at position
    [k]; [opcodes] is the dict, as its items in insertion order.  A
    singleton is popped ([set.pop] empties it) and recorded; then every
    solved name is removed from the guess's set. *)
Definition eliminate (st : list Guess * list (Z * string)) (k : nat) : list Guess * list (Z * string) :=
  let '(gs, opcodes) := st in
  match gs !! k with
  | None => st
  | Some g =>
      if bool_decide (opcode g ∈ opcodes.*1) then st
      else
        let '(g1, opcodes1) :=
          if Nat.eqb (size (guesses g)) 1 then
            match elements (guesses g) with
            | m :: _ => (mk_guess (opcode g) ∅, opcodes ++ [(opcode g, m)])
            | [] => (g, opcodes)
            end
          else (g, opcodes) in
        let g2 := mk_guess (opcode g1)
                    (foldl (fun s solved => if bool_decide (solved ∈ s) then s ∖ {[solved]} else s)
                           (guesses g1) opcodes1.*2) in
        (<[k := g2]> gs, opcodes1)
  end.

(** One pass of [for guess in guesses]. *)
Definition elim_round (st : list Guess * list (Z * string)) : list Guess * list (Z * string) :=
  foldl eliminate st (seq 0 (length st.1)).

(** [while True: ...; if len(opcodes) == 16: break]; [None] is fuel
    exhaustion (the loop need not end). *)
Fixpoint elim_loop (fuel : nat) (st : list Guess * list (Z * string)) : option (list (Z * string)) :=
  match fuel with
  | O => None
  | S fuel' =>
      let st' := elim_round st in
      if Nat.eqb (length st'.2) 16 then Some st'.2 else elim_loop fuel' st'
  end.

(** [test_find_unique_results]: [guesses.sort(key=lambda g: len(g.guesses))]
    (stable), then the loop. *)
Definition find_unique_results (fuel : nat) (gs : list Guess) : option (list (Z * string)) :=
  elim_loop fuel (sort_by (fun a b => size (guesses a) <=? size (guesses b))%nat gs, []).

(** The invariant of the elimination loop for a true assignment
    [assign] of names to the opcodes [O] of the samples: the list keeps
    its opcodes, every unsolved guess still holds its true name, and the
    dict holds true names of distinct opcodes. *)
Definition elim_inv (assign : Z -> string) (O : list Z) (st : list Guess * list (Z * string)) : Prop :=
  opcode <$> st.1 = O /\
  Forall (fun g => opcode g ∈ st.2.*1 \/ assign (opcode g) ∈ guesses g) st.1 /\
  Forall (fun om => om.2 = assign om.1 /\ om.1 ∈ O) st.2 /\
  NoDup st.2.*1.

(** Sixteen samples whose guesses form a chain: the sample of opcode
    [o < 15] fits the methods at positions [o] and [o + 1] of [methods],
    the last one only its own.  The loop settles one opcode per pass. *)
Definition chain_assign (o : Z) : string := nth (Z.to_nat o) (method_name <$> methods) "".

Definition chain_guesses : list Guess :=
  (fun o => mk_guess (Z.of_nat o)
              (if Nat.eqb o 15 then {[chain_assign (Z.of_nat o)]}
               else {[chain_assign (Z.of_nat o); chain_assign (Z.of_nat (S o))]})) <$> seq 0 16.

(** ** Properties of the guesser *)

Lemma methods_complete m : In m methods.
Proof. destruct m; simpl; tauto. Qed.

Lemma guess_loop_spec MAX before after i ms acc out :
  guess_loop MAX before after i ms acc = Ok out ->
  forall name, name ∈ out <->
    name ∈ acc \/
    exists m, In m ms /\ method_name m = name /\
      exists registers v, run_method MAX m before i = Ok registers /\
        py_get registers (output i) = Ok v /\ py_get after (output i) = Ok v.
Proof.
  revert acc. induction ms as [|m ms IH]; intros acc H name; simpl in H.
  - injection H as <-. split; [auto|]. intros [Hn|(m & [] & _)]. exact Hn.
  - destruct (run_method MAX m before i) as [regs|e] eqn:Hr; simpl in H; [|discriminate].
    destruct (py_get regs (output i)) as [r|e] eqn:Hg; simpl in H; [|discriminate].
    destruct (py_get after (output i)) as [t|e] eqn:Ht; simpl in H; [|discriminate].
    rewrite (IH _ H name). case_decide as Hrt; subst.
    + rewrite elem_of_union, elem_of_singleton. split.
      * intros [[-> | Hn] | (m' & Hin & Hname & Hrest)]; [right; exists m | left | right; exists m'];
          simpl; eauto 10.
      * intros [Hn | (m' & [<- | Hin] & Hname & Hrest)]; eauto 10.
    + split.
      * intros [Hn | (m' & Hin & Hname & Hrest)]; [left | right; exists m']; simpl; eauto.
      * intros [Hn | (m' & [<- | Hin] & Hname & (regs' & v & Hr' & Hg' & Ht'))]; [left; exact Hn | | right; eauto 10].
        rewrite Hr in Hr'. injection Hr' as <-. congruence.
Qed.

(** C13: what [guess] computes. A guess keeps the sample's opcode, and a
    method name is among its guesses exactly when that method runs on
    the [before] registers without error and leaves in the output
    register the value [after] has there. *)
Theorem guess_spec MAX before after i g :
  guess MAX before after i = Ok g ->
  opcode g = Instruction.opcode i /\
  forall name, name ∈ guesses g <->
    exists m, method_name m = name /\
      exists registers v, run_method MAX m before i = Ok registers /\
        py_get registers (output i) = Ok v /\ py_get after (output i) = Ok v.
Proof.
  unfold guess. intros H.
  destruct (guess_loop MAX before after i methods ∅) as [out|e] eqn:Hl; simpl in H; [|discriminate].
  injection H as <-. split; [reflexivity|]. intros name; simpl.
  rewrite (guess_loop_spec _ _ _ _ _ _ _ Hl name). split.
  - intros [Hn | (m & _ & Hrest)]; [apply elem_of_empty in Hn; contradiction | exists m; exact Hrest].
  - intros (m & Hrest). right. exists m. split; [apply methods_complete | exact Hrest].
Qed.

(** The deduction is sound. When the [after] registers of a sample
    are what the device itself computes for the sample's instruction,
    the method [opcode_map] assigns to that opcode is among the
    guesses. *)
Theorem guess_contains_true_opcode MAX before after i g :
  execute MAX before i = Ok after ->
  guess MAX before after i = Ok g ->
  exists m, dict_get opcode_map (Instruction.opcode i) = Ok m /\ method_name m ∈ guesses g.
Proof.
  intros He Hg. destruct (execute_correct _ _ _ _ He) as (m & x & y & Hm & _ & _ & Hv & _).
  exists m. split; [exact Hm|].
  apply (proj2 (guess_spec _ _ _ _ _ Hg)). exists m. split; [reflexivity|].
  unfold execute in He. rewrite Hm in He. simpl in He. eauto.
Qed.

(** The sample of the puzzle text: [9 2 1 2] turning [3 2 1 1] into
    [3 2 2 1] behaves like exactly [addi], [mulr] and [seti]. *)
Theorem guess_sample :
  (g <- guess_from_lines None
        ["Before: [3, 2, 1, 1]"; "9 2 1 2"; "After:  [3, 2, 2, 1]"]%string ;;
   Ok (guesses g)) = Ok {["addi"; "mulr"; "seti"]}%string.
Proof. vm_compute. reflexivity. Qed.


Lemma guess_spec_witness :
  guess None [3; 2; 1; 1] [3; 2; 2; 1] (mk_instruction 9 2 1 2) =
    Ok (mk_guess 9 {["addi"; "mulr"; "seti"]}%string) /\
  opcode (mk_guess 9 {["addi"; "mulr"; "seti"]}%string) = 9 /\
  forall name, name ∈ guesses (mk_guess 9 {["addi"; "mulr"; "seti"]}%string) <->
    exists m, method_name m = name /\
      exists registers v, run_method None m [3; 2; 1; 1] (mk_instruction 9 2 1 2) = Ok registers /\
        py_get registers 2 = Ok v /\ py_get [3; 2; 2; 1] 2 = Ok v.
Proof.
  assert (H : guess None [3; 2; 1; 1] [3; 2; 2; 1] (mk_instruction 9 2 1 2) =
              Ok (mk_guess 9 {["addi"; "mulr"; "seti"]}%string)) by (vm_compute; reflexivity).
  split; [exact H|]. exact (guess_spec None _ _ _ _ H).
Defined.

Lemma guess_contains_true_opcode_witness :
  execute None [3; 2; 1; 1] (mk_instruction 9 2 1 2) = Ok [3; 2; 3; 1] /\
  guess None [3; 2; 1; 1] [3; 2; 3; 1] (mk_instruction 9 2 1 2) =
    Ok (mk_guess 9 {["addr"; "borr"]}%string) /\
  exists m, dict_get opcode_map 9 = Ok m /\
    method_name m ∈ guesses (mk_guess 9 {["addr"; "borr"]}%string).
Proof.
  assert (H1 : execute None [3; 2; 1; 1] (mk_instruction 9 2 1 2) = Ok [3; 2; 3; 1])
    by reflexivity.
  assert (H2 : guess None [3; 2; 1; 1] [3; 2; 3; 1] (mk_instruction 9 2 1 2) =
               Ok (mk_guess 9 {["addr"; "borr"]}%string)) by (vm_compute; reflexivity).
  split; [exact H1|]. split; [exact H2|].
  exact (guess_contains_true_opcode None _ _ _ _ H1 H2).
Defined.

(** ** Soundness of the elimination *)

Lemma remove_solved_keeps (S : gset string) (L : list string) x :
  x ∈ S -> x ∉ L ->
  x ∈ foldl (fun s solved => if bool_decide (solved ∈ s) then s ∖ {[solved]} else s) S L.
Proof.
  revert S. induction L as [|y L IH]; intros S Hx HL; simpl; [done|].
  apply not_elem_of_cons in HL as [Hxy HL]. apply IH; [|done].
  case_bool_decide; [|done]. apply elem_of_difference. rewrite elem_of_singleton. done.
Qed.

Lemma size_1_same (S : gset string) x y : size S = 1%nat -> x ∈ S -> y ∈ S -> x = y.
Proof. intros (z & Hz)%size_1_elem_of. rewrite Hz, !elem_of_singleton. intros -> ->. done. Qed.

Section Elimination.
Context (assign : Z -> string) (O : list Z).
Hypothesis Hinj : forall o1 o2, o1 ∈ O -> o2 ∈ O -> assign o1 = assign o2 -> o1 = o2.

(** A solved name is never the true name of an unsolved opcode. *)
Lemma solved_not_true ops o :
  Forall (fun om => om.2 = assign om.1 /\ om.1 ∈ O) ops -> o ∈ O -> o ∉ ops.*1 -> assign o ∉ ops.*2.
Proof.
  intros Hops Ho Hn (om & Heq & Hin)%list_elem_of_fmap. apply Hn, list_elem_of_fmap. exists om.
  split; [|done]. rewrite Forall_forall in Hops. destruct (Hops om Hin) as [E Hom].
  apply Hinj; [done|done|]. congruence.
Qed.

Lemma eliminate_inv st k : elim_inv assign O st -> elim_inv assign O (eliminate st k).
Proof.
  destruct st as [gs ops]. intros (HO & Hgs & Hops & Hnd). simpl in HO, Hgs, Hops, Hnd. unfold eliminate.
  destruct (gs !! k) as [g|] eqn:Eg; [|done]. case_bool_decide as Hs; [done|].
  assert (HgO : opcode g ∈ O) by (rewrite <- HO; apply list_elem_of_fmap; exists g; split; [done|]; eapply list_elem_of_lookup_2, Eg).
  assert (Htrue : assign (opcode g) ∈ guesses g).
  { rewrite Forall_lookup in Hgs. destruct (Hgs k g Eg); [contradiction|done]. }
  assert (Hfix : forall g2, opcode g2 = opcode g -> opcode <$> <[k := g2]> gs = O).
  { intros g2 E. rewrite list_fmap_insert, E, list_insert_id; [done|]. rewrite list_lookup_fmap, Eg. done. }
  destruct (Nat.eqb_spec (size (guesses g)) 1) as [H1|H1]; [destruct (elements (guesses g)) as [|m ms] eqn:Em|].
  - (* unreachable: a set of size 1 has an element *)
    split_and!; [apply Hfix; done| |done|done]. apply Forall_insert; [done|]. right.
    apply remove_solved_keeps; [done|]. apply solved_not_true; done.
  - assert (Hm : m = assign (opcode g)).
    { apply (size_1_same (guesses g)); [done| |done]. apply elem_of_elements. rewrite Em. left. }
    subst m. cbn. split_and!.
    + apply Hfix. done.
    + apply Forall_insert.
      * eapply Forall_impl; [exact Hgs|]. intros h [Hh|Hh]; [left|right; done].
        cbn [fst snd]. rewrite fmap_app, elem_of_app. left. done.
      * left. cbn [fst snd opcode]. rewrite fmap_app, elem_of_app. right. left.
    + cbn [fst snd]. apply Forall_app. split; [done|]. apply Forall_singleton. done.
    + cbn [fst snd]. rewrite fmap_app. apply NoDup_app. split_and!; [done| |apply NoDup_singleton].
      intros o Ho ->%list_elem_of_singleton. contradiction.
  - cbn. split_and!; [apply Hfix; done| |done|done]. apply Forall_insert; [done|]. right.
    apply remove_solved_keeps; [done|]. apply solved_not_true; done.
Qed.

Lemma elim_round_inv st : elim_inv assign O st -> elim_inv assign O (elim_round st).
Proof.
  unfold elim_round. generalize (seq 0 (length st.1)) as ks. intros ks. revert st.
  induction ks as [|k ks IH]; intros st Hst; simpl; [done|]. apply IH, eliminate_inv, Hst.
Qed.

Lemma elim_loop_sound fuel st ops :
  elim_inv assign O st -> elim_loop fuel st = Some ops ->
  length ops = 16%nat /\ NoDup ops.*1 /\ Forall (fun om => om.2 = assign om.1) ops.
Proof.
  revert st. induction fuel as [|fuel IH]; intros st Hst; cbn [elim_loop]; [discriminate|].
  pose proof (elim_round_inv st Hst) as Hr.
  destruct (Nat.eqb_spec (length (elim_round st).2) 16) as [E|E]; [|apply IH, Hr].
  intros [= <-]. destruct Hr as (_ & _ & Hops & Hnd). split_and!; [done|done|].
  eapply Forall_impl; [exact Hops|]. intros om [H _]. exact H.
Qed.

End Elimination.

(** C29: [test_find_unique_results] is sound.  Given samples whose guesses
    all contain the name a true assignment gives their opcode, with
    distinct opcodes of the samples given distinct names, when the loop
    ends its dict has sixteen distinct opcodes, each mapped to its true
    name.  (The loop need not end: samples that leave two opcodes
    undecided keep it running for ever.) *)
Theorem find_unique_results_sound assign fuel gs ops :
  Forall (fun g => assign (opcode g) ∈ guesses g) gs ->
  Forall (fun g1 => Forall (fun g2 => assign (opcode g1) = assign (opcode g2) -> opcode g1 = opcode g2) gs) gs ->
  find_unique_results fuel gs = Some ops ->
  length ops = 16%nat /\ NoDup ops.*1 /\ Forall (fun om => om.2 = assign om.1) ops.
Proof.
  intros Htrue Hinj. unfold find_unique_results.
  set (sorted := sort_by _ gs). assert (Hp : sorted ≡ₚ gs) by apply sort_by_perm.
  apply (elim_loop_sound assign (opcode <$> sorted)).
  - intros o1 o2 (g1 & -> & H1)%list_elem_of_fmap (g2 & -> & H2)%list_elem_of_fmap.
    rewrite Hp in H1, H2. rewrite Forall_forall in Hinj. specialize (Hinj g1 H1).
    rewrite Forall_forall in Hinj. apply Hinj, H2.
  - split_and!; [done| |constructor|constructor]. rewrite Hp.
    eapply Forall_impl; [exact Htrue|]. intros g H. right. done.
Qed.

Lemma find_unique_results_sound_witness :
  exists ops, find_unique_results 40 chain_guesses = Some ops /\
    length ops = 16%nat /\ NoDup ops.*1 /\ Forall (fun om => om.2 = chain_assign om.1) ops.
Proof.
  eexists. split; [vm_compute; reflexivity|].
  apply (find_unique_results_sound chain_assign 40 chain_guesses);
    [apply (bool_decide_unpack _); vm_compute; reflexivity..|vm_compute; reflexivity].
Defined.

End InstructionGuesser.
