(* ===== verification/Day19.v ===== *)
(** * Day 19: the divisor-sum shortcut (src/day_19.py)

    The day-19 elf program spends its time in a double loop that adds to
    register 0 every divisor of register 2.  [fastforward_state] replaces
    the rest of that loop by a Python [while] loop over [r4], and the two
    tests drive [execute_instructions_with_analysis] by hand, calling
    [fastforward_state] whenever the device stands at pc 2 with a
    non-zero register 4.

    This file models [fastforward_state] (its loop, the unpacking of the
    six registers and the [device.pc = 13] write) and the two drivers,
    proves the loop equal to a reference divisor sum and characterises
    its errors, and checks the inner loop of the listing in the notes of
    src/day_19.py (instructions 2..11 under [#ip 5]) symbolically: one
    pass of it from pc 2 adds [r4] to [r0] exactly when [r4] divides
    [r2], which is one iteration of [fastforward_state]'s loop. *)

From Stdlib Require Import ZArith Lia String.
From stdpp Require Import strings.
From S2P Require Import Prelude Decoding Machine Device JumpDevice.
Import Instruction JumpInstruction ChronalDeviceWithJumps.

Open Scope Z_scope.
Open Scope py_scope.

Module SpeculativeElfsecution.

(** ** [fastforward_state] *)

(** [while r4 <= r2: if r2 % r4 == 0: r0 += r4; r4 += 1], with fuel;
    [ff_fuel] below is always enough (see [ff_while_sum]). *)
Fixpoint ff_while (fuel : nat) (r0 r2 r4 : Z) : res (Z * Z) :=
  match fuel with
  | O => Ok (r0, r4)
  | S fuel' =>
      if r4 <=? r2 then
        m <- py_mod r2 r4 ;;
        ff_while fuel' (if m =? 0 then r0 + r4 else r0) r2 (r4 + 1)
      else Ok (r0, r4)
  end.

(** The loop runs [r2 - r4 + 1] times when that is positive; one more
    unit of fuel makes it stop on its own condition. *)
Definition ff_fuel (r2 r4 : Z) : nat := S (Z.to_nat (r2 - r4 + 1)).

(** [r0, r1, r2, r3, r4, r5 = device.registers] (a [ValueError] unless
    there are exactly six), the loop, then [device.registers = [...]]
    and [device.pc = 13]. *)
Definition fastforward_state (st : state) : res state :=
  match registers st with
  | [r0; r1; r2; r3; r4; r5] =>
      res04 <- ff_while (ff_fuel r2 r4) r0 r2 r4 ;;
      let '(r0', r4') := res04 in
      set_pc (mk_state [r0'; r1; r2; r3; r4'; r5] (program_register st)) 13
  | _ => Err ValueError
  end.

Section Drivers.
Context `{RM : RegisterMachine}.

(** The [while instruction:] loop of [test_part_1] and [test_part_2]:
    at pc 2 with [registers[4] != 0] (read only when the pc test holds)
    fast-forward and [continue], otherwise resume the generator; [None]
    when the fuel runs out. *)
Fixpoint drive (fuel : nat) (code : list item) (st : state) : res (option state) :=
  match fuel with
  | O => Ok None
  | S fuel' =>
      p <- pc st ;;
      shortcut <- (if p =? 2 then r4 <- py_get (registers st) 4 ;; Ok (negb (r4 =? 0))
                   else Ok false) ;;
      if shortcut then
        st' <- fastforward_state st ;; drive fuel' code st'
      else
        r <- step code st ;;
        match r with
        | Halted => Ok (Some st)
        | Yielded _ st' => drive fuel' code st'
        end
  end.

(** A test: the device built from [regs], the program loaded and the
    first [next(program)] run, then the loop; the printed value is
    [device.registers[0]]. *)
Definition solve (regs : option (list Z)) (fuel : nat) (prog : list item) : res (option Z) :=
  loaded <- load prog ;;
  let '(r, code) := loaded in
  let st := mk_state (registers (init regs)) r in
  first <- step code st ;;
  fin <- match first with
         | Halted => Ok (Some st)
         | Yielded _ st1 => drive fuel code st1
         end ;;
  match fin with
  | None => Ok None
  | Some st' => v <- py_get (registers st') 0 ;; Ok (Some v)
  end.

(** [test_part_1]: [ChronalDeviceWithJumps()], six zero registers. *)
Definition part_1 := solve None.

(** [test_part_2]: [ChronalDeviceWithJumps([1, 0, 0, 0, 0, 0])]. *)
Definition part_2 := solve (Some [1; 0; 0; 0; 0; 0]).

End Drivers.

(** ** The reference: the sum of the divisors of [n] in [lo..hi] *)

Definition zrange (lo hi : Z) : list Z :=
  map (fun k => lo + Z.of_nat k) (seq 0 (Z.to_nat (hi - lo + 1))).

Definition divisors_in (lo hi n : Z) : list Z :=
  List.filter (fun d => n mod d =? 0) (zrange lo hi).

Definition sum (xs : list Z) : Z := fold_right Z.add 0 xs.

(** ** The inner loop of the notes *)

(** Instructions 2..11 as the notes of src/day_19.py list them. *)
Definition fragment_lines : list string := [
  "seti 1 5 3"; "mulr 4 3 1"; "eqrr 1 2 1"; "addr 1 5 5"; "addi 5 1 5";
  "addr 4 0 0"; "addi 3 1 3"; "gtrr 3 2 1"; "addr 5 1 5"; "seti 2 5 5"]%string.

Definition fragment : list item := [
  IPlain (mk_instruction 2 1 5 3); IPlain (mk_instruction 1 4 3 1);
  IPlain (mk_instruction 11 1 2 1); IPlain (mk_instruction 9 1 5 5);
  IPlain (mk_instruction 10 5 1 5); IPlain (mk_instruction 9 4 0 0);
  IPlain (mk_instruction 10 3 1 3); IPlain (mk_instruction 3 3 2 1);
  IPlain (mk_instruction 9 5 1 5); IPlain (mk_instruction 2 2 5 5)].

(** A program whose instructions 2..11 are the fragment; instructions 0
    and 1 and those from 12 on are not in the notes and are left
    arbitrary. *)
Definition fragment_program (i0 i1 : item) (rest : list item) : list item :=
  i0 :: i1 :: fragment ++ rest.

(** The state of the program at the top of the inner loop (pc 3) and
    where it leaves the loop (pc 12); the pc register is 5. *)
Definition at_pc (r0 r1 r2 r3 r4 p : Z) : state := mk_state [r0; r1; r2; r3; r4; p] 5.

(** Whether [r4 * j' = r2] for some [j' < j]: what the inner loop has
    added to [r0] when it reaches counter [j]. *)
Definition hit (r2 r4 j : Z) : Z := if (r2 mod r4 =? 0) && (r2 / r4 <? j) then r4 else 0.
(** ** The loop of [fastforward_state] against the reference *)

Lemma zrange_cons lo hi : lo <= hi -> zrange lo hi = lo :: zrange (lo + 1) hi.
Proof.
  intros H. unfold zrange.
  replace (Z.to_nat (hi - lo + 1)) with (S (Z.to_nat (hi - (lo + 1) + 1))) by lia.
  simpl. f_equal; [lia|]. rewrite <- seq_shift, map_map. apply map_ext. intros k. lia.
Qed.

Lemma zrange_nil lo hi : hi < lo -> zrange lo hi = [].
Proof. intros H. unfold zrange. replace (Z.to_nat (hi - lo + 1)) with 0%nat by lia. reflexivity. Qed.

Lemma sum_divisors_in_cons lo hi n :
  lo <= hi ->
  sum (divisors_in lo hi n) = (if n mod lo =? 0 then lo else 0) + sum (divisors_in (lo + 1) hi n).
Proof.
  intros H. unfold divisors_in. rewrite (zrange_cons lo hi H). simpl.
  destruct (n mod lo =? 0); reflexivity.
Qed.

Lemma sum_divisors_in_nil lo hi n : hi < lo -> sum (divisors_in lo hi n) = 0.
Proof. intros H. unfold divisors_in. rewrite zrange_nil by exact H. reflexivity. Qed.

Lemma ff_while_enough r2 : forall fuel r0 r4,
  1 <= r4 -> (Z.to_nat (r2 - r4 + 1) < fuel)%nat ->
  ff_while fuel r0 r2 r4 = Ok (r0 + sum (divisors_in r4 r2 r2), Z.max r4 (r2 + 1)).
Proof.
  induction fuel as [|fuel IH]; intros r0 r4 H1 Hf; [lia|]. simpl.
  destruct (Z.leb_spec r4 r2).
  - rewrite py_mod_Ok by lia. simpl. rewrite IH by lia.
    rewrite (sum_divisors_in_cons r4) by lia.
    destruct (r2 mod r4 =? 0); do 2 f_equal; lia.
  - rewrite sum_divisors_in_nil by lia. do 2 f_equal; lia.
Qed.

Lemma ff_while_zero r2 : forall fuel r0 r4,
  r4 <= 0 <= r2 -> (Z.to_nat (- r4) < fuel)%nat ->
  ff_while fuel r0 r2 r4 = Err ZeroDivisionError.
Proof.
  induction fuel as [|fuel IH]; intros r0 r4 H Hf; [lia|]. simpl.
  destruct (Z.leb_spec r4 r2); [|lia].
  destruct (Z.eq_dec r4 0) as [-> | Hne]; [reflexivity|].
  rewrite py_mod_Ok by lia. simpl. apply IH; lia.
Qed.

Lemma ff_while_Ok r2 : forall fuel r0 r4,
  0 < r4 \/ r2 < 0 -> exists r0' r4', ff_while fuel r0 r2 r4 = Ok (r0', r4').
Proof.
  induction fuel as [|fuel IH]; intros r0 r4 H; simpl; [eauto|].
  destruct (Z.leb_spec r4 r2); [|eauto].
  rewrite py_mod_Ok by lia. simpl. apply IH. lia.
Qed.

(** C14: equivalence with the reference.  From any [r4 >= 1], the loop of
    [fastforward_state] stops by its own condition within [ff_fuel]
    iterations, adds to [r0] the sum of the divisors of [r2] from [r4]
    to [r2], and leaves [r4] at [max r4 (r2 + 1)]. *)
Theorem ff_while_sum r0 r2 r4 :
  1 <= r4 ->
  ff_while (ff_fuel r2 r4) r0 r2 r4 = Ok (r0 + sum (divisors_in r4 r2 r2), Z.max r4 (r2 + 1)).
Proof. intros H. apply ff_while_enough; unfold ff_fuel; lia. Qed.

Lemma in_zrange lo hi d : In d (zrange lo hi) <-> lo <= d <= hi.
Proof.
  unfold zrange. rewrite in_map_iff. split.
  - intros (k & <- & Hk). apply in_seq in Hk. lia.
  - intros H. exists (Z.to_nat (d - lo)). split; [lia|]. apply in_seq. lia.
Qed.

(** The reference is what it says: the divisors of [n] between [lo] and
    [hi]. *)
Lemma in_divisors_in lo hi n d :
  In d (divisors_in lo hi n) <-> lo <= d <= hi /\ n mod d = 0.
Proof.
  unfold divisors_in. rewrite filter_In, in_zrange, Z.eqb_eq. reflexivity.
Qed.

(** C16: the errors of [fastforward_state].  On a device whose registers
    are [[r0; ...; r5]], it fails exactly with [ZeroDivisionError] when
    [r4 <= 0 <= r2] (the loop reaches [r2 % 0]) and with [IndexError]
    when the program register is outside the six registers; any other
    number of registers is a [ValueError]. *)
Theorem fastforward_state_Err st e :
  fastforward_state st = Err e <->
  (length (registers st) <> 6%nat /\ e = ValueError) \/
  (exists r0 r1 r2 r3 r4 r5, registers st = [r0; r1; r2; r3; r4; r5] /\
     ((r4 <= 0 <= r2 /\ e = ZeroDivisionError) \/
      (~ (r4 <= 0 <= r2) /\ py_index 6 (program_register st) = None /\ e = IndexError))).
Proof.
  unfold fastforward_state.
  destruct (registers st) as [|r0 [|r1 [|r2 [|r3 [|r4 [|r5 [|x xs]]]]]]] eqn:Hr;
    try (split; [intros [= <-]; left; split; [simpl; lia | reflexivity]
                | intros [[_ ->] | (? & ? & ? & ? & ? & ? & Heq & _)]; [reflexivity | discriminate]]).
  destruct (decide (r4 <= 0 <= r2)) as [Hz | Hz].
  - rewrite ff_while_zero by (unfold ff_fuel; lia). simpl. split.
    + intros [= <-]. right. do 6 eexists. split; [reflexivity | left; auto].
    + intros [[H _] | (? & ? & ? & ? & ? & ? & [= <- <- <- <- <- <-] & [[_ ->] | [H _]])];
        [simpl in H; lia | reflexivity | contradiction].
  - assert (Hok : exists r0' r4', ff_while (ff_fuel r2 r4) r0 r2 r4 = Ok (r0', r4')).
    { apply ff_while_Ok. lia. }
    destruct Hok as (r0' & r4' & ->). simpl. unfold set_pc, py_set. cbn [program_register registers length].
    destruct (py_index 6 (program_register st)) eqn:Hp; simpl; split.
    + discriminate.
    + intros [[H _] | (? & ? & ? & ? & ? & ? & [= <- <- <- <- <- <-] & [[H _] | (_ & H & _)])];
        [simpl in H; lia | contradiction | congruence].
    + intros [= <-]. right. do 6 eexists. split; [reflexivity | right; auto].
    + intros [[H _] | (? & ? & ? & ? & ? & ? & [= <- <- <- <- <- <-] & [[H _] | (_ & _ & ->)])];
        [simpl in H; lia | contradiction | reflexivity].
Qed.

(** ** The inner loop of the notes, run symbolically *)

Local Abbreviation elf := (ChronalDevice.chronal_machine None).

(** Comparisons on symbolic registers are decided by the proofs. *)
#[local] Arguments Z.gtb : simpl never.

Lemma mul_eq_iff_div r2 r4 j :
  0 < r4 -> r4 * j = r2 <-> r2 mod r4 = 0 /\ r2 / r4 = j.
Proof.
  intros H. pose proof (Z.div_mod r2 r4 ltac:(lia)). pose proof (Z.mod_pos_bound r2 r4 H).
  split.
  - intros <-. rewrite Z.mul_comm, Z.mod_mul, Z.div_mul by lia. auto.
  - intros [Hm Hd]. lia.
Qed.

(** One pass of the loop body adds the test for [j] to [hit]. *)
Lemma hit_succ r2 r4 j :
  0 < r4 -> hit r2 r4 (j + 1) = hit r2 r4 j + (if r4 * j =? r2 then r4 else 0).
Proof.
  intros H. unfold hit. destruct (Z.eqb_spec (r4 * j) r2) as [E | E].
  - apply mul_eq_iff_div in E as [Hm Hd]; [|exact H]. rewrite Hm. simpl.
    destruct (Z.ltb_spec (r2 / r4) j), (Z.ltb_spec (r2 / r4) (j + 1)); lia.
  - destruct (Z.eqb_spec (r2 mod r4) 0); simpl; [|lia].
    destruct (Z.ltb_spec (r2 / r4) j), (Z.ltb_spec (r2 / r4) (j + 1)); try lia.
    exfalso. apply E, mul_eq_iff_div; [exact H | split; [assumption | lia]].
Qed.

Lemma hit_first r2 r4 : 0 < r4 -> 1 <= r2 -> hit r2 r4 1 = 0.
Proof.
  intros H4 H2. unfold hit. pose proof (Z.div_mod r2 r4 ltac:(lia)).
  destruct (Z.eqb_spec (r2 mod r4) 0); simpl; [|reflexivity].
  destruct (Z.ltb_spec (r2 / r4) 1); [nia | reflexivity].
Qed.

Lemma hit_last r2 r4 :
  0 < r4 -> 1 <= r2 -> hit r2 r4 (r2 + 1) = if r2 mod r4 =? 0 then r4 else 0.
Proof.
  intros H4 H2. unfold hit. pose proof (Z.div_mod r2 r4 ltac:(lia)).
  pose proof (Z.mod_pos_bound r2 r4 H4).
  destruct (r2 mod r4 =? 0); simpl; [|reflexivity].
  destruct (Z.ltb_spec (r2 / r4) (r2 + 1)); [reflexivity | nia].
Qed.

Section Fragment.
Context (i0 i1 : item) (rest : list item).

Lemma fragment_length : 12 <= Z.of_nat (length (fragment_program i0 i1 rest)).
Proof. cbn [fragment_program fragment app length]. lia. Qed.

Lemma fragment_fetch k :
  2 <= k <= 11 -> py_get (fragment_program i0 i1 rest) k = py_get fragment (k - 2).
Proof.
  intros Hk. unfold fragment_program. rewrite !py_get_cons_pos by lia.
  replace (k - 1 - 1) with (k - 2) by lia. apply py_get_app_l. simpl. lia.
Qed.

(** One step of the program inside the fragment; [cond] rewrites the
    comparison the instruction makes, if any. *)
Ltac fstep cond :=
  eapply reaches_step;
  [ apply step_Yielded;
    erewrite step_fetch; cycle 1;
    [ reflexivity
    | pose proof fragment_length; lia
    | rewrite fragment_fetch by lia; reflexivity
    | unfold inc_pc, set_pc, pc; simpl;
      unfold ChronalDevice.execute, ChronalDevice.run_method; simpl;
      unfold ChronalDevice.mulr, ChronalDevice.seti, ChronalDevice.gtrr,
        ChronalDevice.addr, ChronalDevice.addi, ChronalDevice.eqrr,
        ChronalDevice.set_register; simpl; cond; simpl; reflexivity ]
  | ].

Lemma body_continue a x r2 j r4 :
  j + 1 <= r2 ->
  @reaches elf (fragment_program i0 i1 rest) (at_pc a x r2 j r4 3)
    (at_pc (a + if r4 * j =? r2 then r4 else 0) 0 r2 (j + 1) r4 3).
Proof.
  intros Hj. assert (G : (j + 1 >? r2) = false) by lia. unfold at_pc.
  destruct (r4 * j =? r2) eqn:E;
    fstep idtac; fstep ltac:(rewrite E); fstep idtac; fstep idtac; fstep idtac;
    fstep ltac:(rewrite G); fstep idtac; fstep idtac.
  - rewrite (Z.add_comm a r4). constructor.
  - rewrite Z.add_0_r. constructor.
Qed.

Lemma body_exit a x r2 j r4 :
  r2 < j + 1 ->
  @reaches elf (fragment_program i0 i1 rest) (at_pc a x r2 j r4 3)
    (at_pc (a + if r4 * j =? r2 then r4 else 0) 1 r2 (j + 1) r4 12).
Proof.
  intros Hj. assert (G : (j + 1 >? r2) = true) by lia. unfold at_pc.
  destruct (r4 * j =? r2) eqn:E;
    fstep idtac; fstep ltac:(rewrite E); fstep idtac; fstep idtac; fstep idtac;
    fstep ltac:(rewrite G); fstep idtac.
  - rewrite (Z.add_comm a r4). constructor.
  - rewrite Z.add_0_r. constructor.
Qed.

(** The loop from counter [j] to its exit, by induction on [r2 - j]. *)
Lemma loop_from r0 r2 r4 : 0 < r4 ->
  forall n j x, Z.to_nat (r2 - j) = n -> 1 <= j <= r2 ->
  @reaches elf (fragment_program i0 i1 rest) (at_pc (r0 + hit r2 r4 j) x r2 j r4 3)
    (at_pc (r0 + hit r2 r4 (r2 + 1)) 1 r2 (r2 + 1) r4 12).
Proof.
  intros H4. induction n as [|n IH]; intros j x Hn Hj.
  - assert (j = r2) as -> by lia.
    rewrite hit_succ by exact H4. rewrite Z.add_assoc. apply body_exit. lia.
  - eapply reaches_trans; [apply body_continue; lia|].
    rewrite <- Z.add_assoc, <- hit_succ by exact H4. apply IH; lia.
Qed.

(** C15: the inner loop of the notes tests one divisor.  In any program
    whose instructions 2..11 are those of the notes of src/day_19.py
    (pc register 5), the device run from pc 2 with [r4 >= 1] and
    [r2 >= 1] reaches pc 12 with [r0] increased by [r4] exactly when
    [r2 % r4 == 0], [r3 = r2 + 1] and [r1 = 1]: the register update of
    one iteration of [fastforward_state]'s loop. *)
Theorem inner_loop_tests_divisor r0 r1 r2 r3 r4 :
  1 <= r4 -> 1 <= r2 ->
  @reaches elf (fragment_program i0 i1 rest) (at_pc r0 r1 r2 r3 r4 2)
    (at_pc (if r2 mod r4 =? 0 then r0 + r4 else r0) 1 r2 (r2 + 1) r4 12).
Proof.
  intros H4 H2. unfold at_pc. fstep idtac.
  replace (if r2 mod r4 =? 0 then r0 + r4 else r0) with (r0 + hit r2 r4 (r2 + 1))
    by (rewrite hit_last by lia; destruct (r2 mod r4 =? 0); lia).
  rewrite <- (Z.add_0_r r0) at 1. rewrite <- (hit_first r2 r4) by lia.
  apply (loop_from r0 r2 r4 ltac:(lia) (Z.to_nat (r2 - 1))); lia.
Qed.

End Fragment.

(** The notes' text is the fragment. *)
Lemma fragment_parses : JumpInstruction.instructions_from_lines fragment_lines = Ok fragment.
Proof. reflexivity. Qed.

(** A concrete fast-forward.  From pc 2 with [r2 = 10] and [r4 = 1]
    the shortcut adds 1 + 2 + 5 + 10 to [r0], leaves [r4 = 11] and sets
    the pc register (here register 5) to 13. *)
Theorem fastforward_state_sample :
  fastforward_state (mk_state [0; 0; 10; 1; 1; 2] 5) = Ok (mk_state [18; 0; 10; 1; 11; 13] 5).
Proof. reflexivity. Qed.

Lemma ff_while_sum_witness :
  1 <= 1 /\ ff_while (ff_fuel 10 1) 0 10 1 = Ok (0 + sum (divisors_in 1 10 10), Z.max 1 (10 + 1)).
Proof. split; [lia | apply ff_while_sum; lia]. Defined.

Lemma inner_loop_tests_divisor_witness :
  1 <= 5 /\ 1 <= 10 /\
  @reaches elf (fragment_program (IPlain (mk_instruction 0 0 0 0)) (IPlain (mk_instruction 0 0 0 0)) [])
    (at_pc 0 0 10 0 5 2) (at_pc (if 10 mod 5 =? 0 then 0 + 5 else 0) 1 10 (10 + 1) 5 12).
Proof.
  split; [lia | split; [lia|]]. apply inner_loop_tests_divisor; lia.
Defined.

End SpeculativeElfsecution.
