(* ===== verification/Day21.v ===== *)
(** * Day 21: the activation program and its patched drivers (src/day_21.py)

    The puzzle input of day 21 is an elf program; its listing is in the
    notes of src/day_21.py (31 instructions under [#ip 1]).  The two tests
    drive [ChronalDeviceWithJumps.execute_instructions_with_analysis]
    by hand and, after every resumption, patch the device when the pc is
    19 ([registers[5] = registers[3] // 256]) to skip a slow counting
    loop; part 2 also records the value compared with register 0 at pc
    29 until it repeats.  This file models the program, the patch and
    both drivers, and proves the patch sound: from every state in which
    the loop at instructions 18..25 arrives at pc 19, the plain device
    and the patched driver reach the same state at pc 26. *)

From Stdlib Require Import ZArith Lia String.
From stdpp Require Import strings gmap.
From S2P Require Import Prelude Decoding Machine Device JumpDevice.
Import Instruction JumpInstruction ChronalDeviceWithJumps.

Open Scope Z_scope.
Open Scope py_scope.

Module ChronalConversion.

(** The program of the notes, one line per element. *)
Definition day21_program : list string := [
   "#ip 1"; "seti 123 0 4"; "bani 4 456 4"; "eqri 4 72 4";
   "addr 4 1 1"; "seti 0 0 1"; "seti 0 2 4"; "bori 4 65536 3";
   "seti 10552971 1 4"; "bani 3 255 5"; "addr 4 5 4"; "bani 4 16777215 4";
   "muli 4 65899 4"; "bani 4 16777215 4"; "gtir 256 3 5"; "addr 5 1 1";
   "addi 1 1 1"; "seti 27 7 1"; "seti 0 1 5"; "addi 5 1 2";
   "muli 2 256 2"; "gtrr 2 3 2"; "addr 2 1 1"; "addi 1 1 1";
   "seti 25 0 1"; "addi 5 1 5"; "seti 17 2 1"; "setr 5 7 3";
   "seti 7 8 1"; "eqrr 4 0 5"; "addr 5 1 1"; "seti 5 0 1"]%string.

(** [device.registers[5] = device.registers[3] // 256]. *)
Definition patch (st : state) : res state :=
  v <- py_get (registers st) 3 ;;
  regs <- py_set (registers st) 5 (v / 256) ;;
  Ok (mk_state regs (program_register st)).

(** [if device.pc == 19: ...], run after every resumption. *)
Definition hook19 (st : state) : res state :=
  p <- pc st ;;
  if p =? 19 then patch st else Ok st.

(** The program after [#ip 1] is popped: the literal form of
    [day21_program] (see [day21_load]). *)
Definition day21_code : list item := [
   IPlain (mk_instruction 2 123 0 4); IPlain (mk_instruction 8 4 456 4);
   IPlain (mk_instruction 7 4 72 4); IPlain (mk_instruction 9 4 1 1);
   IPlain (mk_instruction 2 0 0 1); IPlain (mk_instruction 2 0 2 4);
   IPlain (mk_instruction 4 4 65536 3); IPlain (mk_instruction 2 10552971 1 4);
   IPlain (mk_instruction 8 3 255 5); IPlain (mk_instruction 9 4 5 4);
   IPlain (mk_instruction 8 4 16777215 4); IPlain (mk_instruction 15 4 65899 4);
   IPlain (mk_instruction 8 4 16777215 4); IPlain (mk_instruction 0 256 3 5);
   IPlain (mk_instruction 9 5 1 1); IPlain (mk_instruction 10 1 1 1);
   IPlain (mk_instruction 2 27 7 1); IPlain (mk_instruction 2 0 1 5);
   IPlain (mk_instruction 10 5 1 2); IPlain (mk_instruction 15 2 256 2);
   IPlain (mk_instruction 3 2 3 2); IPlain (mk_instruction 9 2 1 1);
   IPlain (mk_instruction 10 1 1 1); IPlain (mk_instruction 2 25 0 1);
   IPlain (mk_instruction 10 5 1 5); IPlain (mk_instruction 2 17 2 1);
   IPlain (mk_instruction 14 5 7 3); IPlain (mk_instruction 2 7 8 1);
   IPlain (mk_instruction 11 4 0 5); IPlain (mk_instruction 9 5 1 1);
   IPlain (mk_instruction 2 5 0 1)].

Section Drivers.
Context `{RM : RegisterMachine}.

(** The [while instruction:] loop of [test_part_1]: resume, then patch;
    [None] when the fuel runs out. *)
Fixpoint p1_loop (fuel : nat) (code : list item) (st : state) : res (option state) :=
  match fuel with
  | O => Ok None
  | S fuel' =>
      r <- step code st ;;
      match r with
      | Halted => st' <- hook19 st ;; Ok (Some st')
      | Yielded _ st1 =>
          st2 <- hook19 st1 ;;
          p1_loop fuel' code st2
      end
  end.

(** [test_part_1]: the device starts from [103548, 0, 0, 0, 0, 0]; the
    first [next(program)] loads the program and runs the first step. *)
Definition part_1 (fuel : nat) (lines : list string) : res (option state) :=
  prog <- instructions_from_lines lines ;;
  loaded <- load prog ;;
  let '(r, code) := loaded in
  let st := mk_state [103548; 0; 0; 0; 0; 0] r in
  first <- step code st ;;
  match first with
  | Halted => Ok (Some st)
  | Yielded _ st1 => p1_loop fuel code st1
  end.

(** The loop of [test_part_2]: after the patch, at pc 29 the value of
    register 4 is looked up in [seen]; a repeat breaks the loop, a new
    value is recorded as [last]. *)
Fixpoint p2_loop (fuel : nat) (code : list item) (st : state) (seen : gset Z) (last : Z)
    : res (option Z) :=
  match fuel with
  | O => Ok None
  | S fuel' =>
      r <- step code st ;;
      let '(more, st1) := match r with Halted => (false, st) | Yielded _ s => (true, s) end in
      st2 <- hook19 st1 ;;
      p <- pc st2 ;;
      if p =? 29 then
        r4 <- py_get (registers st2) 4 ;;
        if decide (r4 ∈ seen) then Ok (Some last)
        else if more then p2_loop fuel' code st2 ({[r4]} ∪ seen) r4 else Ok (Some r4)
      else if more then p2_loop fuel' code st2 seen last else Ok (Some last)
  end.

Definition part_2 (fuel : nat) (lines : list string) : res (option Z) :=
  prog <- instructions_from_lines lines ;;
  loaded <- load prog ;;
  let '(r, code) := loaded in
  let st := mk_state [0; 0; 0; 0; 0; 0] r in
  first <- step code st ;;
  match first with
  | Halted => Ok (Some 0)
  | Yielded _ st1 =>
      last <- py_get (registers st1) 4 ;;
      p2_loop fuel code st1 ∅ last
  end.

(** The patched execution as a relation: a step of the device followed
    by the patch. *)
Inductive hreaches (code : list item) : state -> state -> Prop :=
  | hreaches_refl st : hreaches code st st
  | hreaches_step st it st1 st2 st3 :
      jstep code st it st1 -> hook19 st1 = Ok st2 -> hreaches code st2 st3 ->
      hreaches code st st3.

End Drivers.

(** ** Symbolic execution of the counting loop (instructions 18..25) *)

Local Abbreviation elf := (ChronalDevice.chronal_machine None).

(** The state in which the loop arrives at pc 19 with counter [k]: the
    pc register 1 holds 19, instruction 18 has just set r2 to k + 1. *)
Definition at19 (r0 r3 r4 k r5 : Z) : state := mk_state [r0; 19; k + 1; r3; r4; r5] 1.

(** The state at pc 26, once the loop has left [r3 // 256] in r5. *)
Definition at26 (r0 r3 r4 r5 : Z) : state := mk_state [r0; 26; 1; r3; r4; r5] 1.

Lemma day21_load :
  (prog <- instructions_from_lines day21_program ;; load prog) = Ok (1, day21_code).
Proof. vm_compute. reflexivity. Qed.

(** Comparisons on symbolic registers are decided by the proofs, not by
    [simpl]. *)
#[local] Arguments Z.gtb : simpl never.

Ltac elf_step :=
  apply step_Yielded; unfold step, inc_pc, set_pc, pc; simpl;
  unfold ChronalDevice.execute, ChronalDevice.run_method; simpl;
  unfold ChronalDevice.gtir, ChronalDevice.mulr, ChronalDevice.seti, ChronalDevice.gtrr,
    ChronalDevice.bori, ChronalDevice.borr, ChronalDevice.banr, ChronalDevice.eqri,
    ChronalDevice.bani, ChronalDevice.addr, ChronalDevice.addi, ChronalDevice.eqrr,
    ChronalDevice.gtri, ChronalDevice.eqir, ChronalDevice.setr, ChronalDevice.muli,
    ChronalDevice.set_register; simpl.

(** One plain step of the device on a state with a known pc. *)
Ltac go := eapply reaches_step; [elf_step; reflexivity|].
Ltac go_if H := eapply reaches_step; [elf_step; rewrite H; simpl; reflexivity|].

Lemma loop_exit r0 r3 r4 k r5 :
  (k + 1) * 256 > r3 -> @reaches elf day21_code (at19 r0 r3 r4 k r5) (at26 r0 r3 r4 r5).
Proof.
  intros Hgt. assert (H : ((k + 1) * 256 >? r3) = true) by lia.
  unfold at19, at26. go. go_if H. go. go. constructor.
Qed.

Lemma loop_continue r0 r3 r4 k :
  (k + 1) * 256 <= r3 -> @reaches elf day21_code (at19 r0 r3 r4 k k) (at19 r0 r3 r4 (k + 1) (k + 1)).
Proof.
  intros Hle. assert (H : ((k + 1) * 256 >? r3) = false) by lia.
  unfold at19. go. go_if H. go. go. go. go. go. constructor.
Qed.

Lemma div256_bounds r3 : 0 <= r3 - 256 * (r3 / 256) < 256.
Proof. pose proof (Z.div_mod r3 256 ltac:(lia)). pose proof (Z.mod_pos_bound r3 256 ltac:(lia)). lia. Qed.

(** A patched step: the device step, then the pc-19 patch. *)
Ltac hgo := eapply hreaches_step; [elf_step; reflexivity | unfold hook19, pc; simpl; reflexivity |].
Ltac hgo_if H :=
  eapply hreaches_step; [elf_step; rewrite H; simpl; reflexivity | unfold hook19, pc; simpl; reflexivity |].

(** ** The patch is sound *)

(** The counting loop of instructions 18..25, run by the plain
    device from any counter [k] with [0 <= k <= r3 // 256], reaches pc 26
    with [r3 // 256] in register 5 and every other register as the patch
    leaves it: the value the day-21 driver writes is the value the loop
    computes. *)
Theorem loop_computes_div256 r0 r3 r4 k :
  0 <= k <= r3 / 256 ->
  @reaches elf day21_code (at19 r0 r3 r4 k k) (at26 r0 r3 r4 (r3 / 256)).
Proof.
  intros Hk. pose proof (div256_bounds r3) as Hb. set (q := r3 / 256) in *.
  remember (Z.to_nat (q - k)) as n eqn:Hn. revert k Hk Hn.
  induction n as [|n IH]; intros k Hk Hn.
  - assert (k = q) as -> by lia. apply loop_exit. lia.
  - eapply reaches_trans; [apply loop_continue; lia|]. apply IH; lia.
Qed.

(** C17: the patched driver and the plain device agree. Where the loop
    arrives at pc 19 with counter [k], the driver overwrites register 5
    with [r3 // 256]; from there, patching again whenever pc 19 comes
    back, the device reaches the pc-26 state with [r3 // 256] in
    register 5, and the unpatched device, running the whole counting
    loop from the same point, reaches that same state. *)
Theorem patched_loop_agrees r0 r3 r4 k :
  0 <= k <= r3 / 256 ->
  hook19 (at19 r0 r3 r4 k k) = Ok (at19 r0 r3 r4 k (r3 / 256)) /\
  @hreaches elf day21_code (at19 r0 r3 r4 k (r3 / 256)) (at26 r0 r3 r4 (r3 / 256)) /\
  @reaches elf day21_code (at19 r0 r3 r4 k k) (at26 r0 r3 r4 (r3 / 256)).
Proof.
  intros Hk. split_and!; [reflexivity| |by apply loop_computes_div256].
  pose proof (div256_bounds r3) as Hb. set (q := r3 / 256) in *. unfold at19, at26.
  destruct (Z.eq_dec k q) as [-> | Hne].
  - assert (H : ((q + 1) * 256 >? r3) = true) by lia.
    hgo. hgo_if H. hgo. hgo. constructor.
  - assert (H1 : ((k + 1) * 256 >? r3) = false) by lia.
    assert (H2 : ((q + 1 + 1) * 256 >? r3) = true) by lia.
    hgo. hgo_if H1. hgo. hgo. hgo. hgo. hgo. hgo. hgo_if H2. hgo. hgo. constructor.
Qed.

(** Part 1 of day 21. With 103548 in register 0 the activation
    program halts, and the patched driver of [test_part_1] ends in
    exactly the state the plain device ends in (within 100 resumptions
    instead of about 1900). *)
Theorem part_1_halts :
  @part_1 elf 100 day21_program = Ok (Some (mk_state [103548; 31; 1; 1; 103548; 1] 1)) /\
  (prog <- instructions_from_lines day21_program ;;
   (@execute_instructions elf 1900 (init (Some [103548; 0; 0; 0; 0; 0])) prog).2)
  = Ok (Done (mk_state [103548; 31; 1; 1; 103548; 1] 1)).
Proof. split; vm_compute; reflexivity. Qed.

Lemma loop_computes_div256_witness :
  0 <= 2 <= 1000 / 256 /\
  @reaches elf day21_code (at19 7 1000 5 2 2) (at26 7 1000 5 (1000 / 256)).
Proof.
  assert (H : 0 <= 2 <= 1000 / 256) by (vm_compute; split; discriminate).
  split; [exact H | exact (loop_computes_div256 7 1000 5 2 H)].
Defined.

Lemma patched_loop_agrees_witness :
  0 <= 0 <= 1000 / 256 /\
  hook19 (at19 7 1000 5 0 0) = Ok (at19 7 1000 5 0 (1000 / 256)) /\
  @hreaches elf day21_code (at19 7 1000 5 0 (1000 / 256)) (at26 7 1000 5 (1000 / 256)) /\
  @reaches elf day21_code (at19 7 1000 5 0 0) (at26 7 1000 5 (1000 / 256)).
Proof.
  assert (H : 0 <= 0 <= 1000 / 256) by (vm_compute; split; discriminate).
  split; [exact H | exact (patched_loop_agrees 7 1000 5 0 H)].
Defined.

End ChronalConversion.
