(* ===== verification/Day01.v ===== *)
(** * Day 1: frequency drift (src/day_01.py)

    [first_repeated_value] adds the frequency changes cyclically and
    returns the first running total seen twice, giving up after
    [len(values) * passes] additions.  The set [seen] is a [gset Z].
    The reference [first_repeat] is the quadratic definition: the first
    index [n] whose prefix sum equals an earlier one; the set-based loop
    computes it exactly ([first_repeated_value_spec]). *)

From Stdlib Require Import ZArith Lia.
From stdpp Require Import gmap.
From S2P Require Import Prelude.

Open Scope Z_scope.
Open Scope py_scope.

Module ChronalCalibration.

(** The [while i < len(values) * passes] loop; [k] counts the iterations
    left, so the loop test is [k = 0]. *)
Fixpoint frv_loop (k : nat) (values : list Z) (i total : Z) (seen : gset Z) : res (option Z) :=
  match k with
  | O => Ok None
  | S k' =>
      if decide (total ∈ seen) then Ok (Some total)
      else
        j <- py_mod i (Z.of_nat (length values)) ;;
        v <- py_get values j ;;
        frv_loop k' values (i + 1) (total + v) ({[total]} ∪ seen)
  end.

Definition first_repeated_value (values : list Z) (passes : Z) : res (option Z) :=
  frv_loop (Z.to_nat (Z.of_nat (length values) * passes)) values 0 0 ∅.

(** [test_part_1]: [sum(frequencies())]. *)
Definition part_1 (values : list Z) : Z := fold_left Z.add values 0.

(** ** The reference *)

(** The running total after [n] additions. *)
Fixpoint psum (values : list Z) (n : nat) : Z :=
  match n with
  | O => 0
  | S n' => psum values n' + default 0 (values !! (n' mod length values)%nat)
  end.

(** Whether the total after [n] additions was already seen. *)
Definition repeats (values : list Z) (n : nat) : bool :=
  existsb (fun m => psum values m =? psum values n) (seq 0 n).

(** The first repeated total among the first [N] checks. *)
Definition first_repeat (values : list Z) (N : nat) : option Z :=
  option_map (psum values) (List.find (repeats values) (seq 0 N)).

(** ** The loop computes the reference *)

Lemma repeats_spec values n :
  repeats values n = true <-> exists m, (m < n)%nat /\ psum values m = psum values n.
Proof.
  unfold repeats. rewrite existsb_exists. split.
  - intros (m & Hm & E). apply in_seq in Hm. apply Z.eqb_eq in E. exists m. split; [lia | exact E].
  - intros (m & Hm & E). exists m. split; [apply in_seq; lia | apply Z.eqb_eq, E].
Qed.

Lemma frv_loop_ref values : values <> [] -> forall k n seen,
  (forall x, x ∈ seen <-> exists m, (m < n)%nat /\ psum values m = x) ->
  frv_loop k values (Z.of_nat n) (psum values n) seen =
    Ok (option_map (psum values) (List.find (repeats values) (seq n k))).
Proof.
  intros Hne. assert (Hlen : (0 < length values)%nat) by (destruct values; simpl; [congruence | lia]).
  induction k as [|k IH]; intros n seen Hseen; [reflexivity|]. simpl.
  destruct (decide (psum values n ∈ seen)) as [Hin | Hnin].
  - apply Hseen in Hin. apply repeats_spec in Hin. rewrite Hin. reflexivity.
  - assert (Hr : repeats values n = false).
    { apply not_true_is_false. intros Hr. apply Hnin, Hseen, repeats_spec, Hr. }
    rewrite Hr. rewrite py_mod_Ok by lia. simpl.
    rewrite <- Nat2Z.inj_mod. rewrite py_get_nonneg by (apply Nat.mod_upper_bound; lia).
    destruct (values !! (n mod length values)%nat) as [v|] eqn:Hv;
      [| apply lookup_ge_None in Hv; pose proof (Nat.mod_upper_bound n (length values)); lia].
    simpl. replace (Z.of_nat n + 1) with (Z.of_nat (S n)) by lia.
    replace (psum values n + v) with (psum values (S n)) by (simpl; rewrite Hv; reflexivity).
    apply IH. intros x. rewrite elem_of_union, elem_of_singleton, Hseen. split.
    + intros [-> | (m & Hm & <-)]; [exists n | exists m]; split; try lia; reflexivity.
    + intros (m & Hm & <-). destruct (decide (m = n)) as [-> | Hmn]; [left; reflexivity|].
      right. exists m. split; [lia | reflexivity].
Qed.

(** Equivalence with the reference.  For every list of changes and
    every [passes], [first_repeated_value] returns the first running
    total that equals an earlier one among the first
    [len(values) * passes] totals it checks, and [None] when there is
    none; it never raises. *)
Theorem first_repeated_value_spec values passes :
  first_repeated_value values passes =
    Ok (first_repeat values (Z.to_nat (Z.of_nat (length values) * passes))).
Proof.
  unfold first_repeated_value, first_repeat. destruct values as [|v vs] eqn:E.
  - reflexivity.
  - rewrite <- E. apply (frv_loop_ref values ltac:(congruence) _ 0%nat ∅).
    intros x. split; [intros Hx; apply not_elem_of_empty in Hx; contradiction | intros (m & Hm & _); lia].
Qed.

(** The assertions of [test_first_repeated]. *)
Theorem first_repeated_tests :
  first_repeated_value [1; 1] 200 = Ok None /\
  first_repeated_value [1; -1] 200 = Ok (Some 0) /\
  first_repeated_value [3; 3; 4; -2; -4] 200 = Ok (Some 10) /\
  first_repeated_value [-6; 3; 8; 5; -6] 200 = Ok (Some 5) /\
  first_repeated_value [7; 7; -2; -7; -4] 200 = Ok (Some 14).
Proof. vm_compute. repeat split. Qed.

End ChronalCalibration.
