(* ===== verification/Day05.v ===== *)
(** * Day 5: polymer reduction (src/day_05.py)

    [reduce_polymer] scans the polymer with a stack and drops the top of
    the stack whenever the next character is its [swapcase].  Characters
    are [ascii] (the input is ASCII text) and [str.swapcase] is the
    ASCII case swap.  The Python stack grows at its end; here it is kept
    top-first, so [''.join(stack)] is the reversed list.

    The theorems: the result contains no adjacent pair [c, c.swapcase()],
    reduction is idempotent, and (a finding) two equal non-letters react
    too, since [swapcase] leaves them unchanged. *)

From Stdlib Require Import Ascii String Lia.
From stdpp Require Import base list.
From S2P Require Import Prelude.

Local Open Scope nat_scope.

Module AlchemicalReduction.

(** [str.swapcase] on one ASCII character. *)
Definition swapcase (c : ascii) : ascii :=
  let n := nat_of_ascii c in
  if (65 <=? n) && (n <=? 90) then ascii_of_nat (n + 32)
  else if (97 <=? n) && (n <=? 122) then ascii_of_nat (n - 32)
  else c.

(** The body of [for c in polymer]. *)
Definition push (stack : list ascii) (c : ascii) : list ascii :=
  match stack with
  | top :: rest => if Ascii.eqb (swapcase c) top then rest else c :: stack
  | [] => [c]
  end.

Definition reduce_polymer (polymer : string) : string :=
  string_of_list_ascii (rev (fold_left push (list_ascii_of_string polymer) [])).

(** [data.replace(c, '').replace(c.swapcase(), '')]. *)
Definition remove_unit (c : ascii) (s : string) : string :=
  string_of_list_ascii
    (List.filter (fun d => negb (Ascii.eqb d c) && negb (Ascii.eqb d (swapcase c)))
       (list_ascii_of_string s)).

(** [string.ascii_letters]. *)
Definition ascii_letters : list ascii :=
  list_ascii_of_string "abcdefghijklmnopqrstuvwxyzABCDEFGHIJKLMNOPQRSTUVWXYZ".

(** [test_part_1]: [len(reduce_polymer(data))]. *)
Definition part_1 (data : string) : nat := String.length (reduce_polymer data).

(** [test_part_2]: [shortest] starts at [float('inf')], written [None]. *)
Definition part_2 (data : string) : option nat :=
  fold_left
    (fun shortest c =>
       let l := String.length (reduce_polymer (remove_unit c data)) in
       match shortest with None => Some l | Some s => Some (Nat.min l s) end)
    ascii_letters None.

(** ** Properties *)

(** Two characters react when one is the [swapcase] of the other. *)
Definition reacts (c d : ascii) : bool := Ascii.eqb (swapcase c) d.

(** No two adjacent characters react. *)
Fixpoint reduced (s : list ascii) : Prop :=
  match s with
  | c :: (d :: _) as s' => reacts c d = false /\ reduced s'
  | _ => True
  end.

Lemma swapcase_involutive c : swapcase (swapcase c) = c.
Proof. destruct c as [[] [] [] [] [] [] [] []]; reflexivity. Qed.

Lemma reacts_sym c d : reacts c d = reacts d c.
Proof.
  unfold reacts.
  destruct (Ascii.eqb_spec (swapcase c) d) as [H1 | H1], (Ascii.eqb_spec (swapcase d) c) as [H2 | H2];
    try reflexivity; exfalso.
  - apply H2. rewrite <- H1. apply swapcase_involutive.
  - apply H1. rewrite <- H2. apply swapcase_involutive.
Qed.

Lemma reduced_tail c s : reduced (c :: s) -> reduced s.
Proof. destruct s; simpl; tauto. Qed.

(** A push keeps the stack (top first) free of reacting neighbours. *)
Lemma push_reduced stack c : reduced stack -> reduced (push stack c).
Proof.
  destruct stack as [|top rest]; simpl; [tauto|].
  destruct (Ascii.eqb (swapcase c) top) eqn:E; [apply reduced_tail | intros H; simpl; auto].
Qed.

Lemma fold_push_reduced l stack : reduced stack -> reduced (fold_left push l stack).
Proof. revert stack. induction l as [|c l IH]; simpl; auto using push_reduced. Qed.

Lemma reduced_snoc l y x :
  reduced (l ++ [y]) -> reacts y x = false -> reduced ((l ++ [y]) ++ [x]).
Proof.
  induction l as [|a [|b l] IH]; simpl; [tauto | tauto |].
  intros [Hab Hrest] Hyx. split; [exact Hab | exact (IH Hrest Hyx)].
Qed.

Lemma reduced_rev l : reduced l -> reduced (rev l).
Proof.
  induction l as [|a [|b l] IH]; [simpl; tauto | simpl; tauto |].
  intros [Hab Hrest]. specialize (IH Hrest). simpl in *.
  apply reduced_snoc; [exact IH | rewrite reacts_sym; exact Hab].
Qed.

Lemma reduced_app_inv l1 l2 : reduced (l1 ++ l2) -> reduced l2.
Proof. induction l1 as [|a l1 IH]; simpl; [auto|]. intros H. apply IH, (reduced_tail a), H. Qed.

(** On a text without reacting neighbours the stack only grows. *)
Lemma fold_push_no_reaction l : forall acc,
  reduced (rev acc ++ l) -> fold_left push l acc = rev l ++ acc.
Proof.
  induction l as [|c l IH]; intros acc H; simpl; [reflexivity|].
  assert (Hp : push acc c = c :: acc).
  { destruct acc as [|top rest]; [reflexivity|]. simpl.
    assert (Hr : reacts top c = false).
    { simpl in H. rewrite <- app_assoc in H. simpl in H.
      apply reduced_app_inv in H. simpl in H. tauto. }
    rewrite reacts_sym in Hr. unfold reacts in Hr. rewrite Hr. reflexivity. }
  rewrite Hp, IH; [rewrite <- app_assoc; reflexivity|]. simpl. rewrite <- app_assoc. exact H.
Qed.

(** The result is fully reduced: no two adjacent characters of
    [reduce_polymer s] are a character and its [swapcase]. *)
Theorem reduce_polymer_reduced s : reduced (list_ascii_of_string (reduce_polymer s)).
Proof.
  unfold reduce_polymer. rewrite list_ascii_of_string_of_list_ascii.
  apply reduced_rev, fold_push_reduced. exact I.
Qed.

(** Reduction is idempotent: reducing a reduced polymer returns it
    unchanged. *)
Theorem reduce_polymer_idempotent s : reduce_polymer (reduce_polymer s) = reduce_polymer s.
Proof.
  pose proof (reduce_polymer_reduced s) as H.
  unfold reduce_polymer at 1. rewrite (fold_push_no_reaction _ []) by (simpl; exact H).
  rewrite app_nil_r, rev_involutive, string_of_list_ascii_of_string. reflexivity.
Qed.

(** The assertions of [test_reduce_polymer], and what the docstring
    does not say: two equal non-letters also react ([swapcase] leaves
    them unchanged), so ["a11a"] reduces to ["aa"]. *)
Theorem reduce_polymer_tests :
  reduce_polymer "hHsSmMHhhHwWfoo" = "foo"%string /\
  reduce_polymer "hHsSmMHhhHwWfoohHsSmMHaAhhHwW" = "foo"%string /\
  reduce_polymer "a11a" = "aa"%string.
Proof. repeat split. Qed.

End AlchemicalReduction.
