(* ===== verification/Day02.v ===== *)
(** * Day 2: box id checksum (src/day_02.py)

    [has_n] asks whether some character occurs exactly [n] times
    ([Counter(string).values()]; the [Counter] is a [gmap ascii nat]),
    [checksum] multiplies the counts of ids with a double and with a
    triple, [char_difference] counts differing positions, and
    [closest_match] scans all ordered pairs ([permutations(words, 2)])
    for the smallest difference, whose [overlap] property is printed.

    Two behaviours of the code are modelled as they are:
    [char_difference] *returns* (does not raise) a [ValueError] object
    for ids of different lengths, which is a value of [diff_value]; the
    comparison [match.diff < closest.diff] then raises [TypeError].  And
    [overlap] returns the common letters only when the two ids differ in
    their first character. *)

From Stdlib Require Import ZArith Ascii String Lia.
From stdpp Require Import strings gmap.
From S2P Require Import Prelude.

Open Scope Z_scope.
Open Scope py_scope.

Module BoxScan.

(** Python [str] as its list of characters. *)
Abbreviation str := (list ascii).

(** [Counter(string)]. *)
Definition counter (s : str) : gmap ascii nat :=
  fold_left (fun m c => <[c := default 0%nat (m !! c) + 1]> m)%nat s ∅.

Definition has_n (s : str) (n : nat) : bool :=
  existsb (fun kv => Nat.eqb kv.2 n) (map_to_list (counter s)).

Definition checksum (ids : list str) : Z :=
  let twos := fold_left (fun t s => t + Z.b2z (has_n s 2)) ids 0 in
  let threes := fold_left (fun t s => t + Z.b2z (has_n s 3)) ids 0 in
  twos * threes.

(** What [char_difference] returns: an [int], or an exception object. *)
Inductive diff_value :=
  | DInt (n : Z)
  | DValueError.

(** [sum(x != y for x, y in zip(a, b))] after the length check. *)
Definition char_difference (a b : str) : diff_value :=
  if negb (length a =? length b)%nat then DValueError
  else DInt (fold_left (fun t xy => if decide (xy.1 = xy.2) then t else t + 1) (zip a b) 0).

(** [Match(a, b, diff)]; the initial match has [None] ids. *)
Record Match := mk_match {
  ma : option str;
  mb : option str;
  diff : diff_value
}.

(** [match.diff < closest.diff]: only two ints compare. *)
Definition diff_lt (x y : diff_value) : res bool :=
  match x, y with
  | DInt m, DInt n => Ok (m <? n)
  | _, _ => Err TypeError
  end.

(** [itertools.permutations(words, 2)]: ordered pairs of distinct
    positions, in lexicographic order of positions. *)
Definition permutations2 {A} (xs : list A) : list (A * A) :=
  let ixs := zip (seq 0 (length xs)) xs in
  flat_map (fun ia => flat_map (fun jb => if decide (ia.1 = jb.1) then [] else [(ia.2, jb.2)]) ixs) ixs.

Fixpoint closest_loop (pairs : list (str * str)) (closest : Match) : res Match :=
  match pairs with
  | [] => Ok closest
  | (a, b) :: rest =>
      let m := mk_match (Some a) (Some b) (char_difference a b) in
      lt <- diff_lt (diff m) (diff closest) ;;
      closest_loop rest (if lt then m else closest)
  end.

Definition closest_match (words : list str) : res Match :=
  closest_loop (permutations2 words) (mk_match None None (DInt 100)).

(** [substr in b] on strings: [substr] is a contiguous part of [b]. *)
Fixpoint prefix_b (xs ys : str) : bool :=
  match xs, ys with
  | [], _ => true
  | x :: xs', y :: ys' => bool_decide (x = y) && prefix_b xs' ys'
  | _ :: _, [] => false
  end.

Fixpoint infix_b (xs ys : str) : bool :=
  prefix_b xs ys || match ys with [] => false | _ :: ys' => infix_b xs ys' end.

(** The loop [for i in range(self.diff + 1)] of [overlap]. *)
Fixpoint overlap_loop (idxs : list Z) (a b : str) (overlap_len : Z) : option str :=
  match idxs with
  | [] => None
  | i :: rest =>
      let substr := py_slice a i (overlap_len + 1) in
      if infix_b substr b then Some substr else overlap_loop rest a b overlap_len
  end.

(** The [overlap] property; [len(None)] or arithmetic on a
    [ValueError] object raise [TypeError]. *)
Definition overlap (m : Match) : res (option str) :=
  match ma m, mb m, diff m with
  | Some a, Some b, DInt d =>
      let overlap_len := Z.of_nat (length a) - d in
      Ok (overlap_loop (map Z.of_nat (seq 0 (Z.to_nat (d + 1)))) a b overlap_len)
  | _, _, _ => Err TypeError
  end.

(** ** [Counter] and [has_n] *)

Definition count (c : ascii) (s : str) : nat := count_occ ascii_dec s c.

Lemma counter_fold c : forall s (m : gmap ascii nat),
  fold_left (fun m c => <[c := default 0%nat (m !! c) + 1]> m)%nat s m !! c =
  match m !! c, count c s with
  | None, O => None
  | None, k => Some k
  | Some v, k => Some (v + k)%nat
  end.
Proof.
  unfold count. induction s as [|d s IH]; intros m; simpl.
  - destruct (m !! c); [f_equal; lia | reflexivity].
  - rewrite IH. destruct (ascii_dec d c) as [-> | Hne].
    + rewrite lookup_insert_eq. destruct (m !! c); simpl; f_equal; lia.
    + rewrite lookup_insert_ne by congruence. reflexivity.
Qed.

(** [Counter(s)[c]] is the number of occurrences of [c], and [c] is a
    key exactly when it occurs. *)
Lemma counter_lookup s c :
  counter s !! c = if (count c s =? 0)%nat then None else Some (count c s).
Proof.
  unfold counter. rewrite counter_fold, lookup_empty.
  destruct (count c s); reflexivity.
Qed.

(** [has_n s n] holds exactly when some character of [s] occurs in
    it exactly [n] times. *)
Theorem has_n_spec s n :
  has_n s n = true <-> exists c, In c s /\ count c s = n.
Proof.
  unfold has_n. rewrite existsb_exists. split.
  - intros ([c k] & Hin & Hk). apply list_elem_of_In, elem_of_map_to_list in Hin.
    rewrite counter_lookup in Hin. apply Nat.eqb_eq in Hk. simpl in Hk. subst k.
    destruct (Nat.eqb_spec (count c s) 0); [discriminate|]. injection Hin as Hc.
    exists c. split; [|exact Hc]. apply (count_occ_In ascii_dec). unfold count in n0. lia.
  - intros (c & Hin & <-). exists (c, count c s). split; [|apply Nat.eqb_refl].
    apply list_elem_of_In, elem_of_map_to_list. rewrite counter_lookup.
    apply (count_occ_In ascii_dec) in Hin. unfold count.
    destruct (Nat.eqb_spec (count_occ ascii_dec s c) 0); [lia | reflexivity].
Qed.

(** ** [closest_match] *)

Lemma closest_loop_TypeError pairs : forall closest,
  (exists n, diff closest = DInt n) ->
  (exists a b, In (a, b) pairs /\ length a <> length b) ->
  closest_loop pairs closest = Err TypeError.
Proof.
  induction pairs as [|[a b] pairs IH]; intros closest [n Hn] (a' & b' & Hin & Hlen);
    [destruct Hin|]. simpl. unfold char_difference. rewrite Hn.
  destruct (Nat.eqb_spec (length a) (length b)) as [E | E]; simpl.
  - destruct Hin as [[= <- <-] | Hin]; [contradiction|].
    apply IH; [destruct (_ <? n); simpl; eauto | eauto].
  - reflexivity.
Qed.

(** The returned [ValueError] surfaces as a [TypeError].  If two
    ids at different positions of the list have different lengths,
    [closest_match] raises [TypeError] (at the comparison
    [match.diff < closest.diff]), not [ValueError]. *)
Theorem closest_match_TypeError words :
  (exists a b, In (a, b) (permutations2 words) /\ length a <> length b) ->
  closest_match words = Err TypeError.
Proof. intros H. apply closest_loop_TypeError; [eauto | exact H]. Qed.

Lemma closest_loop_min pairs : forall closest m d0,
  diff closest = DInt d0 ->
  closest_loop pairs closest = Ok m ->
  exists d, diff m = DInt d /\ d <= d0 /\
    (forall a b, In (a, b) pairs -> exists e, char_difference a b = DInt e /\ d <= e) /\
    (m = closest \/ exists a b, In (a, b) pairs /\ m = mk_match (Some a) (Some b) (DInt d)).
Proof.
  induction pairs as [|[a b] pairs IH]; intros closest m d0 Hd H; simpl in H.
  - injection H as <-. exists d0. split; [exact Hd|]. split; [lia|]. split; [intros ? ? []|auto].
  - unfold diff_lt in H. rewrite Hd in H. simpl in H.
    destruct (char_difference a b) as [e|] eqn:Hab; [|discriminate]. simpl in H.
    destruct (Z.ltb_spec e d0).
    + destruct (IH (mk_match (Some a) (Some b) (DInt e)) m e eq_refl H) as (d & Hm & Hle & Hall & Hwho).
      exists d. split; [exact Hm|]. split; [lia|]. split.
      * intros a' b' [[= <- <-] | Hin]; [exists e; split; [exact Hab | exact Hle] | eauto].
      * right. destruct Hwho as [-> | (a' & b' & Hin & ->)].
        { exists a, b. simpl in Hm. injection Hm as ->. split; [left; reflexivity | reflexivity]. }
        { exists a', b'. split; [right; exact Hin | reflexivity]. }
    + destruct (IH _ _ d0 Hd H) as (d & Hm & Hle & Hall & Hwho).
      exists d. split; [exact Hm|]. split; [lia|]. split.
      * intros a' b' [[= <- <-] | Hin]; [exists e; split; [exact Hab | lia] | eauto].
      * destruct Hwho as [-> | (a' & b' & Hin & ->)]; [left; reflexivity | right; exists a', b'; split; [right; exact Hin | reflexivity]].
Qed.

(** [closest_match] finds a closest pair.  When it returns, the
    difference of the result is at most 100 and at most that of every
    ordered pair of the list, and the result is the initial
    [Match(None, None, 100)] or one of the pairs with its difference. *)
Theorem closest_match_min words m :
  closest_match words = Ok m ->
  exists d, diff m = DInt d /\ d <= 100 /\
    (forall a b, In (a, b) (permutations2 words) -> exists e, char_difference a b = DInt e /\ d <= e) /\
    (m = mk_match None None (DInt 100) \/
     exists a b, In (a, b) (permutations2 words) /\ m = mk_match (Some a) (Some b) (DInt d)).
Proof. intros H. exact (closest_loop_min _ (mk_match None None (DInt 100)) _ 100 eq_refl H). Qed.

(** ** [overlap] *)

Lemma prefix_b_refl s : prefix_b s s = true.
Proof. induction s; simpl; [reflexivity|]. rewrite bool_decide_eq_true_2 by reflexivity. exact IHs. Qed.

Lemma prefix_b_length xs ys : prefix_b xs ys = true -> (length xs <= length ys)%nat.
Proof.
  revert ys. induction xs as [|x xs IH]; intros [|y ys]; simpl; try lia; try discriminate.
  intros H. apply andb_true_iff in H as [_ H]. apply IH in H. lia.
Qed.

Lemma prefix_b_same_length xs ys :
  length xs = length ys -> prefix_b xs ys = true -> xs = ys.
Proof.
  revert ys. induction xs as [|x xs IH]; intros [|y ys]; simpl; try discriminate; [reflexivity|].
  intros Hl H. apply andb_true_iff in H as [Hxy H]. apply bool_decide_eq_true_1 in Hxy.
  subst. f_equal. apply IH; [lia | exact H].
Qed.

Lemma py_slice_from {A} (xs : list A) k :
  (k <= length xs)%nat -> py_slice xs (Z.of_nat k) (Z.of_nat (length xs)) = drop k xs.
Proof.
  intros Hk. unfold py_slice, py_slice_bound.
  destruct (Z.ltb_spec (Z.of_nat k) 0); [lia|]. destruct (Z.ltb_spec (Z.of_nat (length xs)) 0); [lia|].
  rewrite !Nat2Z.id, Nat.min_id. replace (length xs `min` k)%nat with k by lia.
  apply firstn_all2. rewrite length_drop. lia.
Qed.

Lemma infix_b_prefix xs ys : prefix_b xs ys = true -> infix_b xs ys = true.
Proof. destruct ys; simpl; intros ->; reflexivity. Qed.

Lemma infix_b_longer x s : forall t, (length t < S (length s))%nat -> infix_b (x :: s) t = false.
Proof.
  induction t as [|z t IH]; intros Ht; [reflexivity|]. simpl.
  destruct (prefix_b s t) eqn:Ep; [apply prefix_b_length in Ep; simpl in Ht; lia|].
  rewrite andb_false_r. simpl. apply IH. simpl in Ht. lia.
Qed.

(** [overlap] is right when the ids differ in their first character:
    for [a = x :: s] and [b = y :: s] with [x <> y] and difference 1 it
    returns the common letters [s]. *)
Theorem overlap_first_position x y s :
  x <> y ->
  overlap (mk_match (Some (x :: s)) (Some (y :: s)) (DInt 1)) = Ok (Some s).
Proof.
  intros Hxy. unfold overlap. cbn [ma mb diff].
  change (map Z.of_nat (seq 0 (Z.to_nat (1 + 1)))) with [Z.of_nat 0; Z.of_nat 1].
  cbn [overlap_loop].
  replace (Z.of_nat (length (x :: s)) - 1 + 1) with (Z.of_nat (length (x :: s))) by lia.
  rewrite !py_slice_from by (simpl; lia). cbn [drop].
  assert (Hi : infix_b (x :: s) (y :: s) = false).
  { simpl. rewrite bool_decide_eq_false_2 by exact Hxy. simpl. apply infix_b_longer. lia. }
  assert (Hs : infix_b s (y :: s) = true).
  { simpl. rewrite (infix_b_prefix s s (prefix_b_refl s)), orb_true_r. reflexivity. }
  rewrite Hi, drop_0, Hs. reflexivity.
Qed.

(** [overlap] is wrong otherwise: for ["abcde"] and ["abXde"], which differ
    in one (the third) character, [overlap] finds nothing, although the
    common letters are ["abde"]. *)
Theorem overlap_misses_inner_difference :
  overlap (mk_match (Some (list_ascii_of_string "abcde")) (Some (list_ascii_of_string "abXde")) (DInt 1))
    = Ok None /\
  char_difference (list_ascii_of_string "abcde") (list_ascii_of_string "abXde") = DInt 1.
Proof. split; reflexivity. Qed.

(** The assertions of [test_has_n] and [test_char_difference], and the
    checksum of the puzzle's example. *)
Lemma box_scan_tests :
  has_n (list_ascii_of_string "foo") 2 = true /\ has_n (list_ascii_of_string "bar") 2 = false /\
  has_n (list_ascii_of_string "bababac") 2 = false /\
  has_n (list_ascii_of_string "bababc") 3 = true /\ has_n (list_ascii_of_string "foo") 3 = false /\
  char_difference (list_ascii_of_string "foo") (list_ascii_of_string "bar") = DInt 3 /\
  char_difference (list_ascii_of_string "foo") (list_ascii_of_string "for") = DInt 1 /\
  checksum (map list_ascii_of_string
    ["abcdef"; "bababc"; "abbcde"; "abcccd"; "aabcdd"; "abcdee"; "ababab"]%string) = 12.
Proof. vm_compute. repeat split. Qed.

End BoxScan.
