(* ===== verification/Day03.v ===== *)
(** * Day 3: overlapping fabric claims (src/day_03.py)

    A claim line [#123 @ 3,2: 5x4] is parsed by the regular expression
    [#(\d+)\s@\s(\d+,\d+):\s(\d+x\d+)] with [re.match] (anchored at the
    start, not at the end); here the match is the function [match_claim]
    over the characters, where each [\d+] is the maximal digit run (the
    literal after it is not a digit, so this is the only way to match).
    [Rectangle.points] lists the covered cells, [grid_map] counts them in
    a [defaultdict(int)] (a [gmap (Z * Z) Z]), part 1 counts the cells
    claimed more than once and part 2 picks the claims whose cells all
    have count one. *)

From Stdlib Require Import ZArith Ascii String Lia.
From stdpp Require Import strings gmap.
From S2P Require Import Prelude Decoding.

Open Scope Z_scope.
Open Scope py_scope.

Module FabricOverlap.

(** The [Rectangle] dataclass. *)
Record Rectangle := mk_rect {
  uid : string;
  x : Z;
  y : Z;
  width : Z;
  height : Z
}.

(** [\d]: an ASCII decimal digit. *)
Definition is_digit (c : ascii) : bool := match digit_val c with Some _ => true | None => false end.

(** The longest prefix of digits, and the rest. *)
Fixpoint digits (s : list ascii) : list ascii * list ascii :=
  match s with
  | c :: s' => if is_digit c then let '(d, r) := digits s' in (c :: d, r) else ([], s)
  | [] => ([], [])
  end.

(** [int(...)] of a digit string. *)
Definition to_int (d : list ascii) : Z :=
  fold_left (fun v c => 10 * v + default 0 (digit_val c)) d 0.

(** [\d+] followed by [rest]: a non-empty digit run. *)
Definition digits1 (s : list ascii) : option (list ascii * list ascii) :=
  match digits s with
  | ([], _) => None
  | (d, r) => Some (d, r)
  end.

(** The regular expression's match: the three groups' parts, or no
    match. *)
Definition match_claim (s : list ascii) : option (list ascii * Z * Z * Z * Z) :=
  match s with
  | "#"%char :: s1 =>
      '(u, s2) ← digits1 s1;
      match s2 with
      | sp1 :: "@"%char :: sp2 :: s3 =>
          if is_space sp1 && is_space sp2 then
            '(xd, s4) ← digits1 s3;
            match s4 with
            | ","%char :: s5 =>
                '(yd, s6) ← digits1 s5;
                match s6 with
                | ":"%char :: sp3 :: s7 =>
                    if is_space sp3 then
                      '(wd, s8) ← digits1 s7;
                      match s8 with
                      | "x"%char :: s9 =>
                          '(hd, _) ← digits1 s9;
                          Some (u, to_int xd, to_int yd, to_int wd, to_int hd)
                      | _ => None
                      end
                    else None
                | _ => None
                end
            | _ => None
            end
          else None
      | _ => None
      end
  | _ => None
  end.

(** [Rectangle.rectangle_from_string]: no match makes [result.group]
    an [AttributeError], re-raised as [ValueError]. *)
Definition rectangle_from_string (s : string) : res Rectangle :=
  match match_claim (list_ascii_of_string s) with
  | Some (u, x, y, w, h) => Ok (mk_rect (string_of_list_ascii u) x y w h)
  | None => Err ValueError
  end.

(** [Rectangle.points]: [for x in range(...): for y in range(...)]. *)
Definition points (r : Rectangle) : list (Z * Z) :=
  flat_map (fun px => map (fun py => (px, py)) (py_range (y r) (y r + height r)))
    (py_range (x r) (x r + width r)).

(** [grid[point] += 1] on a [defaultdict(int)]. *)
Definition bump (grid : gmap (Z * Z) Z) (p : Z * Z) : gmap (Z * Z) Z :=
  <[p := default 0 (grid !! p) + 1]> grid.

(** [grid_map()], over the parsed rectangles. *)
Definition grid_map (rects : list Rectangle) : gmap (Z * Z) Z :=
  fold_left (fun g r => fold_left bump (points r) g) rects ∅.

(** [total_overlapped_cells_list(grid)] on a grid given as rows. *)
Definition total_overlapped_cells_list (grid : list (list Z)) : Z :=
  fold_left (fun t row => fold_left (fun t count => if 1 <? count then t + 1 else t) row t) grid 0.

(** [total_overlapped_cells_map(grid)]. *)
Definition total_overlapped_cells_map (grid : gmap (Z * Z) Z) : nat :=
  length (List.filter (fun v => 1 <? v) (map snd (map_to_list grid))).

(** [test_part_2]: the rectangles whose cell counts sum to their number
    of cells ([self.grid[point]] on a missing key would be 0). *)
Definition part_2 (rects : list Rectangle) : list Rectangle :=
  let grid := grid_map rects in
  List.filter (fun r => fold_left (fun t p => t + default 0 (grid !! p)) (points r) 0
                        =? Z.of_nat (length (points r))) rects.

(** [rectangles()] over the lines of the input. *)
Fixpoint rectangles (lines : list string) : res (list Rectangle) :=
  match lines with
  | [] => Ok []
  | l :: ls => r <- rectangle_from_string l ;; rs <- rectangles ls ;; Ok (r :: rs)
  end.

(** ** The grid counts claims *)

(** Whether a claim covers a cell. *)
Definition covers (r : Rectangle) (p : Z * Z) : bool :=
  (x r <=? p.1) && (p.1 <? x r + width r) && (y r <=? p.2) && (p.2 <? y r + height r).

(** The number of claims covering a cell. *)
Definition claims_on (rects : list Rectangle) (p : Z * Z) : nat :=
  length (List.filter (fun r => covers r p) rects).

Definition zeq := Z.eq_dec.
Definition peq (p q : Z * Z) : {p = q} + {p <> q} := decide (p = q).

(** [count] added to an optional count, as [defaultdict] does. *)
Definition add_count (o : option Z) (k : nat) : option Z :=
  match o with
  | Some v => Some (v + Z.of_nat k)
  | None => if (k =? 0)%nat then None else Some (Z.of_nat k)
  end.

Abbreviation sample := ["#1 @ 1,3: 4x4"; "#2 @ 3,1: 4x4"; "#3 @ 5,5: 2x2"]%string.

Lemma count_py_range a b z :
  count_occ zeq (py_range a b) z = if (a <=? z) && (z <? b) then 1%nat else 0%nat.
Proof.
  destruct ((a <=? z) && (z <? b)) eqn:E.
  - apply NoDup_count_occ'; [apply NoDup_ListNoDup, NoDup_py_range | apply in_py_range; lia].
  - apply count_occ_not_In. rewrite in_py_range. lia.
Qed.

Lemma count_pairs (X Y : list Z) p1 p2 :
  count_occ peq (flat_map (fun a => map (fun b => (a, b)) Y) X) (p1, p2) =
  (count_occ zeq X p1 * count_occ zeq Y p2)%nat.
Proof.
  induction X as [|a X IH]; [reflexivity|]. simpl. rewrite count_occ_app, IH.
  assert (Hrow : count_occ peq (map (fun b => (a, b)) Y) (p1, p2) =
                 if zeq a p1 then count_occ zeq Y p2 else 0%nat).
  { clear IH. induction Y as [|b Y IHY]; cbn [map count_occ]; [destruct (zeq a p1); reflexivity|].
    rewrite IHY.
    destruct (zeq a p1), (zeq b p2), (peq (a, b) (p1, p2)); subst; try congruence; lia. }
  rewrite Hrow. destruct (zeq a p1); lia.
Qed.

(** A claim's cells are the cells it covers, each listed once. *)
Lemma count_points r p : count_occ peq (points r) p = if covers r p then 1%nat else 0%nat.
Proof.
  destruct p as [p1 p2]. unfold points. rewrite count_pairs, !count_py_range. unfold covers. simpl.
  destruct (x r <=? p1), (p1 <? x r + width r), (y r <=? p2), (p2 <? y r + height r); reflexivity.
Qed.

Lemma fold_bump l : forall g p,
  fold_left bump l g !! p = add_count (g !! p) (count_occ peq l p).
Proof.
  induction l as [|q l IH]; intros g p; simpl.
  - destruct (g !! p); simpl; [f_equal; lia | reflexivity].
  - rewrite IH. unfold bump. destruct (peq q p) as [-> | Hne].
    + rewrite lookup_insert_eq. destruct (g !! p); simpl; f_equal; lia.
    + rewrite lookup_insert_ne by exact Hne. reflexivity.
Qed.

Lemma add_count_add o a b : add_count (add_count o a) b = add_count o (a + b).
Proof. destruct o; simpl; [f_equal; lia|]. destruct a, b; simpl; f_equal; lia. Qed.

(** [grid_map] counts claims: the value of a cell is the number of
    claims covering it, and a cell no claim covers is not a key. *)
Theorem grid_map_counts rects p :
  grid_map rects !! p = add_count None (claims_on rects p).
Proof.
  unfold grid_map, claims_on. change (@None Z) with ((∅ : gmap (Z * Z) Z) !! p).
  generalize (∅ : gmap (Z * Z) Z). induction rects as [|r rects IH]; intros g; [simpl; destruct (g !! p); simpl; [f_equal; lia | reflexivity]|].
  simpl. rewrite IH, fold_bump, add_count_add, count_points.
  destruct (covers r p); reflexivity.
Qed.

Lemma in_points r p : In p (points r) <-> covers r p = true.
Proof.
  rewrite (count_occ_In peq), count_points. destruct (covers r p); split; intros; lia || reflexivity || discriminate.
Qed.

Lemma claims_on_pos rects r p : In r rects -> covers r p = true -> (1 <= claims_on rects p)%nat.
Proof.
  intros Hin Hc. unfold claims_on. destruct (List.filter (fun r => covers r p) rects) eqn:E; simpl; [|lia].
  assert (Hf : In r (List.filter (fun r => covers r p) rects)) by (apply filter_In; auto).
  rewrite E in Hf. destruct Hf.
Qed.

Lemma fold_plus_shift (f : Z * Z -> Z) l t :
  fold_left (fun t p => t + f p) l t = t + fold_left (fun t p => t + f p) l 0.
Proof.
  revert t. induction l as [|a l IH]; intros t; simpl; [lia|]. rewrite IH, (IH (0 + f a)). lia.
Qed.

Lemma fold_plus_ge (f : Z * Z -> Z) l :
  (forall p, In p l -> 1 <= f p) -> Z.of_nat (length l) <= fold_left (fun t p => t + f p) l 0.
Proof.
  induction l as [|a l IH]; intros Hge; simpl; [lia|]. rewrite fold_plus_shift.
  pose proof (Hge a (or_introl eq_refl)). specialize (IH (fun p H => Hge p (or_intror H))). lia.
Qed.

(** A sum of counts that are all at least one equals the number of
    terms exactly when every count is one. *)
Lemma fold_plus_ones (f : Z * Z -> Z) l :
  (forall p, In p l -> 1 <= f p) ->
  fold_left (fun t p => t + f p) l 0 = Z.of_nat (length l) <-> forall p, In p l -> f p = 1.
Proof.
  induction l as [|a l IH]; intros Hge; simpl; [split; [intros _ p [] | reflexivity]|].
  rewrite fold_plus_shift. pose proof (Hge a (or_introl eq_refl)).
  pose proof (fold_plus_ge f l (fun p H => Hge p (or_intror H))).
  specialize (IH (fun p H => Hge p (or_intror H))). split.
  - intros E. assert (Ha : f a = 1) by lia.
    assert (HF : fold_left (fun t p => t + f p) l 0 = Z.of_nat (length l)) by lia.
    pose proof (proj1 IH HF) as Hl. intros p [<- | Hp]; auto.
  - intros Hall. rewrite (Hall a (or_introl eq_refl)).
    rewrite (proj2 IH (fun p Hp => Hall p (or_intror Hp))). lia.
Qed.

(** Part 2 selects the intact claims: a claim is printed exactly
    when it is one of the claims and every one of its cells is covered
    by exactly one claim (itself). *)
Theorem part_2_spec rects r :
  In r (part_2 rects) <->
  In r rects /\ forall p, In p (points r) -> claims_on rects p = 1%nat.
Proof.
  unfold part_2. rewrite filter_In, Z.eqb_eq.
  assert (Hg : forall p, default 0 (grid_map rects !! p) = Z.of_nat (claims_on rects p)).
  { intros p. rewrite grid_map_counts. simpl. destruct (claims_on rects p); reflexivity. }
  split.
  - intros [Hin Hsum]. split; [exact Hin|]. intros p Hp.
    assert (Hge : forall q, In q (points r) -> 1 <= default 0 (grid_map rects !! q)).
    { intros q Hq. rewrite Hg. apply in_points in Hq. pose proof (claims_on_pos _ _ _ Hin Hq). lia. }
    pose proof (proj1 (fold_plus_ones _ _ Hge) Hsum p Hp) as H1. cbv beta in H1. rewrite Hg in H1. lia.
  - intros [Hin Hall]. split; [exact Hin|].
    assert (Hge : forall q, In q (points r) -> 1 <= default 0 (grid_map rects !! q)).
    { intros q Hq. rewrite Hg. apply in_points in Hq. pose proof (claims_on_pos _ _ _ Hin Hq). lia. }
    apply (fold_plus_ones _ _ Hge). intros q Hq. rewrite Hg, Hall by exact Hq. reflexivity.
Qed.

(** The puzzle's example: claims 1 and 2 overlap on four cells, and
    claim 3 is the only intact one; a line without the [: ] separator is
    a [ValueError]. *)
Theorem fabric_sample :
  rectangle_from_string "#123 @ 3,2: 5x4" = Ok (mk_rect "123" 3 2 5 4) /\
  rectangle_from_string "#1 @ 1,3 4x4" = Err ValueError /\
  (rs <- rectangles sample ;; Ok (total_overlapped_cells_map (grid_map rs), map uid (part_2 rs)))
    = Ok (4%nat, ["3"%string]).
Proof. vm_compute. repeat split. Qed.

End FabricOverlap.
