(* ===== verification/Day18.v ===== *)
(** * Day 18: the lumber automaton (src/day_18.py)

    [LumberArea] holds a grid of characters ([.] open, [|] trees, [#]
    lumberyard) as a list of rows; [tile] returns [None] outside the
    grid, [step] builds a new grid from the old one cell by cell (the
    eight neighbours counted with a [Counter]) and raises on an unknown
    tile, and [total_value] multiplies the numbers of wooded acres and
    lumberyards.  Part 2 runs 531 steps and then
    [(1000000000 - 531) % 28] more, relying on the pattern being
    periodic from minute 531 with period 28; [part_2_shortcut] proves
    that this gives the state after 10^9 minutes exactly when the
    pattern has that period. *)

From Stdlib Require Import ZArith Ascii String Lia.
From stdpp Require Import strings gmap.
From S2P Require Import Prelude Decoding.

Open Scope Z_scope.
Open Scope py_scope.

Module SettlersOfTheNorthPole.

Definition OPEN : ascii := ".".
Definition TREES : ascii := "|".
Definition LUMBERYARD : ascii := "#".

Record LumberArea := mk_area {
  grid : list (list ascii);
  width : Z;
  height : Z
}.

(** [LumberArea(grid)]: [len(grid[0])] raises on an empty grid. *)
Definition init (g : list (list ascii)) : res LumberArea :=
  row0 <- py_get g 0 ;;
  Ok (mk_area g (Z.of_nat (length row0)) (Z.of_nat (length g))).

(** [lumber_area_from_file], over the lines: each stripped line as its
    list of characters. *)
Definition from_lines (lines : list string) : res LumberArea :=
  init (map (fun l => list_ascii_of_string (strip l)) lines).

Definition tile (a : LumberArea) (x y : Z) : res (option ascii) :=
  if (x <? 0) || (y <? 0) then Ok None
  else if (x >=? width a) || (y >=? height a) then Ok None
  else row <- py_get (grid a) y ;; c <- py_get row x ;; Ok (Some c).

(** The eight neighbour lookups, in the order of the source. *)
Definition neighbor_tiles (a : LumberArea) (x y : Z) : res (list (option ascii)) :=
  res_map (fun d => tile a (x + d.1) (y + d.2))
    [(-1, 0); (1, 0); (-1, -1); (-1, 1); (1, -1); (1, 1); (0, -1); (0, 1)].

(** [neighbors]: the lookups that are not [None]. *)
Definition neighbors (a : LumberArea) (x y : Z) : res (list ascii) :=
  ns <- neighbor_tiles a x y ;; Ok (omap id ns).

(** [Counter(neighbors)[kind]]. *)
Definition survey_count (ns : list (option ascii)) (kind : ascii) : nat :=
  length (List.filter (fun o => bool_decide (o = Some kind)) ns).

(** The rule for one acre. *)
Definition next_tile (t : ascii) (ns : list (option ascii)) : res ascii :=
  if bool_decide (t = OPEN) then
    Ok (if (3 <=? survey_count ns TREES)%nat then TREES else OPEN)
  else if bool_decide (t = TREES) then
    Ok (if (3 <=? survey_count ns LUMBERYARD)%nat then LUMBERYARD else TREES)
  else if bool_decide (t = LUMBERYARD) then
    Ok (if (1 <=? survey_count ns LUMBERYARD)%nat && (1 <=? survey_count ns TREES)%nat
        then LUMBERYARD else OPEN)
  else Err (PyException "Unknown tile type").

(** [tile = self.tile(x, y)]; inside the grid it is never [None]. *)
Definition new_tile (a : LumberArea) (x y : Z) : res ascii :=
  t <- tile a x y ;;
  ns <- neighbor_tiles a x y ;;
  match t with
  | Some t => next_tile t ns
  | None => Err (PyException "Unknown tile type")
  end.

(** [step]: the new grid is built from the old one, then replaces it. *)
Definition step (a : LumberArea) : res LumberArea :=
  new_grid <- res_map (fun y => res_map (fun x => new_tile a x y) (py_range 0 (width a)))
                (py_range 0 (height a)) ;;
  Ok (mk_area new_grid (width a) (height a)).

(** [survey]: the counts of all tiles; [total_value]. *)
Definition count_kind (a : LumberArea) (kind : ascii) : Z :=
  Z.of_nat (length (List.filter (fun c => bool_decide (c = kind)) (concat (grid a)))).

Definition total_value (a : LumberArea) : Z := count_kind a TREES * count_kind a LUMBERYARD.

(** [for _ in range(n): lumber_area.step()]. *)
Fixpoint steps (n : nat) (a : LumberArea) : res LumberArea :=
  match n with
  | O => Ok a
  | S n' => a' <- step a ;; steps n' a'
  end.

(** [test_part_1]: ten minutes. *)
Definition part_1 (a : LumberArea) : res Z := a' <- steps 10 a ;; Ok (total_value a').

(** [test_part_2]: the constants of the test. *)
Definition stable_after : Z := 531.
Definition cycle_length : Z := 28.
Definition iterations : Z := 1000000000.

Definition part_2 (a : LumberArea) : res Z :=
  a1 <- steps (Z.to_nat stable_after) a ;;
  a2 <- steps (Z.to_nat ((iterations - stable_after) mod cycle_length)) a1 ;;
  Ok (total_value a2).

(** [test_find_cycles]: the nested [cycle_length()] mutates the one
    [lumber_area]; both [while True] loops get fuel ([None] when it runs
    out).  [cycle_length] returns [len(seen)] and the area after the
    repeat. *)
Fixpoint cycle_length_loop (fuel : nat) (a : LumberArea) (seen : gset Z)
    : res (option (nat * LumberArea)) :=
  match fuel with
  | O => Ok None
  | S fuel' =>
      a' <- step a ;;
      let new_value := total_value a' in
      if decide (new_value ∈ seen) then Ok (Some (size seen, a'))
      else cycle_length_loop fuel' a' ({[new_value]} ∪ seen)
  end.

Definition cycle_length_of (fuel : nat) (a : LumberArea) : res (option (nat * LumberArea)) :=
  cycle_length_loop fuel a {[total_value a]}.

(** The outer loop: the printed [sum(cycles)] and [cycle]; the set
    [cycles] is a list without duplicates (a value is added only when
    absent). *)
Fixpoint find_cycles_loop (fuel inner : nat) (a : LumberArea) (cycles : list nat)
    : res (option (nat * nat)) :=
  match fuel with
  | O => Ok None
  | S fuel' =>
      r <- cycle_length_of inner a ;;
      match r with
      | None => Ok None
      | Some (cycle, a') =>
          if decide (cycle ∈ cycles) then Ok (Some (list_sum cycles, cycle))
          else find_cycles_loop fuel' inner a' (cycle :: cycles)
      end
  end.

Definition find_cycles (fuel inner : nat) (a : LumberArea) : res (option (nat * nat)) :=
  r <- cycle_length_of inner a ;;
  match r with
  | None => Ok None
  | Some (first_cycle, a') => find_cycles_loop fuel inner a' [first_cycle]
  end.

(** ** Well-formed areas *)

Definition known (c : ascii) : Prop := c = OPEN \/ c = TREES \/ c = LUMBERYARD.

(** A rectangular grid of known tiles, with the dimensions recorded. *)
Definition wf (a : LumberArea) : Prop :=
  height a = Z.of_nat (length (grid a)) /\ 0 <= width a /\
  Forall (fun row => Z.of_nat (length row) = width a /\ Forall known row) (grid a).

Abbreviation sample := [
  ".#.#...|#."; ".....#|##|"; ".|..|...#."; "..|#.....#"; "#.#|||#|#|";
  "...#.||..."; ".|....|..."; "||...#|.#|"; "|.||||..|."; "...#.|..|."]%string.

Lemma tile_wf a x y :
  wf a -> exists o, tile a x y = Ok o /\ (forall c, o = Some c -> known c) /\
    (0 <= x < width a -> 0 <= y < height a -> o <> None).
Proof.
  intros (Hh & Hw & Hrows). unfold tile.
  destruct (Z.ltb_spec x 0), (Z.ltb_spec y 0); simpl;
    try (exists None; split; [reflexivity | split; [discriminate | lia]]).
  destruct (Z.geb_spec x (width a)), (Z.geb_spec y (height a)); simpl;
    try (exists None; split; [reflexivity | split; [discriminate | lia]]).
  destruct (proj2 (py_get_Ok_iff (grid a) y) ltac:(lia)) as [row Hrow]. rewrite Hrow. simpl.
  apply py_get_lookup in Hrow as (n & Hn & Hrow).
  apply py_index_Some in Hn as [_ [[_ Hn] | [Hn _]]]; [|lia].
  pose proof (proj1 (Forall_lookup _ _) Hrows n row Hrow) as [Hlen Hknown].
  destruct (proj2 (py_get_Ok_iff row x) ltac:(lia)) as [c Hc]. rewrite Hc. simpl.
  apply py_get_lookup in Hc as (m & _ & Hc).
  exists (Some c). split; [reflexivity|]. split; [|discriminate].
  intros c' [= <-]. exact (proj1 (Forall_lookup _ _) Hknown m c Hc).
Qed.

Lemma neighbor_tiles_wf a x y : wf a -> exists ns, neighbor_tiles a x y = Ok ns.
Proof.
  intros Hwf. unfold neighbor_tiles.
  destruct (res_map_total (fun d => tile a (x + d.1) (y + d.2)) (fun _ => True)
              [(-1, 0); (1, 0); (-1, -1); (-1, 1); (1, -1); (1, 1); (0, -1); (0, 1)]) as (ns & Hns & _).
  - intros d _. destruct (tile_wf a (x + d.1) (y + d.2) Hwf) as (o & Ho & _). eauto.
  - eauto.
Qed.

Lemma next_tile_known t ns : known t -> exists t', next_tile t ns = Ok t' /\ known t'.
Proof.
  unfold next_tile, known. intros [-> | [-> | ->]]; simpl;
    eexists; (split; [reflexivity|]);
    repeat match goal with |- context [if ?b then _ else _] => destruct b end; auto.
Qed.

Lemma new_tile_wf a x y :
  wf a -> 0 <= x < width a -> 0 <= y < height a -> exists c, new_tile a x y = Ok c /\ known c.
Proof.
  intros Hwf Hx Hy. unfold new_tile.
  destruct (tile_wf a x y Hwf) as ([c|] & Ht & Hk & Hin); [|exfalso; exact (Hin Hx Hy eq_refl)].
  rewrite Ht. simpl. destruct (neighbor_tiles_wf a x y Hwf) as [ns Hns]. rewrite Hns. simpl.
  apply next_tile_known, Hk. reflexivity.
Qed.

(** One minute is total on well-formed areas and keeps them
    well-formed: on a rectangular grid of known tiles [step] never
    raises, and yields a grid of the same dimensions whose tiles are
    again open ground, trees or lumberyards. *)
Theorem step_wf a : wf a -> exists a', step a = Ok a' /\ wf a'.
Proof.
  intros Hwf. pose proof Hwf as (Hh & Hw & _). unfold step.
  destruct (res_map_total (fun y => res_map (fun x => new_tile a x y) (py_range 0 (width a)))
              (fun row => Z.of_nat (length row) = width a /\ Forall known row) (py_range 0 (height a)))
    as (rows & Hrows & Hall & Hlen).
  - intros y Hy. apply in_py_range in Hy.
    destruct (res_map_total (fun x => new_tile a x y) known (py_range 0 (width a)))
      as (row & Hrow & Hk & Hl).
    + intros x Hx. apply in_py_range in Hx. apply new_tile_wf; [exact Hwf | lia | lia].
    + exists row. split; [exact Hrow|]. split; [|exact Hk]. rewrite Hl, length_py_range. lia.
  - rewrite Hrows. simpl. eexists. split; [reflexivity|]. unfold wf. simpl.
    split; [rewrite Hlen, length_py_range; lia|]. split; [exact Hw | exact Hall].
Qed.

(** ** Part 2: skipping whole periods *)

Lemma steps_add n m a : steps (n + m) a = (a' <- steps n a ;; steps m a').
Proof.
  revert a. induction n as [|n IH]; intros a; simpl; [reflexivity|].
  destruct (step a); simpl; [apply IH | reflexivity].
Qed.

Lemma steps_periodic s c a : steps (s + c) a = steps s a -> forall k r, steps (s + k * c + r) a = steps (s + r) a.
Proof.
  intros Hp k r. rewrite (steps_add (s + k * c) r), (steps_add s r). f_equal.
  induction k as [|k IH]; [replace (s + 0 * c)%nat with s by lia; reflexivity|].
  replace (s + S k * c)%nat with (s + c + k * c)%nat by lia. rewrite steps_add, Hp, <- steps_add. exact IH.
Qed.

(** The part-2 shortcut is sound under its assumption.  If the area
    after 531 + 28 minutes is the area after 531 minutes, then what
    [test_part_2] computes (531 minutes, then
    [(1000000000 - 531) % 28] more) is the total value after 10^9
    minutes. *)
Theorem part_2_shortcut a :
  steps (Z.to_nat (stable_after + cycle_length)) a = steps (Z.to_nat stable_after) a ->
  part_2 a = (a' <- steps (Z.to_nat iterations) a ;; Ok (total_value a')).
Proof.
  intros Hp. unfold part_2. rewrite Z2Nat.inj_add in Hp by (unfold stable_after, cycle_length; lia).
  assert (E : Z.to_nat iterations =
    (Z.to_nat stable_after + Z.to_nat ((iterations - stable_after) / cycle_length) * Z.to_nat cycle_length
     + Z.to_nat ((iterations - stable_after) mod cycle_length))%nat).
  { assert (Hq : (iterations - stable_after) / cycle_length = 35714266) by reflexivity.
    assert (Hr : (iterations - stable_after) mod cycle_length = 21) by reflexivity.
    rewrite Hq, Hr. unfold iterations, stable_after, cycle_length. lia. }
  rewrite E, (steps_periodic _ _ _ Hp), steps_add, res_bind_assoc. reflexivity.
Qed.

(** [test_sample_area] on the example of the puzzle text: after ten
    minutes 37 acres are wooded and 31 are lumberyards, total 1147. *)
Theorem sample_area_total :
  (a <- from_lines sample ;; part_1 a) = Ok 1147.
Proof. vm_compute. reflexivity. Qed.

Lemma part_2_shortcut_witness :
  steps (Z.to_nat (stable_after + cycle_length)) (mk_area [["."%char]] 1 1) =
    steps (Z.to_nat stable_after) (mk_area [["."%char]] 1 1) /\
  part_2 (mk_area [["."%char]] 1 1) =
    (a' <- steps (Z.to_nat iterations) (mk_area [["."%char]] 1 1) ;; Ok (total_value a')).
Proof.
  assert (H : steps (Z.to_nat (stable_after + cycle_length)) (mk_area [["."%char]] 1 1) =
              steps (Z.to_nat stable_after) (mk_area [["."%char]] 1 1)) by (vm_compute; reflexivity).
  split; [exact H | exact (part_2_shortcut _ H)].
Defined.

Lemma step_wf_witness :
  wf (mk_area [["."%char; "|"%char]] 2 1) /\
  exists a', step (mk_area [["."%char; "|"%char]] 2 1) = Ok a' /\ wf a'.
Proof.
  assert (H : wf (mk_area [["."%char; "|"%char]] 2 1)).
  { split; [reflexivity|]. split; [cbn; lia|]. constructor; [|constructor].
    split; [reflexivity|].
    constructor; [left; reflexivity | constructor; [right; left; reflexivity | constructor]]. }
  split; [exact H | exact (step_wf _ H)].
Defined.

End SettlersOfTheNorthPole.
