(* ===== verification/Day11.v ===== *)
(** * Day 11: fuel-cell power and the summed-area table (src/day_11.py)

    [FuelCells] fills a [size x size] numpy array with
    [serial_to_power_level(serial, x, y)] for [x, y] in [range(size)],
    builds its summed-area table with [cumsum(axis=0).cumsum(axis=1)],
    and finds the square with the highest total by inclusion-exclusion
    on the table.  The arrays hold small integers, so numpy's floats are
    exact and are modelled as [Z]; arrays are lists of rows, indexed
    with Python indexing.

    The theorems: power levels lie in [-5, 4]; [total_in_square x y s]
    is the sum of the cells [(x, y) + (1..s, 1..s)], i.e. the square
    whose top-left corner the code reports as [Point(x + 1, y + 1)]; and
    (a finding) the table covers coordinates [0 .. size - 1] rather than
    the puzzle's [1 .. size], so no reported square reaches coordinate
    [size]. *)

From Stdlib Require Import ZArith Lia.
From stdpp Require Import base list.
From S2P Require Import Prelude.

Open Scope Z_scope.
Open Scope py_scope.

Module ChronalCharge.

Definition puzzle_serial_number : Z := 3613.

(** [FuelCells.serial_to_power_level]. *)
Definition serial_to_power_level (serial x y : Z) : Z :=
  let rack_id := x + 10 in
  let power_level := rack_id * y + serial in
  let power_level := power_level * rack_id in
  let power_level := power_level / 100 mod 10 in
  power_level - 5.

(** [set_cell_power_levels]: [cells[x][y]] for [x, y] in [range(size)]. *)
Definition cells (serial size : Z) : list (list Z) :=
  map (fun x => map (fun y => serial_to_power_level serial x y) (py_range 0 size)) (py_range 0 size).

(** [cumsum(axis=0)]: each row is the elementwise sum of the rows up to
    it. *)
Fixpoint cumsum0_go (acc : list Z) (m : list (list Z)) : list (list Z) :=
  match m with
  | [] => []
  | r :: m' => let acc' := zip_with Z.add acc r in acc' :: cumsum0_go acc' m'
  end.

Definition cumsum0 (m : list (list Z)) : list (list Z) :=
  match m with
  | [] => []
  | r :: m' => r :: cumsum0_go r m'
  end.

(** [cumsum(axis=1)]: the prefix sums of each row. *)
Fixpoint prefix_go (acc : Z) (r : list Z) : list Z :=
  match r with
  | [] => []
  | v :: r' => (acc + v) :: prefix_go (acc + v) r'
  end.

Definition cumsum1 (m : list (list Z)) : list (list Z) := map (prefix_go 0) m.

(** The state after [__init__]. *)
Record FuelCells := mk_cells {
  serial_number : Z;
  size : Z;
  summed : list (list Z)
}.

Definition init (serial size : Z) : FuelCells :=
  mk_cells serial size (cumsum1 (cumsum0 (cells serial size))).

(** [self.summed[i][j]]. *)
Definition summed_at (f : FuelCells) (i j : Z) : res Z :=
  row <- py_get (summed f) i ;; py_get row j.

Definition total_in_square (f : FuelCells) (x y sq : Z) : res Z :=
  a <- summed_at f x y ;;
  b <- summed_at f (x + sq) y ;;
  c <- summed_at f x (y + sq) ;;
  d <- summed_at f (x + sq) (y + sq) ;;
  Ok (d - b - c + a).

(** The double loop of [find_highest_total_power], with [point]
    ([None] at first) and [highest] (0 at first). *)
Definition scan_step (f : FuelCells) (sq : Z) (acc : option (Z * Z) * Z) (xy : Z * Z)
    : res (option (Z * Z) * Z) :=
  total <- total_in_square f xy.1 xy.2 sq ;;
  if acc.2 <? total then Ok (Some (xy.1 + 1, xy.2 + 1), total) else Ok acc.

Definition find_highest_total_power (f : FuelCells) (sq : Z) : res (option (Z * Z) * Z) :=
  res_fold (scan_step f sq)
    (flat_map (fun x => map (fun y => (x, y)) (py_range 0 (size f - sq))) (py_range 0 (size f - sq)))
    (None, 0).

(** [find_highest_any_size]: square sizes [range(1, self.size - 1)]. *)
Definition find_highest_any_size (f : FuelCells) : res (option (Z * Z) * Z * Z) :=
  res_fold (fun acc i =>
      r <- find_highest_total_power f i ;;
      let '(location, power) := r in
      let '(point, sz, highest) := acc in
      if highest <? power then Ok (location, i, power) else Ok acc)
    (py_range 1 (size f - 1)) (None, 1, 0).

(** ** Power levels *)

(** [sum(f(i) for i in range(lo, hi))]. *)
Definition sum_range (f : Z -> Z) (lo hi : Z) : Z := fold_right (fun i acc => f i + acc) 0 (py_range lo hi).

(** The table: [summed[i][j]] is the sum of the cells [(x', y')] with
    [x' <= i] and [y' <= j]. *)
Definition table (serial i j : Z) : Z :=
  sum_range (fun y' => sum_range (fun x' => serial_to_power_level serial x' y') 0 (i + 1)) 0 (j + 1).

(** The sum of the cells of the square with corner [(x0, y0)] and side
    [s] (coordinates [x0 .. x0 + s - 1]): the reference. *)
Definition square_sum (serial x0 y0 s : Z) : Z :=
  sum_range (fun y' => sum_range (fun x' => serial_to_power_level serial x' y') x0 (x0 + s)) y0 (y0 + s).

(** Every power level lies between -5 and 4 (the hundreds digit
    minus 5), whatever the serial number and coordinates. *)
Theorem power_level_bounds serial x y : -5 <= serial_to_power_level serial x y <= 4.
Proof.
  unfold serial_to_power_level. pose proof (Z.mod_pos_bound ((x + 10) * y + serial) 10). 
  pose proof (Z.mod_pos_bound (((x + 10) * y + serial) * (x + 10) / 100) 10 ltac:(lia)). lia.
Qed.

(** The assertions of [test_serial_to_power_level]. *)
Theorem power_level_tests :
  serial_to_power_level 8 3 5 = 4 /\ serial_to_power_level 57 122 79 = -5 /\
  serial_to_power_level 39 217 196 = 0 /\ serial_to_power_level 71 101 153 = 4.
Proof. repeat split. Qed.

(** ** The summed-area table *)

Lemma py_range_nil a b : b <= a -> py_range a b = [].
Proof. intros H. unfold py_range. replace (Z.to_nat (b - a)) with 0%nat by lia. reflexivity. Qed.

Lemma sum_range_cons f a b : a < b -> sum_range f a b = f a + sum_range f (a + 1) b.
Proof. intros H. unfold sum_range. rewrite py_range_cons by exact H. reflexivity. Qed.

Lemma sum_range_nil f a b : b <= a -> sum_range f a b = 0.
Proof. intros H. unfold sum_range. rewrite py_range_nil by exact H. reflexivity. Qed.

Lemma sum_range_split f a m b : a <= m <= b -> sum_range f a b = sum_range f a m + sum_range f m b.
Proof.
  intros H. remember (Z.to_nat (m - a)) as n eqn:Hn. revert a H Hn.
  induction n as [|n IH]; intros a H Hn.
  - assert (m = a) as -> by lia. rewrite (sum_range_nil f a a) by lia. lia.
  - rewrite (sum_range_cons f a b), (sum_range_cons f a m) by lia. rewrite (IH (a + 1)) by lia. lia.
Qed.

Lemma sum_range_add f g a b : sum_range (fun i => f i + g i) a b = sum_range f a b + sum_range g a b.
Proof. unfold sum_range. induction (py_range a b); simpl; lia. Qed.

Lemma sum_range_ext f g a b : (forall i, a <= i < b -> f i = g i) -> sum_range f a b = sum_range g a b.
Proof.
  intros H. unfold sum_range. assert (Hin : forall i, In i (py_range a b) -> f i = g i).
  { intros i Hi. apply H, in_py_range, Hi. }
  revert Hin. generalize (py_range a b). intros l. induction l as [|i l IH]; intros Hin; simpl; [reflexivity|].
  rewrite (Hin i (or_introl eq_refl)), IH by (intros j Hj; apply Hin; right; exact Hj). reflexivity.
Qed.

Lemma zip_with_map_same {A} (f : Z -> Z -> Z) (g h : A -> Z) l :
  zip_with f (map g l) (map h l) = map (fun y => f (g y) (h y)) l.
Proof. induction l; simpl; f_equal; auto. Qed.

(** [cumsum(axis=1)] of a row given by a function. *)
Lemma prefix_go_range h a b : forall acc,
  prefix_go acc (map h (py_range a b)) = map (fun y => acc + sum_range h a (y + 1)) (py_range a b).
Proof.
  remember (Z.to_nat (b - a)) as n eqn:Hn. revert a Hn.
  induction n as [|n IH]; intros a Hn acc.
  - rewrite py_range_nil by lia. reflexivity.
  - rewrite py_range_cons by lia. simpl. rewrite (IH (a + 1)) by lia. f_equal.
    + rewrite sum_range_cons, sum_range_nil by lia. lia.
    + apply map_ext_in. intros y Hy. apply in_py_range in Hy.
      rewrite (sum_range_cons h a (y + 1)) by lia. lia.
Qed.

(** [cumsum(axis=0)] of a matrix given by a function. *)
Lemma cumsum0_go_range (g : Z -> Z -> Z) (R : list Z) a b : forall acc,
  acc = map (fun y => sum_range (fun x' => g x' y) 0 a) R -> 0 <= a ->
  cumsum0_go acc (map (fun x => map (g x) R) (py_range a b)) =
  map (fun x => map (fun y => sum_range (fun x' => g x' y) 0 (x + 1)) R) (py_range a b).
Proof.
  remember (Z.to_nat (b - a)) as n eqn:Hn. revert a Hn.
  induction n as [|n IH]; intros a Hn acc Hacc Ha.
  - rewrite py_range_nil by lia. reflexivity.
  - rewrite py_range_cons by lia. simpl.
    assert (Hacc' : zip_with Z.add acc (map (g a) R) = map (fun y => sum_range (fun x' => g x' y) 0 (a + 1)) R).
    { rewrite Hacc, zip_with_map_same. apply map_ext. intros y.
      rewrite (sum_range_split _ 0 a (a + 1)) by lia.
      rewrite (sum_range_cons _ a), (sum_range_nil _ (a + 1) (a + 1)) by lia. lia. }
    rewrite Hacc'. f_equal. apply IH; [lia | reflexivity | lia].
Qed.

Lemma cumsum0_range (g : Z -> Z -> Z) (R : list Z) n :
  0 < n ->
  cumsum0 (map (fun x => map (g x) R) (py_range 0 n)) =
  map (fun x => map (fun y => sum_range (fun x' => g x' y) 0 (x + 1)) R) (py_range 0 n).
Proof.
  intros Hn. rewrite (py_range_cons 0 n) by lia. cbn [map cumsum0].
  assert (H0 : map (g 0) R = map (fun y => sum_range (fun x' => g x' y) 0 (0 + 1)) R).
  { apply map_ext. intros y. rewrite sum_range_cons, sum_range_nil by lia. lia. }
  rewrite H0. f_equal. apply cumsum0_go_range; [reflexivity | lia].
Qed.

Lemma summed_table serial n :
  0 < n ->
  summed (init serial n) =
  map (fun i => map (fun j => table serial i j) (py_range 0 n)) (py_range 0 n).
Proof.
  intros Hn. unfold init, cells, cumsum1. cbn [summed].
  rewrite (cumsum0_range (fun x y => serial_to_power_level serial x y)) by exact Hn.
  rewrite map_map. apply map_ext. intros x. rewrite prefix_go_range. apply map_ext. intros y.
  unfold table. lia.
Qed.

Lemma py_get_map_range {A} (h : Z -> A) n i :
  0 <= i < n -> py_get (map h (py_range 0 n)) i = Ok (h i).
Proof.
  intros Hi. rewrite <- (Z2Nat.id i) by lia.
  rewrite py_get_nonneg by (rewrite length_map, length_py_range; lia).
  rewrite list_lookup_fmap. unfold py_range. rewrite list_lookup_fmap, lookup_seq_lt by lia.
  simpl. repeat f_equal; lia.
Qed.

Lemma summed_at_table serial n i j :
  0 <= i < n -> 0 <= j < n -> summed_at (init serial n) i j = Ok (table serial i j).
Proof.
  intros Hi Hj. unfold summed_at. rewrite summed_table by lia.
  rewrite py_get_map_range by exact Hi. simpl. apply py_get_map_range. exact Hj.
Qed.

(** The summed-area table is correct.  For a square that fits the
    table ([x + s < size], [y + s < size]), [total_in_square x y s] is
    the sum of the [s x s] cells with corner [(x + 1, y + 1)], the point
    [find_highest_total_power] reports for it. *)
Theorem total_in_square_correct serial n x y s :
  0 <= x -> 0 <= y -> 0 <= s -> x + s < n -> y + s < n ->
  total_in_square (init serial n) x y s = Ok (square_sum serial (x + 1) (y + 1) s).
Proof.
  intros Hx Hy Hs Hxs Hys. unfold total_in_square.
  rewrite !summed_at_table by lia. simpl. f_equal. unfold table, square_sum.
  replace (x + 1 + s) with (x + s + 1) by lia. replace (y + 1 + s) with (y + s + 1) by lia.
  set (P := fun x' y' => serial_to_power_level serial x' y').
  set (U := fun y' => sum_range (fun x' => P x' y') (x + 1) (x + s + 1)).
  assert (Hsplit : forall b, sum_range (fun y' => sum_range (fun x' => P x' y') 0 (x + s + 1)) 0 b =
    sum_range (fun y' => sum_range (fun x' => P x' y') 0 (x + 1)) 0 b + sum_range U 0 b).
  { intros b. rewrite <- sum_range_add. apply sum_range_ext. intros y' _. apply sum_range_split. lia. }
  rewrite !Hsplit, (sum_range_split U 0 (y + 1) (y + s + 1)) by lia.
  lia.
Qed.

(** C30: the reported square never reaches coordinate [size].  When
    [find_highest_total_power] reports a corner [(px, py)] for squares of
    side [s >= 1], the square's cells [px .. px + s - 1] (and likewise in
    [y]) stay within [1 .. size - 1]: the table has rows [0 .. size - 1]
    only, so on the puzzle's grid [1 .. 300] the squares touching
    coordinate 300 are never considered. *)
Theorem find_highest_reports_inside f s px py h :
  find_highest_total_power f s = Ok (Some (px, py), h) ->
  1 <= px /\ px + s <= size f /\ 1 <= py /\ py + s <= size f.
Proof.
  unfold find_highest_total_power. intros H.
  refine (res_fold_inv (fun acc => forall qx qy, acc.1 = Some (qx, qy) ->
           1 <= qx /\ qx + s <= size f /\ 1 <= qy /\ qy + s <= size f) _ _ _ _ _ _ H px py eq_refl).
  - intros ? ? [=].
  - intros acc [x y] acc' Hin Hacc Hstep. unfold scan_step in Hstep.
    apply in_flat_map in Hin as (x' & Hx & Hin). apply in_map_iff in Hin as (y' & [= -> ->] & Hy).
    apply in_py_range in Hx, Hy. simpl in Hstep.
    destruct (total_in_square f x y s) as [t|e]; simpl in Hstep; [|discriminate].
    destruct (acc.2 <? t); injection Hstep as <-; [|exact Hacc].
    intros qx qy [= <- <-]. lia.
Qed.

Lemma total_in_square_correct_witness :
  (0 <= 0 /\ 0 <= 0 /\ 0 <= 2 /\ 0 + 2 < 6 /\ 0 + 2 < 6) /\
  total_in_square (init 18 6) 0 0 2 = Ok (square_sum 18 (0 + 1) (0 + 1) 2).
Proof.
  split; [lia|]. apply total_in_square_correct; lia.
Defined.

Lemma find_highest_reports_inside_witness :
  find_highest_total_power (init 18 6) 2 = Ok (Some (1, 4), 10) /\
  (1 <= 1 /\ 1 + 2 <= size (init 18 6) /\ 1 <= 4 /\ 4 + 2 <= size (init 18 6)).
Proof.
  assert (H : find_highest_total_power (init 18 6) 2 = Ok (Some (1, 4), 10)) by (vm_compute; reflexivity).
  split; [exact H | exact (find_highest_reports_inside _ _ _ _ _ H)].
Defined.

End ChronalCharge.
