(* ===== verification/Day08.v ===== *)
(** * Day 8: the license tree (src/day_08.py)

    [Tree.tree_from_headers] reads a node header (child count, metadata
    count) from a [deque] of integers, then the children recursively,
    then the metadata; [popleft] on an empty deque raises [IndexError].
    Nodes are named by a counter in pre-order ([num_to_letter]).  The
    recursion consumes the deque, not a structural argument, so [visit]
    takes fuel; [visit_enough_fuel] shows that [len(numbers) + 1] is
    always enough.  [Node.value] recurses into the children that the
    metadata name; [all_nodes] returns [None], the root itself, or the
    post-order list, and [metadata_sum] sums over it.

    Findings: a metadata entry [0] makes [value] read [children[-1]],
    the last child, where the puzzle says it refers to no child; and a
    tree whose root has no children makes [all_nodes] return the node
    itself, so [metadata_sum] raises [TypeError]. *)

From Stdlib Require Import ZArith Ascii String Lia.
From stdpp Require Import base list strings.
From S2P Require Import Prelude Decoding PyText.

Open Scope Z_scope.
Open Scope py_scope.

Module MemoryManeuver.

(** [string.ascii_uppercase[num % 26] * (num // 26 + 1)]. *)
Definition num_to_letter (num : Z) : string :=
  let c := ascii_of_nat (65 + Z.to_nat (num mod 26)) in
  string_of_list_ascii (repeat c (Z.to_nat (num / 26 + 1))).

(** [Tree.Node]: a name, the children and the metadata. *)
Inductive node := Node (data : string) (children : list node) (metadata : list Z).

Definition children (n : node) : list node := let 'Node _ cs _ := n in cs.
Definition metadata (n : node) : list Z := let 'Node _ _ md := n in md.

Definition sum (xs : list Z) : Z := fold_left Z.add xs 0.

(** [Node.value]: the children are looked up lazily, only when a
    metadata entry names them, through Python indexing
    ([children[num - 1]]). *)
Fixpoint value (n : node) : res Z :=
  match n with
  | Node _ [] md => Ok (sum md)
  | Node _ cs md =>
      let thunks := map (fun c (_ : unit) => value c) cs in
      res_fold (fun total num =>
          if Z.of_nat (length cs) <=? num - 1 then Ok total
          else th <- py_get thunks (num - 1) ;; v <- th tt ;; Ok (total + v))
        md 0
  end.

(** The deque: [popleft] from the front. *)
Definition popleft (numbers : list Z) : res (Z * list Z) :=
  match numbers with
  | [] => Err IndexError
  | n :: rest => Ok (n, rest)
  end.

(** [next_header()]: two pops, child count first. *)
Definition next_header (numbers : list Z) : res (Z * Z * list Z) :=
  p1 <- popleft numbers ;; let '(c, numbers) := p1 in
  p2 <- popleft numbers ;; let '(m, numbers) := p2 in
  Ok (c, m, numbers).

(** [metadata(num)]: [num] pops. *)
Fixpoint take_meta (k : nat) (numbers : list Z) : res (list Z * list Z) :=
  match k with
  | O => Ok ([], numbers)
  | S k' =>
      p <- popleft numbers ;; let '(v, numbers) := p in
      r <- take_meta k' numbers ;; let '(vs, numbers) := r in
      Ok (v :: vs, numbers)
  end.

(** The [for _ in range(header.num_children)] loop of [visit], given
    the recursive call; children are appended in order. *)
Fixpoint kids_loop (visit' : Z * Z -> list Z -> Z -> res (option (node * list Z * Z)))
    (k : nat) (numbers : list Z) (count : Z) (acc : list node)
    : res (option (list node * list Z * Z)) :=
  match k with
  | O => Ok (Some (rev acc, numbers, count))
  | S k' =>
      h <- next_header numbers ;; let '(c, m, numbers) := h in
      r <- visit' (c, m) numbers count ;;
      match r with
      | None => Ok None
      | Some (child, numbers, count) => kids_loop visit' k' numbers count (child :: acc)
      end
  end.

(** [visit(header)] with the counter [count] of [new_node]; [None] when
    the fuel runs out. *)
Fixpoint visit (fuel : nat) (header : Z * Z) (numbers : list Z) (count : Z)
    : res (option (node * list Z * Z)) :=
  match fuel with
  | O => Ok None
  | S fuel' =>
      let name := num_to_letter count in
      r <- kids_loop (visit fuel') (if 0 <? header.1 then Z.to_nat header.1 else 0%nat)
             numbers (count + 1) [] ;;
      match r with
      | None => Ok None
      | Some (cs, numbers, count) =>
          md <- take_meta (Z.to_nat header.2) numbers ;; let '(meta, numbers) := md in
          Ok (Some (Node name cs meta, numbers, count))
      end
  end.

(** [Tree.tree_from_headers] on the integers of the input: the root and
    the final counter. *)
Definition tree_from_numbers (numbers : list Z) : res (option (node * Z)) :=
  h <- next_header numbers ;; let '(c, m, numbers) := h in
  r <- visit (S (length numbers)) (c, m) numbers 0 ;;
  match r with
  | None => Ok None
  | Some (root, _, count) => Ok (Some (root, count))
  end.

(** [license_input.split()] and [int(n)] of each token, then the tree. *)
Definition tree_from_headers (license_input : string) : res (option (node * Z)) :=
  numbers <- res_map py_int (split_ws (list_ascii_of_string license_input)) ;;
  tree_from_numbers numbers.

(** What [all_nodes] returns: [None], a bare node, or a list. *)
Inductive nodes_result :=
  | RNone
  | RNode (n : node)
  | RList (ns : list node).

(** [visit] of [all_nodes]: children first, then the node. *)
Fixpoint postorder (n : node) : list node :=
  let 'Node _ cs _ := n in flat_map postorder cs ++ [n].

Definition all_nodes (root : option node) : nodes_result :=
  match root with
  | None => RNone
  | Some r => match children r with [] => RNode r | _ => RList (postorder r) end
  end.

(** [metadata_sum]: iterating over [None] or a [Node] is a
    [TypeError]. *)
Definition metadata_sum (root : option node) : res Z :=
  match all_nodes root with
  | RList ns => Ok (sum (map (fun n => sum (metadata n)) ns))
  | _ => Err TypeError
  end.

(** ** The fuel of the parser is always enough *)

(** The deque only shrinks. *)
Definition shrinks (V : Z * Z -> list Z -> Z -> res (option (node * list Z * Z))) : Prop :=
  forall h l c n l' c', V h l c = Ok (Some (n, l', c')) -> (length l' <= length l)%nat.

Abbreviation sample := "2 3 0 3 10 11 12 1 1 0 1 99 2 1 1 2"%string.

Lemma popleft_len l v l' : popleft l = Ok (v, l') -> length l = S (length l').
Proof. destruct l; simpl; [discriminate | intros [= <- <-]; reflexivity]. Qed.

Lemma next_header_len l c m l' : next_header l = Ok (c, m, l') -> length l = S (S (length l')).
Proof.
  unfold next_header. destruct (popleft l) as [[c1 l1]|e] eqn:E1; simpl; [|discriminate].
  destruct (popleft l1) as [[m1 l2]|e] eqn:E2; simpl; [|discriminate]. intros [= <- <- <-].
  apply popleft_len in E1, E2. lia.
Qed.

Lemma take_meta_len k : forall l vs l', take_meta k l = Ok (vs, l') -> (length l' <= length l)%nat.
Proof.
  induction k as [|k IH]; intros l vs l' H; simpl in H; [injection H as <- <-; lia|].
  destruct (popleft l) as [[v l1]|e] eqn:E1; simpl in H; [|discriminate].
  destruct (take_meta k l1) as [[vs1 l2]|e] eqn:E2; simpl in H; [|discriminate].
  injection H as <- <-. apply popleft_len in E1. apply IH in E2. lia.
Qed.

Lemma kids_loop_len V : shrinks V -> forall k l c acc cs l' c',
  kids_loop V k l c acc = Ok (Some (cs, l', c')) -> (length l' <= length l)%nat.
Proof.
  intros HV k. induction k as [|k IH]; intros l c acc cs l' c' H; simpl in H; [injection H as _ <- _; lia|].
  destruct (next_header l) as [[[c0 m0] l1]|e] eqn:Eh; simpl in H; [|discriminate].
  destruct (V (c0, m0) l1 c) as [[[[child l2] c2]|]|e] eqn:Ev; simpl in H; try discriminate.
  apply IH in H. apply HV in Ev. apply next_header_len in Eh. lia.
Qed.

Lemma visit_len f : shrinks (visit f).
Proof.
  induction f as [|f IH]; intros h l c n l' c' H; simpl in H; [discriminate|].
  destruct (kids_loop (visit f) _ l (c + 1) []) as [[[[cs l1] c1]|]|e] eqn:Ek; simpl in H; try discriminate.
  destruct (take_meta (Z.to_nat h.2) l1) as [[md l2]|e] eqn:Em; simpl in H; [|discriminate].
  injection H as _ <- _. apply take_meta_len in Em. apply (kids_loop_len _ IH) in Ek. lia.
Qed.

Lemma kids_loop_total V n :
  shrinks V -> (forall h l c, (length l < n)%nat -> V h l c <> Ok None) ->
  forall k l c acc, (length l < n + 2)%nat -> kids_loop V k l c acc <> Ok None.
Proof.
  intros Hs HV k. induction k as [|k IH]; intros l c acc Hl; simpl; [discriminate|].
  destruct (next_header l) as [[[c0 m0] l1]|e] eqn:Eh; simpl; [|discriminate].
  apply next_header_len in Eh.
  destruct (V (c0, m0) l1 c) as [[[[child l2] c2]|]|e] eqn:Ev; simpl.
  - apply IH. apply Hs in Ev. lia.
  - exfalso. exact (HV (c0, m0) l1 c ltac:(lia) Ev).
  - discriminate.
Qed.

Lemma visit_total f : forall h l c, (length l < 2 * f)%nat -> visit f h l c <> Ok None.
Proof.
  induction f as [|f IH]; intros h l c Hl; [lia|]. simpl.
  destruct (kids_loop (visit f) _ l (c + 1) []) as [[[[cs l1] c1]|]|e] eqn:Ek; simpl.
  - destruct (take_meta (Z.to_nat h.2) l1) as [[md l2]|e]; simpl; discriminate.
  - exfalso. refine (kids_loop_total (visit f) (2 * f) (visit_len f) IH _ l (c + 1) [] _ Ek). lia.
  - discriminate.
Qed.

(** Termination.  The fuel [len(numbers) + 1] given to [visit] never
    runs out: every input either raises or yields a tree, exactly as the
    unbounded Python recursion does. *)
Theorem tree_from_numbers_total numbers : tree_from_numbers numbers <> Ok None.
Proof.
  unfold tree_from_numbers. destruct (next_header numbers) as [[[c m] l]|e]; cbn [res_bind]; [|discriminate].
  destruct (visit (S (length l)) (c, m) l 0) as [[[[root l'] count]|]|e] eqn:E; cbn [res_bind];
    [discriminate | | discriminate].
  exfalso. exact (visit_total (S (length l)) (c, m) l 0 ltac:(lia) E).
Qed.

(** ** The sample and the two defects *)

(** [TestTree] on the puzzle's sample: the root has two children and
    three metadata entries, the metadata sum is 138 and the root's value
    is 66. *)
Theorem sample_tree :
  (r <- tree_from_headers sample ;;
   match r with
   | Some (root, _) =>
       s <- metadata_sum (Some root) ;; v <- value root ;;
       Ok (length (children root), length (metadata root), s, v)
   | None => Err TypeError
   end) = Ok (2%nat, 3%nat, 138, 66).
Proof. vm_compute. reflexivity. Qed.

(** A metadata entry 0 refers to no child in the puzzle, but [value]
    reads [children[0 - 1]], the last child: the root of [1 1 0 1 5 0]
    has value 5 instead of 0. *)
Theorem value_metadata_zero :
  (r <- tree_from_headers "1 1 0 1 5 0" ;;
   match r with Some (root, _) => value root | None => Err TypeError end) = Ok 5.
Proof. vm_compute. reflexivity. Qed.

(** A tree made of a single node has no children, so [all_nodes]
    returns the root itself and [metadata_sum] raises [TypeError]
    instead of returning the node's metadata sum. *)
Theorem metadata_sum_single_node :
  (r <- tree_from_headers "0 1 7" ;;
   match r with Some (root, _) => metadata_sum (Some root) | None => Err IndexError end)
  = Err TypeError.
Proof. vm_compute. reflexivity. Qed.

End MemoryManeuver.
