(* ===== verification/Day10.v ===== *)
(** * Day 10: converging stars (src/day_10.py)

    [Starmap.starmap_from_string] matches each line against
    [position=<(.+)> velocity=<(.+)>] ([re.match]: anchored at the start;
    each [.+] is greedy and gives back characters until the rest
    matches), splits each group at [","] and converts with [int], and
    stores the two numbers in a row of a numpy array (a one-element list
    broadcasts to both columns, any other length is a [ValueError]).
    [find_convergence] steps all stars forward while the vertical extent
    [ydiff] shrinks, then steps back once.  numpy's floats hold small
    integers here and are modelled as [Z].

    The theorems: the loop stops, within [ydiff + 1] steps, at the first
    time [t] at which the extent stops shrinking, with every star at
    [position + t * velocity]; on the test's map that time is 3. *)

From Stdlib Require Import ZArith Ascii String Lia.
From stdpp Require Import base list strings.
From S2P Require Import Prelude Decoding PyText.

Open Scope Z_scope.
Open Scope py_scope.

Module StarsAlign.

Record Starmap := mk_starmap {
  star_count : Z;
  positions : list (Z * Z);
  velocities : list (Z * Z)
}.

(** ** Parsing *)

Definition prefix_of (p s : list ascii) : option (list ascii) :=
  if bool_decide (take (length p) s = p) then Some (drop (length p) s) else None.

(** [.] matches any character but a newline. *)
Definition no_newline (s : list ascii) : bool := forallb (fun c => negb (Ascii.eqb c "010"%char)) s.

(** [(.+)>] at the start of [s], greedy: the longest non-empty group
    without a newline that is followed by [>]; what follows the [>] is
    left for the rest of the pattern, which is tried on each candidate,
    longest first. *)
Definition greedy_group {A} (s : list ascii) (rest : list ascii -> option A)
    : option (list ascii * A) :=
  let cands := List.filter (fun i => bool_decide (s !! i = Some ">"%char) && no_newline (take i s))
                 (rev (seq 1 (length s))) in
  let fix try (idxs : list nat) :=
    match idxs with
    | [] => None
    | i :: idxs' => match rest (drop (S i) s) with
                  | Some a => Some (take i s, a)
                  | None => try idxs'
                  end
    end in
  try cands.

(** [pattern.match(line)]: the two groups, or no match. *)
Definition match_line (s : list ascii) : option (list ascii * list ascii) :=
  s1 ← prefix_of (list_ascii_of_string "position=<") s;
  '(g1, g2) ← greedy_group s1 (fun r =>
       r1 ← prefix_of (list_ascii_of_string " velocity=<") r;
       '(g2, _) ← greedy_group r1 (fun _ => Some tt);
       Some g2);
  Some (g1, g2).

(** [starmap.positions[i] = [...]]: a row of two. *)
Definition to_row (ns : list Z) : res (Z * Z) :=
  match ns with
  | [x; y] => Ok (x, y)
  | [x] => Ok (x, x)
  | _ => Err ValueError
  end.

(** One line: [parsed.groups()] on [None] is an [AttributeError]. *)
Definition parse_line (line : string) : res ((Z * Z) * (Z * Z)) :=
  match match_line (list_ascii_of_string (strip line)) with
  | None => Err (PyException "AttributeError")
  | Some (p, v) =>
      ps <- res_map py_int (py_split ","%char p) ;; pr <- to_row ps ;;
      vs <- res_map py_int (py_split ","%char v) ;; vr <- to_row vs ;;
      Ok (pr, vr)
  end.

Definition starmap_from_string (lines : list string) : res Starmap :=
  rows <- res_map parse_line lines ;;
  Ok (mk_starmap (Z.of_nat (length lines)) (map fst rows) (map snd rows)).

(** ** The simulation *)

(** [max(...) - min(...)] of the second column; both raise on an empty
    column. *)
Definition ydiff (st : Starmap) : res Z :=
  match map snd (positions st) with
  | [] => Err ValueError
  | y :: ys => Ok (fold_left Z.max ys y - fold_left Z.min ys y)
  end.

Definition step_forward (st : Starmap) : Starmap :=
  mk_starmap (star_count st)
    (zip_with (fun p v => (p.1 + v.1, p.2 + v.2)) (positions st) (velocities st)) (velocities st).

Definition step_backwards (st : Starmap) : Starmap :=
  mk_starmap (star_count st)
    (zip_with (fun p v => (p.1 - v.1, p.2 - v.2)) (positions st) (velocities st)) (velocities st).

(** The [while True] loop, with fuel. *)
Fixpoint conv_loop (fuel : nat) (st : Starmap) (start yd : Z) : res (option (Z * Starmap)) :=
  match fuel with
  | O => Ok None
  | S fuel' =>
      let st := step_forward st in
      let start := start + 1 in
      d <- ydiff st ;;
      if d <? yd then conv_loop fuel' st start d
      else Ok (Some (start - 1, step_backwards st))
  end.

(** [find_convergence]: the printed [start - 1] and the final map. *)
Definition find_convergence (fuel : nat) (st : Starmap) : res (option (Z * Starmap)) :=
  yd <- ydiff st ;; conv_loop fuel st 0 yd.

(** ** The convergence loop *)

(** The map after [k] seconds: every star at [position + k * velocity]. *)
Definition shift (st : Starmap) (k : Z) : Starmap :=
  mk_starmap (star_count st)
    (zip_with (fun p v => (p.1 + k * v.1, p.2 + k * v.2)) (positions st) (velocities st)) (velocities st).

(** The extent at time [k]. *)
Definition Y (st : Starmap) (k : Z) : res Z := ydiff (shift st k).

(** The [test_map] of [TestStarmap], one string per line. *)
Definition test_map : list string := [
  "position=< 9,  1> velocity=< 0,  2>"; "position=< 7,  0> velocity=<-1,  0>"; "position=< 3, -2> velocity=<-1,  1>"; "position=< 6, 10> velocity=<-2, -1>"; "position=< 2, -4> velocity=< 2,  2>"; "position=<-6, 10> velocity=< 2, -2>"; "position=< 1,  8> velocity=< 1, -1>"; "position=< 1,  7> velocity=< 1,  0>"; "position=<-3, 11> velocity=< 1, -2>"; "position=< 7,  6> velocity=<-1, -1>"; "position=<-2,  3> velocity=< 1,  0>"; "position=<-4,  3> velocity=< 2,  0>"; "position=<10, -3> velocity=<-1,  1>"; "position=< 5, 11> velocity=< 1, -2>"; "position=< 4,  7> velocity=< 0, -1>"; "position=< 8, -2> velocity=< 0,  1>"; "position=<15,  0> velocity=<-2,  0>"; "position=< 1,  6> velocity=< 1,  0>"; "position=< 8,  9> velocity=< 0, -1>"; "position=< 3,  3> velocity=<-1,  1>"; "position=< 0,  5> velocity=< 0, -1>"; "position=<-2,  2> velocity=< 2,  0>"; "position=< 5, -2> velocity=< 1,  2>"; "position=< 1,  4> velocity=< 2,  1>"; "position=<-2,  7> velocity=< 2, -2>"; "position=< 3,  6> velocity=<-1, -1>"; "position=< 5,  0> velocity=< 1,  0>"; "position=<-6,  0> velocity=< 2,  0>"; "position=< 5,  9> velocity=< 1, -2>"; "position=<14,  7> velocity=<-2,  0>"; "position=<-3,  6> velocity=< 2, -1>"]%string.

Lemma zip_with_zip_with_same {A B C D} (f : C -> B -> D) (g : A -> B -> C) (h : A -> B -> D) l1 l2 :
  (forall a b, f (g a b) b = h a b) -> zip_with f (zip_with g l1 l2) l2 = zip_with h l1 l2.
Proof. intros H. revert l2. induction l1; intros [|b l2]; simpl; f_equal; auto. Qed.

Lemma step_forward_shift st k : step_forward (shift st k) = shift st (k + 1).
Proof.
  unfold step_forward, shift. simpl. f_equal. apply zip_with_zip_with_same.
  intros [p1 p2] [v1 v2]. simpl. f_equal; lia.
Qed.

Lemma step_backwards_shift st k : step_backwards (shift st (k + 1)) = shift st k.
Proof.
  unfold step_backwards, shift. simpl. f_equal. apply zip_with_zip_with_same.
  intros [p1 p2] [v1 v2]. simpl. f_equal; lia.
Qed.

(** [ydiff] never goes below zero. *)
Lemma ydiff_nonneg st d : ydiff st = Ok d -> 0 <= d.
Proof.
  unfold ydiff. destruct (map snd (positions st)) as [|y ys]; [discriminate|]. intros [= <-].
  assert (Hmax : forall l a, a <= fold_left Z.max l a) by
    (induction l as [|b l IH]; intros a; simpl; [lia | specialize (IH (Z.max a b)); lia]).
  assert (Hmin : forall l a, fold_left Z.min l a <= a) by
    (induction l as [|b l IH]; intros a; simpl; [lia | specialize (IH (Z.min a b)); lia]).
  specialize (Hmax ys y). specialize (Hmin ys y). lia.
Qed.

Lemma conv_loop_spec st : forall fuel k yd t st',
  Y st k = Ok yd -> 0 <= k ->
  conv_loop fuel (shift st k) k yd = Ok (Some (t, st')) ->
  k <= t /\ st' = shift st t /\
  (forall j, k <= j < t -> exists a b, Y st j = Ok a /\ Y st (j + 1) = Ok b /\ b < a) /\
  (exists a b, Y st t = Ok a /\ Y st (t + 1) = Ok b /\ a <= b).
Proof.
  induction fuel as [|fuel IH]; intros k yd t st' Hk Hk0 H; simpl in H; [discriminate|].
  rewrite step_forward_shift in H.
  destruct (ydiff (shift st (k + 1))) as [d|e] eqn:Ed; simpl in H; [|discriminate].
  destruct (Z.ltb_spec d yd).
  - destruct (IH (k + 1) d t st' Ed ltac:(lia) H) as (Hle & -> & Hdec & Hstop).
    split; [lia|]. split; [reflexivity|]. split; [|exact Hstop].
    intros j Hj. destruct (Z.eq_dec j k) as [-> | Hne]; [exists yd, d; auto | apply Hdec; lia].
  - injection H as <- <-. replace (k + 1 - 1) with k by lia. rewrite step_backwards_shift.
    split; [lia|]. split; [reflexivity|]. split; [intros j Hj; lia|]. exists yd, d. auto.
Qed.

Lemma shift_0 st : length (positions st) = length (velocities st) -> shift st 0 = st.
Proof.
  destruct st as [n ps vs]. unfold shift. simpl. intros Hl. f_equal.
  revert vs Hl. induction ps as [|[p1 p2] ps IH]; intros [|[v1 v2] vs] Hl; simpl in *; try discriminate; [reflexivity|].
  f_equal; [f_equal; lia | apply IH; lia].
Qed.

(** What [find_convergence] computes.  When it stops at [t], the
    vertical extent shrank at every second before [t] and not at
    [t + 1], and every star is at [position + t * velocity]: the map is
    shown at the first local minimum of the extent. *)
Theorem find_convergence_spec fuel st t st' :
  length (positions st) = length (velocities st) ->
  find_convergence fuel st = Ok (Some (t, st')) ->
  0 <= t /\ st' = shift st t /\
  (forall j, 0 <= j < t -> exists a b, Y st j = Ok a /\ Y st (j + 1) = Ok b /\ b < a) /\
  (exists a b, Y st t = Ok a /\ Y st (t + 1) = Ok b /\ a <= b).
Proof.
  intros Hl H. unfold find_convergence in H.
  destruct (ydiff st) as [yd|e] eqn:E; simpl in H; [|discriminate].
  rewrite <- (shift_0 st Hl) in H at 1.
  apply (conv_loop_spec st fuel 0 yd t st'); [unfold Y; rewrite shift_0 by exact Hl; exact E | lia | exact H].
Qed.

Lemma conv_loop_total st : forall fuel k yd,
  Y st k = Ok yd -> (Z.to_nat yd < fuel)%nat -> conv_loop fuel (shift st k) k yd <> Ok None.
Proof.
  induction fuel as [|fuel IH]; intros k yd Hk Hf; [lia|]. simpl.
  rewrite step_forward_shift.
  destruct (ydiff (shift st (k + 1))) as [d|e] eqn:Ed; simpl; [|discriminate].
  destruct (Z.ltb_spec d yd); [|discriminate].
  apply IH; [exact Ed|]. pose proof (ydiff_nonneg _ _ Ed). lia.
Qed.

(** Termination.  The extent is a natural number that strictly
    decreases on every pass, so the [while True] loop stops within
    [ydiff + 1] passes: with that fuel [find_convergence] never runs
    out. *)
Theorem find_convergence_total st yd :
  length (positions st) = length (velocities st) -> ydiff st = Ok yd ->
  find_convergence (S (Z.to_nat yd)) st <> Ok None.
Proof.
  intros Hl E. unfold find_convergence. rewrite E. cbn [res_bind].
  rewrite <- (shift_0 st Hl) at 1. apply conv_loop_total; [unfold Y; rewrite shift_0; assumption | lia].
Qed.

(** [test_starmap]: the stars of the test map are closest together
    after 3 seconds, where the puzzle text shows the message "HI". *)
Theorem test_map_converges :
  (st <- starmap_from_string test_map ;; r <- find_convergence 100 st ;;
   Ok (option_map fst r)) = Ok (Some 3).
Proof. vm_compute. reflexivity. Qed.

Lemma find_convergence_spec_witness :
  exists st st', starmap_from_string test_map = Ok st /\
    length (positions st) = length (velocities st) /\
    find_convergence 100 st = Ok (Some (3, st')) /\
    (0 <= 3 /\ st' = shift st 3 /\
     (forall j, 0 <= j < 3 -> exists a b, Y st j = Ok a /\ Y st (j + 1) = Ok b /\ b < a) /\
     (exists a b, Y st 3 = Ok a /\ Y st (3 + 1) = Ok b /\ a <= b)).
Proof.
  destruct (starmap_from_string test_map) as [st|e] eqn:E; [|vm_compute in E; discriminate].
  pose proof E as E0. vm_compute in E0. injection E0 as Est.
  assert (Hl : length (positions st) = length (velocities st)) by (rewrite <- Est; reflexivity).
  destruct (find_convergence 100 st) as [[[t st']|]|e] eqn:F;
    pose proof F as F0; rewrite <- Est in F0; vm_compute in F0; try discriminate F0.
  injection F0 as <- _. exists st, st'.
  split; [reflexivity|]. split; [exact Hl|]. split; [exact F|].
  exact (find_convergence_spec 100 st 3 st' Hl F).
Defined.

Lemma find_convergence_total_witness :
  exists st, starmap_from_string test_map = Ok st /\
    length (positions st) = length (velocities st) /\ ydiff st = Ok 15 /\
    find_convergence (S (Z.to_nat 15)) st <> Ok None.
Proof.
  destruct (starmap_from_string test_map) as [st|e] eqn:E; [|vm_compute in E; discriminate].
  pose proof E as E0. vm_compute in E0. injection E0 as Est.
  assert (Hl : length (positions st) = length (velocities st)) by (rewrite <- Est; reflexivity).
  assert (Hy : ydiff st = Ok 15) by (rewrite <- Est; reflexivity).
  exists st. split; [reflexivity|]. split; [exact Hl|]. split; [exact Hy|].
  exact (find_convergence_total st 15 Hl Hy).
Defined.

End StarsAlign.
