(* ===== verification/Day25.v ===== *)
(** * Day 25: Four-Dimensional Adventure (src/day_25.py)

    [Star] is a 4-tuple of integers, parsed from ["x,y,z,t"].
    [Galaxy.num_constellations] builds a networkx graph with an edge
    between every two stars (a star with itself included) at Manhattan
    distance at most [tolerance], and counts its connected components.
    The graph's nodes are the stars with an edge; equal stars are one
    node, since a namedtuple hashes by value.  The component of a node is
    computed as the closure of its adjacency, with fuel one more than the
    number of nodes, which [close_closed] shows to be enough. *)

From Stdlib Require Import ZArith Ascii String Lia.
From stdpp Require Import base list strings.
From S2P Require Import Prelude Decoding PyText.

Open Scope Z_scope.
Open Scope py_scope.

Module FourDimensional.

(** [class Star(namedtuple('Star', ['x', 'y', 'z', 't']))]. *)
Record Star := { x : Z; y : Z; z : Z; t : Z }.

#[global] Instance Star_eq_dec : EqDecision Star.
Proof. solve_decision. Defined.

(** [Star.star_from_string]: [int] of each comma-separated field, then
    the namedtuple constructor, which raises [TypeError] unless there are
    exactly four. *)
Definition star_from_string (s : string) : res Star :=
  vals <- res_map py_int (py_split ","%char (list_ascii_of_string (strip s))) ;;
  match vals with
  | [a; b; c; d] => Ok {| x := a; y := b; z := c; t := d |}
  | _ => Err TypeError
  end.

(** [Star.stars_from_file] on the lines of the file. *)
Definition stars_from_lines (lines : list string) : res (list Star) :=
  res_map (fun line => star_from_string (strip line)) lines.

(** [Star.dist]: the Manhattan distance. *)
Definition dist (a b : Star) : Z :=
  Z.abs (x a - x b) + Z.abs (y a - y b) + Z.abs (z a - z b) + Z.abs (t a - t b).

(** The endpoints of the edges [graph.add_edge(star1, star2)] added by
    the double loop, without repetition: the graph's nodes. *)
Definition graph_nodes (stars : list Star) (tolerance : Z) : list Star :=
  remove_dups (stars ≫= fun s1 => stars ≫= fun s2 =>
    if dist s1 s2 <=? tolerance then [s1; s2] else []).

(** [graph.adj[a]]: the stars joined to a node [a] by an edge. *)
Definition graph_nbrs (stars : list Star) (tolerance : Z) (a : Star) : list Star :=
  filter (fun b => dist a b <= tolerance) stars.

Section Closure.
Context (nbrs : Star -> list Star).

(** The stars reachable from [comp]: add the neighbours not yet in it
    until there are none. *)
Fixpoint close (fuel : nat) (comp : list Star) : list Star :=
  match fuel with
  | O => comp
  | Datatypes.S fuel' =>
      match filter (fun b => b ∉ comp) (comp ≫= nbrs) with
      | [] => comp
      | fresh => close fuel' (comp ++ remove_dups fresh)
      end
  end.

(** [nx.number_connected_components]: take the component of the first
    remaining node and drop its members, until no node remains. *)
Fixpoint components (fuel : nat) (closure_fuel : nat) (rest : list Star) : nat :=
  match fuel, rest with
  | _, [] => 0
  | O, _ => 0
  | Datatypes.S fuel', a :: _ =>
      let c := close closure_fuel [a] in
      Datatypes.S (components fuel' closure_fuel (filter (fun b => b ∉ c) rest))
  end.
End Closure.

(** The connected component of [s] in the graph of [stars]. *)
Definition constellation (stars : list Star) (tolerance : Z) (s : Star) : list Star :=
  close (graph_nbrs stars tolerance) (Datatypes.S (length (graph_nodes stars tolerance))) [s].

(** [Galaxy.num_constellations]: [None] (the bare [return]) for no stars. *)
Definition num_constellations (stars : list Star) (tolerance : Z) : option nat :=
  match stars with
  | [] => None
  | _ =>
      let nodes := graph_nodes stars tolerance in
      Some (components (graph_nbrs stars tolerance) (length nodes)
              (Datatypes.S (length nodes)) nodes)
  end.

(** [test_num_constellations]. *)
Definition sample_lines : list string :=
  ["0,0,0,0"; "3,0,0,0"; "0,3,0,0"; "0,0,3,0"; "0,0,0,3"; "0,0,0,6"; "9,0,0,0"; "12,0,0,0"].


(** ** Lemmas *)

Lemma dist_self a : dist a a = 0.
Proof. unfold dist. rewrite !Z.sub_diag. reflexivity. Qed.

Lemma dist_nonneg a b : 0 <= dist a b.
Proof. unfold dist. pose proof (Z.abs_nonneg (x a - x b)). pose proof (Z.abs_nonneg (y a - y b)).
  pose proof (Z.abs_nonneg (z a - z b)). pose proof (Z.abs_nonneg (t a - t b)). lia. Qed.

Lemma nodup_incl_length {A} (l k : list A) :
  NoDup l -> (forall v, v ∈ l -> v ∈ k) -> (length l <= length k)%nat.
Proof. intros Hl Hk. apply submseteq_length, NoDup_submseteq; auto. Qed.

Lemma in_graph_nodes stars tolerance s1 s2 :
  s1 ∈ stars -> s2 ∈ stars -> dist s1 s2 <= tolerance -> s1 ∈ graph_nodes stars tolerance.
Proof.
  intros H1 H2 Hd. apply elem_of_remove_dups, list_elem_of_bind. exists s1. split; [|done].
  apply list_elem_of_bind. exists s2. split; [|done].
  rewrite (proj2 (Z.leb_le _ _) Hd). left.
Qed.

Lemma graph_nbrs_nodes stars tolerance a b :
  b ∈ graph_nbrs stars tolerance a -> b ∈ graph_nodes stars tolerance.
Proof.
  unfold graph_nbrs. rewrite list_elem_of_filter. intros [Hd Hb].
  apply (in_graph_nodes _ _ b b); [done | done |].
  rewrite dist_self. pose proof (dist_nonneg a b). lia.
Qed.

Lemma elem_of_fresh (nbrs : Star -> list Star) (comp : list Star) v :
  v ∈ filter (fun b => b ∉ comp) (comp ≫= nbrs) <-> (v ∉ comp) /\ (exists a, a ∈ comp /\ v ∈ nbrs a).
Proof. rewrite list_elem_of_filter, list_elem_of_bind. naive_solver. Qed.

Section CloseSpec.
Context (nbrs : Star -> list Star) (U : list Star).
Hypothesis Hnbrs : forall a b, b ∈ nbrs a -> b ∈ U.

(** Enough fuel reaches a set that contains the start and is closed
    under adjacency: each round that does not stop adds a node of [U]. *)
Lemma close_closed fuel comp :
  (forall v, v ∈ comp -> v ∈ U) -> NoDup comp -> (length U < fuel + length comp)%nat ->
  (forall v, v ∈ comp -> v ∈ close nbrs fuel comp) /\
  (forall a b, a ∈ close nbrs fuel comp -> b ∈ nbrs a -> b ∈ close nbrs fuel comp).
Proof.
  revert comp. induction fuel as [|fuel IH]; intros comp Hsub Hnd Hlen; cbn [close].
  - pose proof (nodup_incl_length comp U Hnd Hsub). lia.
  - destruct (filter _ _) as [|c more] eqn:E.
    + split; [done|]. intros a b Ha Hb. destruct (decide (b ∈ comp)) as [|Hn]; [done|].
      pose proof (proj2 (elem_of_fresh nbrs comp b)) as Hf. rewrite E in Hf.
      assert (Hnil : b ∈ ([] : list Star)) by (apply Hf; eauto). inversion Hnil.
    + assert (Hc : c ∈ remove_dups (c :: more)) by (apply elem_of_remove_dups; left).
      assert (Hfresh : forall v, v ∈ remove_dups (c :: more) -> (v ∉ comp) /\ v ∈ U).
      { intros v Hv. rewrite elem_of_remove_dups in Hv.
        pose proof (proj1 (elem_of_fresh nbrs comp v)) as Hf. rewrite E in Hf.
        destruct (Hf Hv) as [Hn [a [_ Hva]]]. eauto. }
      destruct (IH (comp ++ remove_dups (c :: more))) as [Hin Hcl].
      * intros v. rewrite elem_of_app. intros [Hv|Hv]; [auto | apply Hfresh; done].
      * apply NoDup_app. split; [done|]. split; [|apply NoDup_remove_dups].
        intros v Hv Hv'. apply Hfresh in Hv'. tauto.
      * rewrite length_app. destruct (remove_dups (c :: more)); [inversion Hc|].
        simpl in *. lia.
      * split; [|done]. intros v Hv. apply Hin, elem_of_app. auto.
Qed.
End CloseSpec.

(** ** Properties *)

(** Two stars at distance at most the tolerance are in the same
    constellation: the component computed for the first contains the
    second, and it is closed under the graph's edges. *)
Theorem same_constellation stars tolerance s1 s2 :
  s1 ∈ stars -> s2 ∈ stars -> dist s1 s2 <= tolerance ->
  s2 ∈ constellation stars tolerance s1 /\
  (forall a b, a ∈ constellation stars tolerance s1 -> dist a b <= tolerance -> b ∈ stars ->
     b ∈ constellation stars tolerance s1).
Proof.
  intros H1 H2 Hd.
  destruct (close_closed (graph_nbrs stars tolerance) (graph_nodes stars tolerance)
              (graph_nbrs_nodes stars tolerance)
              (Datatypes.S (length (graph_nodes stars tolerance))) [s1]) as [Hin Hcl].
  - intros v Hv. apply list_elem_of_singleton in Hv as ->. eapply in_graph_nodes; eauto.
  - apply NoDup_singleton.
  - simpl. lia.
  - assert (Hcl' : forall a b, a ∈ constellation stars tolerance s1 -> dist a b <= tolerance ->
              b ∈ stars -> b ∈ constellation stars tolerance s1).
    { intros a b Ha Hab Hb. apply (Hcl a); [done|]. apply list_elem_of_filter. auto. }
    split; [|exact Hcl']. apply (Hcl' s1); [apply Hin; left | done | done].
Qed.

(** [test_star_from_string] and [test_num_constellations]: "4,5,0,-5"
    parses to (4, 5, 0, -5), a line with three fields raises [TypeError],
    and the eight sample stars form two constellations. *)
Lemma four_dimensional_tests :
  star_from_string "4,5,0,-5" = Ok {| x := 4; y := 5; z := 0; t := -5 |} /\
  star_from_string "4,5,0" = Err TypeError /\
  (exists stars, stars_from_lines sample_lines = Ok stars /\
                 num_constellations stars 3 = Some 2%nat).
Proof.
  split; [vm_compute; reflexivity|]. split; [vm_compute; reflexivity|].
  eexists. split; [vm_compute; reflexivity | vm_compute; reflexivity].
Qed.

(** The first and second sample stars are joined, and the star at
    (0,0,0,6) is reached through (0,0,0,3). *)
Lemma same_constellation_witness :
  let s0 := {| x := 0; y := 0; z := 0; t := 0 |} in
  let s3 := {| x := 0; y := 0; z := 0; t := 3 |} in
  let stars := [s0; s3; {| x := 0; y := 0; z := 0; t := 6 |}] in
  s0 ∈ stars /\ s3 ∈ stars /\ dist s0 s3 <= 3 /\ s3 ∈ constellation stars 3 s0.
Proof.
  intros s0 s3 stars.
  assert (H0 : s0 ∈ stars) by (left). assert (H3 : s3 ∈ stars) by (right; left).
  assert (Hd : dist s0 s3 <= 3) by (vm_compute; discriminate).
  split; [exact H0|]. split; [exact H3|]. split; [exact Hd|].
  exact (proj1 (same_constellation stars 3 s0 s3 H0 H3 Hd)).
Defined.

End FourDimensional.
