(* ===== verification/Day04.v ===== *)
(** * Day 4: Repose Record (src/day_04.py)

    [LogParser] reads the guard log: each line is split by the regex
    [log_parser] (a bracketed text, one whitespace character, the rest)
    into a timestamp, parsed by
    [datetime.strptime(_, '%Y-%m-%d %H:%M')], and a message whose first
    letter gives the entry type.  The entries are sorted by time (stable),
    then a single pass keeps the current guard, creating it on a shift
    start, and adds one to each minute from the previous entry's minute up
    to a wake-up.  [main] picks the guard with the most minutes asleep and
    the guard with the highest count on one minute ([sorted(...)[-1]]).

    The source reads the input file at import time; here the lines are an
    argument.  Lines come from [readlines] and [strip], so they hold no
    newline; [.] of the regex then matches every character. *)

From Stdlib Require Import ZArith Ascii String Lia Sorting.Sorted.
From stdpp Require Import base list strings.
From S2P Require Import Prelude Decoding PyText PySort.

Open Scope Z_scope.
Open Scope py_scope.

Module ReposeRecord.

(** ** Timestamps: [datetime.strptime(s, '%Y-%m-%d %H:%M')] *)

Record datetime := { year : Z; month : Z; day : Z; hour : Z; minute : Z }.

Definition is_digit (c : ascii) : bool := if digit_val c is Some _ then true else false.

(** Up to [n] leading digits. *)
Fixpoint take_digits (n : nat) (s : list ascii) : list ascii * list ascii :=
  match n, s with
  | Datatypes.S n', c :: s' =>
      if is_digit c then let '(ds, rest) := take_digits n' s' in (c :: ds, rest) else ([], s)
  | _, _ => ([], s)
  end.

(** A field of one or two digits whose value lies in [lo, hi]: the
    alternatives of [%m], [%H] and [%M] ([1[0-2]|0[1-9]|[1-9]],
    [2[0-3]|[0-1]\d|\d], [[0-5]\d|\d]), each followed by a non-digit or
    the end. *)
Definition field (lo hi : Z) (s : list ascii) : option (Z * list ascii) :=
  let '(ds, rest) := take_digits 2 s in
  v ← digits_value ds;
  if bool_decide (lo <= v <= hi) then Some (v, rest) else None.

(** [%d] also accepts a space and one digit ([ [1-9]]). *)
Definition day_field (s : list ascii) : option (Z * list ascii) :=
  match s with
  | " "%char :: c :: rest =>
      d ← digit_val c; if bool_decide (1 <= d) then Some (d, rest) else None
  | _ => field 1 31 s
  end.

(** [%Y] is exactly four digits. *)
Definition year_field (s : list ascii) : option (Z * list ascii) :=
  let '(ds, rest) := take_digits 4 s in
  if Nat.eqb (length ds) 4 then v ← digits_value ds; Some (v, rest) else None.

Definition expect (c : ascii) (s : list ascii) : option (list ascii) :=
  match s with c' :: rest => if Ascii.eqb c c' then Some rest else None | [] => None end.

(** A space of the format matches [\s+]. *)
Definition spaces1 (s : list ascii) : option (list ascii) :=
  match s with
  | c :: rest => if is_space c then Some (lstrip_chars rest) else None
  | [] => None
  end.

Definition is_leap (y : Z) : bool :=
  (y mod 4 =? 0) && (negb (y mod 100 =? 0) || (y mod 400 =? 0)).

Definition days_in_month (y m : Z) : Z :=
  if bool_decide (m = 2) then (if is_leap y then 29 else 28)
  else if bool_decide (m = 4 \/ m = 6 \/ m = 9 \/ m = 11) then 30 else 31.

(** The whole string must be consumed ("unconverted data remains"), and
    [datetime] checks the year and the day of the month. *)
Definition strptime (s : list ascii) : option datetime :=
  '(y, s) ← year_field s; s ← expect "-" s;
  '(mo, s) ← field 1 12 s; s ← expect "-" s;
  '(d, s) ← day_field s; s ← spaces1 s;
  '(h, s) ← field 0 23 s; s ← expect ":" s;
  '(mi, s) ← field 0 59 s;
  match s with
  | [] => if bool_decide (1 <= y /\ d <= days_in_month y mo)
          then Some {| year := y; month := mo; day := d; hour := h; minute := mi |} else None
  | _ => None
  end.

(** Datetimes compare field by field. *)
Definition time_key (t : datetime) : list Z := [year t; month t; day t; hour t; minute t].

Fixpoint lex_le (a b : list Z) : bool :=
  match a, b with
  | x :: a', y :: b' => (x <? y) || ((x =? y) && lex_le a' b')
  | _, _ => true
  end.

Definition time_le (a b : datetime) : bool := lex_le (time_key a) (time_key b).

(** ** Log lines: [log_parser.search(line).groups()] *)

(** The text after the first [[]. *)
Fixpoint after_open (s : list ascii) : option (list ascii) :=
  match s with
  | [] => None
  | c :: s' => if Ascii.eqb c "[" then Some s' else after_open s'
  end.

(** The two greedy groups of [log_parser]: split at the last []]
    followed by a whitespace character. *)
Fixpoint last_close (s : list ascii) : option (list ascii * list ascii) :=
  match s with
  | c :: ((d :: rest) as s') =>
      match last_close s' with
      | Some (g1, g2) => Some (c :: g1, g2)
      | None => if Ascii.eqb c "]" && is_space d then Some ([], rest) else None
      end
  | _ => None
  end.

Definition log_search (line : list ascii) : option (list ascii * list ascii) :=
  s ← after_open line; last_close s.

Inductive entry_kind := SHIFT_START | FALLS_ASLEEP | WAKES_UP.

#[global] Instance entry_kind_eq_dec : EqDecision entry_kind.
Proof. solve_decision. Defined.

(** [LogEntry]: [guard_id] is filled in later, by [_analyze_entries]. *)
Record LogEntry := { time : datetime; log : list ascii; entry_type : option entry_kind }.

(** [LogEntry.__init__]: [self.log[0]] raises [IndexError] on an empty
    message. *)
Definition new_entry (t : datetime) (l : list ascii) : res LogEntry :=
  match l with
  | [] => Err IndexError
  | c :: _ =>
      Ok {| time := t; log := l;
            entry_type := if Ascii.eqb c "G" then Some SHIFT_START
                          else if Ascii.eqb c "f" then Some FALLS_ASLEEP
                          else if Ascii.eqb c "w" then Some WAKES_UP else None |}
  end.

(** The body of [_parse_lines]: any exception becomes [ValueError]. *)
Definition parse_line (line : list ascii) : res LogEntry :=
  match log_search line with
  | Some (g1, g2) =>
      match strptime g1 with
      | Some t => match new_entry t g2 with Ok e => Ok e | Err _ => Err ValueError end
      | None => Err ValueError
      end
  | None => Err ValueError
  end.

Definition parse_lines (lines : list string) : res (list LogEntry) :=
  res_map (fun line => parse_line (list_ascii_of_string line)) lines.

(** [_sort_entries]. *)
Definition sort_entries (entries : list LogEntry) : list LogEntry :=
  sort_by (fun a b => time_le (time a) (time b)) entries.

(** [guard_finder.search(log)]: the digits after the first [#] that is
    followed by a digit. *)
Fixpoint guard_digits (s : list ascii) : option (list ascii) :=
  match s with
  | [] => None
  | c :: s' =>
      if Ascii.eqb c "#" then
        match take_digits (length s') s' with
        | ([], _) => guard_digits s'
        | (ds, _) => Some ds
        end
      else guard_digits s'
  end.

(** [LogEntry.parse_guard_id]: [.groups()] of [None] raises
    [AttributeError]. *)
Definition parse_guard_id (e : LogEntry) : res Z :=
  match guard_digits (log e) with
  | Some ds => match digits_value ds with Some v => Ok v | None => Err ValueError end
  | None => Err AttributeError
  end.

(** ** Guards *)

Record Guard := { guard_id : Z; minutes : list Z }.

(** [Guard.__init__]: sixty minutes at zero. *)
Definition new_guard (gid : Z) : Guard := {| guard_id := gid; minutes := repeat 0 60 |}.

(** [Guard.time_sleeping]. *)
Definition time_sleeping (g : Guard) : Z := fold_right Z.add 0 (minutes g).

(** [Guard.favorite_minute_to_sleep]: the first minute with the largest
    count, and that count; [(0, 0)] when no count is positive. *)
Definition favorite_step (acc : Z * Z) (iv : Z * Z) : Z * Z :=
  let '(minute, sleep_amount) := acc in
  let '(i, v) := iv in
  if v >? sleep_amount then (i, v) else (minute, sleep_amount).

Definition favorite_minute_to_sleep (g : Guard) : Z * Z :=
  fold_left favorite_step (zip (py_range 0 (Z.of_nat (length (minutes g)))) (minutes g)) (0, 0).

(** [self.guards]: a dict from id to [Guard], in insertion order. *)
Definition find_guard (guards : list Guard) (gid : Z) : option Guard :=
  List.find (fun g => guard_id g =? gid) guards.

(** [_get_or_create_guard]: the dict after the call (the guard is known
    by its id). *)
Definition get_or_create_guard (guards : list Guard) (gid : Z) : list Guard :=
  match find_guard guards gid with
  | Some _ => guards
  | None => guards ++ [new_guard gid]
  end.

(** [guard.minutes[j] += 1] on the guard with id [gid], which the dict
    shares with the loop's [guard]. *)
Definition bump_minute (gid : Z) (guards : list Guard) (j : Z) : res (list Guard) :=
  res_map (fun g =>
    if guard_id g =? gid then
      v <- py_get (minutes g) j ;; ms <- py_set (minutes g) j (v + 1) ;;
      Ok {| guard_id := guard_id g; minutes := ms |}
    else Ok g) guards.

(** [for j in range(prev_minute, minute): guard.minutes[j] += 1]; with no
    current guard the first iteration raises [AttributeError]. *)
Definition sleep (guard : option Z) (guards : list Guard) (lo hi : Z) : res (list Guard) :=
  res_fold (fun guards j =>
    match guard with
    | Some gid => bump_minute gid guards j
    | None => Err AttributeError
    end) (py_range lo hi) guards.

(** The body of [_analyze_entries] for the entry at index [i], before
    [entry.guard_id = guard.guard_id]: the current guard and the dict. *)
Definition analyze_entry (entries : list LogEntry) (i : Z) (entry : LogEntry)
    (guard : option Z) (guards : list Guard) : res (option Z * list Guard) :=
  match entry_type entry with
  | Some SHIFT_START =>
      gid <- parse_guard_id entry ;; Ok (Some gid, get_or_create_guard guards gid)
  | Some WAKES_UP =>
      prev <- py_get entries (i - 1) ;;
      guards' <- sleep guard guards (minute (time prev)) (minute (time entry)) ;;
      Ok (guard, guards')
  | _ => Ok (guard, guards)
  end.

(** The loop of [_analyze_entries] from index [i]: the current guard, the
    dict, and the [guard_id] given to each entry so far. *)
Fixpoint analyze_loop (entries : list LogEntry) (i : Z) (rest : list LogEntry)
    (guard : option Z) (guards : list Guard) (ids : list Z) : res (list Guard * list Z) :=
  match rest with
  | [] => Ok (guards, ids)
  | entry :: rest' =>
      st <- analyze_entry entries i entry guard guards ;;
      match st with
      | (Some gid, guards') => analyze_loop entries (i + 1) rest' (Some gid) guards' (ids ++ [gid])
      | (None, _) => Err AttributeError
      end
  end.

Definition analyze_entries (entries : list LogEntry) : res (list Guard * list Z) :=
  analyze_loop entries 0 entries None [] [].

(** [LogParser()]: parse, sort, analyse; the guards dict. *)
Definition log_parser (lines : list string) : res (list Guard) :=
  entries <- parse_lines lines ;;
  r <- analyze_entries (sort_entries entries) ;;
  Ok (fst r).

(** [main]: both answers. *)
Definition main (lines : list string) : res (Z * Z) :=
  guards <- log_parser lines ;;
  sleepiest <- py_last (sort_by (fun a b => time_sleeping a <=? time_sleeping b) guards) ;;
  let part_1 := guard_id sleepiest * fst (favorite_minute_to_sleep sleepiest) in
  consistent <- py_last (sort_by (fun a b => snd (favorite_minute_to_sleep a)
                                            <=? snd (favorite_minute_to_sleep b)) guards) ;;
  Ok (part_1, guard_id consistent * fst (favorite_minute_to_sleep consistent)).

(** The example log of the puzzle, shuffled. *)
Definition sample_log : list string :=
  ["[1518-11-01 00:05] falls asleep"; "[1518-11-01 00:00] Guard #10 begins shift";
   "[1518-11-01 00:25] wakes up"; "[1518-11-01 00:30] falls asleep";
   "[1518-11-01 00:55] wakes up"; "[1518-11-01 23:58] Guard #99 begins shift";
   "[1518-11-02 00:40] falls asleep"; "[1518-11-02 00:50] wakes up";
   "[1518-11-03 00:05] Guard #10 begins shift"; "[1518-11-03 00:24] falls asleep";
   "[1518-11-03 00:29] wakes up"; "[1518-11-04 00:02] Guard #99 begins shift";
   "[1518-11-04 00:36] falls asleep"; "[1518-11-04 00:46] wakes up";
   "[1518-11-05 00:03] Guard #99 begins shift"; "[1518-11-05 00:45] falls asleep";
   "[1518-11-05 00:55] wakes up"].

(** ** Lemmas *)

Definition idx_from (k : Z) (n : nat) : list Z := map (fun j => k + Z.of_nat j) (seq 0 n).

Definition guard_ok (g : Guard) : Prop :=
  length (minutes g) = 60%nat /\ Forall (fun v => 0 <= v) (minutes g).

(** The dict's guards have sixty non-negative minutes and distinct ids. *)
Definition guards_wf (guards : list Guard) : Prop :=
  Forall guard_ok guards /\ NoDup (map guard_id guards).

(** The loop invariant of [_analyze_entries]: the current guard and every
    entry's [guard_id] name a guard of the dict. *)
Definition analyze_inv (guard : option Z) (guards : list Guard) (ids : list Z) : Prop :=
  guards_wf guards /\ (forall gid, guard = Some gid -> gid ∈ map guard_id guards) /\
  Forall (fun gid => gid ∈ map guard_id guards) ids.

Lemma idx_from_S k n : idx_from k (Datatypes.S n) = k :: idx_from (k + 1) n.
Proof.
  unfold idx_from. simpl. rewrite <- seq_shift, map_map. f_equal; [lia|].
  apply map_ext. intros j. lia.
Qed.

(** The scan of [favorite_minute_to_sleep] from minute [k] with a best
    [(m0, a0)] so far either keeps it, every count being at most [a0], or
    ends on the first count that beats every other. *)
Lemma favorite_fold k ms m0 a0 :
  let '(m, a) := fold_left favorite_step (zip (idx_from k (length ms)) ms) (m0, a0) in
  ((m, a) = (m0, a0) /\ Forall (fun v => v <= a0) ms) \/
  (a0 < a /\ exists ms1 ms2, ms = ms1 ++ a :: ms2 /\ m = k + Z.of_nat (length ms1) /\
     Forall (fun v => v < a) ms1 /\ Forall (fun v => v <= a) ms2).
Proof.
  revert k m0 a0. induction ms as [|v ms IH]; intros k m0 a0; [left; auto|].
  cbn [length]. rewrite idx_from_S. cbn [zip zip_with fold_left]. unfold favorite_step at 2.
  destruct (Z.gtb_spec v a0) as [Hgt|Hle].
  - specialize (IH (k + 1) k v).
    destruct (fold_left _ _ _) as [m a]. right.
    destruct IH as [[[= -> ->] Hall] | [Hlt [ms1 [ms2 [-> [-> [H1 H2]]]]]]].
    + split; [lia|]. exists [], ms. simpl. repeat split; [lia|constructor|exact Hall].
    + split; [lia|]. exists (v :: ms1), ms2. simpl. repeat split; [lia| |exact H2].
      constructor; [lia|exact H1].
  - specialize (IH (k + 1) m0 a0).
    destruct (fold_left _ _ _) as [m a].
    destruct IH as [[Heq Hall] | [Hlt [ms1 [ms2 [-> [-> [H1 H2]]]]]]].
    + left. split; [exact Heq|]. constructor; [lia|exact Hall].
    + right. split; [lia|]. exists (v :: ms1), ms2. simpl. repeat split; [lia| |exact H2].
      constructor; [lia|exact H1].
Qed.

Lemma find_guard_None guards gid :
  find_guard guards gid = None -> gid ∉ map guard_id guards.
Proof.
  unfold find_guard. intros Hn (g & -> & Hg)%list_elem_of_fmap.
  apply list_elem_of_In in Hg. pose proof (find_none _ _ Hn g Hg) as E.
  simpl in E. rewrite Z.eqb_refl in E. discriminate.
Qed.

Lemma get_or_create_ids guards gid :
  gid ∈ map guard_id (get_or_create_guard guards gid) /\
  forall g, g ∈ map guard_id guards -> g ∈ map guard_id (get_or_create_guard guards gid).
Proof.
  unfold get_or_create_guard. destruct (find_guard guards gid) as [g|] eqn:E.
  - split; [|done]. unfold find_guard in E. apply find_some in E as [Hg Heq].
    apply Z.eqb_eq in Heq as <-. apply list_elem_of_fmap_2, list_elem_of_In, Hg.
  - rewrite map_app. split; [apply elem_of_app; right; left|].
    intros g Hg. apply elem_of_app. left. done.
Qed.

Lemma get_or_create_wf guards gid : guards_wf guards -> guards_wf (get_or_create_guard guards gid).
Proof.
  unfold get_or_create_guard. destruct (find_guard guards gid) eqn:E; [done|].
  intros [Hok Hnd]. split.
  - apply Forall_app. split; [done|]. apply Forall_singleton. split; [reflexivity|].
    apply Forall_forall. intros v Hv. apply list_elem_of_In, repeat_spec in Hv. lia.
  - rewrite map_app. apply NoDup_app. split; [done|]. split; [|apply NoDup_singleton].
    intros v Hv ->%list_elem_of_singleton. exact (find_guard_None _ _ E Hv).
Qed.

Lemma bump_minute_wf gid guards j guards' :
  guards_wf guards -> bump_minute gid guards j = Ok guards' ->
  guards_wf guards' /\ map guard_id guards' = map guard_id guards.
Proof.
  intros [Hok Hnd] H. eapply (res_map_proj _ guard_id guard_ok) in H as [Hm Hok']; [|clear H|done].
  - split; [|done]. split; [done|]. rewrite Hm. done.
  - intros g g' [Hl Hn] Hg. destruct (guard_id g =? gid); [|injection Hg as <-; done].
    destruct (py_get (minutes g) j) as [v|] eqn:Ev; [|discriminate]. simpl in Hg.
    destruct (py_set (minutes g) j (v + 1)) as [ms|] eqn:Es; [|discriminate].
    injection Hg as <-. simpl. split; [done|]. split.
    + cbn [minutes]. rewrite (py_set_length _ _ _ _ Es). done.
    + cbn [minutes]. apply (py_set_Forall _ _ _ _ _ Es Hn).
      apply py_get_In, list_elem_of_In in Ev. rewrite Forall_forall in Hn. specialize (Hn v Ev). lia.
Qed.

Lemma sleep_wf guard guards lo hi guards' :
  guards_wf guards -> sleep guard guards lo hi = Ok guards' ->
  guards_wf guards' /\ map guard_id guards' = map guard_id guards.
Proof.
  intros Hwf. unfold sleep.
  apply (res_fold_inv (fun gs => guards_wf gs /\ map guard_id gs = map guard_id guards)); [done|].
  intros gs j gs' _ [Hw Hm] Hstep. destruct guard as [gid|]; [|discriminate].
  apply bump_minute_wf in Hstep as [Hw' Hm']; [|done]. rewrite Hm', Hm. done.
Qed.

Lemma analyze_loop_inv entries i rest guard guards ids guards' ids' :
  analyze_inv guard guards ids ->
  analyze_loop entries i rest guard guards ids = Ok (guards', ids') ->
  analyze_inv None guards' ids' /\ length ids' = (length ids + length rest)%nat.
Proof.
  revert i guard guards ids. induction rest as [|entry rest IH]; intros i guard guards ids Hinv H.
  - injection H as <- <-. destruct Hinv as (Hw & _ & Hids). split; [split_and!; done|]. simpl. lia.
  - cbn [analyze_loop] in H.
    destruct (analyze_entry entries i entry guard guards) as [[guard1 guards1]|e] eqn:Est;
      [|discriminate].
    cbn [res_bind] in H. destruct guard1 as [gid|]; [|discriminate].
    assert (Hinv1 : analyze_inv (Some gid) guards1 (ids ++ [gid])).
    { unfold analyze_inv in *. destruct Hinv as (Hw & Hg & Hids).
      unfold analyze_entry in Est. destruct (entry_type entry) as [[| |]|]; simpl in Est.
      - destruct (parse_guard_id entry) as [g|]; simpl in Est; [|discriminate].
        injection Est as <- <-. destruct (get_or_create_ids guards g) as [Hin Hsub].
        split_and!; [by apply get_or_create_wf | by intros ? [= <-] |].
        apply Forall_app. split; [|constructor; done]. eapply Forall_impl; [exact Hids|]. auto.
      - injection Est as -> <-. split_and!; [done|done|]. apply Forall_app; split; [done|]. auto.
      - destruct (py_get entries (i - 1)) as [prev|]; simpl in Est; [|discriminate].
        destruct (sleep guard guards _ _) as [gs|] eqn:Es; simpl in Est; [|discriminate].
        injection Est as -> <-. apply sleep_wf in Es as [Hw' Hm]; [|done]. rewrite Hm.
        split_and!; [done|done|]. apply Forall_app; split; [done|]. auto.
      - injection Est as -> <-. split_and!; [done|done|]. apply Forall_app; split; [done|]. auto. }
    destruct (IH _ _ _ _ Hinv1 H) as [Hinv' Hlen]. split; [done|].
    rewrite Hlen, length_app. simpl. lia.
Qed.

Lemma lex_le_total a b :
  length a = length b -> lex_le a b = false -> lex_le b a = true.
Proof.
  revert b. induction a as [|u a IH]; intros [|w b] Hl H; simpl in *; try done.
  destruct (Z.ltb_spec u w), (Z.ltb_spec w u), (Z.eqb_spec u w), (Z.eqb_spec w u);
    simpl in *; try done; try lia. subst. apply IH; [lia|done].
Qed.

Lemma time_le_total a b : time_le a b = false -> time_le b a = true.
Proof. apply lex_le_total. reflexivity. Qed.

Lemma sleep_no_guard guards lo hi :
  sleep None guards lo hi = Ok guards \/ sleep None guards lo hi = Err AttributeError.
Proof. unfold sleep. destruct (py_range lo hi); [left|right]; reflexivity. Qed.

(** ** Properties *)

(** [Guard.favorite_minute_to_sleep] returns the largest count and the
    first minute that has it, or [(0, 0)] when no count is positive. *)
Theorem favorite_minute_spec g :
  let '(m, a) := favorite_minute_to_sleep g in
  (m = 0 /\ a = 0 /\ Forall (fun v => v <= 0) (minutes g)) \/
  (0 < a /\ exists ms1 ms2, minutes g = ms1 ++ a :: ms2 /\ m = Z.of_nat (length ms1) /\
     Forall (fun v => v < a) ms1 /\ Forall (fun v => v <= a) ms2).
Proof.
  unfold favorite_minute_to_sleep.
  replace (py_range 0 (Z.of_nat (length (minutes g)))) with (idx_from 0 (length (minutes g)))
    by (unfold py_range, idx_from; rewrite Z.sub_0_r, Nat2Z.id; reflexivity).
  pose proof (favorite_fold 0 (minutes g) 0 0) as H.
  destruct (fold_left _ _ _) as [m a].
  destruct H as [[[= -> ->] Hall] | [Hlt [ms1 [ms2 [He [-> Hs]]]]]]; [left; auto | right].
  split; [exact Hlt|]. exists ms1, ms2. auto.
Qed.

(** [_analyze_entries] keeps the guards dict well formed: each guard
    has sixty non-negative minute counts, ids are distinct, and every
    entry is given the id of a guard of the dict. *)
Theorem analyze_entries_wf entries guards ids :
  analyze_entries entries = Ok (guards, ids) ->
  guards_wf guards /\ length ids = length entries /\
  Forall (fun gid => gid ∈ map guard_id guards) ids.
Proof.
  intros H. apply analyze_loop_inv in H as [(Hw & _ & Hids) Hlen].
  - split_and!; [done | exact Hlen | exact Hids].
  - split_and!; [split; constructor | discriminate | constructor].
Qed.

(** A log whose earliest entry is not a shift start makes
    [_analyze_entries] raise [AttributeError]: there is no current guard
    to give the entry. *)
Theorem analyze_needs_shift_first e rest :
  entry_type e <> Some SHIFT_START ->
  analyze_entries (e :: rest) = Err AttributeError.
Proof.
  intros Hty. unfold analyze_entries. cbn [analyze_loop]. unfold analyze_entry.
  destruct (entry_type e) as [[| |]|]; [congruence| reflexivity | | reflexivity].
  destruct (py_get (e :: rest) (0 - 1)) as [prev|err] eqn:Ep.
  - cbn [res_bind]. destruct (sleep_no_guard [] (minute (time prev)) (minute (time e))) as [-> | ->];
      reflexivity.
  - exfalso. assert (Hok : exists x, py_get (e :: rest) (0 - 1) = Ok x)
      by (apply py_get_Ok_iff; simpl; lia).
    destruct Hok as [x Hx]. congruence.
Qed.

(** [_sort_entries] orders the entries by time and only permutes them. *)
Theorem sort_entries_sorted entries :
  Sorted (fun a b => time_le (time a) (time b) = true) (sort_entries entries) /\
  sort_entries entries ≡ₚ entries.
Proof.
  split; [apply sort_by_sorted | apply sort_by_perm].
  intros a b. apply time_le_total.
Qed.

(** The puzzle's example log, shuffled, gives 240 and 4455; timestamps
    parse with [strptime]'s checks (1518 is not a leap year, hour 24 does
    not exist). *)
Lemma repose_record_tests :
  main sample_log = Ok (240, 4455) /\
  parse_line (list_ascii_of_string "[1518-11-01 00:00] Guard #10 begins shift") =
    Ok {| time := {| year := 1518; month := 11; day := 1; hour := 0; minute := 0 |};
          log := list_ascii_of_string "Guard #10 begins shift"; entry_type := Some SHIFT_START |} /\
  parse_line (list_ascii_of_string "[1518-02-29 00:00] wakes up") = Err ValueError /\
  parse_line (list_ascii_of_string "[1518-11-01 24:00] wakes up") = Err ValueError.
Proof. vm_compute. repeat split. Qed.

Lemma analyze_entries_wf_witness :
  match parse_lines sample_log with
  | Ok entries =>
      match analyze_entries (sort_entries entries) with
      | Ok (guards, ids) => guards_wf guards /\ length ids = length (sort_entries entries)
      | Err _ => False
      end
  | Err _ => False
  end.
Proof.
  destruct (parse_lines sample_log) as [entries|] eqn:Ep; [|discriminate].
  destruct (analyze_entries (sort_entries entries)) as [[guards ids]|] eqn:Ea.
  - destruct (analyze_entries_wf _ _ _ Ea) as (Hw & Hl & _). split; [exact Hw | exact Hl].
  - vm_compute in Ep. injection Ep as <-. vm_compute in Ea. discriminate.
Defined.

Lemma analyze_needs_shift_first_witness :
  let e := {| time := {| year := 1518; month := 11; day := 1; hour := 0; minute := 5 |};
              log := list_ascii_of_string "wakes up"; entry_type := Some WAKES_UP |} in
  entry_type e <> Some SHIFT_START /\ analyze_entries [e] = Err AttributeError.
Proof.
  intros e. assert (H : entry_type e <> Some SHIFT_START) by discriminate.
  split; [exact H | exact (analyze_needs_shift_first e [] H)].
Defined.

End ReposeRecord.
