(* ===== verification/Day20.v ===== *)
(** * Day 20: A Regular Map (src/day_20.py)

    [RegularMap.explore] walks the route regex character by character,
    keeping a position, a stack of positions for the groups, and the
    [costs] defaultdict (missing rooms read as [float('inf')], and reading
    one inserts it).  A direction moves and records
    [min(costs[pos] + 1, costs[new_pos])]; [(] pushes the position, [)]
    pops it and [|] goes back to the top of the stack.  [highest_cost] is
    the largest cost and [paths_above_n] counts costs at least [n].

    The costs are a [gmap] from points to [cost] ([Fin c] or [Inf]), read
    with the defaultdict's insertion. *)

From Stdlib Require Import ZArith Ascii String Lia.
From stdpp Require Import base list gmap strings.
From S2P Require Import Prelude.

Open Scope Z_scope.
Open Scope py_scope.

Module RegularMap.

(** [Point] with [__add__]. *)
Abbreviation Point := (prod Z Z).

Definition point_add (a b : Point) : Point := (a.1 + b.1, a.2 + b.2).

(** An [int] cost or [float('inf')]. *)
Inductive cost := Fin (c : Z) | Inf.

#[global] Instance cost_eq_dec : EqDecision cost.
Proof. solve_decision. Defined.

Definition cost_add1 (a : cost) : cost := match a with Fin c => Fin (c + 1) | Inf => Inf end.

(** [min(a, b)]: [b] when [b < a], else [a]. *)
Definition cost_lt (a b : cost) : bool :=
  match a, b with
  | Fin x, Fin y => x <? y
  | Fin _, Inf => true
  | Inf, _ => false
  end.

Definition cost_min (a b : cost) : cost := if cost_lt b a then b else a.

(** [max(a, b)]: [b] when [a < b], else [a]. *)
Definition cost_max (a b : cost) : cost := if cost_lt a b then b else a.

(** [i >= n]. *)
Definition cost_ge (a : cost) (n : Z) : bool :=
  match a with Fin x => n <=? x | Inf => true end.

(** The [directions] dict. *)
Definition direction (c : ascii) : option Point :=
  if Ascii.eqb c "N" then Some (0, -1)
  else if Ascii.eqb c "S" then Some (0, 1)
  else if Ascii.eqb c "E" then Some (1, 0)
  else if Ascii.eqb c "W" then Some (-1, 0)
  else None.

(** The locals of [explore]. *)
Record explorer := { stack : list Point; pos : Point; costs : gmap Point cost }.

(** [costs[p]] on a defaultdict: a missing key is inserted with [inf]. *)
Definition getitem (costs : gmap Point cost) (p : Point) : cost * gmap Point cost :=
  match costs !! p with
  | Some v => (v, costs)
  | None => (Inf, <[p := Inf]> costs)
  end.

(** [stack.pop()]. *)
Definition pop (s : list Point) : res (Point * list Point) :=
  top <- py_get s (-1) ;; Ok (top, take (length s - 1) s).

(** One character of the loop of [explore]. *)
Definition explore_step (st : explorer) (c : ascii) : res explorer :=
  match direction c with
  | Some d =>
      let new_pos := point_add (pos st) d in
      let '(here, costs1) := getitem (costs st) (pos st) in
      let '(there, costs2) := getitem costs1 new_pos in
      Ok {| stack := stack st; pos := new_pos;
            costs := <[new_pos := cost_min (cost_add1 here) there]> costs2 |}
  | None =>
      if Ascii.eqb c "(" then Ok {| stack := stack st ++ [pos st]; pos := pos st; costs := costs st |}
      else if Ascii.eqb c ")" then
        r <- pop (stack st) ;; Ok {| stack := r.2; pos := r.1; costs := costs st |}
      else if Ascii.eqb c "|" then
        top <- py_get (stack st) (-1) ;; Ok {| stack := stack st; pos := top; costs := costs st |}
      else Ok st
  end.

Definition explore_init : explorer :=
  {| stack := []; pos := (0, 0); costs := {[ (0, 0) := Fin 0 ]} |}.

(** [RegularMap(regex)]: the costs after [explore]. *)
Definition explore (regex : string) : res (gmap Point cost) :=
  st <- res_fold explore_step (list_ascii_of_string regex) explore_init ;; Ok (costs st).

(** [highest_cost]: [max(self.costs.values())], [ValueError] when empty. *)
Definition highest_cost (costs : gmap Point cost) : res cost :=
  match (map_to_list costs).*2 with
  | [] => Err ValueError
  | v :: vs => Ok (fold_left cost_max vs v)
  end.

(** [paths_above_n]. *)
Definition paths_above_n (costs : gmap Point cost) (n : Z) : nat :=
  length (filter (fun v => cost_ge v n = true) (map_to_list costs).*2).

(** The rooms a route without branches passes through, from [p]: the
    reference for what [explore] records. *)
Fixpoint walk_from (p : Point) (route : list ascii) : list Point :=
  match route with
  | [] => [p]
  | c :: route' =>
      match direction c with
      | Some d => p :: walk_from (point_add p d) route'
      | None => walk_from p route'
      end
  end.

Definition is_direction (c : ascii) : bool := if direction c is Some _ then true else false.

(** ** Lemmas *)

Definition fin_nonneg (v : cost) : Prop := exists c, v = Fin c /\ 0 <= c.

(** The invariant of [explore]: the start costs 0, every cost is a
    non-negative [int], and the position and the stacked positions are
    rooms of [costs]. *)
Definition explore_inv (st : explorer) : Prop :=
  costs st !! (0, 0) = Some (Fin 0) /\ map_Forall (fun _ => fin_nonneg) (costs st) /\
  is_Some (costs st !! pos st) /\ Forall (fun p => is_Some (costs st !! p)) (stack st).

Lemma getitem_insert costs p m :
  <[p := m]> (getitem costs p).2 = <[p := m]> costs.
Proof. unfold getitem. destruct (costs !! p); simpl; [done|]. apply insert_insert_eq. Qed.

Lemma getitem_present costs p v : costs !! p = Some v -> getitem costs p = (v, costs).
Proof. unfold getitem. intros ->. done. Qed.

Lemma getitem_fst_fin costs p :
  map_Forall (fun _ => fin_nonneg) costs ->
  (getitem costs p).1 = Inf /\ costs !! p = None \/
  fin_nonneg (getitem costs p).1 /\ costs !! p = Some (getitem costs p).1.
Proof.
  unfold getitem. intros Hall. destruct (costs !! p) as [v|] eqn:E; [right|left; done].
  split; [exact (Hall p v E)|done].
Qed.

Lemma cost_min_fin a there :
  0 <= a -> there = Inf \/ fin_nonneg there ->
  exists c, cost_min (Fin (a + 1)) there = Fin c /\ 0 <= c /\ (there = Fin 0 -> c = 0).
Proof.
  intros Ha [-> | [b [-> Hb]]]; simpl; [exists (a + 1); split_and!; [done|lia|discriminate]|].
  unfold cost_min. simpl. destruct (Z.ltb_spec b (a + 1)).
  - exists b. split_and!; [done|lia|congruence].
  - exists (a + 1). split_and!; [done|lia|]. intros [= ->]. lia.
Qed.

Lemma explore_move_inv st d :
  explore_inv st ->
  let new_pos := point_add (pos st) d in
  let '(here, costs1) := getitem (costs st) (pos st) in
  let '(there, costs2) := getitem costs1 new_pos in
  explore_inv {| stack := stack st; pos := new_pos;
                 costs := <[new_pos := cost_min (cost_add1 here) there]> costs2 |}.
Proof.
  intros (H0 & Hall & [v Hv] & Hstack). simpl.
  destruct (Hall _ _ Hv) as [a [-> Ha]]. rewrite (getitem_present _ _ _ Hv).
  remember (point_add (pos st) d) as new_pos eqn:Enew.
  pose proof (getitem_insert (costs st) new_pos) as Hins.
  destruct (getitem (costs st) new_pos) as [there costs2] eqn:Eg. simpl in Hins. rewrite Hins.
  assert (Hthere : there = Inf /\ costs st !! new_pos = None \/
                   fin_nonneg there /\ costs st !! new_pos = Some there).
  { pose proof (getitem_fst_fin (costs st) new_pos Hall) as Hf. rewrite Eg in Hf. exact Hf. }
  destruct (cost_min_fin a there Ha) as (c & Hc & Hc0 & Hz); [destruct Hthere as [[]|[]]; auto|].
  cbn [cost_add1]. rewrite Hc. unfold explore_inv. simpl. split_and!.
  - destruct (decide (new_pos = (0, 0))) as [Heq|Hne].
    + rewrite Heq, lookup_insert_eq.
      destruct Hthere as [[_ Hl]|[_ Hl]]; [congruence|].
      assert (there = Fin 0) by congruence. rewrite Hz; done.
    + rewrite lookup_insert_ne by auto. done.
  - apply map_Forall_insert_2; [exists c; done|done].
  - rewrite lookup_insert_eq. eauto.
  - eapply Forall_impl; [exact Hstack|]. intros p Hp. apply lookup_insert_is_Some'. auto.
Qed.

Lemma explore_step_inv st c st' :
  explore_inv st -> explore_step st c = Ok st' -> explore_inv st'.
Proof.
  intros Hinv. unfold explore_step. destruct (direction c) as [d|].
  - pose proof (explore_move_inv st d Hinv) as Hm.
    destruct (getitem (costs st) (pos st)) as [here costs1]. cbv zeta in Hm |- *.
    destruct (getitem costs1 _) as [there costs2]. intros [= <-]. exact Hm.
  - destruct Hinv as (H0 & Hall & Hpos & Hstack).
    destruct (Ascii.eqb c "(").
    { intros [= <-]. split_and!; try done. simpl. apply Forall_app. split; [done|]. constructor; done. }
    destruct (Ascii.eqb c ")").
    { unfold pop. destruct (py_get (stack st) (-1)) as [top|] eqn:Et; [|discriminate].
      intros [= <-]. apply py_get_In, list_elem_of_In in Et.
      split_and!; try done; simpl.
      - rewrite Forall_forall in Hstack. auto.
      - apply Forall_take. done. }
    destruct (Ascii.eqb c "|").
    { destruct (py_get (stack st) (-1)) as [top|] eqn:Et; [|discriminate].
      intros [= <-]. apply py_get_In, list_elem_of_In in Et.
      split_and!; try done. simpl. rewrite Forall_forall in Hstack. auto. }
    intros [= <-]. split_and!; done.
Qed.

Lemma fold_cost_max_fin vs v :
  Forall fin_nonneg vs -> fin_nonneg v -> fin_nonneg (fold_left cost_max vs v).
Proof.
  revert v. induction vs as [|w vs IH]; intros v Hvs Hv; simpl; [done|].
  inversion Hvs; subst. apply IH; [done|]. unfold cost_max. destruct (cost_lt v w); done.
Qed.

Lemma explore_step_move st c d :
  direction c = Some d -> is_Some (costs st !! pos st) ->
  exists st', explore_step st c = Ok st' /\ pos st' = point_add (pos st) d /\
    forall q, is_Some (costs st' !! q) <-> is_Some (costs st !! q) \/ q = point_add (pos st) d.
Proof.
  intros Hd [v Hv]. unfold explore_step. rewrite Hd, (getitem_present _ _ _ Hv).
  pose proof (getitem_insert (costs st) (point_add (pos st) d)) as Hins.
  destruct (getitem (costs st) _) as [there costs2]. simpl in Hins.
  eexists. split; [reflexivity|]. split; [reflexivity|]. intros q. simpl. rewrite Hins.
  rewrite lookup_insert_is_Some'. naive_solver.
Qed.

Lemma walk_from_start p route : p ∈ walk_from p route.
Proof.
  induction route as [|c route IH]; simpl; [left|].
  destruct (direction c); [left | exact IH].
Qed.

(** ** Properties *)

(** Every cost [explore] records is a non-negative [int] (never
    [float('inf')]), the start costs 0, and [highest_cost] is a
    non-negative [int]. *)
Theorem explore_costs_finite regex costs :
  explore regex = Ok costs ->
  costs !! (0, 0) = Some (Fin 0) /\ map_Forall (fun _ => fin_nonneg) costs /\
  exists c, highest_cost costs = Ok (Fin c) /\ 0 <= c.
Proof.
  unfold explore. destruct (res_fold _ _ _) as [st|] eqn:E; [|discriminate]. intros [= <-].
  assert (Hinv : explore_inv st).
  { eapply res_fold_inv; [| | exact E].
    - split_and!; [done | apply map_Forall_singleton; exists 0; done | by eexists | constructor].
    - intros s c s' _ Hs Hstep. exact (explore_step_inv s c s' Hs Hstep). }
  destruct Hinv as (H0 & Hall & _). split_and!; [done|done|].
  unfold highest_cost. apply map_Forall_to_list in Hall.
  assert (Hvals : Forall fin_nonneg (map_to_list (costs st)).*2).
  { apply Forall_fmap. eapply Forall_impl; [exact Hall|]. intros [k v]. done. }
  assert (Hin : Fin 0 ∈ (map_to_list (costs st)).*2).
  { apply list_elem_of_fmap. exists ((0, 0), Fin 0). split; [done|]. apply elem_of_map_to_list, H0. }
  destruct ((map_to_list (costs st)).*2) as [|v vs]; [inversion Hin|].
  inversion Hvals; subst. destruct (fold_cost_max_fin vs v) as [c [Hc Hc0]]; [done|done|].
  exists c. rewrite Hc. done.
Qed.

(** For a route without branches, [explore] records exactly the rooms
    the route walks through from the start. *)
Theorem explore_route route :
  Forall (fun c => is_direction c = true) route ->
  exists costs, explore (string_of_list_ascii route) = Ok costs /\
    forall q, is_Some (costs !! q) <-> q ∈ walk_from (0, 0) route.
Proof.
  intros Hroute. unfold explore. rewrite list_ascii_of_string_of_list_ascii.
  assert (Hgen : forall st, is_Some (costs st !! pos st) ->
    exists st', res_fold explore_step route st = Ok st' /\
      forall q, is_Some (costs st' !! q) <-> is_Some (costs st !! q) \/ q ∈ walk_from (pos st) route).
  { induction Hroute as [|c route Hc Hroute IH]; intros st Hpos.
    - exists st. split; [done|]. intros q. simpl. rewrite list_elem_of_singleton.
      split; [tauto|]. intros [H| ->]; done.
    - unfold is_direction in Hc. destruct (direction c) as [d|] eqn:Hd; [|discriminate].
      destruct (explore_step_move st c d Hd Hpos) as (st1 & Hs1 & Hp1 & Hk1).
      destruct (IH st1) as (st' & Hf & Hk'); [rewrite Hk1; auto|].
      exists st'. cbn [res_fold]. rewrite Hs1. cbn [res_bind]. split; [exact Hf|].
      intros q. rewrite Hk', Hk1, Hp1. cbn [walk_from]. rewrite Hd, elem_of_cons.
      split.
      + intros [[H | ->] | H]; [left; done | right; right; apply walk_from_start | right; right; done].
      + intros [H | [-> | H]]; [left; left; done | left; left; done | right; done]. }
  destruct (Hgen explore_init) as (st' & Hf & Hk); [by eexists|].
  exists (costs st'). rewrite Hf. split; [done|]. intros q. rewrite Hk. simpl.
  rewrite lookup_singleton_is_Some. split; [intros [<-|H]; [apply walk_from_start|done]|]. auto.
Qed.

(** [test_sample_cases]: the five sample regexes have highest costs
    3, 10, 18, 23 and 31. *)
Lemma regular_map_tests :
  (c <- explore "^WNE$" ;; highest_cost c) = Ok (Fin 3) /\
  (c <- explore "^ENWWW(NEEE|SSE(EE|N))$" ;; highest_cost c) = Ok (Fin 10) /\
  (c <- explore "^ENNWSWW(NEWS|)SSSEEN(WNSE|)EE(SWEN|)NNN$" ;; highest_cost c) = Ok (Fin 18) /\
  (c <- explore "^ESSWWN(E|NNENN(EESS(WNSE|)SSS|WWWSSSSE(SW|NNNE)))$" ;; highest_cost c) = Ok (Fin 23) /\
  (c <- explore "^WSSEESWWWNW(S|NENNEEEENN(ESSSSW(NWSW|SSEN)|WSWWN(E|WWS(E|SS))))$" ;; highest_cost c)
    = Ok (Fin 31).
Proof. vm_compute. repeat split. Qed.

(** After a group [)] returns to the position before the group, not to
    the end of each branch: for [^N(E|W)N$], whose routes are NEN and NWN,
    the code never reaches the rooms (1,-2) and (-1,-2) those routes end
    in, and records (0,-2), which neither route enters, at cost 2. *)
Lemma group_continues_from_start :
  exists costs, explore "^N(E|W)N$" = Ok costs /\
    costs !! (1, -2) = None /\ costs !! (-1, -2) = None /\ costs !! (0, -2) = Some (Fin 2) /\
    (1, -2) ∈ walk_from (0, 0) (list_ascii_of_string "NEN") /\
    (-1, -2) ∈ walk_from (0, 0) (list_ascii_of_string "NWN") /\
    (0, -2) ∉ walk_from (0, 0) (list_ascii_of_string "NEN") ++ walk_from (0, 0) (list_ascii_of_string "NWN").
Proof.
  eexists. split; [vm_compute; reflexivity|]. split_and!; [reflexivity..| | |]; vm_compute.
  - right. right. right. left.
  - right. right. right. left.
  - intros H. repeat (apply elem_of_cons in H as [H|H]; [discriminate|]). inversion H.
Qed.

Lemma explore_costs_finite_witness :
  explore "^N$" = Ok {[ (0, 0) := Fin 0; (0, -1) := Fin 1 ]} /\
  exists c, highest_cost {[ (0, 0) := Fin 0; (0, -1) := Fin 1 ]} = Ok (Fin c) /\ 0 <= c.
Proof.
  assert (E : explore "^N$" = Ok {[ (0, 0) := Fin 0; (0, -1) := Fin 1 ]}) by (vm_compute; reflexivity).
  split; [exact E|]. exact (proj2 (proj2 (explore_costs_finite _ _ E))).
Defined.

Lemma explore_route_witness :
  Forall (fun c => is_direction c = true) (list_ascii_of_string "NEEN") /\
  exists costs, explore (string_of_list_ascii (list_ascii_of_string "NEEN")) = Ok costs /\
    forall q, is_Some (costs !! q) <-> q ∈ walk_from (0, 0) (list_ascii_of_string "NEEN").
Proof.
  assert (H : Forall (fun c => is_direction c = true) (list_ascii_of_string "NEEN"))
    by (repeat constructor).
  split; [exact H | exact (explore_route _ H)].
Defined.

End RegularMap.
