(* ===== verification/Day06.v ===== *)
(** * Day 6: Chronal Coordinates (src/day_06.py)

    [make_groups] turns the input lines into [Group]s numbered by
    position.  [mark_grid] floods a [size] x [size] grid from every group
    at once: a deque of [(x, y, i, dist)] cells, popped on the right and
    extended on the left, with a [seen] set of [(x, y, i)]; a cell takes
    [(i, dist)] when [dist] is smaller than or equal to what it holds.
    [biggest_non_inf_group] counts the cells of each group, marks groups
    touching the border infinite and returns the largest finite one.
    [most_central_region] counts the cells reachable from the average
    point whose total distance to the groups is below 10000.

    The grid is a [gmap] from [(x, y)] to [(i, dist)], absent cells being
    numpy's [-1] initial value; deques are lists whose head is the right
    end.  Both flood loops run on fuel; [mark_grid_total] and
    [most_central_region_total] show the fuel chosen is enough. *)

From Stdlib Require Import ZArith Ascii String Lia.
From stdpp Require Import base list gmap sets strings.
From S2P Require Import Prelude Decoding PyText PySort Worklist.

Open Scope Z_scope.
Open Scope py_scope.

Module ChronalCoordinates.

(** [Group]: the coordinates, the index, and the two fields
    [biggest_non_inf_group] updates. *)
Record Group := { x : Z; y : Z; i : Z; is_infinite : bool; cell_count : Z }.

Definition new_group (gx gy gi : Z) : Group :=
  {| x := gx; y := gy; i := gi; is_infinite := false; cell_count := 0 |}.

(** [make_groups] on the lines [line.strip().split(",")]. *)
Definition make_groups (lines : list string) : res (list Group) :=
  res_map (fun '(gi, line) =>
    let fields := py_split ","%char (list_ascii_of_string (strip line)) in
    f0 <- py_get fields 0 ;; gx <- py_int f0 ;;
    f1 <- py_get fields 1 ;; gy <- py_int f1 ;;
    Ok (new_group gx gy gi))
    (zip (py_range 0 (Z.of_nat (length lines))) lines).

(** [neighbors]. *)
Definition neighbors (cx cy : Z) : list (Z * Z) :=
  [(cx - 1, cy); (cx + 1, cy); (cx, cy - 1); (cx, cy + 1)].

Definition out_of_grid (size cx cy : Z) : bool :=
  (cx <? 0) || (cy <? 0) || (cx >? size - 1) || (cy >? size - 1).

Definition sum_list_with_Z {A} (f : A -> Z) (l : list A) : Z := fold_right (fun a acc => f a + acc) 0 l.

(** ** [mark_grid] *)

Abbreviation cell := (prod (prod (prod Z Z) Z) Z).

(** [grid[x][y]]: [(-1, -1)] where nothing was written. *)
Definition grid_get (grid : gmap (Z * Z) (Z * Z)) (p : Z * Z) : Z * Z :=
  default (-1, -1) (grid !! p).

Record mark_state := {
  grid : gmap (Z * Z) (Z * Z);
  seen : gset (Z * Z * Z);
  queue : list cell
}.

(** The loop over [neighbors(x, y)]: each one not yet seen for group [ci]
    is [appendleft]ed (the left end is the tail) and marked seen. *)
Definition push_neighbors (ci dist : Z) (sq : gset (Z * Z * Z) * list cell) (nb : Z * Z)
    : gset (Z * Z * Z) * list cell :=
  let '(sn, q) := sq in
  if decide ((nb.1, nb.2, ci) ∈ sn) then (sn, q)
  else (sn ∪ {[(nb.1, nb.2, ci)]}, q ++ [(nb.1, nb.2, ci, dist + 1)]).

(** One iteration of [while queue:] on the popped cell. *)
Definition mark_step (size : Z) (st : mark_state) (c : cell) (rest : list cell) : mark_state :=
  let '(cx, cy, ci, dist) := c in
  if out_of_grid size cx cy then {| grid := grid st; seen := seen st; queue := rest |}
  else
    let prev_dist := (grid_get (grid st) (cx, cy)).2 in
    if (dist <? prev_dist) || (prev_dist =? -1) || (dist =? prev_dist) then
      let '(sn, q) := fold_left (push_neighbors ci dist) (neighbors cx cy) (seen st, rest) in
      {| grid := <[(cx, cy) := (ci, dist)]> (grid st); seen := sn; queue := q |}
    else {| grid := grid st; seen := seen st; queue := rest |}.

Fixpoint mark_loop (fuel : nat) (size : Z) (st : mark_state) : option (gmap (Z * Z) (Z * Z)) :=
  match fuel with
  | O => None
  | Datatypes.S fuel' =>
      match queue st with
      | [] => Some (grid st)
      | c :: rest => mark_loop fuel' size (mark_step size st c rest)
      end
  end.

(** The cells [(x, y, i)] a flood can push: the grid and its border ring,
    for every group index. *)
Definition box (size : Z) (ids : list Z) : list (Z * Z * Z) :=
  ids ≫= fun gi => py_range (-1) (size + 1) ≫= fun cx => (fun cy => (cx, cy, gi)) <$> py_range (-1) (size + 1).

Definition mark_fuel (size : Z) (groups : list Group) : nat :=
  Datatypes.S (2 * length (box size (remove_dups (i <$> groups))) + length groups).

Definition mark_init (groups : list Group) : mark_state :=
  {| grid := ∅;
     seen := list_to_set ((fun g => (x g, y g, i g)) <$> groups);
     queue := rev ((fun g => (x g, y g, i g, 0)) <$> groups) |}.

(** [mark_grid]: numpy refuses a negative size; [None] is fuel
    exhaustion, which [mark_grid_total] rules out. *)
Definition mark_grid (size : Z) (groups : list Group) : res (option (gmap (Z * Z) (Z * Z))) :=
  if size <? 0 then Err ValueError
  else Ok (mark_loop (mark_fuel size groups) size (mark_init groups)).

(** ** [biggest_non_inf_group] *)

(** The body of the double loop for cell [(cx, cy)]: [groups[i]] (so the
    unwritten [-1] reads the last group) gains a cell, and becomes
    infinite on the border.  [i == 10e6] never holds for a group index
    below ten million. *)
Definition count_cell (size : Z) (grid : gmap (Z * Z) (Z * Z)) (groups : list Group) (p : Z * Z)
    : res (list Group) :=
  let '(cx, cy) := p in
  let '(gi, _) := grid_get grid (cx, cy) in
  if gi =? 10000000 then Ok groups
  else
    g <- py_get groups gi ;;
    let edge := (cx =? 0) || (cy =? 0) || (cx =? size - 1) || (cy =? size - 1) in
    py_set groups gi {| x := x g; y := y g; i := i g; is_infinite := is_infinite g || edge;
                        cell_count := cell_count g + 1 |}.

Definition grid_cells (size : Z) : list (Z * Z) :=
  py_range 0 size ≫= fun cx => (fun cy => (cx, cy)) <$> py_range 0 size.

(** [biggest_non_inf_group]: the groups after the counts (the objects
    are the caller's) and the largest finite one, [IndexError] if none. *)
Definition biggest_non_inf_group (groups : list Group) (grid : gmap (Z * Z) (Z * Z)) (size : Z)
    : res (list Group * Group) :=
  groups' <- res_fold (count_cell size grid) (grid_cells size) groups ;;
  let non_inf_groups := filter (fun g => is_infinite g = false) groups' in
  best <- py_last (sort_by (fun a b => cell_count a <=? cell_count b) non_inf_groups) ;;
  Ok (groups', best).

(** ** [most_central_region] *)

(** [distance]. *)
Definition distance (x1 y1 x2 y2 : Z) : Z := Z.abs (x1 - x2) + Z.abs (y1 - y2).

(** [is_within_dist_of_all]. *)
Definition is_within_dist_of_all (cx cy : Z) (groups : list Group) : bool :=
  sum_list_with_Z (fun g => distance cx cy (x g) (y g)) groups <? 10000.

Record central_state := { cseen : gset (Z * Z); cqueue : list (Z * Z); central_cells : nat }.

(** One iteration of the depth-first loop ([pop] and [append] on the
    right end, the head). *)
Definition central_step (size : Z) (groups : list Group) (st : central_state) (p : Z * Z)
    (rest : list (Z * Z)) : central_state :=
  let '(cx, cy) := p in
  if out_of_grid size cx cy || negb (is_within_dist_of_all cx cy groups) then
    {| cseen := cseen st; cqueue := rest; central_cells := central_cells st |}
  else
    let '(sn, q) := fold_left (fun '(sn, q) nb =>
        if decide (nb ∈ sn) then (sn, q) else (sn ∪ {[nb]}, nb :: q)) (neighbors cx cy) (cseen st, rest) in
    {| cseen := sn; cqueue := q; central_cells := Datatypes.S (central_cells st) |}.

Fixpoint central_loop (fuel : nat) (size : Z) (groups : list Group) (st : central_state) : option nat :=
  match fuel with
  | O => None
  | Datatypes.S fuel' =>
      match cqueue st with
      | [] => Some (central_cells st)
      | p :: rest => central_loop fuel' size groups (central_step size groups st p rest)
      end
  end.

Definition central_box (size : Z) : list (Z * Z) :=
  py_range (-1) (size + 1) ≫= fun cx => (fun cy => (cx, cy)) <$> py_range (-1) (size + 1).

(** [most_central_region]: the averages raise [ZeroDivisionError] for no
    groups; [None] is fuel exhaustion. *)
Definition most_central_region (groups : list Group) (size : Z) : res (option nat) :=
  avg_x <- py_floordiv (sum_list_with_Z x groups) (Z.of_nat (length groups)) ;;
  avg_y <- py_floordiv (sum_list_with_Z y groups) (Z.of_nat (length groups)) ;;
  Ok (central_loop (Datatypes.S (2 * length (central_box size) + 1)) size groups
        {| cseen := {[(avg_x, avg_y)]}; cqueue := [(avg_x, avg_y)]; central_cells := 0 |}).

(** The six coordinates of the puzzle text. *)
Definition sample_lines : list string := ["1, 1"; "1, 6"; "8, 3"; "3, 4"; "5, 5"; "8, 9"].

(** ** Termination of the two floods *)

Definition mark_measure (size : Z) (ids : list Z) (st : mark_state) : nat :=
  2 * unseen (box size ids) (seen st) + length (queue st).

Definition central_measure (size : Z) (st : central_state) : nat :=
  2 * unseen (central_box size) (cseen st) + length (cqueue st).

Definition sample_groups : list Group :=
  match make_groups sample_lines with Ok gs => gs | Err _ => [] end.

Lemma out_of_grid_false size cx cy :
  out_of_grid size cx cy = false -> 0 <= cx <= size - 1 /\ 0 <= cy <= size - 1.
Proof.
  unfold out_of_grid. intros H. repeat (apply orb_false_iff in H as [H ?]).
  rewrite Z.ltb_ge in *. rewrite Z.gtb_ltb, Z.ltb_ge in *. lia.
Qed.

Lemma elem_of_py_range a b k : k ∈ py_range a b <-> a <= k < b.
Proof. rewrite list_elem_of_In. apply in_py_range. Qed.

Lemma elem_of_box size ids a b gi :
  (a, b, gi) ∈ box size ids <-> gi ∈ ids /\ -1 <= a <= size /\ -1 <= b <= size.
Proof.
  unfold box. rewrite list_elem_of_bind. split.
  - intros (gi' & Hin & Hids). apply list_elem_of_bind in Hin as (a' & Hin & Ha).
    apply list_elem_of_fmap in Hin as (b' & [= -> -> ->] & Hb).
    apply elem_of_py_range in Ha, Hb. split_and!; first [done|lia].
  - intros (Hids & Ha & Hb). exists gi. split; [|done]. apply list_elem_of_bind. exists a.
    split; [|apply elem_of_py_range; lia]. apply list_elem_of_fmap. exists b.
    split; [done|apply elem_of_py_range; lia].
Qed.

Lemma elem_of_central_box size a b :
  (a, b) ∈ central_box size <-> -1 <= a <= size /\ -1 <= b <= size.
Proof.
  unfold central_box. rewrite list_elem_of_bind. split.
  - intros (a' & Hin & Ha). apply list_elem_of_fmap in Hin as (b' & [= -> ->] & Hb).
    apply elem_of_py_range in Ha, Hb. lia.
  - intros (Ha & Hb). exists a. split; [|apply elem_of_py_range; lia].
    apply list_elem_of_fmap. exists b. split; [done|apply elem_of_py_range; lia].
Qed.

Lemma neighbors_in_ring size cx cy :
  0 <= cx <= size - 1 -> 0 <= cy <= size - 1 ->
  Forall (fun nb : Z * Z => -1 <= nb.1 <= size /\ -1 <= nb.2 <= size) (neighbors cx cy).
Proof. intros. repeat constructor; simpl; lia. Qed.

Lemma unseen_le_length {K} `{Countable K} (bx : list K) sn : (unseen bx sn <= length bx)%nat.
Proof. apply length_filter. Qed.

Lemma mark_step_measure size ids st c rest :
  queue st = c :: rest -> Forall (fun c : cell => c.1.2 ∈ ids) (queue st) ->
  (mark_measure size ids (mark_step size st c rest) < mark_measure size ids st)%nat /\
  Forall (fun c : cell => c.1.2 ∈ ids) (queue (mark_step size st c rest)).
Proof.
  unfold mark_measure. intros Hq Hall. rewrite Hq in *. inversion Hall as [|? ? Hc Hrest]; subst.
  destruct c as [[[cx cy] ci] dist]. simpl in Hc. unfold mark_step.
  destruct (out_of_grid size cx cy) eqn:Eo; [simpl; split; [lia|done]|].
  apply out_of_grid_false in Eo as [Hx Hy].
  destruct (_ || _); [|simpl; split; [lia|done]].
  pose proof (push_fold_measure (box size ids) (fun c : cell => c.1.2 ∈ ids)
    (fun nb : Z * Z => -1 <= nb.1 <= size /\ -1 <= nb.2 <= size) (push_neighbors ci dist)) as Hp.
  destruct (fold_left _ _ _) as [sn q] eqn:Ef. simpl.
  assert (Hf : forall sn0 q0 nb, -1 <= nb.1 <= size /\ -1 <= nb.2 <= size ->
    push_neighbors ci dist (sn0, q0) nb = (sn0, q0) \/
    exists k c, k ∈ box size ids /\ (k ∉ sn0) /\ c.1.2 ∈ ids /\
      (push_neighbors ci dist (sn0, q0) nb = (sn0 ∪ {[k]}, q0 ++ [c]) \/
       push_neighbors ci dist (sn0, q0) nb = (sn0 ∪ {[k]}, c :: q0))).
  { intros sn0 q0 nb Hnb. unfold push_neighbors.
    destruct (decide _) as [|Hn]; [left; done|right].
    exists (nb.1, nb.2, ci), (nb.1, nb.2, ci, dist + 1).
    split_and!; [apply elem_of_box; split_and!; first [done|lia] | done | done | left; done]. }
  specialize (Hp Hf (neighbors cx cy) (seen st) rest (neighbors_in_ring size cx cy Hx Hy) Hrest).
  rewrite Ef in Hp. destruct Hp as [Hm HQ]. split; [lia|done].
Qed.

Lemma mark_loop_total size ids fuel st :
  Forall (fun c : cell => c.1.2 ∈ ids) (queue st) -> (mark_measure size ids st < fuel)%nat ->
  exists g, mark_loop fuel size st = Some g.
Proof.
  revert st. induction fuel as [|fuel IH]; intros st Hall Hm; [lia|]. cbn [mark_loop].
  destruct (queue st) as [|c rest] eqn:Hq; [eauto|].
  rewrite <- Hq in Hall. destruct (mark_step_measure size ids st c rest Hq Hall) as [Hlt HQ].
  apply IH; [done|lia].
Qed.

Lemma central_step_measure size groups st p rest :
  cqueue st = p :: rest ->
  (central_measure size (central_step size groups st p rest) < central_measure size st)%nat.
Proof.
  unfold central_measure. intros Hq. rewrite Hq. destruct p as [cx cy]. unfold central_step.
  destruct (out_of_grid size cx cy) eqn:Eo; [simpl; lia|].
  destruct (negb _); [simpl; lia|]. cbn [orb].
  apply out_of_grid_false in Eo as [Hx Hy].
  pose proof (push_fold_measure (central_box size) (fun _ : Z * Z => True)
    (fun nb : Z * Z => -1 <= nb.1 <= size /\ -1 <= nb.2 <= size)
    (fun '(sn, q) nb => if decide (nb ∈ sn) then (sn, q) else (sn ∪ {[nb]}, nb :: q))) as Hp.
  destruct (fold_left _ _ _) as [sn q] eqn:Ef. simpl.
  specialize (Hp ltac:(intros sn0 q0 [a b] Hnb; simpl in Hnb |- *;
    destruct (decide _) as [|Hn]; [left; done|right];
    exists (a, b), (a, b); split_and!; [apply elem_of_central_box; lia | done | done | right; done])
    (neighbors cx cy) (cseen st) rest (neighbors_in_ring size cx cy Hx Hy)).
  rewrite Ef in Hp. destruct Hp as [Hm _]; [apply Forall_true; done|]. lia.
Qed.

Lemma central_loop_total size groups fuel st :
  (central_measure size st < fuel)%nat -> exists n, central_loop fuel size groups st = Some n.
Proof.
  revert st. induction fuel as [|fuel IH]; intros st Hm; [lia|]. cbn [central_loop].
  destruct (cqueue st) as [|p rest] eqn:Hq; [eauto|].
  apply IH. pose proof (central_step_measure size groups st p rest Hq). lia.
Qed.

(** ** Properties *)

(** [mark_grid] fails with [ValueError] exactly for a negative size
    and otherwise finishes its flood within the fuel [mark_fuel]: every
    iteration pops a cell and pushes only unseen cells of the grid and its
    border ring. *)
Theorem mark_grid_total size groups :
  (mark_grid size groups = Err ValueError <-> size < 0) /\
  (0 <= size -> exists g, mark_grid size groups = Ok (Some g)).
Proof.
  unfold mark_grid. split.
  - destruct (Z.ltb_spec size 0); split; (discriminate || lia || done).
  - intros Hs. destruct (Z.ltb_spec size 0); [lia|].
    destruct (mark_loop_total size (remove_dups (i <$> groups)) (mark_fuel size groups) (mark_init groups))
      as [g Hg]; [| |exists g; rewrite Hg; done].
    + simpl. apply Forall_rev, Forall_fmap, Forall_forall. intros g Hg. simpl.
      apply elem_of_remove_dups, list_elem_of_fmap. eauto.
    + unfold mark_measure, mark_fuel. simpl. rewrite length_rev, length_fmap.
      pose proof (unseen_le_length (box size (remove_dups (i <$> groups)))
                    (list_to_set ((fun g => (x g, y g, i g)) <$> groups))). lia.
Qed.

(** [most_central_region] raises [ZeroDivisionError] for no groups and
    otherwise finishes its depth-first flood within its fuel. *)
Theorem most_central_region_total groups size :
  (groups = [] -> most_central_region groups size = Err ZeroDivisionError) /\
  (groups <> [] -> exists n, most_central_region groups size = Ok (Some n)).
Proof.
  split; [intros ->; reflexivity|]. intros Hne. unfold most_central_region.
  assert (Hl : Z.of_nat (length groups) <> 0) by (destruct groups; [done|simpl; lia]).
  rewrite !py_floordiv_Ok by exact Hl. cbn [res_bind].
  edestruct central_loop_total as [n Hn]; [|rewrite Hn; eexists; reflexivity].
  unfold central_measure. simpl. pose proof (unseen_le_length (central_box size) {[(sum_list_with_Z x groups / Z.of_nat (length groups), sum_list_with_Z y groups / Z.of_nat (length groups))]}). lia.
Qed.

(** An unwritten cell reads [(-1, -1)] and, as [-1 != 10e6], is counted
    for the last group. *)
Lemma count_cell_unwritten size grid groups cx cy g :
  grid !! (cx, cy) = None -> py_get groups (-1) = Ok g ->
  count_cell size grid groups (cx, cy) =
    py_set groups (-1) {| x := x g; y := y g; i := i g;
      is_infinite := is_infinite g || ((cx =? 0) || (cy =? 0) || (cx =? size - 1) || (cy =? size - 1));
      cell_count := cell_count g + 1 |}.
Proof. intros Hn Hg. unfold count_cell, grid_get. rewrite Hn. simpl. rewrite Hg. reflexivity. Qed.

(** On the puzzle's six coordinates and a 10 x 10 grid the largest
    finite area is E's 17 cells, as the puzzle says; but the cell (5, 0),
    at distance 5 from both A and E, is given to A (index 0) instead of
    being left to nobody (the puzzle) or marked -1 (the docstring of
    [main]). *)
Lemma chronal_coordinates_sample :
  (match mark_grid 10 sample_groups with Ok (Some g) => g !! (5, 0) | _ => None end) = Some (0, 5) /\
  distance 5 0 1 1 = 5 /\ distance 5 0 5 5 = 5 /\
  (match mark_grid 10 sample_groups with
   | Ok (Some g) => r <- biggest_non_inf_group sample_groups g 10 ;; Ok r.2
   | _ => Err ValueError
   end) = Ok {| x := 5; y := 5; i := 4; is_infinite := false; cell_count := 17 |}.
Proof. split_and!; vm_compute; reflexivity. Qed.

Lemma mark_grid_total_witness :
  exists g, 0 <= 10 /\ mark_grid 10 sample_groups = Ok (Some g).
Proof.
  assert (H : 0 <= 10) by lia.
  destruct (proj2 (mark_grid_total 10 sample_groups) H) as [g Hg]. exists g. split; [exact H|exact Hg].
Defined.

Lemma most_central_region_total_witness :
  exists n, sample_groups <> [] /\ most_central_region sample_groups 400 = Ok (Some n).
Proof.
  assert (H : sample_groups <> []) by (vm_compute; discriminate).
  destruct (proj2 (most_central_region_total sample_groups 400) H) as [n Hn].
  exists n. split; [exact H|exact Hn].
Defined.

End ChronalCoordinates.
