(* ===== verification/Day07.v ===== *)
(** * Day 7: The Sum of Its Parts (src/day_07.py)

    [Graph] keeps a defaultdict of [Node]s keyed by their one-letter
    [data]; [connect a b] adds [b] to [a]'s children (a set) and adds one
    to [b]'s [indegree].  [find_graph_order] is Kahn's algorithm with a
    heap of ready nodes, and it decrements the graph's own indegrees.
    [time_with_workers] hands the steps, in that order, to workers that
    spend [cost] seconds on each, a step waiting while a step before it in
    the queue or one in progress is its parent.

    The graph is a [gmap] from letters to [Node] records (a node's
    identity is its letter: [__eq__] and [__hash__] use [data]); the heap
    is a list popped at its least letter.  [BASE_COST] is a parameter,
    since the test sets the global to 0.  Both loops run on fuel:
    [find_graph_order_total] shows the fuel of [find_graph_order] is
    enough; [time_with_workers] need not finish (see
    [no_workers_never_finish]).

    [graph_of] characterises the graph [make_graph] builds (indegree =
    number of lines into a step, children = the steps a line makes wait)
    and [order_inv] is the invariant of [find_graph_order]'s loop (the
    yielded and ready steps are distinct with indegree at most 0, and each
    indegree drops by one per yielded parent); together they show that a
    repeated input line keeps its later step out of the order for ever
    ([duplicate_line_blocks_step]). *)

From Stdlib Require Import ZArith Ascii String Lia.
From stdpp Require Import base list gmap sets strings.
From S2P Require Import Prelude Worklist.

Open Scope Z_scope.
Open Scope py_scope.

Module SumOfItsParts.

(** ** Parsing: [log_parser.search(line.strip()).groups()] *)

(** [ (.) .+ (.) ] from the start [s] (just after a space): the first
    group is [s]'s first character if a space follows it, the second is
    the last [ y ] after at least one more character. *)
Fixpoint last_spaced (r : list ascii) : option ascii :=
  match r with
  | c1 :: ((c2 :: c3 :: _) as r') =>
      match last_spaced r' with
      | Some y => Some y
      | None => if Ascii.eqb c1 " " && Ascii.eqb c3 " " then Some c2 else None
      end
  | _ => None
  end.

Fixpoint search_pair (s : list ascii) : option (ascii * ascii) :=
  match s with
  | c0 :: ((a :: c2 :: _ :: r) as s') =>
      if Ascii.eqb c0 " " && Ascii.eqb c2 " " then
        match last_spaced r with
        | Some b => Some (a, b)
        | None => search_pair s'
        end
      else search_pair s'
  | _ => None
  end.

(** A line without the pattern makes [.groups()] raise
    [AttributeError]. *)
Definition parse_pair (line : string) : res (ascii * ascii) :=
  match search_pair (list_ascii_of_string line) with
  | Some p => Ok p
  | None => Err AttributeError
  end.

(** ** The graph *)

Record Node := { indegree : Z; children : gset ascii }.

Abbreviation Graph := (gmap ascii Node).

Definition new_node : Node := {| indegree := 0; children := ∅ |}.

(** [self[item]]: the defaultdict creates a missing node. *)
Definition getitem (g : Graph) (a : ascii) : Graph :=
  match g !! a with Some _ => g | None => <[a := new_node]> g end.

Definition add_child (b : ascii) (n : Node) : Node :=
  {| indegree := indegree n; children := children n ∪ {[b]} |}.

Definition add_indegree (d : Z) (n : Node) : Node :=
  {| indegree := indegree n + d; children := children n |}.

(** [Graph.connect]. *)
Definition connect (g : Graph) (a b : ascii) : Graph :=
  let g := getitem (getitem g a) b in
  alter (add_indegree 1) b (alter (add_child b) a g).

(** [make_graph] (and [simple_graph], a fixed list of [connect]s). *)
Definition make_graph (pairs : list (ascii * ascii)) : Graph :=
  fold_left (fun g '(a, b) => connect g a b) pairs ∅.

Definition simple_graph : Graph :=
  make_graph [("C", "A"); ("C", "F"); ("A", "B"); ("A", "D"); ("B", "E"); ("D", "E"); ("F", "E")]%char.

(** [Node.cost]: [ascii_uppercase.find(data) + 1 + BASE_COST]. *)
Definition uppercase_find (c : ascii) : Z :=
  let n := Z.of_nat (nat_of_ascii c) in if (65 <=? n) && (n <=? 90) then n - 65 else -1.

Definition cost (base_cost : Z) (c : ascii) : Z := uppercase_find c + 1 + base_cost.

(** ** [find_graph_order] *)

Definition ascii_le (a b : ascii) : bool := (nat_of_ascii a <=? nat_of_ascii b)%nat.

(** [heapq.heappop]: the least letter, removed once. *)
Fixpoint heap_min (m : ascii) (l : list ascii) : ascii :=
  match l with [] => m | c :: l' => heap_min (if ascii_le m c then m else c) l' end.

Fixpoint remove_first (c : ascii) (l : list ascii) : list ascii :=
  match l with [] => [] | d :: l' => if Ascii.eqb c d then l' else d :: remove_first c l' end.

(** The loop over [node.children]: decrement, and push a child whose
    indegree reaches 0. *)
Definition release (gr : Graph * list ascii) (child : ascii) : Graph * list ascii :=
  let '(g, ready) := gr in
  let g := alter (add_indegree (-1)) child g in
  match g !! child with
  | Some n => if indegree n =? 0 then (g, child :: ready) else (g, ready)
  | None => (g, ready)
  end.

(** The generator's loop: the graph (its indegrees are the caller's),
    the yielded letters so far, reversed. *)
Fixpoint order_loop (fuel : nat) (g : Graph) (ready : list ascii) (out : list ascii)
    : option (Graph * list ascii) :=
  match fuel with
  | O => None
  | Datatypes.S fuel' =>
      match ready with
      | [] => Some (g, rev out)
      | r :: rs =>
          let node := heap_min r rs in
          let kids := match g !! node with Some n => elements (children n) | None => [] end in
          let '(g', ready') := fold_left release kids (g, remove_first node ready) in
          order_loop fuel' g' ready' (node :: out)
      end
  end.

Definition initial_ready (g : Graph) : list ascii :=
  (filter (fun kv => indegree kv.2 = 0) (map_to_list g)).*1.

Definition order_fuel (g : Graph) : nat := Datatypes.S (2 * size g).

Definition find_graph_order (g : Graph) : option (Graph * list ascii) :=
  order_loop (order_fuel g) g (initial_ready g) [].

(** ** [time_with_workers] *)

Record Worker := { job : option ascii; remaining_cost : Z }.

Definition new_worker : Worker := {| job := None; remaining_cost := 0 |}.

(** [Worker.free]. *)
Definition free (w : Worker) : bool :=
  match job w with None => true | Some _ => remaining_cost w =? 0 end.

(** [Worker.work]. *)
Definition work (w : Worker) : Worker :=
  match job w with
  | Some _ => if remaining_cost w >? 0 then {| job := job w; remaining_cost := remaining_cost w - 1 |} else w
  | None => w
  end.

(** [Worker.set_job]. *)
Definition set_job (base_cost : Z) (w : Worker) (j : option ascii) : Worker :=
  match j with
  | Some n => {| job := Some n; remaining_cost := cost base_cost n |}
  | None => {| job := None; remaining_cost := remaining_cost w |}
  end.

(** The shared locals of [time_with_workers]. *)
Record Shop := { work_queue : list ascii; in_progress : gset ascii; done : gset ascii }.

Definition node_children (g : Graph) (n : ascii) : gset ascii :=
  match g !! n with Some nd => children nd | None => ∅ end.

(** [node_is_ready]. *)
Definition node_is_ready (g : Graph) (potential_job : ascii) (blockers : gset ascii) : bool :=
  forallb (fun n => negb (bool_decide (potential_job ∈ node_children g n))) (elements blockers).

(** The loop of [next_job] over the queue, with the letters seen so far. *)
Fixpoint next_job_go (g : Graph) (in_prog : gset ascii) (seen : gset ascii) (q : list ascii)
    : option ascii :=
  match q with
  | [] => None
  | pj :: q' =>
      let seen := seen ∪ {[pj]} in
      if node_is_ready g pj (seen ∪ in_prog) then Some pj else next_job_go g in_prog seen q'
  end.

(** [next_job]: the job and the queue after [work_queue.remove]. *)
Definition next_job (g : Graph) (sh : Shop) : option ascii * list ascii :=
  match next_job_go g (in_progress sh) ∅ (work_queue sh) with
  | Some pj => (Some pj, remove_first pj (work_queue sh))
  | None => (None, work_queue sh)
  end.

(** The body of [work()] for one worker. *)
Definition work_worker (base_cost : Z) (g : Graph) (sh : Shop) (w : Worker) : Shop * Worker :=
  if negb (free w) then (sh, work w)
  else
    let sh := match job w with
              | Some j => if decide (j ∈ in_progress sh)
                          then {| work_queue := work_queue sh; in_progress := in_progress sh ∖ {[j]};
                                  done := done sh ∪ {[j]} |}
                          else sh
              | None => sh
              end in
    let '(new_job, q) := next_job g sh in
    let inp := match new_job with Some j => in_progress sh ∪ {[j]} | None => in_progress sh end in
    ({| work_queue := q; in_progress := inp; done := done sh |}, work (set_job base_cost w new_job)).

(** [work()]: every worker in turn. *)
Fixpoint work_round (base_cost : Z) (g : Graph) (sh : Shop) (ws : list Worker) : Shop * list Worker :=
  match ws with
  | [] => (sh, [])
  | w :: ws' =>
      let '(sh, w') := work_worker base_cost g sh w in
      let '(sh, ws'') := work_round base_cost g sh ws' in
      (sh, w' :: ws'')
  end.

(** [while work_queue or in_progress: work(); total_seconds += 1]. *)
Fixpoint time_loop (fuel : nat) (base_cost : Z) (g : Graph) (sh : Shop) (ws : list Worker)
    (total_seconds : Z) : option Z :=
  match fuel with
  | O => None
  | Datatypes.S fuel' =>
      if bool_decide (work_queue sh = []) && bool_decide (in_progress sh = ∅) then Some total_seconds
      else
        let '(sh, ws) := work_round base_cost g sh ws in
        time_loop fuel' base_cost g sh ws (total_seconds + 1)
  end.

(** [time_with_workers]: the order (whose computation decrements the
    graph's indegrees), one round before the clock starts, then the
    loop.  [None] is fuel exhaustion. *)
Definition time_with_workers (fuel : nat) (base_cost : Z) (g : Graph) (num_workers : nat) : option Z :=
  '(_, order) ← find_graph_order g;
  let '(sh, ws) := work_round base_cost g {| work_queue := order; in_progress := ∅; done := ∅ |}
                     (repeat new_worker num_workers) in
  time_loop fuel base_cost g sh ws 0.

(** ** The graph built from a list of dependency lines *)

(** How many lines name [x] as the later step: its indegree. *)
Definition occ (pairs : list (ascii * ascii)) (x : ascii) : Z :=
  Z.of_nat (length (filter (fun pr : ascii * ascii => pr.2 = x) pairs)).

(** [g] is the graph [make_graph] builds from [pairs]: every node's
    indegree counts the lines into it and its children are the steps
    the lines make wait for it; both steps of each line are nodes. *)
Record graph_of (pairs : list (ascii * ascii)) (g : Graph) : Prop := {
  go_node : forall x n, g !! x = Some n ->
    indegree n = occ pairs x /\ forall y, y ∈ children n <-> (x, y) ∈ pairs;
  go_dom : forall x y, (x, y) ∈ pairs -> is_Some (g !! x) /\ is_Some (g !! y)
}.

(** [p] is a parent of [b] in [g0]: [b] is among its children. *)
Definition parent_of (g0 : Graph) (b p : ascii) : bool :=
  match g0 !! p with Some n => bool_decide (b ∈ children n) | None => false end.

(** How many of the yielded steps [out] are parents of [x] in [g0]. *)
Definition parents_done (g0 : Graph) (x : ascii) (out : list ascii) : nat :=
  length (filter (fun p => parent_of g0 x p = true) out).

(** The state of [find_graph_order]'s loop against the graph [g0] it
    started from, while the children [pending] of the popped node are
    still to be released: the children never change, the yielded and
    ready steps are distinct and have indegree at most 0, and every
    step's indegree is its initial one less one per yielded parent (one
    is given back while it is still pending). *)
Record order_inv (g0 g : Graph) (ready out pending : list ascii) : Prop := {
  oi_children : children <$> g = children <$> g0;
  oi_nodup : NoDup (out ++ ready);
  oi_done : forall x, x ∈ out ++ ready -> exists n, g !! x = Some n /\ (indegree n <= 0)%Z;
  oi_count : forall x n0, g0 !! x = Some n0 -> exists n, g !! x = Some n /\
    indegree n = (indegree n0 - Z.of_nat (parents_done g0 x out) + if decide (x ∈ pending) then 1 else 0)%Z
}.

(** ** Termination of [find_graph_order] *)

Local Open Scope nat_scope.

Definition pos (n : Node) : nat := if decide (0 < indegree n)%Z then 1 else 0.

(** The nodes whose indegree is positive: they can still become ready. *)
Definition pos_count (g : Graph) : nat :=
  length (filter (fun kv : ascii * Node => (0 < indegree kv.2)%Z) (map_to_list g)).

Definition order_measure (gr : Graph * list ascii) : nat := pos_count gr.1 + length gr.2.

Lemma lookup_getitem g a x :
  getitem g a !! x = match g !! x with Some n => Some n | None => if decide (x = a) then Some new_node else None end.
Proof.
  unfold getitem. destruct (g !! a) as [na|] eqn:Ha.
  - destruct (g !! x) eqn:Hx; [done|]. case_decide; [congruence|done].
  - rewrite lookup_insert. case_decide as Hax; [subst; by rewrite Ha, decide_True|].
    destruct (g !! x); [done|]. by rewrite decide_False by congruence.
Qed.

Lemma occ_snoc pairs a b x : occ (pairs ++ [(a, b)]) x = (occ pairs x + if decide (b = x) then 1 else 0)%Z.
Proof.
  unfold occ. rewrite filter_app, length_app, filter_cons, filter_nil. cbn [snd].
  repeat case_decide; simpl; try lia; congruence.
Qed.

Lemma occ_absent pairs x : (forall a, (a, x) ∉ pairs) -> occ pairs x = 0%Z.
Proof.
  intros Hx. unfold occ. induction pairs as [|[c d] pairs IH]; [done|].
  rewrite filter_cons. cbn [snd]. case_decide as Hd.
  - subst. destruct (Hx c). by left.
  - apply IH. intros a Ha. apply (Hx a). by right.
Qed.

Lemma lookup_connect g a b x :
  connect g a b !! x =
  (fun n => if decide (x = b) then add_indegree 1 n else n) <$>
  ((fun n => if decide (x = a) then add_child b n else n) <$> getitem (getitem g a) b !! x).
Proof.
  unfold connect. rewrite !lookup_alter.
  repeat case_decide; subst; try congruence; by destruct (_ !! _).
Qed.

Lemma connect_graph_of pairs g a b :
  graph_of pairs g -> graph_of (pairs ++ [(a, b)]) (connect g a b).
Proof.
  intros [Hnode Hdom].
  assert (Hg1 : forall x, getitem (getitem g a) b !! x =
            match g !! x with Some n => Some n | None => if decide (x = a \/ x = b) then Some new_node else None end).
  { intros x. rewrite !lookup_getitem. destruct (g !! x); [done|]. repeat case_decide; naive_solver. }
  assert (Hbase : forall x n0, getitem (getitem g a) b !! x = Some n0 ->
            indegree n0 = occ pairs x /\ forall y, y ∈ children n0 <-> (x, y) ∈ pairs).
  { intros x n0. rewrite Hg1. destruct (g !! x) eqn:Hgx; [intros [= <-]; by apply Hnode|].
    case_decide; [intros [= <-]|done]. rewrite occ_absent.
    - split; [done|]. intros y. cbn. split; [set_solver|].
      intros Hy. destruct (Hdom x y Hy) as [[? ?] _]; congruence.
    - intros c Hc. destruct (Hdom c x Hc) as [_ [? ?]]; congruence. }
  split.
  - intros x n Hx. rewrite lookup_connect in Hx.
    apply fmap_Some in Hx as [m1 [Hm1 ->]]. apply fmap_Some in Hm1 as [n0 [Hn0 ->]].
    destruct (Hbase x n0 Hn0) as [Hi Hc]. rewrite occ_snoc. split.
    + unfold add_indegree, add_child. repeat case_decide; subst; cbn; try congruence; lia.
    + intros y. rewrite elem_of_app, list_elem_of_singleton, <- Hc.
      unfold add_indegree, add_child. repeat case_decide; subst; cbn;
        rewrite ?elem_of_union, ?elem_of_singleton; naive_solver.
  - assert (Hsome : forall z, is_Some (g !! z) \/ z = a \/ z = b -> is_Some (connect g a b !! z)).
    { intros z Hz. rewrite lookup_connect, Hg1, !fmap_is_Some. destruct (g !! z); [eauto|].
      rewrite decide_True; [eauto|]. destruct Hz as [[? ?]|]; [congruence|tauto]. }
    intros x y. rewrite elem_of_app, list_elem_of_singleton. intros [Hin|[= <- <-]].
    + destruct (Hdom x y Hin). split; apply Hsome; auto.
    + split; apply Hsome; auto.
Qed.

Lemma make_graph_of pairs : graph_of pairs (make_graph pairs).
Proof.
  assert (Hfold : forall done0 g0, graph_of done0 g0 ->
            graph_of (done0 ++ pairs) (fold_left (fun g '(a, b) => connect g a b) pairs g0)).
  { induction pairs as [|[a b] pairs IH]; intros done0 g0 H0; simpl; [by rewrite app_nil_r|].
    replace (done0 ++ (a, b) :: pairs) with ((done0 ++ [(a, b)]) ++ pairs) by (by rewrite <- app_assoc).
    apply IH. by apply connect_graph_of. }
  apply (Hfold []). split; [intros x n Hx; by rewrite lookup_empty in Hx|intros x y Hin; inversion Hin].
Qed.

Lemma pos_count_insert_fresh g c w : g !! c = None -> pos_count (<[c := w]> g) = pos w + pos_count g.
Proof.
  intros Hc. unfold pos_count.
  rewrite (Permutation_length (filter_Permutation _ _ _ (map_to_list_insert g c w Hc))).
  rewrite filter_cons. simpl. unfold pos. repeat case_decide; simpl; reflexivity.
Qed.

Lemma pos_count_insert g c n w :
  g !! c = Some n -> pos_count (<[c := w]> g) + pos n = pos_count g + pos w.
Proof.
  intros Hc. rewrite <- (insert_delete_id g c n Hc) at 2. rewrite <- (insert_delete_eq g c w).
  rewrite !pos_count_insert_fresh by apply lookup_delete_eq. lia.
Qed.

Lemma alter_Some (g : Graph) f c n : g !! c = Some n -> alter f c g = <[c := f n]> g.
Proof. intros Hc. rewrite <- (insert_id g c n Hc) at 1. apply alter_insert_eq. Qed.

Lemma release_measure gr c : order_measure (release gr c) <= order_measure gr.
Proof.
  destruct gr as [g ready]. unfold release, order_measure. simpl.
  destruct (g !! c) as [n|] eqn:Hc.
  - rewrite (alter_Some g _ c n Hc), lookup_insert_eq.
    pose proof (pos_count_insert g c n (add_indegree (-1) n) Hc) as Hp. revert Hp.
    unfold pos. cbn [add_indegree indegree].
    destruct (Z.eqb_spec (indegree n + -1) 0); simpl; repeat case_decide; lia.
  - rewrite (alter_id' _ g c Hc), Hc. simpl. lia.
Qed.

Lemma release_fold_measure kids gr :
  order_measure (fold_left release kids gr) <= order_measure gr.
Proof.
  revert gr. induction kids as [|c kids IH]; intros gr; simpl; [lia|].
  specialize (IH (release gr c)). pose proof (release_measure gr c). lia.
Qed.

Lemma heap_min_in m l : heap_min m l ∈ m :: l.
Proof.
  revert m. induction l as [|c l IH]; intros m; simpl; [left|].
  destruct (ascii_le m c).
  - pose proof (IH m) as H. apply elem_of_cons in H as [->|H]; [left|right; right; done].
  - pose proof (IH c) as H. apply elem_of_cons in H as [->|H]; right; [left|right; done].
Qed.

Lemma remove_first_length c l : c ∈ l -> length (remove_first c l) = length l - 1.
Proof.
  induction l as [|d l IH]; intros Hc; [inversion Hc|]. simpl.
  destruct (Ascii.eqb_spec c d) as [->|Hne]; [lia|].
  apply elem_of_cons in Hc as [->|Hc]; [done|]. simpl. rewrite IH by done.
  destruct l; [inversion Hc|simpl; lia].
Qed.

Lemma order_loop_total fuel g ready out :
  order_measure (g, ready) < fuel -> exists r, order_loop fuel g ready out = Some r.
Proof.
  revert g ready out. induction fuel as [|fuel IH]; intros g ready out Hm; [lia|].
  cbn [order_loop]. destruct ready as [|r rs]; [eauto|].
  set (node := heap_min r rs).
  pose proof (release_fold_measure
    (match g !! node with Some n => elements (children n) | None => [] end)
    (g, remove_first node (r :: rs))) as Hf.
  destruct (fold_left _ _ _) as [g' ready'] eqn:E. apply IH.
  pose proof (remove_first_length node (r :: rs) (heap_min_in r rs)).
  unfold order_measure in *. simpl in *. lia.
Qed.

Lemma initial_measure g : order_measure (g, initial_ready g) < order_fuel g.
Proof.
  unfold order_measure, order_fuel, pos_count, initial_ready. simpl.
  rewrite length_fmap. pose proof (length_map_to_list g).
  pose proof (length_filter (fun kv : ascii * Node => (0 < indegree kv.2)%Z) (map_to_list g)).
  pose proof (length_filter (fun kv : ascii * Node => indegree kv.2 = 0%Z) (map_to_list g)). lia.
Qed.

Lemma work_round_nil base_cost g sh : work_round base_cost g sh [] = (sh, []).
Proof. reflexivity. Qed.

Lemma time_loop_no_workers fuel base_cost g sh total :
  work_queue sh <> [] -> time_loop fuel base_cost g sh [] total = None.
Proof.
  revert total. induction fuel as [|fuel IH]; intros total Hq; [done|]. cbn [time_loop].
  rewrite bool_decide_false by done. simpl. apply IH, Hq.
Qed.

Close Scope nat_scope.

(** ** The loop invariant of [find_graph_order] *)

Lemma parents_done_cons g0 x p out :
  parents_done g0 x (p :: out) = ((if parent_of g0 x p then 1 else 0) + parents_done g0 x out)%nat.
Proof.
  unfold parents_done. rewrite filter_cons.
  destruct (parent_of g0 x p); case_decide; simpl; congruence || lia.
Qed.

Lemma remove_first_perm c l : c ∈ l -> l ≡ₚ c :: remove_first c l.
Proof.
  induction l as [|d l IH]; intros Hc; [inversion Hc|]. simpl.
  destruct (Ascii.eqb_spec c d) as [->|Hne]; [done|].
  apply elem_of_cons in Hc as [->|Hc]; [done|].
  transitivity (d :: c :: remove_first c l); [by constructor; apply IH|by constructor].
Qed.

Lemma pending_drop (c x : ascii) rest :
  x <> c -> ((if decide (x ∈ c :: rest) then 1 else 0) = if decide (x ∈ rest) then 1 else 0)%Z.
Proof. intros Hxc. repeat case_decide; try done; set_solver. Qed.

Lemma release_inv g0 g ready out c rest g' ready' :
  order_inv g0 g ready out (c :: rest) -> c ∉ rest -> release (g, ready) c = (g', ready') ->
  order_inv g0 g' ready' out rest.
Proof.
  intros [Hch Hnd Hdone Hcnt] Hc Hrel. unfold release in Hrel.
  destruct (g !! c) as [n|] eqn:Hgc.
  - rewrite (alter_Some g _ c n Hgc), lookup_insert_eq in Hrel.
    set (g1 := <[c := add_indegree (-1) n]> g) in Hrel.
    assert (Hch' : children <$> g1 = children <$> g0).
    { unfold g1. rewrite fmap_insert. cbn [add_indegree children].
      rewrite insert_id; [exact Hch|by rewrite lookup_fmap, Hgc]. }
    assert (Hdone' : forall x, x ∈ out ++ ready -> exists m, g1 !! x = Some m /\ (indegree m <= 0)%Z).
    { intros x Hx. destruct (Hdone x Hx) as [m [Hm Hi]]. unfold g1. rewrite lookup_insert.
      case_decide; [|eauto]. subst. rewrite Hgc in Hm. injection Hm as <-.
      eexists; split; [done|]. cbn. lia. }
    assert (Hcnt' : forall x n0, g0 !! x = Some n0 -> exists m, g1 !! x = Some m /\
              indegree m = (indegree n0 - Z.of_nat (parents_done g0 x out) + if decide (x ∈ rest) then 1 else 0)%Z).
    { intros x n0 Hx. destruct (Hcnt x n0 Hx) as [m [Hm Hi]]. unfold g1. rewrite lookup_insert.
      destruct (decide (c = x)) as [Hcx|Hcx].
      - subst x. rewrite Hgc in Hm. injection Hm as <-. eexists; split; [done|]. cbn [add_indegree indegree].
        rewrite decide_True in Hi by set_solver. rewrite decide_False by done. lia.
      - eexists; split; [exact Hm|]. rewrite Hi, pending_drop by congruence. done. }
    destruct (Z.eqb_spec (indegree (add_indegree (-1) n)) 0) as [Hz|Hz]; injection Hrel as <- <-.
    + split; [exact Hch'| |intros x Hx|exact Hcnt'].
      * rewrite <- Permutation_middle. apply NoDup_cons_2; [|done].
        intros Hin. destruct (Hdone c Hin) as [m [Hm Hi]]. rewrite Hgc in Hm. injection Hm as <-.
        cbn in Hz. lia.
      * apply elem_of_app in Hx as [Hx|Hx]; [apply Hdone'; set_solver|].
        apply elem_of_cons in Hx as [->|Hx]; [|apply Hdone'; set_solver].
        unfold g1. rewrite lookup_insert_eq. eexists; split; [done|]. lia.
    + by split.
  - rewrite (alter_id' _ g c Hgc), Hgc in Hrel. injection Hrel as <- <-.
    split; [done|done|done|]. intros x n0 Hx. destruct (Hcnt x n0 Hx) as [m [Hm Hi]].
    exists m. split; [done|]. rewrite Hi, pending_drop; [done|]. intros ->. congruence.
Qed.

Lemma release_fold_inv g0 kids g ready out g' ready' :
  NoDup kids -> order_inv g0 g ready out kids -> fold_left release kids (g, ready) = (g', ready') ->
  order_inv g0 g' ready' out [].
Proof.
  revert g ready. induction kids as [|c kids IH]; intros g ready Hnd Hinv Hf; cbn [fold_left] in Hf.
  - by injection Hf as <- <-.
  - destruct (release (g, ready) c) as [g1 r1] eqn:Hr. apply NoDup_cons in Hnd as [Hc Hnd].
    apply (IH g1 r1 Hnd); [|exact Hf]. eapply release_inv; eauto.
Qed.


Lemma order_pop_inv g0 g r rs out :
  order_inv g0 g (r :: rs) out [] ->
  order_inv g0 g (remove_first (heap_min r rs) (r :: rs)) (heap_min r rs :: out)
    (match g !! heap_min r rs with Some n => elements (children n) | None => [] end).
Proof.
  intros [Hch Hnd Hdone Hcnt]. set (node := heap_min r rs).
  assert (Hperm : out ++ r :: rs ≡ₚ (node :: out) ++ remove_first node (r :: rs)).
  { transitivity (out ++ node :: remove_first node (r :: rs)).
    - apply Permutation_app_head, remove_first_perm, heap_min_in.
    - symmetry. apply Permutation_middle. }
  split; [done|by rewrite <- Hperm|intros x Hx; apply Hdone; by rewrite Hperm|].
  intros x n0 Hx. destruct (Hcnt x n0 Hx) as [m [Hm Hi]]. exists m. split; [done|].
  rewrite Hi, parents_done_cons. unfold parent_of.
  pose proof (f_equal (.!! node) Hch) as Hn. rewrite !lookup_fmap in Hn.
  clear Hdone Hcnt Hnd Hperm Hch Hm Hi.
  destruct (g !! node) as [nn|], (g0 !! node) as [nn0|]; simpl in Hn; try discriminate.
  - injection Hn as <-. repeat case_decide; repeat case_bool_decide;
      rewrite ?elem_of_elements in *; try lia; exfalso; set_solver.
  - lia.
Qed.

Lemma order_loop_inv g0 fuel g ready out g' order :
  order_inv g0 g ready out [] -> order_loop fuel g ready out = Some (g', order) ->
  exists out', order = rev out' /\ order_inv g0 g' [] out' [].
Proof.
  revert g ready out. induction fuel as [|fuel IH]; intros g ready out Hinv Hl; [done|].
  cbn [order_loop] in Hl. destruct ready as [|r rs]; [injection Hl as <- <-; eauto|].
  pose proof (order_pop_inv g0 g r rs out Hinv) as Hp.
  destruct (fold_left release _ _) as [g1 r1] eqn:Hf. apply (IH g1 r1 (heap_min r rs :: out)); [|exact Hl].
  eapply release_fold_inv; [|exact Hp|exact Hf].
  destruct (g !! heap_min r rs); [apply NoDup_elements|constructor].
Qed.

Lemma initial_inv g0 : order_inv g0 g0 (initial_ready g0) [] [].
Proof.
  split; simpl; unfold initial_ready.
  - done.
  - apply NoDup_fmap_fst; [|apply NoDup_filter, NoDup_map_to_list].
    intros x y1 y2. rewrite !list_elem_of_filter, !elem_of_map_to_list. naive_solver.
  - intros x Hx. apply list_elem_of_fmap in Hx as [[k n] [-> Hin]].
    apply list_elem_of_filter in Hin as [Hi Hin]. apply elem_of_map_to_list in Hin.
    exists n. simpl in *. split; [done|lia].
  - intros x n0 Hx. exists n0. split; [done|]. unfold parents_done. simpl.
    try rewrite decide_False by apply not_elem_of_nil. lia.
Qed.

(** The distinct parents of [x] bound the yielded parents of [x]. *)
Lemma parents_done_bound pairs g0 x out :
  graph_of pairs g0 -> NoDup out ->
  (parents_done g0 x out <= length (remove_dups (filter (fun pr : ascii * ascii => pr.2 = x) pairs).*1))%nat.
Proof.
  intros [Hnode _] Hnd. unfold parents_done. apply submseteq_length, NoDup_submseteq.
  - by apply NoDup_filter.
  - intros p Hp. apply list_elem_of_filter in Hp as [Hp _].
    rewrite elem_of_remove_dups, list_elem_of_fmap.
    unfold parent_of in Hp. destruct (g0 !! p) as [n|] eqn:Hg; [|done].
    apply bool_decide_eq_true in Hp. apply (Hnode p n Hg) in Hp.
    exists (p, x). split; [done|]. by apply list_elem_of_filter.
Qed.

Lemma duplicate_parents_not_nodup l1 l2 l3 (a b : ascii) :
  ~ NoDup (filter (fun pr : ascii * ascii => pr.2 = b) (l1 ++ (a, b) :: l2 ++ (a, b) :: l3)).*1.
Proof.
  rewrite !filter_app, !filter_cons. cbn [snd]. rewrite decide_True by done.
  rewrite !fmap_app, !fmap_cons. intros Hnd.
  apply NoDup_app in Hnd as [_ [_ Hnd]]. apply NoDup_cons in Hnd as [Ha _].
  apply Ha, list_elem_of_fmap. exists (a, b). split; [done|].
  apply list_elem_of_filter. split; [done|]. apply elem_of_app. right. by left.
Qed.

(** ** Properties *)

(** C25: [find_graph_order] always finishes within its fuel: each pop
    removes a ready node and a node joins the heap only when its positive
    indegree drops to 0. *)
Theorem find_graph_order_total g : exists g' order, find_graph_order g = Some (g', order).
Proof.
  unfold find_graph_order.
  destruct (order_loop_total (order_fuel g) g (initial_ready g) [] (initial_measure g)) as [[g' order] H].
  eauto.
Qed.

(** With no workers [time_with_workers] never returns once there is a
    step to do: nobody takes a job, so the queue never empties. *)
Theorem no_workers_never_finish fuel base_cost g g' order :
  find_graph_order g = Some (g', order) -> order <> [] ->
  time_with_workers fuel base_cost g 0 = None.
Proof.
  intros Hg Hne. unfold time_with_workers. rewrite Hg. simpl. apply time_loop_no_workers. done.
Qed.

(** The puzzle's example: the order is CABDFE, and two workers with
    [BASE_COST = 0] take 15 seconds ([test_graph_order],
    [test_time_with_workers]); an input line parses to its two steps. *)
Lemma sum_of_its_parts_tests :
  (match find_graph_order simple_graph with Some (_, o) => Some (string_of_list_ascii o) | None => None end)
    = Some "CABDFE" /\
  time_with_workers 100 0 simple_graph 2 = Some 15 /\
  parse_pair "Step C must be finished before step A can begin." = Ok ("C", "A")%char.
Proof. split_and!; vm_compute; reflexivity. Qed.

(** C26: a repeated input line connects the same steps twice: the later
    step [b] is a node of the graph and its indegree counts both lines,
    but each of its distinct parents releases it once (children is a
    set), so its indegree never reaches 0 and [find_graph_order] never
    yields it. *)
Theorem duplicate_line_blocks_step pairs l1 l2 l3 a b :
  pairs = l1 ++ (a, b) :: l2 ++ (a, b) :: l3 ->
  is_Some (make_graph pairs !! b) /\
  exists g' order, find_graph_order (make_graph pairs) = Some (g', order) /\ b ∉ order.
Proof.
  intros Hp. pose proof (make_graph_of pairs) as Hg.
  assert (Hab : (a, b) ∈ pairs) by (rewrite Hp; apply elem_of_app; right; by left).
  destruct (go_dom _ _ Hg a b Hab) as [_ [n0 Hn0]]. split; [by exists n0|].
  unfold find_graph_order.
  destruct (order_loop_total _ (make_graph pairs) (initial_ready _) [] (initial_measure _)) as [[g' order] Hl].
  exists g', order. split; [done|].
  destruct (order_loop_inv _ _ _ _ _ _ _ (initial_inv _) Hl) as [out [-> [_ Hnd Hdone Hcnt]]].
  rewrite app_nil_r in Hnd, Hdone. rewrite list_elem_of_In, <- in_rev, <- list_elem_of_In. intros Hb.
  destruct (Hcnt b n0 Hn0) as [m [Hm Hi]]. destruct (Hdone b Hb) as [m' [Hm' Hle]].
  rewrite Hm in Hm'. injection Hm' as <-.
  pose proof (parents_done_bound pairs _ b out Hg Hnd).
  pose proof (remove_dups_lt ((filter (fun pr : ascii * ascii => pr.2 = b) pairs).*1)
    ltac:(rewrite Hp; apply duplicate_parents_not_nodup)).
  destruct (go_node _ _ Hg b n0 Hn0) as [Hocc _]. unfold occ in Hocc. rewrite length_fmap in *.
  rewrite decide_False in Hi by apply not_elem_of_nil. lia.
Qed.

(** The repeated line [C -> A]: the order is [C] alone. *)
Lemma duplicate_line_blocks_step_witness :
  [("C", "A"); ("C", "A")]%char = [] ++ ("C", "A")%char :: [] ++ ("C", "A")%char :: [] /\
  is_Some (make_graph [("C", "A"); ("C", "A")]%char !! "A"%char) /\
  exists g' order, find_graph_order (make_graph [("C", "A"); ("C", "A")]%char) = Some (g', order) /\
                   "A"%char ∉ order.
Proof.
  split; [reflexivity|]. exact (duplicate_line_blocks_step _ [] [] [] "C"%char "A"%char eq_refl).
Defined.

(** The same on the concrete order: [C] alone. *)
Lemma duplicate_line_order_test :
  (match find_graph_order (make_graph [("C", "A"); ("C", "A")]%char) with
   | Some (_, o) => Some (string_of_list_ascii o) | None => None end) = Some "C".
Proof. vm_compute. reflexivity. Qed.

Lemma no_workers_never_finish_witness :
  exists g' order, find_graph_order simple_graph = Some (g', order) /\ order <> [] /\
    time_with_workers 100 0 simple_graph 0 = None.
Proof.
  destruct (find_graph_order_total simple_graph) as (g' & order & H).
  exists g', order. assert (Hne : order <> []).
  { intros ->. vm_compute in H. discriminate. }
  split_and!; [exact H | exact Hne | exact (no_workers_never_finish 100 0 simple_graph g' order H Hne)].
Defined.

End SumOfItsParts.
