(* ===== verification/Day23.v ===== *)
(** * Day 23: Experimental Emergency Teleportation (src/day_23.py)

    [BotSwarm.swarm_from_file] reads nanobots ([pos], [radius]) into a
    dict keyed by position and two aligned lists of points and radii.
    [bots_near_strongest_bot] counts the bots within the largest radius of
    the first strongest bot.  [most_central_location] is a best-first
    search over [SearchArea]s kept in a [heapq] heap: an area of size [s]
    is replaced by the areas of size [s // 2] centred on the points of
    [octants(s, center)], scored by [bots_in_range(point, s // 2)], until
    an area of size 0 comes out of the heap.

    Distances are [scipy]'s [cdist(..., 'cityblock')]: floats, exact for
    coordinates below 2^53, so integers here.  [octants] returns a
    [set], whose iteration order decides the order of the pushes and so,
    among areas [__lt__] does not order, which comes out of the heap
    first: that order is the parameter [set_order] of the search. *)

From Stdlib Require Import ZArith Ascii String Lia.
From stdpp Require Import base list strings.
From S2P Require Import Prelude Decoding PyHeap.

Open Scope Z_scope.
Open Scope py_scope.

Module EmergencyTeleport.

Abbreviation point3 := (prod (prod Z Z) Z).

(** [Point] with [dist]; a namedtuple is also a plain tuple. *)
Record Point := { x : Z; y : Z; z : Z }.

#[global] Instance Point_eq_dec : EqDecision Point.
Proof. solve_decision. Defined.

Definition dist (a b : Point) : Z := Z.abs (x a - x b) + Z.abs (y a - y b) + Z.abs (z a - z b).

Definition as_tuple (p : Point) : point3 := (x p, y p, z p).

(** [cdist([p], [q], metric='cityblock')]. *)
Definition cityblock (p q : point3) : Z :=
  Z.abs (p.1.1 - q.1.1) + Z.abs (p.1.2 - q.1.2) + Z.abs (p.2 - q.2).

Record Nanobot := { pos : Point; radius : Z }.

(** [Nanobot.nanobot_from_string]: [IndexError] below four integers. *)
Definition nanobot_from_string (s : string) : res Nanobot :=
  let numbers := number_grabber s in
  n0 <- py_get numbers 0 ;; n1 <- py_get numbers 1 ;; n2 <- py_get numbers 2 ;; n3 <- py_get numbers 3 ;;
  Ok {| pos := {| x := n0; y := n1; z := n2 |}; radius := n3 |}.

Record BotSwarm := { bots : list (Point * Nanobot); points : list point3; radii : list Z }.

(** [d[k] = v] on an insertion-ordered dict. *)
Fixpoint dict_set {K V} `{EqDecision K} (d : list (K * V)) (k : K) (v : V) : list (K * V) :=
  match d with
  | [] => [(k, v)]
  | (k', v') :: d' => if decide (k = k') then (k, v) :: d' else (k', v') :: dict_set d' k v
  end.

(** The loop of [swarm_from_file] on one stripped line. *)
Definition add_bot (sw : BotSwarm) (line : string) : res BotSwarm :=
  bot <- nanobot_from_string (strip line) ;;
  Ok {| bots := dict_set (bots sw) (pos bot) bot;
        points := points sw ++ [as_tuple (pos bot)];
        radii := radii sw ++ [radius bot] |}.

Definition swarm_from_lines (lines : list string) : res BotSwarm :=
  res_fold add_bot lines {| bots := []; points := []; radii := [] |}.

(** The bot of the last of [bs] at position [p], as [d[p]] reads it
    ([KeyError] when there is none). *)
Definition last_bot_at (bs : list Nanobot) (p : Point) : res Nanobot :=
  match last (filter (fun b => pos b = p) bs) with Some b => Ok b | None => Err KeyError end.

(** [distances_from_point]. *)
Definition distances_from_point (sw : BotSwarm) (p : point3) : list Z := map (cityblock p) (points sw).

(** [bots_in_range]: the bots whose radius plus [size] reaches [p]
    ([radii] and [points] are aligned, [swarm_aligned]). *)
Definition bots_in_range (sw : BotSwarm) (p : point3) (size : Z) : Z :=
  Z.of_nat (length (filter (fun rd : Z * Z => rd.2 <= rd.1 + size) (zip (radii sw) (distances_from_point sw p)))).

(** The loop of [bots_near_strongest_bot]: the first bot of largest radius. *)
Definition strongest (bs : list Nanobot) : option Nanobot :=
  fold_left (fun best bot =>
    match best with
    | None => Some bot
    | Some b => if radius bot >? radius b then Some bot else Some b
    end) bs None.

(** [bots_near_strongest_bot]: [AttributeError] with no bot. *)
Definition bots_near_strongest_bot (sw : BotSwarm) : res nat :=
  match strongest (map snd (bots sw)) with
  | None => Err AttributeError
  | Some b => Ok (length (filter (fun d => d <= radius b) (distances_from_point sw (as_tuple (pos b)))))
  end.

(** ** The search *)

Record SearchArea := { center : point3; area_bots : Z; search_size : Z }.

(** [SearchArea.dist_to_origin]. *)
Definition dist_to_origin (a : SearchArea) : Z :=
  Z.abs ((center a).1.1 + (center a).1.2 + (center a).2).

(** [SearchArea.__lt__]: more bots first, then smaller
    [(search_size, dist_to_origin)]. *)
Definition area_lt (a b : SearchArea) : bool :=
  if area_bots a >? area_bots b then true
  else if area_bots a =? area_bots b then
    (search_size a <? search_size b) ||
    ((search_size a =? search_size b) && (dist_to_origin a <? dist_to_origin b))
  else false.

Definition no_area : SearchArea := {| center := (0, 0, 0); area_bots := 0; search_size := 0 |}.

(** [range(a, b, step)] for [step > 0]. *)
Definition py_range_step (a b step : Z) : list Z :=
  map (fun k => a + step * Z.of_nat k) (seq 0 (Z.to_nat ((b - a + step - 1) / step))).

(** [BotSwarm.octants(size, center)] with [samples=3], before [set]. *)
Definition octants (size : Z) (c : point3) : list point3 :=
  let half := Z.max 1 (size / 2) in
  let step := Z.max 1 (size / 3) in
  let rng := fun v => py_range_step (v - half) (v + half + 1) step in
  c :: (rng c.1.1 ≫= fun px => rng c.1.2 ≫= fun py => (fun pz => (px, py, pz)) <$> rng c.2).

Section Search.
(** The iteration order of [set(points)]. *)
Variable set_order : list point3 -> list point3.

(** The pushes of one popped area of size [s]. *)
Definition push_octants (sw : BotSwarm) (area : SearchArea) (heap : list SearchArea) : list SearchArea :=
  fold_left (fun h p =>
    heappush area_lt no_area h {| center := p; area_bots := bots_in_range sw p (search_size area / 2);
                          search_size := search_size area / 2 |})
    (set_order (octants (search_size area) (center area))) heap.

(** [while heap:] of [most_central_location]; the outer [None] is fuel
    exhaustion, the inner one Python's [return None]. *)
Fixpoint search_loop (fuel : nat) (sw : BotSwarm) (heap : list SearchArea) : option (option SearchArea) :=
  match fuel with
  | O => None
  | Datatypes.S fuel' =>
      match heappop area_lt no_area heap with
      | Err _ => Some None
      | Ok (area, heap') =>
          if search_size area =? 0 then Some (Some area)
          else search_loop fuel' sw (push_octants sw area heap')
      end
  end.

(** [most_central_location]: the averages raise [ZeroDivisionError]
    for an empty swarm. *)
Definition most_central_location (fuel : nat) (sw : BotSwarm) : res (option (option SearchArea)) :=
  let xs := map (fun p : point3 => p.1.1) (points sw) in
  let ys := map (fun p : point3 => p.1.2) (points sw) in
  let zs := map (fun p : point3 => p.2) (points sw) in
  let n := Z.of_nat (length (points sw)) in
  avg_x <- py_floordiv (py_sum xs) n ;; avg_y <- py_floordiv (py_sum ys) n ;;
  avg_z <- py_floordiv (py_sum zs) n ;;
  min_x <- py_min xs ;; min_y <- py_min ys ;; min_z <- py_min zs ;;
  max_x <- py_max xs ;; max_y <- py_max ys ;; max_z <- py_max zs ;;
  let size := Z.max (Z.max (Z.abs (max_x - min_x)) (Z.abs (max_y - min_y))) (Z.abs (max_z - min_z)) / 2 in
  let mean_point := (avg_x, avg_y, avg_z) in
  let search_area := {| center := mean_point; area_bots := bots_in_range sw mean_point size;
                        search_size := size |} in
  Ok (search_loop fuel sw [search_area]).
End Search.

(** ** Termination of the search *)

(** The number of points [octants] lists for a size, whatever the centre. *)
Definition octant_count (size : Z) : nat :=
  let half := Z.max 1 (size / 2) in
  let step := Z.max 1 (size / 3) in
  let n := Z.to_nat ((2 * half + 1 + step - 1) / step) in
  Datatypes.S (n * n * n).

(** A bound on the areas the search can still pop from an area of a
    given size: itself, then [octant_count] areas of half the size. *)
Fixpoint tree_size_pos (p : positive) : nat :=
  Datatypes.S (octant_count (Zpos p) * match p with xH => 1%nat | xO q | xI q => tree_size_pos q end).

Definition tree_size (s : Z) : nat := match s with Zpos p => tree_size_pos p | _ => 1%nat end.

Definition search_measure (heap : list SearchArea) : nat :=
  sum_list_with (fun a => tree_size (search_size a)) heap.

(** The nine nanobots of the puzzle text. *)
Definition sample_lines : list string :=
  ["pos=<0,0,0>, r=4"; "pos=<1,0,0>, r=1"; "pos=<4,0,0>, r=3"; "pos=<0,2,0>, r=1";
   "pos=<0,5,0>, r=3"; "pos=<0,0,3>, r=1"; "pos=<1,1,1>, r=1"; "pos=<1,1,2>, r=1";
   "pos=<1,3,1>, r=1"].

Lemma length_bind_const {A B} (f : A -> list B) (l : list A) m :
  (forall a, length (f a) = m) -> length (l ≫= f) = (length l * m)%nat.
Proof.
  intros Hf. induction l as [|a l IH]; [done|].
  change ((a :: l) ≫= f) with (f a ++ l ≫= f). rewrite length_app, Hf, IH. simpl. lia.
Qed.

Lemma length_py_range_step a b step :
  length (py_range_step a b step) = Z.to_nat ((b - a + step - 1) / step).
Proof. unfold py_range_step. rewrite length_map, length_seq. done. Qed.

Lemma octants_length size c : length (octants size c) = octant_count size.
Proof.
  unfold octants, octant_count. cbv zeta. cbn [length]. f_equal.
  set (n := Z.to_nat ((2 * Z.max 1 (size / 2) + 1 + Z.max 1 (size / 3) - 1) / Z.max 1 (size / 3))).
  assert (Hn : forall v, length (py_range_step (v - Z.max 1 (size / 2)) (v + Z.max 1 (size / 2) + 1)
                                               (Z.max 1 (size / 3))) = n).
  { intros v. rewrite length_py_range_step. subst n. do 3 f_equal. lia. }
  rewrite (length_bind_const _ _ (n * n)); [rewrite Hn; lia|].
  intros a. rewrite (length_bind_const _ _ n); [rewrite Hn; lia|].
  intros b. rewrite length_fmap. apply Hn.
Qed.

Lemma tree_size_pos_step s :
  0 < s -> tree_size s = Datatypes.S (octant_count s * tree_size (s / 2)).
Proof.
  intros Hs. rewrite <- Z.div2_div. destruct s as [|p|p]; try lia.
  destruct p; reflexivity.
Qed.

Section SearchTotal.
Variable set_order : list point3 -> list point3.
(** Iterating [set(l)] yields each distinct element of [l] once, in
    some order. *)
Hypothesis set_order_perm : forall l, set_order l ≡ₚ remove_dups l.

Lemma set_order_length l : (length (set_order l) <= length l)%nat.
Proof. rewrite (set_order_perm l). apply remove_dups_length. Qed.

Lemma set_order_nonempty l : l <> [] -> set_order l <> [].
Proof.
  intros Hl Hs. destruct l as [|a l]; [done|].
  assert (Ha : a ∈ set_order (a :: l)) by (rewrite (set_order_perm _), elem_of_remove_dups; left).
  rewrite Hs in Ha. inversion Ha.
Qed.

Lemma push_octants_fold_measure sw area pts heap :
  0 <= search_size area / 2 -> Forall (fun a => 0 <= search_size a) heap ->
  let heap' := fold_left (fun h p =>
    heappush area_lt no_area h {| center := p; area_bots := bots_in_range sw p (search_size area / 2);
                                  search_size := search_size area / 2 |}) pts heap in
  search_measure heap' = (search_measure heap + length pts * tree_size (search_size area / 2))%nat /\
  Forall (fun a => 0 <= search_size a) heap'.
Proof.
  intros Hhalf. revert heap. induction pts as [|p pts IH]; intros heap Hheap; simpl; [split; [lia|done]|].
  set (item := {| center := p; area_bots := bots_in_range sw p (search_size area / 2);
                  search_size := search_size area / 2 |}).
  assert (Hpush : search_measure (heappush area_lt no_area heap item) =
            (tree_size (search_size area / 2) + search_measure heap)%nat).
  { unfold search_measure. rewrite (heappush_perm _ _ _ _). reflexivity. }
  destruct (IH (heappush area_lt no_area heap item)) as [Hm Hf].
  - rewrite (heappush_perm _ _ _ _). constructor; [simpl; lia|done].
  - split; [|done]. rewrite Hm, Hpush. lia.
Qed.

Lemma push_octants_measure sw area heap :
  0 <= search_size area -> Forall (fun a => 0 <= search_size a) heap ->
  (search_measure (push_octants set_order sw area heap) <=
     search_measure heap + octant_count (search_size area) * tree_size (search_size area / 2))%nat /\
  Forall (fun a => 0 <= search_size a) (push_octants set_order sw area heap).
Proof.
  intros Hs Hheap. unfold push_octants.
  pose proof (set_order_length (octants (search_size area) (center area))) as Hlen.
  rewrite octants_length in Hlen.
  assert (Hhalf : 0 <= search_size area / 2) by (apply Z.div_pos; lia).
  destruct (push_octants_fold_measure sw area (set_order (octants (search_size area) (center area))) heap Hhalf Hheap)
    as [Hm Hf].
  split; [|done]. rewrite Hm. nia.
Qed.

Lemma search_loop_total fuel sw heap :
  Forall (fun a => 0 <= search_size a) heap -> (search_measure heap < fuel)%nat ->
  exists r, search_loop set_order fuel sw heap = Some r.
Proof.
  revert heap. induction fuel as [|fuel IH]; intros heap Hheap Hm; [lia|]. cbn [search_loop].
  destruct (heappop area_lt no_area heap) as [[area heap']|e] eqn:E; [|eauto].
  apply heappop_perm in E.
  assert (Hsplit : search_measure heap = (tree_size (search_size area) + search_measure heap')%nat).
  { unfold search_measure. rewrite <- E. reflexivity. }
  rewrite <- E in Hheap. inversion Hheap as [|? ? Ha Hheap']; subst.
  destruct (Z.eqb_spec (search_size area) 0); [eauto|].
  destruct (push_octants_measure sw area heap' Ha Hheap') as [Hpm Hpf].
  apply IH; [done|]. rewrite tree_size_pos_step in Hsplit by lia. lia.
Qed.

Lemma heappush_fold_nonempty (f : point3 -> SearchArea) pts heap :
  pts <> [] -> fold_left (fun h p => heappush area_lt no_area h (f p)) pts heap <> [].
Proof.
  revert heap. induction pts as [|p pts IH]; intros heap Hp; [done|]. simpl.
  destruct pts as [|q pts]; [|apply IH; done]. simpl.
  intros He. pose proof (Permutation_length (heappush_perm area_lt no_area heap (f p))) as Hl.
  rewrite He in Hl. discriminate.
Qed.

(** A search that starts from a non-empty heap never empties it: it
    ends only by returning an area of size 0. *)
Lemma search_loop_location fuel sw heap r :
  heap <> [] -> search_loop set_order fuel sw heap = Some r ->
  exists a, r = Some a /\ search_size a = 0.
Proof.
  revert heap. induction fuel as [|fuel IH]; intros heap Hne Hr; [discriminate|]. cbn [search_loop] in Hr.
  destruct (heappop area_lt no_area heap) as [[area heap']|e] eqn:E.
  - destruct (Z.eqb_spec (search_size area) 0) as [Hz|Hz]; [injection Hr as <-; eauto|].
    eapply IH; [|exact Hr]. unfold push_octants. apply heappush_fold_nonempty, set_order_nonempty.
    unfold octants. done.
  - apply heappop_Err in E as [-> _]. done.
Qed.
End SearchTotal.

Lemma dict_set_keys {K V} `{EqDecision K} (d : list (K * V)) k v :
  NoDup d.*1 -> NoDup (dict_set d k v).*1 /\ (forall j, j ∈ (dict_set d k v).*1 <-> j = k \/ j ∈ d.*1).
Proof.
  induction d as [|[k' v'] d IH]; intros Hnd; simpl.
  - split; [apply NoDup_singleton|]. intros j. rewrite list_elem_of_singleton. split; [auto|].
    intros [->|H]; [done|inversion H].
  - apply NoDup_cons in Hnd as [Hn Hnd]. destruct (decide (k = k')) as [->|Hne]; simpl.
    + split; [apply NoDup_cons; done|]. intros j. rewrite !elem_of_cons. tauto.
    + destruct (IH Hnd) as [Hnd' Hk]. split.
      * apply NoDup_cons. split; [|done]. rewrite Hk. intros [->|H]; [done|tauto].
      * intros j. rewrite !elem_of_cons, Hk. tauto.
Qed.


Lemma dict_get_dict_set {K V} `{EqDecision K} (d : list (K * V)) k v j :
  dict_get (dict_set d k v) j = if decide (j = k) then Ok v else dict_get d j.
Proof.
  induction d as [|[k' v'] d IH]; simpl.
  - destruct (decide (j = k)); done.
  - destruct (decide (k = k')) as [->|Hne]; simpl.
    + destruct (decide (j = k')); done.
    + rewrite IH. destruct (decide (j = k')) as [->|]; [|done].
      rewrite decide_False by congruence. done.
Qed.

Lemma last_bot_at_snoc bs b p :
  last_bot_at (bs ++ [b]) p = if decide (p = pos b) then Ok b else last_bot_at bs p.
Proof.
  unfold last_bot_at. rewrite filter_app, filter_cons, filter_nil.
  repeat case_decide; subst; try congruence.
  - by rewrite last_snoc.
  - by rewrite app_nil_r.
Qed.

(** ** Properties *)

(** Reading a swarm keeps the lists of points and radii aligned with
    the input lines, and the [bots] dict has one entry per distinct
    position. *)
Theorem swarm_aligned lines sw :
  swarm_from_lines lines = Ok sw ->
  length (points sw) = length lines /\ length (radii sw) = length lines /\ NoDup (bots sw).*1.
Proof.
  unfold swarm_from_lines. revert sw.
  enough (H : forall acc sw, length (points acc) = length (radii acc) -> NoDup (bots acc).*1 ->
            res_fold add_bot lines acc = Ok sw ->
            length (points sw) = (length (points acc) + length lines)%nat /\
            length (radii sw) = (length (radii acc) + length lines)%nat /\ NoDup (bots sw).*1).
  { intros sw Hf. apply H in Hf; [simpl in Hf; done|done|constructor]. }
  induction lines as [|line lines IH]; intros acc sw Hl Hnd Hf; simpl in Hf.
  - injection Hf as <-. rewrite Nat.add_0_r. auto.
  - destruct (add_bot acc line) as [acc'|] eqn:Ea; [|discriminate]. simpl in Hf.
    unfold add_bot in Ea. destruct (nanobot_from_string (strip line)) as [bot|]; [|discriminate].
    injection Ea as <-. apply IH in Hf as (H1 & H2 & H3); simpl in *.
    + rewrite !length_app in *. simpl in *. split_and!; [lia|lia|done].
    + rewrite !length_app. simpl. lia.
    + apply dict_set_keys, Hnd.
Qed.

(** C27: [most_central_location] raises [ZeroDivisionError] for an empty
    swarm, and otherwise returns a location, an area of size 0, for some
    fuel, for any iteration order of the octant sets: every popped area
    of size [s > 0] is replaced by at least one and at most
    [octant_count s] areas of size [s // 2], so the heap never empties
    and the sum of [tree_size] over the heap drops at each iteration. *)
Theorem most_central_location_total (set_order : list point3 -> list point3)
    (Hord : forall l, set_order l ≡ₚ remove_dups l) (sw : BotSwarm) :
  (points sw = [] -> forall fuel, most_central_location set_order fuel sw = Err ZeroDivisionError) /\
  (points sw <> [] -> exists fuel a, most_central_location set_order fuel sw = Ok (Some (Some a)) /\
                                     search_size a = 0).
Proof.
  unfold most_central_location. split; [intros ->; reflexivity|]. intros Hne.
  destruct (points sw) as [|p ps] eqn:Ep; [done|].
  assert (Hn : Z.of_nat (length (p :: ps)) <> 0) by (simpl; lia).
  rewrite !py_floordiv_Ok by exact Hn. cbn [map res_bind]. rewrite !py_min_Ok, !py_max_Ok.
  cbn [res_bind].
  match goal with |- context [search_loop set_order _ sw [?a]] => set (area := a) end.
  assert (Ha : 0 <= search_size area) by (apply Z.div_pos; lia).
  destruct (search_loop_total set_order Hord (Datatypes.S (search_measure [area])) sw [area])
    as [r Hr]; [constructor; [done|constructor] | lia |].
  destruct (search_loop_location set_order Hord _ sw [area] r ltac:(done) Hr) as (a & -> & Hz).
  exists (Datatypes.S (search_measure [area])), a. rewrite Hr. done.
Qed.

(** [test_sample_swarm]: in the puzzle's example 7 nanobots are in
    range of the strongest one. *)
Lemma sample_swarm : (sw <- swarm_from_lines sample_lines ;; bots_near_strongest_bot sw) = Ok 7%nat.
Proof. vm_compute. reflexivity. Qed.

(** C28: the [bots] dict that [swarm_from_file] builds holds, at each
    position, the bot of the last line at that position: a bot read
    earlier at the same position is lost, however strong it is, while
    [points] and [radii] keep every line. *)
Theorem swarm_keeps_last_bot lines sw :
  swarm_from_lines lines = Ok sw ->
  exists bs, res_map (fun l => nanobot_from_string (strip l)) lines = Ok bs /\
    forall p, dict_get (bots sw) p = last_bot_at bs p.
Proof.
  unfold swarm_from_lines.
  enough (H : forall acc bs0, (forall p, dict_get (bots acc) p = last_bot_at bs0 p) ->
            res_fold add_bot lines acc = Ok sw ->
            exists bs, res_map (fun l => nanobot_from_string (strip l)) lines = Ok bs /\
                       forall p, dict_get (bots sw) p = last_bot_at (bs0 ++ bs) p).
  { intros Hf. destruct (H {| bots := []; points := []; radii := [] |} [] ltac:(intros p; reflexivity) Hf)
      as (bs & Hbs & Hp). eauto. }
  revert sw. induction lines as [|line lines IH]; intros sw acc bs0 Hacc Hf; simpl in Hf.
  - injection Hf as <-. exists []. rewrite app_nil_r. done.
  - destruct (add_bot acc line) as [acc'|] eqn:Ea; [|discriminate]. simpl in Hf.
    unfold add_bot in Ea. destruct (nanobot_from_string (strip line)) as [bot|] eqn:Eb; [|discriminate].
    injection Ea as <-.
    pose proof (fun H => IH sw _ (bs0 ++ [bot]) H Hf) as IH'.
    destruct IH' as (bs & Hbs & Hp).
    { intros p. cbn [bots]. rewrite dict_get_dict_set, last_bot_at_snoc, Hacc. done. }
    exists (bot :: bs). simpl. rewrite Eb, Hbs. simpl. split; [done|]. intros p. rewrite Hp, <- app_assoc. done.
Qed.

(** A strong bot followed by a weak one at the same place: the count
    uses the weak radius (2 instead of the 3 bots within radius 5). *)
Lemma duplicate_position_hides_strongest :
  (sw <- swarm_from_lines ["pos=<0,0,0>, r=5"; "pos=<0,0,0>, r=1"; "pos=<3,0,0>, r=1"] ;;
   bots_near_strongest_bot sw) = Ok 2%nat.
Proof. vm_compute. reflexivity. Qed.

Lemma swarm_keeps_last_bot_witness :
  swarm_from_lines ["pos=<0,0,0>, r=5"; "pos=<0,0,0>, r=1"] =
    Ok {| bots := [({| x := 0; y := 0; z := 0 |}, {| pos := {| x := 0; y := 0; z := 0 |}; radius := 1 |})];
          points := [(0, 0, 0); (0, 0, 0)]; radii := [5; 1] |} /\
  exists bs, res_map (fun l => nanobot_from_string (strip l)) ["pos=<0,0,0>, r=5"; "pos=<0,0,0>, r=1"] = Ok bs /\
    forall p, dict_get [({| x := 0; y := 0; z := 0 |}, {| pos := {| x := 0; y := 0; z := 0 |}; radius := 1 |})] p
              = last_bot_at bs p.
Proof.
  assert (H : swarm_from_lines ["pos=<0,0,0>, r=5"; "pos=<0,0,0>, r=1"] =
    Ok {| bots := [({| x := 0; y := 0; z := 0 |}, {| pos := {| x := 0; y := 0; z := 0 |}; radius := 1 |})];
          points := [(0, 0, 0); (0, 0, 0)]; radii := [5; 1] |}) by (vm_compute; reflexivity).
  split; [exact H|]. exact (swarm_keeps_last_bot _ _ H).
Defined.

Lemma swarm_aligned_witness :
  exists sw, swarm_from_lines sample_lines = Ok sw /\
    length (points sw) = length sample_lines /\ NoDup (bots sw).*1.
Proof.
  destruct (swarm_from_lines sample_lines) as [sw|] eqn:E; [|vm_compute in E; discriminate].
  exists sw. destruct (swarm_aligned _ _ E) as (H1 & _ & H3). auto.
Defined.

Lemma most_central_location_total_witness :
  exists sw, swarm_from_lines sample_lines = Ok sw /\ points sw <> [] /\
    exists fuel a, most_central_location remove_dups fuel sw = Ok (Some (Some a)) /\ search_size a = 0.
Proof.
  destruct (swarm_from_lines sample_lines) as [sw|] eqn:E; [|vm_compute in E; discriminate].
  assert (Hne : points sw <> []) by (vm_compute in E; injection E as <-; discriminate).
  exists sw. split_and!; [done|done|].
  exact (proj2 (most_central_location_total remove_dups (fun l => reflexivity _) sw) Hne).
Defined.

End EmergencyTeleport.
