(* ===== verification/Day24.v ===== *)
(** * Day 24: Immune System Simulator 20XX (src/day_24.py)

    [Group.group_from_string] parses a group (its units as a list of hit
    points, all [base_hp]); [Army.armies_from_file] fills the immune
    system, then the infection after the first line that fails to parse.
    [ImmuneFight.war] repeats [battle] (target selection by effective
    power and initiative, then attacks by initiative) until an army is
    dead or a battle kills nobody.

    Groups are identified by their position in [immune.groups ++
    infection.groups] ([__hash__] is [id]).  The sets the code iterates
    ([alive_groups], [free_targets]) are taken in list order; the sorts
    that follow order them by keys that end with [initiative], so the
    order does not matter when initiatives are distinct, as in the
    puzzle. *)

From Stdlib Require Import ZArith Ascii String Lia.
From stdpp Require Import base list strings.
From S2P Require Import Prelude Decoding PySort.

Open Scope Z_scope.
Open Scope py_scope.

Module ImmuneSystem.

Record Group := {
  size : Z; base_hp : Z; initiative : Z; damage : Z; army_name : string;
  units : list Z; weaknesses : list string; immunities : list string;
  damage_type : string; boost : Z
}.

(** ** Parsing *)

Definition is_lower (c : ascii) : bool := let n := nat_of_ascii c in ((97 <=? n) && (n <=? 122))%nat.

Definition is_word (c : ascii) : bool :=
  let n := nat_of_ascii c in
  ((48 <=? n) && (n <=? 57) || (65 <=? n) && (n <=? 90) || (97 <=? n) && (n <=? 122) || (n =? 95))%nat.

(** [[a-z, ]+]: the longest run of the class. *)
Fixpoint class_run (s : list ascii) : list ascii :=
  match s with
  | c :: s' => if is_lower c || Ascii.eqb c "," || Ascii.eqb c " " then c :: class_run s' else []
  | [] => []
  end.

(** [re.findall(prefix + '[a-z, ]+', string)[0][len(prefix):]], if any. *)
Fixpoint find_list (prefix s : list ascii) : option (list ascii) :=
  match s with
  | [] => None
  | _ :: s' =>
      if bool_decide (prefix `prefix_of` s) then
        match class_run (drop (length prefix) s) with
        | [] => find_list prefix s'
        | run => Some run
        end
      else find_list prefix s'
  end.

(** [str.split(", ")]. *)
Fixpoint split_comma_space (cur : list ascii) (s : list ascii) : list (list ascii) :=
  match s with
  | "," :: " " :: s' => rev cur :: split_comma_space [] s'
  | c :: s' => split_comma_space (c :: cur) s'
  | [] => [rev cur]
  end%char.

Definition attribute_set (prefix : string) (s : list ascii) : list string :=
  match find_list (list_ascii_of_string prefix) s with
  | Some run => map string_of_list_ascii (split_comma_space [] run)
  | None => []
  end.

Fixpoint word_prefix (s : list ascii) : list ascii :=
  match s with c :: s' => if is_word c then c :: word_prefix s' else [] | [] => [] end.

(** [re.findall(r'\w+ damage', string)[0].split()[0]]: the first word
    followed by " damage". *)
Fixpoint damage_word (prev_word : bool) (s : list ascii) : option (list ascii) :=
  match s with
  | [] => None
  | c :: s' =>
      if is_word c && negb prev_word then
        let w := word_prefix s in
        if bool_decide (list_ascii_of_string " damage" `prefix_of` drop (length w) s) then Some w
        else damage_word true s'
      else damage_word (is_word c) s'
  end.

(** [Group.group_from_string]: [ValueError] unless four integers,
    [IndexError] without a damage word. *)
Definition group_from_string (line : string) (army : string) (bst : Z) : res Group :=
  let s := list_ascii_of_string line in
  let weak := attribute_set "weak to " s in
  let immune := attribute_set "immune to " s in
  match number_grabber line with
  | [sz; hp; dmg; init] =>
      match damage_word false s with
      | Some w =>
          Ok {| size := sz; base_hp := hp; initiative := init; damage := dmg; army_name := army;
                units := repeat hp (Z.to_nat sz); weaknesses := weak; immunities := immune;
                damage_type := string_of_list_ascii w; boost := bst |}
      | None => Err IndexError
      end
  | _ => Err ValueError
  end.

(** [Army.armies_from_file] on the stripped lines: every line after the
    first is a group of the current army, and a line that raises switches
    to the infection (whose groups get no boost). *)
Fixpoint armies_loop (lines : list string) (in_infection : bool) (bst : Z)
    (imm inf : list Group) : list Group * list Group :=
  match lines with
  | [] => (imm, inf)
  | line :: lines' =>
      let bst := if in_infection then 0 else bst in
      match group_from_string line (if in_infection then "infection" else "immune_system") bst with
      | Ok g => if in_infection then armies_loop lines' true bst imm (inf ++ [g])
                else armies_loop lines' false bst (imm ++ [g]) inf
      | Err _ => armies_loop lines' true bst imm inf
      end
  end.

Definition armies_from_lines (lines : list string) (bst : Z) : list Group * list Group :=
  armies_loop (drop 1 (map strip lines)) false bst [] [].

(** ** Groups in combat *)

(** [Group.effective_power]. *)
Definition effective_power (g : Group) : Z := (damage g + boost g) * Z.of_nat (length (units g)).

(** [Group.alive]. *)
Definition alive (g : Group) : bool := 0 <? py_sum (units g).

(** [Group.potential_damage]: a bare [Exception] when either is dead. *)
Definition potential_damage (target attacker : Group) : res Z :=
  if negb (alive target) || negb (alive attacker) then Err (PyException "")
  else if bool_decide (damage_type attacker ∈ immunities target) then Ok 0
  else if bool_decide (damage_type attacker ∈ weaknesses target) then Ok (effective_power attacker * 2)
  else Ok (effective_power attacker).

(** The loop of [take_damage] on the units from the last one: pop each
    unit the remaining damage covers. *)
Fixpoint kill (total : Z) (rev_units : list Z) : list Z :=
  match rev_units with
  | [] => []
  | unit :: rest => if (0 <? total) && (unit <=? total) then kill (total - unit) rest else rev_units
  end.

(** [Group.take_damage] (and [attack]). *)
Definition take_damage (target attacker : Group) : res Group :=
  total <- potential_damage target attacker ;;
  Ok {| size := size target; base_hp := base_hp target; initiative := initiative target;
        damage := damage target; army_name := army_name target;
        units := rev (kill total (rev (units target)));
        weaknesses := weaknesses target; immunities := immunities target;
        damage_type := damage_type target; boost := boost target |}.

(** The fight's groups, [immune_system.groups ++ infection.groups]. *)
Definition gget (gs : list Group) (k : nat) : res Group :=
  match gs !! k with Some g => Ok g | None => Err IndexError end.

(** Keys compared as tuples, in descending order ([reverse=True] keeps
    equal keys in their order). *)
Fixpoint tuple_le (a b : list Z) : bool :=
  match a, b with
  | u :: a', v :: b' => (u <? v) || ((u =? v) && tuple_le a' b')
  | _, _ => true
  end.

Definition sort_desc {A} (key : A -> list Z) (l : list A) : list A :=
  sort_by (fun a b => tuple_le (key b) (key a)) l.

(** [Group.select_target] for attacker [a] among [free]. *)
Definition select_target (gs : list Group) (a : Group) (free : list nat) : res (option nat) :=
  keyed <- res_map (fun t => g <- gget gs t ;; pd <- potential_damage g a ;;
                             Ok (t, [pd; effective_power g; initiative g])) free ;;
  match sort_desc snd keyed with
  | [] => Ok None
  | (t, _) :: _ =>
      g <- gget gs t ;; pd <- potential_damage g a ;;
      Ok (if 0 <? pd then Some t else None)
  end.

(** ** The fight *)

Definition indices (gs : list Group) : list nat := seq 0 (length gs).

(** [all_alive_groups]. *)
Definition all_alive (gs : list Group) : list nat :=
  filter (fun k => (match gs !! k with Some g => alive g | None => false end) = true) (indices gs).

(** [enemy_army(name).alive_groups]: the immune groups are the first
    [n_imm]. *)
Definition enemy_alive (n_imm : nat) (gs : list Group) (name : string) : list nat :=
  filter (fun k => (if bool_decide (name = "infection") then (k <? n_imm)%nat else (n_imm <=? k)%nat) = true)
         (all_alive gs).

Definition army_dead (n_imm : nat) (gs : list Group) (immune : bool) : bool :=
  bool_decide (filter (fun k => (if immune then (k <? n_imm)%nat else (n_imm <=? k)%nat) = true) (all_alive gs) = []).

(** [total_units]: units of the alive groups of both armies. *)
Definition total_units (gs : list Group) : nat :=
  sum_list_with (fun g => if alive g then length (units g) else 0%nat) gs.

Definition group_key_select (gs : list Group) (k : nat) : list Z :=
  match gs !! k with Some g => [effective_power g; initiative g] | None => [] end.

Definition group_key_attack (gs : list Group) (k : nat) : list Z :=
  match gs !! k with Some g => [initiative g] | None => [] end.

(** The target selection loop: [targets] as a list of pairs. *)
Definition select_step (n_imm : nat) (gs : list Group) (targets : list (nat * nat)) (k : nat)
    : res (list (nat * nat)) :=
  g <- gget gs k ;;
  let free := filter (fun t => t ∉ targets.*2) (enemy_alive n_imm gs (army_name g)) in
  match free with
  | [] => Ok targets
  | _ => t <- select_target gs g free ;;
         Ok (match t with Some t => targets ++ [(k, t)] | None => targets end)
  end.

(** The attack loop: [if group in targets] and [if group.alive]. *)
Definition attack_step (targets : list (nat * nat)) (gs : list Group) (k : nat) : res (list Group) :=
  match list_find (fun kt => kt.1 = k) targets with
  | Some (_, (_, t)) =>
      g <- gget gs k ;;
      if alive g then tg <- gget gs t ;; tg' <- take_damage tg g ;; Ok (<[t := tg']> gs)
      else Ok gs
  | None => Ok gs
  end.

(** [ImmuneFight.battle]: [None] is [FightOver]. *)
Definition battle (n_imm : nat) (gs : list Group) : res (option (list Group)) :=
  if army_dead n_imm gs true || army_dead n_imm gs false then Ok None
  else
    let select_order := sort_desc (group_key_select gs) (all_alive gs) in
    targets <- res_fold (select_step n_imm gs) select_order [] ;;
    let attack_order := sort_desc (group_key_attack gs) (all_alive gs) in
    gs' <- res_fold (attack_step targets) attack_order gs ;;
    Ok (Some gs').

(** [ImmuneFight.war]'s loop; [None] is fuel exhaustion. *)
Fixpoint war_loop (fuel : nat) (n_imm : nat) (gs : list Group) : option (res (list Group)) :=
  match fuel with
  | O => None
  | Datatypes.S fuel' =>
      match battle n_imm gs with
      | Err e => Some (Err e)
      | Ok None => Some (Ok gs)
      | Ok (Some gs') => if Nat.eqb (total_units gs') (total_units gs) then Some (Ok gs')
                         else war_loop fuel' n_imm gs'
      end
  end.

Inductive victor := ImmuneWins | InfectionWins | Deadlock.

(** [war]'s result: the infection if the immune system is dead, the
    immune system if the infection is, else [None]. *)
Definition winner (n_imm : nat) (gs : list Group) : victor :=
  if army_dead n_imm gs true then InfectionWins
  else if army_dead n_imm gs false then ImmuneWins else Deadlock.

(** The winner's [total_units]. *)
Definition winner_units (n_imm : nat) (gs : list Group) : nat :=
  sum_list_with (fun k => match gs !! k with Some g => if alive g then length (units g) else 0%nat | None => 0%nat end)
    (filter (fun k => (match winner n_imm gs with ImmuneWins => (k <? n_imm)%nat | _ => (n_imm <=? k)%nat end) = true)
            (indices gs)).

Definition war (n_imm : nat) (gs : list Group) : option (res (list Group)) :=
  war_loop (Datatypes.S (Datatypes.S (total_units gs))) n_imm gs.

(** ** Lemmas *)

(** Every unit of a group has the group's [base_hp]. *)
Definition uniform (g : Group) : Prop := Forall (fun u => u = base_hp g) (units g).

#[global] Instance uniform_dec g : Decision (uniform g).
Proof. unfold uniform. apply _. Defined.

(** [g'] is [g] after losing units from the end of its list. *)
Definition grp_le (g' g : Group) : Prop :=
  base_hp g' = base_hp g /\ exists m, units g' = take m (units g).

Definition unit_count (g : Group) : nat := if alive g then length (units g) else 0%nat.

(** The example of the puzzle text, one group per line. *)
Definition sample_lines : list string :=
  ["Immune System:";
   "17 units each with 5390 hit points (weak to radiation, bludgeoning) with an attack that does 4507 fire damage at initiative 2";
   "989 units each with 1274 hit points (immune to fire; weak to bludgeoning, slashing) with an attack that does 25 slashing damage at initiative 3";
   "";
   "Infection:";
   "801 units each with 4706 hit points (weak to radiation) with an attack that does 116 bludgeoning damage at initiative 1";
   "4485 units each with 2961 hit points (immune to radiation; weak to fire, cold) with an attack that does 12 slashing damage at initiative 4"].

Lemma py_sum_uniform l hp : Forall (fun u => u = hp) l -> py_sum l = Z.of_nat (length l) * hp.
Proof. induction 1; simpl; [lia|]. subst. unfold py_sum in *. lia. Qed.

Lemma grp_le_refl g : grp_le g g.
Proof. split; [done|]. exists (length (units g)). rewrite take_ge; done. Qed.

Lemma grp_le_trans g1 g2 g3 : grp_le g1 g2 -> grp_le g2 g3 -> grp_le g1 g3.
Proof.
  intros [H1 [m1 E1]] [H2 [m2 E2]]. split; [congruence|]. exists (Nat.min m1 m2).
  rewrite E1, E2, take_take. done.
Qed.

Lemma grp_le_uniform g' g : grp_le g' g -> uniform g -> uniform g'.
Proof. intros [Hb [m Hm]] Hu. unfold uniform. rewrite Hm, Hb. apply Forall_take, Hu. Qed.

Lemma grp_le_unit_count g' g : grp_le g' g -> uniform g -> (unit_count g' <= unit_count g)%nat.
Proof.
  intros [Hb [m Hm]] Hu. pose proof (grp_le_uniform g' g (conj Hb (ex_intro _ m Hm)) Hu) as Hu'.
  unfold unit_count, alive. rewrite (py_sum_uniform _ _ Hu), (py_sum_uniform _ _ Hu'), Hb.
  assert (Hl : (length (units g') <= length (units g))%nat) by (rewrite Hm, length_take; lia).
  destruct (Z.ltb_spec 0 (Z.of_nat (length (units g')) * base_hp g)),
           (Z.ltb_spec 0 (Z.of_nat (length (units g)) * base_hp g)); try lia. nia.
Qed.

Lemma kill_drop total l : exists k, kill total l = drop k l.
Proof.
  revert total. induction l as [|u l IH]; intros total; simpl; [exists 0%nat; done|].
  destruct (_ && _); [destruct (IH (total - u)) as [k ->]; exists (Datatypes.S k); done | exists 0%nat; done].
Qed.

Lemma take_damage_le tg a tg' : take_damage tg a = Ok tg' -> grp_le tg' tg.
Proof.
  unfold take_damage. destruct (potential_damage tg a) as [total|]; [|discriminate]. intros [= <-].
  split; [done|]. simpl. destruct (kill_drop total (rev (units tg))) as [k ->].
  exists (length (units tg) - k)%nat.
  rewrite <- (rev_involutive (take _ _)). f_equal.
  change (rev (units tg)) with (rev (units tg)).
  rewrite !rev_alt. fold (reverse (units tg)). fold (reverse (take (length (units tg) - k) (units tg))).
  rewrite drop_reverse. done.
Qed.

Lemma total_units_le gs' gs :
  Forall2 grp_le gs' gs -> Forall uniform gs -> (total_units gs' <= total_units gs)%nat.
Proof.
  unfold total_units. induction 1 as [|g' g gs' gs Hle Hall IH]; intros Hu; [done|].
  inversion Hu; subst. simpl. pose proof (grp_le_unit_count g' g Hle ltac:(done)).
  unfold unit_count in *. specialize (IH ltac:(done)). lia.
Qed.

Lemma Forall2_grp_le_uniform gs' gs : Forall2 grp_le gs' gs -> Forall uniform gs -> Forall uniform gs'.
Proof. induction 1; intros Hu; inversion Hu; subst; constructor; eauto using grp_le_uniform. Qed.

Lemma attack_step_le targets gs0 gs k gs' :
  Forall2 grp_le gs gs0 -> attack_step targets gs k = Ok gs' -> Forall2 grp_le gs' gs0.
Proof.
  intros Hle. unfold attack_step. destruct (list_find _ _) as [[_ [_ t]]|]; [|intros [= <-]; done].
  unfold gget. destruct (gs !! k) as [g|]; [|discriminate]. simpl.
  destruct (alive g); [|intros [= <-]; done].
  destruct (gs !! t) as [tg|] eqn:Et; [|discriminate]. simpl.
  destruct (take_damage tg g) as [tg'|] eqn:Ed; [|discriminate]. simpl. intros [= <-].
  apply take_damage_le in Ed.
  destruct (Forall2_lookup_l _ _ _ _ _ Hle Et) as (tg0 & Et0 & Hle0).
  rewrite <- (list_insert_id gs0 t tg0 Et0). apply Forall2_insert; [done|].
  eapply grp_le_trans; eauto.
Qed.

Lemma battle_le n_imm gs gs' :
  battle n_imm gs = Ok (Some gs') -> Forall2 grp_le gs' gs.
Proof.
  unfold battle. destruct (_ || _); [discriminate|].
  destruct (res_fold (select_step n_imm gs) _ []) as [targets|]; [|discriminate]. simpl.
  destruct (res_fold (attack_step targets) _ gs) as [gs1|] eqn:E; [|discriminate]. simpl.
  intros [= <-]. revert E. apply (res_fold_inv (fun x => Forall2 grp_le x gs)).
  - apply Forall2_same_length_lookup. split; [done|]. intros i x y H1 H2. rewrite H1 in H2.
    injection H2 as <-. apply grp_le_refl.
  - intros gs2 k gs3 _ H Hs. exact (attack_step_le targets gs gs2 k gs3 H Hs).
Qed.

Lemma war_loop_total fuel n_imm gs :
  Forall uniform gs -> (total_units gs < fuel)%nat -> exists r, war_loop fuel n_imm gs = Some r.
Proof.
  revert gs. induction fuel as [|fuel IH]; intros gs Hu Hlt; [lia|]. cbn [war_loop].
  destruct (battle n_imm gs) as [[gs'|]|e] eqn:Eb; [|eauto|eauto].
  destruct (Nat.eqb_spec (total_units gs') (total_units gs)); [eauto|].
  apply battle_le in Eb. pose proof (total_units_le gs' gs Eb Hu).
  apply IH; [eapply Forall2_grp_le_uniform; eauto|lia].
Qed.

Lemma armies_loop_uniform lines inf_flag bst imm inf :
  Forall uniform imm -> Forall uniform inf ->
  Forall uniform (armies_loop lines inf_flag bst imm inf).1 /\
  Forall uniform (armies_loop lines inf_flag bst imm inf).2.
Proof.
  revert inf_flag bst imm inf. induction lines as [|line lines IH]; intros inf_flag bst imm inf Hi Hf; [done|].
  simpl. destruct (group_from_string _ _ _) as [g|] eqn:Eg; [|apply IH; done].
  assert (Hg : uniform g).
  { unfold group_from_string in Eg. destruct (number_grabber line) as [|sz [|hp [|dmg [|init [|]]]]]; try discriminate.
    destruct (damage_word false _); [|discriminate]. injection Eg as <-.
    apply Forall_forall. intros u Hu. apply list_elem_of_In, repeat_spec in Hu. done. }
  destruct inf_flag; apply IH; try done; apply Forall_app; split; auto.
Qed.

Lemma kill_uniform hp d n :
  0 < hp -> 0 <= d -> kill d (repeat hp n) = repeat hp (n - Nat.min n (Z.to_nat (d / hp))).
Proof.
  intros Hhp. revert d. induction n as [|n IH]; intros d Hd; [done|]. cbn [repeat kill].
  destruct (Z.ltb_spec 0 d), (Z.leb_spec hp d); cbn [andb]; try lia.
  - rewrite IH by lia. f_equal.
    assert (Hq : d / hp = (d - hp) / hp + 1).
    { replace d with ((d - hp) + 1 * hp) at 1 by lia. rewrite Z.div_add by lia. done. }
    rewrite Hq. pose proof (Z.div_pos (d - hp) hp ltac:(lia) Hhp).
    rewrite Z2Nat.inj_add by lia. change (Z.to_nat 1) with 1%nat. lia.
  - rewrite (Z.div_small d hp) by lia. done.
  - assert (d = 0) by lia. subst. rewrite Z.div_0_l by lia. done.
Qed.

(** ** Properties *)

(** C22: every fight between parsed armies ends: a battle only removes
    units, so the war loop, which stops when a battle kills nobody, runs
    at most [total_units + 1] battles. *)
Theorem war_total lines bst :
  let '(imm, inf) := armies_from_lines lines bst in
  exists r, war (length imm) (imm ++ inf) = Some r.
Proof.
  unfold armies_from_lines.
  destruct (armies_loop_uniform (drop 1 (map strip lines)) false bst [] [] ltac:(constructor) ltac:(constructor))
    as [Hi Hf].
  destruct (armies_loop _ _ _ _ _) as [imm inf]. simpl in Hi, Hf.
  apply war_loop_total; [apply Forall_app; done | lia].
Qed.

(** C23: a battle never adds units and keeps every unit at its group's
    hit points. *)
Theorem battle_total_units_le n_imm gs gs' :
  Forall uniform gs -> battle n_imm gs = Ok (Some gs') ->
  (total_units gs' <= total_units gs)%nat /\ Forall uniform gs'.
Proof.
  intros Hu Hb. apply battle_le in Hb. split; [apply total_units_le|eapply Forall2_grp_le_uniform]; done.
Qed.

Lemma battle_total_units_le_witness :
  exists gs', battle 2 ((armies_from_lines sample_lines 0).1 ++ (armies_from_lines sample_lines 0).2) = Ok (Some gs') /\
    (total_units gs' <= total_units ((armies_from_lines sample_lines 0).1 ++ (armies_from_lines sample_lines 0).2))%nat /\
    Forall uniform gs'.
Proof.
  eexists. split; [vm_compute; reflexivity|].
  apply (battle_total_units_le 2); [apply (bool_decide_unpack _); vm_compute; reflexivity | vm_compute; reflexivity].
Defined.

(** C24: [take_damage] kills [damage // base_hp] units (at most all of
    them) and discards the rest of the damage. *)
Theorem take_damage_kills tg a tg' d :
  uniform tg -> 0 < base_hp tg -> potential_damage tg a = Ok d -> 0 <= d ->
  take_damage tg a = Ok tg' ->
  length (units tg') = (length (units tg) - Nat.min (length (units tg)) (Z.to_nat (d / base_hp tg)))%nat.
Proof.
  intros Hu Hhp Hd Hd0. unfold take_damage. rewrite Hd. intros [= <-]. simpl.
  assert (Hr : units tg = repeat (base_hp tg) (length (units tg))).
  { apply Forall_eq_repeat. eapply Forall_impl; [exact Hu|done]. }
  rewrite Hr, rev_repeat, kill_uniform by done. rewrite length_rev, !repeat_length. done.
Qed.

Lemma take_damage_kills_witness :
  exists tg a d tg',
    group_from_string "10 units each with 7 hit points with an attack that does 2 fire damage at initiative 1" "infection" 0 = Ok tg /\
    group_from_string "3 units each with 5 hit points with an attack that does 9 fire damage at initiative 2" "immune_system" 0 = Ok a /\
    potential_damage tg a = Ok d /\ take_damage tg a = Ok tg' /\
    length (units tg') = (length (units tg) - Nat.min (length (units tg)) (Z.to_nat (d / base_hp tg)))%nat.
Proof.
  do 4 eexists. split; [vm_compute; reflexivity|]. split; [vm_compute; reflexivity|].
  lazymatch goal with
  | |- potential_damage ?tg ?a = _ /\ _ =>
      split; [vm_compute; reflexivity|]; split; [vm_compute; reflexivity|]; apply (take_damage_kills tg a)
  end;
    [apply (bool_decide_unpack _); vm_compute; reflexivity | vm_compute; reflexivity |
     vm_compute; reflexivity | vm_compute; discriminate | vm_compute; reflexivity].
Defined.

(** The puzzle's example: the infection wins with 782 + 4434 = 5216
    units ([test_sample_fight]), and with a boost of 1570 the immune
    system wins with 51 units. *)
Lemma immune_fight_tests :
  (let ab := armies_from_lines sample_lines 0 in
   match war (length ab.1) (ab.1 ++ ab.2) with
   | Some (Ok gs) => Some (winner (length ab.1) gs, winner_units (length ab.1) gs) | _ => None end)
    = Some (InfectionWins, 5216%nat) /\
  (let ab := armies_from_lines sample_lines 1570 in
   match war (length ab.1) (ab.1 ++ ab.2) with
   | Some (Ok gs) => Some (winner (length ab.1) gs, winner_units (length ab.1) gs) | _ => None end)
    = Some (ImmuneWins, 51%nat).
Proof. split; vm_compute; reflexivity. Qed.

End ImmuneSystem.
