(* ===== verification/Day22.v ===== *)
(** * Day 22: Mode Maze (src/day_22.py)

    [Cave(depth, target)] fills [grid] over [bounds = (3 * target.x,
    3 * target.y)] row by row ([generate_grid]), computing each region's
    geologic index from the erosion levels of its left and upper
    neighbours; [risk_level] sums the region types over the rectangle up
    to the target; [rescue_time] builds an undirected graph on
    [(x, y, item)] nodes and hands it to networkx's Dijkstra.

    The two nested loops are nested [res_fold]s over [py_range], and the
    dictionaries are [gmap]s read with [getitem] ([KeyError] when
    absent).  [erosion_ref] is the puzzle's recursive definition of the
    erosion level; [generate_grid_erosion] shows the row-by-row loop
    computes it. *)

From Stdlib Require Import ZArith Lia String.
From stdpp Require Import base list gmap.
From S2P Require Import Prelude.

Open Scope Z_scope.
Open Scope py_scope.

Module ModeMaze.

(** [Point] and its [__add__]. *)
Abbreviation Point := (Z * Z)%type.

Definition point_add (p q : Point) : Point := (p.1 + q.1, p.2 + q.2).

Inductive Tiles := Rocky | Wet | Narrow | Mouth | Target.
Inductive Items := Torch | Climbing | Neither.

#[global] Instance Tiles_eq_dec : EqDecision Tiles.
Proof. solve_decision. Defined.
#[global] Instance Items_eq_dec : EqDecision Items.
Proof. solve_decision. Defined.

(** [TileItemMap]: only the three region types are keys.  Each value is
    a two-element set, listed in one iteration order (the graph is
    undirected, so the order does not change it). *)
Definition TileItemMap (t : Tiles) : res (list Items) :=
  match t with
  | Rocky => Ok [Torch; Climbing]
  | Wet => Ok [Climbing; Neither]
  | Narrow => Ok [Torch; Neither]
  | _ => Err KeyError
  end.

(** [ErosionTileMap[k]]. *)
Definition ErosionTileMap (k : Z) : res Tiles :=
  if k =? 0 then Ok Rocky else if k =? 1 then Ok Wet else if k =? 2 then Ok Narrow else Err KeyError.

Definition left : Point := (-1, 0).
Definition right : Point := (1, 0).
Definition up : Point := (0, -1).
Definition down : Point := (0, 1).

Record Cave := { depth : Z; target : Point; grid : gmap Point Tiles; bounds : Z * Z }.

(** [d[p]] on a dict. *)
Definition getitem {V} (d : gmap Point V) (p : Point) : res V :=
  match d !! p with Some v => Ok v | None => Err KeyError end.

(** ** [generate_grid] *)

(** The geologic index of [Point(x, y)], read from [erosion_map]. *)
Definition geo_index (target : Point) (erosion_map : gmap Point Z) (x y : Z) : res Z :=
  if (x =? 0) && (y =? 0) || bool_decide ((x, y) = target) then Ok 0
  else if y =? 0 then Ok (x * 16807)
  else if x =? 0 then Ok (y * 48271)
  else a <- getitem erosion_map (x - 1, y) ;; b <- getitem erosion_map (x, y - 1) ;; Ok (a * b).

(** The body of the inner loop: the state is [(erosion_map, grid)]. *)
Definition grid_cell (depth : Z) (target : Point) (st : gmap Point Z * gmap Point Tiles) (x y : Z)
    : res (gmap Point Z * gmap Point Tiles) :=
  geo <- geo_index target st.1 x y ;;
  let erosion_level := (geo + depth) mod 20183 in
  tile <- ErosionTileMap (erosion_level mod 3) ;;
  Ok (<[(x, y) := erosion_level]> st.1, <[(x, y) := tile]> st.2).

Definition grid_row (depth : Z) (target : Point) (max_x : Z) (st : gmap Point Z * gmap Point Tiles) (y : Z)
    : res (gmap Point Z * gmap Point Tiles) :=
  res_fold (fun st x => grid_cell depth target st x y) (py_range 0 max_x) st.

(** [Cave.generate_grid].  [not self.target] is false for every
    [Point], a non-empty tuple, so only a zero depth raises. *)
Definition generate_grid (depth : Z) (target : Point) (bounds : Z * Z) : res (gmap Point Tiles) :=
  if depth =? 0 then Err (PyException "Need depth and target to generate grid"%string)
  else st <- res_fold (grid_row depth target bounds.1) (py_range 0 bounds.2) (∅, ∅) ;; Ok st.2.

(** [Cave.__init__]. *)
Definition new_cave (depth : Z) (target : Point) : res Cave :=
  let bounds := (target.1 * 3, target.2 * 3) in
  g <- generate_grid depth target bounds ;;
  Ok {| depth := depth; target := target; grid := g; bounds := bounds |}.

(** ** [risk_level] *)

Definition tile_risk (t : Tiles) : Z := match t with Wet => 1 | Narrow => 2 | _ => 0 end.

Definition risk_cell (c : Cave) (risk : Z) (x y : Z) : res Z :=
  tile <- getitem (grid c) (x, y) ;; Ok (risk + tile_risk tile).

Definition risk_level (c : Cave) : res Z :=
  res_fold (fun risk y => res_fold (fun risk x => risk_cell c risk x y) (py_range 0 ((target c).1 + 1)) risk)
           (py_range 0 ((target c).2 + 1)) 0.

(** ** The graph of [rescue_time] *)

Abbreviation Node := (Z * Z * Items)%type.

(** [graph.add_edge(u, v, weight=w)], in the order of the calls. *)
Abbreviation Edge := (Node * Node * Z)%type.

Definition in_bounds (c : Cave) (p : Point) : bool :=
  bool_decide (is_Some (grid c !! p)) && (0 <=? p.1) && (p.1 <=? (bounds c).1)
  && (0 <=? p.2) && (p.2 <=? (bounds c).2).

(** The edges towards one neighbour: one per item both regions allow
    ([items & new_items]). *)
Definition neighbor_edges (c : Cave) (p : Point) (items : list Items) (neighbor : Point) : res (list Edge) :=
  let new_point := point_add p neighbor in
  if in_bounds c new_point then
    t <- getitem (grid c) new_point ;; new_items <- TileItemMap t ;;
    Ok (map (fun i => ((p.1, p.2, i), (new_point.1, new_point.2, i), 1))
            (filter (fun i => i ∈ new_items) items))
  else Ok [].

(** The loop body of [rescue_time] at [Point(x, y)]: the item switch,
    then the moves. *)
Definition cell_edges (c : Cave) (x y : Z) : res (list Edge) :=
  tile <- getitem (grid c) (x, y) ;;
  items <- TileItemMap tile ;;
  i0 <- py_get items 0 ;; i1 <- py_get items 1 ;;
  moves <- res_map (neighbor_edges c (x, y) items) [left; right; up; down] ;;
  Ok (((x, y, i0), (x, y, i1), 7) :: concat moves).

(** The graph [rescue_time] builds, as the list of its [add_edge]
    calls. *)
Definition rescue_graph (c : Cave) : res (list Edge) :=
  res_fold (fun g y => res_fold (fun g x => es <- cell_edges c x y ;; Ok (g ++ es))
                                (py_range 0 (bounds c).1) g)
           (py_range 0 (bounds c).2) [].

(** ** The puzzle's definition *)

(** The erosion level of region [(x, y)] as the puzzle defines it:
    [(geologic index + depth) mod 20183], the geologic index being 0 at
    the mouth and the target, [x * 16807] on the row [y = 0],
    [y * 48271] on the column [x = 0], and the product of the erosion
    levels at [(x - 1, y)] and [(x, y - 1)] elsewhere. *)
Fixpoint erosion_ref (depth : Z) (target : Point) (x : nat) : nat -> Z :=
  match x with
  | O => fun y =>
      if (y =? 0)%nat || bool_decide ((0, Z.of_nat y) = target) then depth mod 20183
      else (Z.of_nat y * 48271 + depth) mod 20183
  | S x' => fix col (y : nat) : Z :=
      if bool_decide ((Z.of_nat (S x'), Z.of_nat y) = target) then depth mod 20183
      else match y with
           | O => (Z.of_nat (S x') * 16807 + depth) mod 20183
           | S y' => (erosion_ref depth target x' y * col y' + depth) mod 20183
           end
  end.

(** The region type of an erosion level. *)
Definition tile_ref (e : Z) : Tiles :=
  if e mod 3 =? 0 then Rocky else if e mod 3 =? 1 then Wet else Narrow.

(** The puzzle's risk level of the rectangle [[0, w) x [0, h)]: the sum
    of the regions' types, rocky 0, wet 1 and narrow 2. *)
Fixpoint row_risk (depth : Z) (target : Point) (y : nat) (w : nat) : Z :=
  match w with O => 0 | S w' => row_risk depth target y w' + erosion_ref depth target w' y mod 3 end.

Fixpoint rect_risk (depth : Z) (target : Point) (w h : nat) : Z :=
  match h with O => 0 | S h' => rect_risk depth target w h' + row_risk depth target h' w end.

(** The puzzle's rules for the graph: a node [(x, y, i)] is a region
    with an item its type allows; switching items in place costs 7 and
    moving to an adjacent region with the same item costs 1. *)
Definition allowed (c : Cave) (x y : Z) (i : Items) : Prop :=
  exists t items, grid c !! (x, y) = Some t /\ TileItemMap t = Ok items /\ i ∈ items.

Definition edge_ok (c : Cave) (e : Edge) : Prop :=
  match e with
  | ((x, y, i), (x', y', i'), w) =>
      allowed c x y i /\ allowed c x' y' i' /\
      (w = 7 /\ x' = x /\ y' = y /\ i <> i' \/ w = 1 /\ i' = i /\ Z.abs (x' - x) + Z.abs (y' - y) = 1)
  end.

(** ** The loop computes the puzzle's erosion levels *)

Definition ero (depth : Z) (target : Point) (p : Point) : Z :=
  erosion_ref depth target (Z.to_nat p.1) (Z.to_nat p.2).

(** The regions the loops have filled after rows [0 .. y - 1] and
    columns [0 .. x - 1] of row [y]. *)
Definition done_cell (max_x y x : Z) (p : Point) : bool :=
  (0 <=? p.2) && (p.2 <? y) && (0 <=? p.1) && (p.1 <? max_x) || (p.2 =? y) && (0 <=? p.1) && (p.1 <? x).

(** [erosion_map] and [grid] hold exactly the regions of [D], with the
    puzzle's erosion level and type. *)
Definition grid_inv (depth : Z) (target : Point) (D : Point -> bool) (st : gmap Point Z * gmap Point Tiles) : Prop :=
  forall p, st.1 !! p = (if D p then Some (ero depth target p) else None) /\
            st.2 !! p = (if D p then Some (tile_ref (ero depth target p)) else None).

(** Every region type of the grid is a key of [TileItemMap]. *)
Definition grid_typed (c : Cave) : Prop :=
  forall p t, grid c !! p = Some t -> exists i0 i1, TileItemMap t = Ok [i0; i1] /\ i0 <> i1.

Lemma done_cell_spec max_x y x a b :
  done_cell max_x y x (a, b) = true <-> (0 <= b < y /\ 0 <= a < max_x) \/ (b = y /\ 0 <= a < x).
Proof.
  unfold done_cell; simpl. rewrite orb_true_iff, !andb_true_iff, !Z.leb_le, !Z.ltb_lt, Z.eqb_eq. tauto.
Qed.

Lemma grid_inv_ext depth target D D' st :
  (forall p, D p = D' p) -> grid_inv depth target D st -> grid_inv depth target D' st.
Proof. intros HD H p. rewrite <- HD. apply H. Qed.

(** The equation of [erosion_ref] the loop follows. *)
Lemma ero_eq depth target x y :
  0 <= x -> 0 <= y ->
  ero depth target (x, y) =
  ((if (x =? 0) && (y =? 0) || bool_decide ((x, y) = target) then 0
    else if y =? 0 then x * 16807
    else if x =? 0 then y * 48271
    else ero depth target (x - 1, y) * ero depth target (x, y - 1)) + depth) mod 20183.
Proof.
  intros Hx Hy. unfold ero; simpl.
  destruct (Z.to_nat x) as [|n] eqn:Ex; destruct (Z.to_nat y) as [|m] eqn:Ey.
  - assert (x = 0) as -> by lia. assert (y = 0) as -> by lia. done.
  - assert (x = 0) as -> by lia. assert (y = Z.of_nat (S m)) as -> by lia. simpl.
    destruct (bool_decide _); done.
  - assert (x = Z.of_nat (S n)) as -> by lia. assert (y = 0) as -> by lia. simpl.
    destruct (bool_decide _); done.
  - assert (Z.to_nat (x - 1) = n) as -> by lia. assert (Z.to_nat (y - 1) = m) as -> by lia.
    assert (x = Z.of_nat (S n)) as -> by lia. assert (y = Z.of_nat (S m)) as -> by lia. simpl.
    destruct (bool_decide _); done.
Qed.

Lemma done_cell_next max_x y x a b :
  0 <= x -> done_cell max_x y (x + 1) (a, b) = bool_decide (a = x /\ b = y) || done_cell max_x y x (a, b).
Proof.
  intros Hx. apply eq_iff_eq_true. rewrite orb_true_iff, bool_decide_eq_true, !done_cell_spec. lia.
Qed.

Lemma ErosionTileMap_tile_ref e : ErosionTileMap (e mod 3) = Ok (tile_ref e).
Proof.
  unfold ErosionTileMap, tile_ref. pose proof (Z.mod_pos_bound e 3 ltac:(lia)).
  destruct (Z.eqb_spec (e mod 3) 0); [done|]. destruct (Z.eqb_spec (e mod 3) 1); [done|].
  rewrite (proj2 (Z.eqb_eq _ 2)) by lia. done.
Qed.

(** One iteration of the inner loop fills region [(x, y)]; the regions
    it reads were filled before. *)
Lemma grid_cell_step depth target max_x y x st :
  0 <= x < max_x -> 0 <= y -> grid_inv depth target (done_cell max_x y x) st ->
  exists st', grid_cell depth target st x y = Ok st' /\ grid_inv depth target (done_cell max_x y (x + 1)) st'.
Proof.
  intros Hx Hy Hinv.
  assert (Hg : exists g, geo_index target st.1 x y = Ok g /\ (g + depth) mod 20183 = ero depth target (x, y)).
  { rewrite ero_eq by lia. unfold geo_index.
    destruct (_ || _); [eauto|]. destruct (Z.eqb_spec y 0); [eauto|]. destruct (Z.eqb_spec x 0); [eauto|].
    unfold getitem. rewrite (proj1 (Hinv (x - 1, y))), (proj1 (Hinv (x, y - 1))).
    rewrite (proj2 (done_cell_spec _ _ _ (x - 1) y)), (proj2 (done_cell_spec _ _ _ x (y - 1))) by lia.
    simpl. eauto. }
  destruct Hg as (g & Hg & He). unfold grid_cell. rewrite Hg. simpl. rewrite He, ErosionTileMap_tile_ref.
  simpl. eexists; split; [done|]. intros [a b]. simpl. rewrite !lookup_insert, done_cell_next by lia.
  destruct (decide ((x, y) = (a, b))) as [E|NE].
  - injection E as <- <-. rewrite bool_decide_true by done. done.
  - rewrite bool_decide_false by (intros [-> ->]; done). apply Hinv.
Qed.

(** The inner loop fills row [y]. *)
Lemma grid_row_step depth target max_x y st :
  0 <= y -> grid_inv depth target (done_cell max_x y 0) st ->
  exists st', grid_row depth target max_x st y = Ok st' /\ grid_inv depth target (done_cell max_x (y + 1) 0) st'.
Proof.
  intros Hy Hinv. unfold grid_row. rewrite py_range_to_nat.
  destruct (res_fold_range (fun x st => grid_inv depth target (done_cell max_x y x) st)
              (fun st x => grid_cell depth target st x y) (Z.to_nat max_x) st) as (r & Hr & HP);
    [done|intros; apply grid_cell_step; [lia|lia|done]|].
  exists r. split; [done|]. revert HP. apply grid_inv_ext. intros [a b].
  apply eq_iff_eq_true. rewrite !done_cell_spec. lia.
Qed.

(** The whole of [generate_grid]: for a non-zero depth it returns the
    grid of the puzzle's region types over [[0, max_x) x [0, max_y)]. *)
Lemma generate_grid_spec depth target max_x max_y :
  depth <> 0 ->
  exists st, generate_grid depth target (max_x, max_y) = Ok st.2 /\
             grid_inv depth target (fun p => bool_decide (0 <= p.1 < max_x /\ 0 <= p.2 < max_y)) st.
Proof.
  intros Hd. unfold generate_grid. rewrite (proj2 (Z.eqb_neq _ _) Hd). simpl. rewrite py_range_to_nat.
  destruct (res_fold_range (fun y st => grid_inv depth target (done_cell max_x y 0) st)
              (grid_row depth target max_x) (Z.to_nat max_y) (∅, ∅)) as (r & Hr & HP).
  - intros [a b]. simpl. rewrite !lookup_empty. replace (done_cell max_x 0 0 (a, b)) with false; [done|].
    symmetry. apply not_true_iff_false. rewrite done_cell_spec. lia.
  - intros; apply grid_row_step; [lia|done].
  - exists r. rewrite Hr. split; [done|]. revert HP. apply grid_inv_ext. intros [a b].
    apply eq_iff_eq_true. rewrite done_cell_spec, bool_decide_eq_true. simpl. lia.
Qed.

Lemma tile_risk_tile_ref e : tile_risk (tile_ref e) = e mod 3.
Proof.
  unfold tile_ref. pose proof (Z.mod_pos_bound e 3 ltac:(lia)).
  destruct (Z.eqb_spec (e mod 3) 0); [simpl; lia|]. destruct (Z.eqb_spec (e mod 3) 1); simpl; lia.
Qed.

(** The risk loops over a grid that holds the puzzle's types on the
    rectangle. *)
Lemma risk_level_inv depth c :
  let '(tx, ty) := target c in
  0 <= tx -> 0 <= ty ->
  (forall x y, 0 <= x <= tx -> 0 <= y <= ty ->
     grid c !! (x, y) = Some (tile_ref (erosion_ref depth (target c) (Z.to_nat x) (Z.to_nat y)))) ->
  risk_level c = Ok (rect_risk depth (target c) (Z.to_nat (tx + 1)) (Z.to_nat (ty + 1))).
Proof.
  destruct (target c) as [tx ty] eqn:Et. intros Htx Hty Hg. unfold risk_level. rewrite Et. simpl.
  rewrite (py_range_to_nat (ty + 1)).
  destruct (res_fold_range (fun y r => r = rect_risk depth (tx, ty) (Z.to_nat (tx + 1)) (Z.to_nat y))
              (fun risk y => res_fold (fun risk x => risk_cell c risk x y) (py_range 0 (tx + 1)) risk)
              (Z.to_nat (ty + 1)) 0) as (r & Hr & ->); [done| |rewrite Hr, Nat2Z.id; done].
  intros y r Hy ->. rewrite py_range_to_nat.
  destruct (res_fold_range (fun x r' => r' = rect_risk depth (tx, ty) (Z.to_nat (tx + 1)) (Z.to_nat y)
                                            + row_risk depth (tx, ty) (Z.to_nat y) (Z.to_nat x))
              (fun r' x => risk_cell c r' x y) (Z.to_nat (tx + 1)) (rect_risk depth (tx, ty) (Z.to_nat (tx + 1)) (Z.to_nat y)))
    as (r' & Hr' & ->).
  - simpl. lia.
  - intros x r' Hx ->. unfold risk_cell, getitem. rewrite Hg by lia. simpl. eexists; split; [done|].
    rewrite tile_risk_tile_ref. replace (Z.to_nat (x + 1)) with (S (Z.to_nat x)) by lia. simpl. lia.
  - eexists; split; [done|]. rewrite Nat2Z.id. replace (Z.to_nat (y + 1)) with (S (Z.to_nat y)) by lia. simpl. lia.
Qed.

Lemma tile_ref_typed e : exists i0 i1, TileItemMap (tile_ref e) = Ok [i0; i1] /\ i0 <> i1.
Proof. unfold tile_ref. repeat case_match; eexists _, _; split; done. Qed.

Lemma neighbor_edges_ok c x y i0 i1 t neighbor :
  grid_typed c -> grid c !! (x, y) = Some t -> TileItemMap t = Ok [i0; i1] ->
  neighbor ∈ [left; right; up; down] ->
  exists es, neighbor_edges c (x, y) [i0; i1] neighbor = Ok es /\ Forall (edge_ok c) es.
Proof.
  intros Hty Ht Hi Hn. unfold neighbor_edges. destruct (in_bounds c _) eqn:Eb; [|eexists; split; [done|constructor]].
  apply andb_true_iff in Eb as [Eb _]. repeat apply andb_true_iff in Eb as [Eb _].
  apply bool_decide_eq_true in Eb as [t' Et']. unfold getitem. rewrite Et'. simpl.
  destruct (Hty _ _ Et') as (j0 & j1 & Hj & _). rewrite Hj. simpl. eexists; split; [done|].
  apply Forall_forall. intros e He. apply list_elem_of_fmap in He as (i & -> & Hi').
  apply list_elem_of_filter in Hi' as [Hin Hin']. simpl. split_and!.
  - exists t, [i0; i1]. done.
  - exists t', [j0; j1]. done.
  - right. split_and!; [done|done|]. unfold point_add.
    repeat (apply elem_of_cons in Hn as [->|Hn]; [unfold left, right, up, down; simpl; lia|]).
    apply elem_of_nil in Hn. done.
Qed.

(** The edges of one region. *)
Lemma cell_edges_ok c x y t :
  grid_typed c -> grid c !! (x, y) = Some t ->
  exists es, cell_edges c x y = Ok es /\ Forall (edge_ok c) es.
Proof.
  intros Hty Ht. destruct (Hty _ _ Ht) as (i0 & i1 & Hi & Hne).
  destruct (res_map_total (neighbor_edges c (x, y) [i0; i1]) (Forall (edge_ok c)) [left; right; up; down])
    as (ms & Hms & Hall & _).
  { intros nb Hnb. apply (neighbor_edges_ok c x y i0 i1 t); [done|done|done|]. apply list_elem_of_In, Hnb. }
  unfold cell_edges, getitem. rewrite Ht. cbn [res_bind]. rewrite Hi.
  change (py_get [i0; i1] 0) with (Ok i0). change (py_get [i0; i1] 1) with (Ok i1). cbn [res_bind].
  rewrite Hms. cbn [res_bind]. eexists; split; [done|]. constructor.
  - simpl. split_and!; [exists t, [i0; i1]; split_and!; [done|done|set_solver]..|left; done].
  - apply Forall_concat, Hall.
Qed.

(** What [Cave.__init__] builds. *)
Lemma new_cave_spec depth tgt c :
  new_cave depth tgt = Ok c ->
  depth <> 0 /\ target c = tgt /\ bounds c = (tgt.1 * 3, tgt.2 * 3) /\
  forall x y, grid c !! (x, y) =
    if bool_decide (0 <= x < tgt.1 * 3 /\ 0 <= y < tgt.2 * 3)
    then Some (tile_ref (erosion_ref depth tgt (Z.to_nat x) (Z.to_nat y))) else None.
Proof.
  unfold new_cave. destruct (Z.eqb_spec depth 0) as [->|Hd]; [done|].
  destruct (generate_grid_spec depth tgt (tgt.1 * 3) (tgt.2 * 3) Hd) as (st & -> & Hinv).
  intros [= <-]. split_and!; [done..|]. intros x y. apply (Hinv (x, y)).
Qed.

Lemma new_cave_typed depth target c : new_cave depth target = Ok c -> grid_typed c.
Proof.
  intros (_ & _ & _ & Hg)%new_cave_spec [x y] t. rewrite Hg. case_bool_decide; [|done].
  intros [= <-]. apply tile_ref_typed.
Qed.

(** ** Properties *)

(** C18: [generate_grid] computes the puzzle's cave: for a non-zero depth
    it returns a grid over exactly [[0, max_x) x [0, max_y)] whose region
    at [(x, y)] has the type of the recursively defined erosion level
    [erosion_ref]. *)
Theorem generate_grid_erosion depth tgt max_x max_y :
  depth <> 0 ->
  exists g, generate_grid depth tgt (max_x, max_y) = Ok g /\
    forall x y, g !! (x, y) =
      if bool_decide (0 <= x < max_x /\ 0 <= y < max_y)
      then Some (tile_ref (erosion_ref depth tgt (Z.to_nat x) (Z.to_nat y))) else None.
Proof.
  intros Hd. destruct (generate_grid_spec depth tgt max_x max_y Hd) as (st & -> & Hinv).
  eexists; split; [done|]. intros x y. apply (Hinv (x, y)).
Qed.

Lemma generate_grid_erosion_witness :
  exists g, generate_grid 510 (10, 10) (30, 30) = Ok g /\
    forall x y, g !! (x, y) =
      if bool_decide (0 <= x < 30 /\ 0 <= y < 30)
      then Some (tile_ref (erosion_ref 510 (10, 10) (Z.to_nat x) (Z.to_nat y))) else None.
Proof. apply generate_grid_erosion. lia. Defined.

(** Every region of a cave's grid is rocky, wet or narrow, never the
    display-only [Mouth] or [Target], so [TileItemMap] is defined on it. *)
Theorem new_cave_region_types depth tgt c :
  new_cave depth tgt = Ok c ->
  forall p t, grid c !! p = Some t -> t = Rocky \/ t = Wet \/ t = Narrow.
Proof.
  intros (_ & _ & _ & Hg)%new_cave_spec [x y] t. rewrite Hg. case_bool_decide; [|done].
  intros [= <-]. unfold tile_ref. repeat case_match; auto.
Qed.

Lemma new_cave_region_types_witness :
  exists c, new_cave 510 (1, 1) = Ok c /\
    forall p t, grid c !! p = Some t -> t = Rocky \/ t = Wet \/ t = Narrow.
Proof.
  eexists; split; [vm_compute; reflexivity|]. apply (new_cave_region_types 510 (1, 1)).
  vm_compute. reflexivity.
Defined.

(** C19: [risk_level] is the puzzle's risk level: for a target with
    positive coordinates, the sum over the rectangle from the mouth to
    the target of the regions' erosion levels modulo 3. *)
Theorem risk_level_correct depth tx ty :
  depth <> 0 -> 0 < tx -> 0 < ty ->
  exists c, new_cave depth (tx, ty) = Ok c /\
    risk_level c = Ok (rect_risk depth (tx, ty) (Z.to_nat (tx + 1)) (Z.to_nat (ty + 1))).
Proof.
  intros Hd Hx Hy. destruct (new_cave depth (tx, ty)) as [c|e] eqn:Ec.
  - destruct (new_cave_spec _ _ _ Ec) as (_ & Ht & _ & Hg). exists c. split; [done|].
    pose proof (risk_level_inv depth c) as H. rewrite Ht in H. apply H; [lia|lia|].
    intros x y Hx' Hy'. rewrite Hg, bool_decide_true by (simpl; lia). done.
  - unfold new_cave in Ec. destruct (generate_grid_spec depth (tx, ty) (tx * 3) (ty * 3) Hd) as (st & Hgen & _).
    simpl in Ec. rewrite Hgen in Ec. discriminate.
Qed.

Lemma risk_level_correct_witness :
  exists c, new_cave 510 (10, 10) = Ok c /\ risk_level c = Ok (rect_risk 510 (10, 10) (Z.to_nat (10 + 1)) (Z.to_nat (10 + 1))).
Proof. apply risk_level_correct; lia. Defined.

(** C20: building the graph of [rescue_time] never raises on a cave, and
    every edge follows the puzzle's rules: its two nodes are regions with
    an item their types allow, and it either switches to the other item
    in place with weight 7 or moves to an adjacent region with the same
    item with weight 1. *)
Theorem rescue_graph_ok depth tgt c :
  new_cave depth tgt = Ok c -> exists g, rescue_graph c = Ok g /\ Forall (edge_ok c) g.
Proof.
  intros Hc. pose proof (new_cave_typed _ _ _ Hc) as Hty. destruct (new_cave_spec _ _ _ Hc) as (_ & _ & Hb & Hg).
  unfold rescue_graph. rewrite Hb. simpl. apply res_fold_total; [constructor|]. intros g y Hy Hgo.
  apply res_fold_total; [done|]. intros g' x Hx Hg'. apply in_py_range in Hx, Hy.
  destruct (cell_edges_ok c x y (tile_ref (erosion_ref depth tgt (Z.to_nat x) (Z.to_nat y))) Hty) as (es & -> & Hes).
  { rewrite Hg, bool_decide_true by lia. done. }
  cbn [res_bind]. eexists; split; [done|]. apply Forall_app; done.
Qed.

Lemma rescue_graph_ok_witness :
  exists c, new_cave 510 (2, 2) = Ok c /\ exists g, rescue_graph c = Ok g /\ Forall (edge_ok c) g.
Proof.
  eexists; split; [vm_compute; reflexivity|]. apply (rescue_graph_ok 510 (2, 2)). vm_compute. reflexivity.
Defined.

(** C21: a target on an axis ([x = 0] or [y = 0]) makes [bounds] empty in
    that direction, so the grid is empty and [risk_level] raises
    [KeyError] at the mouth, although the puzzle allows such targets. *)
Theorem axis_target_KeyError depth tx ty :
  depth <> 0 -> 0 <= tx -> 0 <= ty -> tx = 0 \/ ty = 0 ->
  exists c, new_cave depth (tx, ty) = Ok c /\ risk_level c = Err KeyError.
Proof.
  intros Hd Hx Hy Haxis. destruct (generate_grid_spec depth (tx, ty) (tx * 3) (ty * 3) Hd) as (st & Hgen & Hinv).
  eexists. split; [unfold new_cave; simpl; rewrite Hgen; done|].
  unfold risk_level. simpl. rewrite (py_range_cons 0 (ty + 1)), (py_range_cons 0 (tx + 1)) by lia.
  unfold risk_cell, getitem. simpl. rewrite (proj2 (Hinv (0, 0))), bool_decide_false by (simpl; lia). done.
Qed.

Lemma axis_target_KeyError_witness :
  exists c, new_cave 510 (0, 10) = Ok c /\ risk_level c = Err KeyError.
Proof. apply axis_target_KeyError; lia. Defined.

(** [test_sample_cave_risk]: depth 510 and target [(10, 10)] give risk
    level 114; the grid is 30 by 30 and the graph of [rescue_time] is
    built from 5578 [add_edge] calls. *)
Lemma mode_maze_tests :
  (c <- new_cave 510 (10, 10) ;; risk_level c) = Ok 114 /\
  (c <- new_cave 510 (10, 10) ;; Ok (length (map_to_list (grid c)))) = Ok 900%nat /\
  (c <- new_cave 510 (10, 10) ;; g <- rescue_graph c ;; Ok (length g)) = Ok 5578%nat.
Proof. split_and!; vm_compute; reflexivity. Qed.

End ModeMaze.
