(* ===== verification/Day13.v ===== *)
(** * Day 13: Mine Cart Madness (src/day_13.py)

    [MineCartMap.map_from_filepath] reads the track as a list of
    character lists, records a [Cart] for every cart character and puts
    the track under it back in place.  [step] (one tick) sorts the carts
    by [(y, x)] and moves each in turn: one square in its direction, a
    collision test against every cart of the sorted list, then a turn on
    a curve or an intersection.  [Cart.turn] turns left, goes straight
    and turns right at successive intersections.

    The carts are mutable objects shared by [self.carts] and the sorted
    list [ordered_carts]; a collision removes both carts from
    [self.carts] only.  The model keeps that aliasing: [store] holds the
    [Cart] objects, [carts] and the sorted list hold references (indices
    into [store]).  So a cart removed in a collision is still in the
    sorted list and still moves in that tick, as in the code, and
    [list.remove] raises [ValueError] when a cart is removed twice.  An
    exception ends the caller's loop, so the state it leaves is not
    modelled. *)

From Stdlib Require Import ZArith Ascii String Lia.
From stdpp Require Import base list strings.
From S2P Require Import Prelude PySort.

Open Scope Z_scope.
Open Scope py_scope.

Module MineCartMadness.

Abbreviation Point := (Z * Z)%type.

(** [Cart]. *)
Record Cart := mkCart { char : ascii; point : Point; intersections : Z }.

#[global] Instance Cart_inhabited : Inhabited Cart := populate (mkCart "?" (0, 0) 0).

(** [Cart.turn_order]: successive left turns. *)
Definition turn_order : list ascii := [">"; "^"; "<"; "v"]%char.

(** [Cart.turn]. *)
Definition turn (c : Cart) : res Cart :=
  let cycle := intersections c mod 3 in
  curr <- py_list_index (char c) turn_order ;;
  let delta := if cycle =? 0 then 1 else if cycle =? 1 then 0 else if cycle =? 2 then -1 else 0 in
  ch <- py_get turn_order ((curr + delta) mod 4) ;;
  Ok (mkCart ch (point c) (intersections c + 1)).

(** The objects, the references in [self.carts], the track and the
    crash sites. *)
Record MineCartMap := {
  store : list Cart; carts : list nat; lines : list (list ascii); collisions : list Point
}.

Definition cart_chars : list ascii := ["v"; "^"; ">"; "<"]%char.

Definition enumerate {A} (l : list A) : list (Z * A) := zip (map Z.of_nat (seq 0 (length l))) l.

(** The loop body of [map_from_filepath] at [(x, y)]. *)
Definition scan_cell (m : MineCartMap) (y x : Z) (c : ascii) : res MineCartMap :=
  if bool_decide (c ∈ cart_chars) then
    track <- (if Ascii.eqb c ">" || Ascii.eqb c "<" then Ok "-"%char
              else if Ascii.eqb c "^" || Ascii.eqb c "v" then Ok "|"%char
              else Err (PyException "unknown cart character")) ;;
    row <- py_get (lines m) y ;; row' <- py_set row x track ;; ls <- py_set (lines m) y row' ;;
    Ok {| store := store m ++ [mkCart c (x, y) 0]; carts := carts m ++ [length (store m)];
          lines := ls; collisions := collisions m |}
  else Ok m.

(** [MineCartMap.map_from_filepath] on the lines [readlines] returns. *)
Definition map_from_lines (raw : list string) : res MineCartMap :=
  let ls := map list_ascii_of_string raw in
  res_fold (fun m yl => res_fold (fun m xc => scan_cell m yl.1 xc.1 xc.2) (enumerate yl.2) m)
           (enumerate ls) {| store := []; carts := []; lines := ls; collisions := [] |}.

(** The move at the start of a cart's turn in [step]. *)
Definition move (c : Cart) : Cart :=
  let '(x, y) := point c in
  if Ascii.eqb (char c) ">" then mkCart (char c) (x + 1, y) (intersections c)
  else if Ascii.eqb (char c) "<" then mkCart (char c) (x - 1, y) (intersections c)
  else if Ascii.eqb (char c) "^" then mkCart (char c) (x, y - 1) (intersections c)
  else if Ascii.eqb (char c) "v" then mkCart (char c) (x, y + 1) (intersections c)
  else c.

(** The curves: ["/"] and ["\"]. *)
Definition slash (ch : ascii) : ascii :=
  if Ascii.eqb ch "<" then "v" else if Ascii.eqb ch "^" then ">"
  else if Ascii.eqb ch ">" then "^" else if Ascii.eqb ch "v" then "<" else ch.

Definition backslash (ch : ascii) : ascii :=
  if Ascii.eqb ch ">" then "v" else if Ascii.eqb ch "^" then "<"
  else if Ascii.eqb ch "<" then "^" else if Ascii.eqb ch "v" then ">" else ch.

Definition set_cart (m : MineCartMap) (i : nat) (c : Cart) : MineCartMap :=
  {| store := <[i := c]> (store m); carts := carts m; lines := lines m; collisions := collisions m |}.

(** [for other in ordered_carts:] after cart [i] moved. *)
Definition collide (i : nat) (m : MineCartMap) (other : nat) : res MineCartMap :=
  if negb (Nat.eqb other i) && bool_decide (point (store m !!! other) = point (store m !!! i)) then
    cs <- py_list_remove other (carts m) ;; cs' <- py_list_remove i cs ;;
    Ok {| store := store m; carts := cs'; lines := lines m;
          collisions := collisions m ++ [point (store m !!! i)] |}
  else Ok m.

(** The turn of cart [i] in a tick. *)
Definition step_cart (ordered : list nat) (m : MineCartMap) (i : nat) : res MineCartMap :=
  let c := move (store m !!! i) in
  m1 <- res_fold (collide i) ordered (set_cart m i c) ;;
  row <- py_get (lines m1) (point c).2 ;; track <- py_get row (point c).1 ;;
  c' <- (if Ascii.eqb track "/" then Ok (mkCart (slash (char c)) (point c) (intersections c))
         else if Ascii.eqb track "\" then Ok (mkCart (backslash (char c)) (point c) (intersections c))
         else if Ascii.eqb track "+" then turn c
         else Ok c) ;;
  Ok (set_cart m1 i c').

(** [key=lambda c: (c.point.y, c.point.x)]. *)
Definition yx_le (p q : Point) : bool := (p.2 <? q.2) || (p.2 =? q.2) && (p.1 <=? q.1).

(** [MineCartMap.step]. *)
Definition step (m : MineCartMap) : res MineCartMap :=
  let ordered := sort_by (fun a b => yx_le (point (store m !!! a)) (point (store m !!! b))) (carts m) in
  res_fold (step_cart ordered) ordered m.

(** [while not collisions: step()] of [test_collision]; [None] is fuel
    exhaustion. *)
Fixpoint until_collision (fuel : nat) (m : MineCartMap) : option (res MineCartMap) :=
  match collisions m, fuel with
  | _ :: _, _ => Some (Ok m)
  | [], O => None
  | [], S fuel' => match step m with Ok m' => until_collision fuel' m' | Err e => Some (Err e) end
  end.

(** [while len(carts) > 1: step()] of [test_removal]. *)
Fixpoint until_one_left (fuel : nat) (m : MineCartMap) : option (res MineCartMap) :=
  match fuel with
  | O => None
  | S fuel' =>
      if (1 <? length (carts m))%nat then
        match step m with Ok m' => until_one_left fuel' m' | Err e => Some (Err e) end
      else Some (Ok m)
  end.

(** The example of part 2 of the puzzle, as [readlines] returns it. *)
Definition sample_lines_2 : list string :=
  map (fun l => (l ++ String "010" EmptyString)%string)
    ["/>-<\  "; "|   |  "; "| /<+-\"; "| | | v"; "\>+</ |"; "  |   ^"; "  \<->/"].

(** The longer example of the puzzle text, as [readlines] returns it:
    each line ends in a newline. *)
Definition sample_lines : list string :=
  map (fun l => (l ++ String "010" EmptyString)%string)
    ["/->-\        "; "|   |  /----\"; "| /-+--+-\  |"; "| | |  | v  |"; "\-+-/  \-+--/"; "  \------/   "].

(** ** Specification *)

(** The puzzle's turns at an intersection: left, straight, right. *)
Definition turn_left (ch : ascii) : ascii :=
  if Ascii.eqb ch ">" then "^" else if Ascii.eqb ch "^" then "<" else if Ascii.eqb ch "<" then "v" else ">".

Definition turn_right (ch : ascii) : ascii :=
  if Ascii.eqb ch ">" then "v" else if Ascii.eqb ch "v" then "<" else if Ascii.eqb ch "<" then "^" else ">".

(** Every reference of [carts] is a distinct object of [store]. *)
Definition map_wf (m : MineCartMap) : Prop :=
  NoDup (carts m) /\ Forall (fun i => (i < length (store m))%nat) (carts m).

(** Carts and crashes: each crash takes two carts. *)
Definition cart_count (m : MineCartMap) : nat := (length (carts m) + 2 * length (collisions m))%nat.

(** ** Lemmas *)

(** What a step keeps: the references stay well formed, no cart is
    lost but in a crash, and no object is created. *)
Definition step_inv (m0 m : MineCartMap) : Prop :=
  map_wf m /\ cart_count m = cart_count m0 /\ length (store m) = length (store m0).

(** While the map is read, [carts] refers to every object created, in
    order, and nothing has crashed. *)
Definition scan_inv (m : MineCartMap) : Prop := carts m = seq 0 (length (store m)) /\ collisions m = [].

Lemma remove_wf (x : nat) (xs ys : list nat) n :
  NoDup xs -> Forall (fun i => (i < n)%nat) xs -> py_list_remove x xs = Ok ys ->
  NoDup ys /\ Forall (fun i => (i < n)%nat) ys /\ length xs = S (length ys).
Proof.
  intros Hnd Hb (l1 & l2 & -> & _ & ->)%py_list_remove_Ok.
  rewrite <- Permutation_middle in Hnd, Hb. apply NoDup_cons in Hnd as [_ Hnd].
  apply Forall_cons in Hb as [_ Hb]. rewrite !length_app. simpl. split_and!; [done|done|lia].
Qed.

Lemma collide_inv m0 i m other m' :
  step_inv m0 m -> collide i m other = Ok m' -> step_inv m0 m'.
Proof.
  intros (Hwf & Hc & Hs). unfold collide. destruct (_ && _); [|intros [= <-]; done].
  destruct (py_list_remove other (carts m)) as [cs|] eqn:E1; [|discriminate]. simpl.
  destruct (py_list_remove i cs) as [cs'|] eqn:E2; [|discriminate]. simpl. intros [= <-].
  destruct Hwf as [Hnd Hb]. destruct (remove_wf _ _ _ _ Hnd Hb E1) as (Hnd1 & Hb1 & Hl1).
  destruct (remove_wf _ _ _ _ Hnd1 Hb1 E2) as (Hnd2 & Hb2 & Hl2).
  split_and!; [split; done| |done]. rewrite <- Hc. unfold cart_count. simpl. rewrite length_app. simpl. lia.
Qed.

Lemma set_cart_inv m0 m i c : step_inv m0 m -> step_inv m0 (set_cart m i c).
Proof. intros ([Hnd Hb] & Hc & Hs). unfold set_cart, step_inv, map_wf, cart_count. simpl. rewrite length_insert. done. Qed.

Lemma step_cart_inv m0 ordered m i m' :
  step_inv m0 m -> step_cart ordered m i = Ok m' -> step_inv m0 m'.
Proof.
  intros Hinv. unfold step_cart.
  destruct (res_fold (collide i) ordered _) as [m1|] eqn:E; [|discriminate]. simpl.
  assert (H1 : step_inv m0 m1).
  { revert E. apply res_fold_inv; [apply set_cart_inv, Hinv|]. intros; eapply collide_inv; eauto. }
  destruct (py_get (lines m1) _) as [row|]; [|discriminate]. simpl.
  destruct (py_get row _) as [track|]; [|discriminate]. simpl.
  destruct (if Ascii.eqb track "/" then _ else _) as [c'|]; [|discriminate]. simpl.
  intros [= <-]. apply set_cart_inv, H1.
Qed.

Lemma step_inv_refl m : map_wf m -> step_inv m m.
Proof. intros Hwf. split_and!; done. Qed.

Lemma step_preserves m m' : map_wf m -> step m = Ok m' -> step_inv m m'.
Proof.
  intros Hwf. unfold step. apply res_fold_inv; [apply step_inv_refl, Hwf|].
  intros; eapply step_cart_inv; eauto.
Qed.

Lemma scan_cell_inv m y x c m' : scan_inv m -> scan_cell m y x c = Ok m' -> scan_inv m'.
Proof.
  intros [Hc Hcol]. unfold scan_cell. destruct (bool_decide _); [|intros [= <-]; split; done].
  destruct (if Ascii.eqb c ">" || Ascii.eqb c "<" then _ else _) as [t|]; [|discriminate]. simpl.
  destruct (py_get (lines m) y) as [row|]; [|discriminate]. simpl.
  destruct (py_set row x t) as [row'|]; [|discriminate]. simpl.
  destruct (py_set (lines m) y row') as [ls|]; [|discriminate]. simpl. intros [= <-].
  split; [|done]. simpl. rewrite Hc, length_app, Nat.add_1_r, seq_S. done.
Qed.

Lemma map_from_lines_inv raw m : map_from_lines raw = Ok m -> scan_inv m.
Proof.
  unfold map_from_lines. apply res_fold_inv; [split; done|]. intros m1 yl m2 _ H1.
  apply res_fold_inv; [done|]. intros; eapply scan_cell_inv; eauto.
Qed.

Lemma scan_inv_wf m : scan_inv m -> map_wf m.
Proof.
  intros [Hc _]. unfold map_wf. rewrite Hc. split; [apply NoDup_seq|].
  apply Forall_forall. intros i Hi%list_elem_of_In%in_seq. lia.
Qed.

Lemma until_one_left_inv fuel m0 m m' :
  step_inv m0 m -> until_one_left fuel m = Some (Ok m') -> step_inv m0 m'.
Proof.
  revert m. induction fuel as [|fuel IH]; intros m Hinv; cbn [until_one_left]; [discriminate|].
  destruct (1 <? length (carts m))%nat; [|intros [= <-]; done].
  destruct (step m) as [m1|] eqn:E; [|discriminate]. apply IH.
  destruct (step_preserves m m1 (proj1 Hinv) E) as (Hwf & Hc & Hs). destruct Hinv as (_ & Hc0 & Hs0).
  split_and!; [done|congruence|congruence].
Qed.

(** ** Properties *)

(** C12: every crash removes exactly two carts.  Along [test_removal]'s
    loop [while len(carts) > 1: step()] on a map read from any lines, the
    references in [carts] stay distinct objects, and the carts left plus
    twice the crash sites recorded is the number of carts read. *)
Theorem removal_loop_conserves raw m0 fuel m :
  map_from_lines raw = Ok m0 -> until_one_left fuel m0 = Some (Ok m) ->
  map_wf m /\ (length (carts m) + 2 * length (collisions m) = length (carts m0))%nat.
Proof.
  intros H0 Hm. pose proof (map_from_lines_inv raw m0 H0) as Hs.
  destruct (until_one_left_inv fuel m0 m0 m (step_inv_refl m0 (scan_inv_wf m0 Hs)) Hm) as (Hwf & Hc & _).
  split; [done|]. unfold cart_count in Hc. rewrite (proj2 Hs) in Hc. simpl in Hc. lia.
Qed.

Lemma removal_loop_conserves_witness :
  exists m0 m, map_from_lines sample_lines_2 = Ok m0 /\ until_one_left 20 m0 = Some (Ok m) /\
    map_wf m /\ (length (carts m) + 2 * length (collisions m) = length (carts m0))%nat.
Proof.
  do 2 eexists. split; [vm_compute; reflexivity|]. split; [vm_compute; reflexivity|].
  apply (removal_loop_conserves sample_lines_2 _ 20); vm_compute; reflexivity.
Defined.

(** [Cart.turn] follows the puzzle's rule: at its first, fourth,
    ... intersection a cart turns left, at the second, fifth, ... it goes
    straight and at the third, sixth, ... it turns right ([turn_order]
    lists successive left turns, and [(curr + delta) % 4] walks it). *)
Theorem turn_spec c :
  char c ∈ cart_chars ->
  turn c = Ok (mkCart (let k := intersections c mod 3 in
                       if k =? 0 then turn_left (char c) else if k =? 1 then char c else turn_right (char c))
                      (point c) (intersections c + 1)).
Proof.
  destruct c as [ch p n]. cbn [char point intersections]. intros Hch. unfold turn. cbn [char point intersections].
  pose proof (Z.mod_pos_bound n 3 ltac:(lia)) as Hk. remember (n mod 3) as k eqn:Ek. clear Ek.
  destruct (Z.eqb_spec k 0) as [->|H0]; [|destruct (Z.eqb_spec k 1) as [->|H1]; [|assert (k = 2) as -> by lia]];
    repeat (apply elem_of_cons in Hch as [->|Hch]; [reflexivity|]); apply elem_of_nil in Hch; done.
Qed.

Lemma turn_spec_witness :
  char (mkCart "v" (0, 0) 4) ∈ cart_chars /\ turn (mkCart "v" (0, 0) 4) = Ok (mkCart "v" (0, 0) 5).
Proof.
  split; [apply (bool_decide_unpack _); reflexivity|].
  rewrite turn_spec by (apply (bool_decide_unpack _); reflexivity). reflexivity.
Defined.

(** A cart removed in a crash is still in the tick's sorted list, so
    it keeps moving in that tick and can be hit again: on the track
    [><<-] the first two carts crash at (1, 0), and when the third cart
    enters (1, 0) it collides with the removed first cart and
    [self.carts.remove(other)] raises [ValueError].  In the puzzle the
    crashed carts are gone at once and the third cart drives on. *)
Theorem crashed_cart_collides_again :
  (m <- map_from_lines ["><<-"%string] ;; step m) = Err ValueError.
Proof. vm_compute. reflexivity. Qed.

(** [test_collision] and [test_removal] on the puzzle's examples: the
    first crash of the longer example is at (7, 3), and the last cart of
    the part-2 example ends at (6, 4). *)
Lemma mine_cart_tests :
  (m <- map_from_lines sample_lines ;;
   Ok (match until_collision 20 m with Some (Ok m') => head (collisions m') | _ => None end)) = Ok (Some (7, 3)) /\
  (m <- map_from_lines sample_lines_2 ;;
   Ok (match until_one_left 20 m with
       | Some (Ok m') => option_map (fun i => point (store m' !!! i)) (head (carts m')) | _ => None end))
  = Ok (Some (6, 4)).
Proof. split; vm_compute; reflexivity. Qed.

End MineCartMadness.
