(* ===== verification/Day17.v ===== *)
(** * Day 17: Reservoir Research (src/day_17.py)

    [Reservoir.reservoir_from_file] reads the clay veins ([ClayLine]) into
    a [defaultdict] grid ([#] clay, default [.] sand) and fixes [bounds]
    once.  [fill] pours water from the spring with a stack of points and a
    [traversed] set: a point above sand falls ([|]) down to the bounds,
    then the water flows left and right ([flow]) until it can fall or
    meets a wall; a row closed on both sides settles ([~]) and the point
    above is pushed.  [wet_count] and [settled_count] count the water
    between the topmost clay and [max_y].

    The grid is a [gmap] of characters read with the default [.].  The
    [defaultdict] also inserts [.] on each read of a missing point; the
    model does not, which no later read and no count can observe (a [.]
    entry reads as an absent one, and the counts skip it; see
    [wet_count_insert_sand]).  The inner loops run on fuel: the fall
    down to [max_y + 1] with the exact number of rows ([pour_total]),
    [flow] and [settle] with [size grid + 1] steps, enough for [flow]
    since each step stands on a distinct known cell ([flow_total]), and
    the outer loop with a given fuel, since nothing bounds the water's
    path in [x].  [clay_wall_washed_out] shows the order of [flow]'s
    tests letting water through a wall with sand below it. *)

From Stdlib Require Import ZArith Ascii String Lia.
From stdpp Require Import base list gmap strings.
From S2P Require Import Prelude Decoding.

Open Scope Z_scope.
Open Scope py_scope.

Module ReservoirResearch.

Abbreviation Point := (Z * Z)%type.

(** The day's [number_grabber]: [re.findall(r"\d+", s)], no signs. *)
Definition number_grabber (s : string) : list Z := grab false s.

Record Bounds := { min_y : Z; max_y : Z; min_x : Z; max_x : Z }.

(** [Point.__add__] and the properties [down], [right], [up]. *)
Definition point_add (p q : Point) : Point := (p.1 + q.1, p.2 + q.2).
Definition down (p : Point) : Point := (p.1, p.2 + 1).
Definition right_of (p : Point) : Point := (p.1 + 1, p.2).
Definition up (p : Point) : Point := (p.1, p.2 - 1).

Definition left : Point := (-1, 0).
Definition right : Point := (1, 0).

(** [ClayLine(numbers, axis).points]. *)
Definition clay_line (numbers : list Z) (axis : ascii) : res (gset Point) :=
  if Ascii.eqb axis "x" then
    x <- py_get numbers 0 ;; y <- py_get numbers 1 ;; end_ <- py_get numbers 2 ;;
    Ok (list_to_set ((fun i => (x, i)) <$> py_range y (end_ + 1)))
  else
    y <- py_get numbers 0 ;; x <- py_get numbers 1 ;; end_ <- py_get numbers 2 ;;
    Ok (list_to_set ((fun i => (i, y)) <$> py_range x (end_ + 1))).

Record Reservoir := { spring : Point; grid : gmap Point ascii; bounds : option Bounds }.

(** [self.grid[p]] on the [defaultdict]. *)
Definition dd_get (g : gmap Point ascii) (p : Point) : ascii := default "."%char (g !! p).

(** [Reservoir._bounds]. *)
Definition compute_bounds (spring : Point) (g : gmap Point ascii) : res Bounds :=
  let points := elements (dom g ∪ {[spring]}) in
  min_x <- py_min (fst <$> points) ;; max_x <- py_max (fst <$> points) ;;
  min_y <- py_min (snd <$> points) ;; max_y <- py_max (snd <$> points) ;;
  Ok {| min_y := min_y; max_y := max_y; min_x := min_x; max_x := max_x |}.

(** [Reservoir.reservoir_from_file] on the lines of the file. *)
Definition reservoir_from_lines (raw : list string) : res Reservoir :=
  let lines := strip <$> raw in
  all_clay <- res_fold (fun all_clay line =>
                          axis <- py_get (list_ascii_of_string line) 0 ;;
                          clay <- clay_line (number_grabber line) axis ;;
                          Ok (all_clay ∪ clay)) lines ∅ ;;
  let g := foldr (fun p g => <[p := "#"%char]> g) ∅ (elements all_clay) in
  b <- compute_bounds (500, 0) g ;;
  Ok {| spring := (500, 0); grid := g; bounds := Some b |}.

(** ** [fill] *)

Definition passable (g : gmap Point ascii) (p : Point) : bool :=
  Ascii.eqb (dd_get g p) "|" || Ascii.eqb (dd_get g p) ".".

Definition in_bounds (b : Bounds) (p : Point) : bool := (p.2 <=? max_y b + 1) && (min_y b <=? p.2).

Definition valid (b : Bounds) (g : gmap Point ascii) (p : Point) : bool := passable g p && in_bounds b p.

(** The state of [fill]: the grid, the stack (its top first) and
    [traversed]. *)
Record FillState := { fgrid : gmap Point ascii; stack : list Point; traversed : gset Point }.

(** [fall(point)]. *)
Definition fall (b : Bounds) (st : FillState) (point : Point) : FillState :=
  let g := <[point := "|"%char]> (fgrid st) in
  let d := down point in
  if valid b g d && negb (bool_decide (d ∈ traversed st)) then
    {| fgrid := g; stack := d :: stack st; traversed := {[d]} ∪ traversed st |}
  else {| fgrid := g; stack := stack st; traversed := traversed st |}.

(** [flow(point, direction)]: [Some (state, enclosed)], [None] when
    the fuel runs out. *)
Fixpoint flow (fuel : nat) (b : Bounds) (st : FillState) (step direction : Point) : option (FillState * bool) :=
  match fuel with
  | O => None
  | S fuel' =>
      if passable (fgrid st) (down step) then Some (fall b st step, false)
      else if negb (in_bounds b step) then Some (st, false)
      else if negb (passable (fgrid st) step) then Some (st, true)
      else flow fuel' b {| fgrid := <[step := "|"%char]> (fgrid st); stack := stack st; traversed := traversed st |}
                (point_add step direction) direction
  end.

(** [settle(point, direction)]. *)
Fixpoint settle (fuel : nat) (b : Bounds) (g : gmap Point ascii) (step direction : Point) : option (gmap Point ascii) :=
  match fuel with
  | O => None
  | S fuel' =>
      if valid b g step then settle fuel' b (<[step := "~"%char]> g) (point_add step direction) direction
      else Some g
  end.

(** [while valid(node): self.grid[node] = '|'; node = node.down]. *)
Fixpoint pour (fuel : nat) (b : Bounds) (g : gmap Point ascii) (node : Point) : option (gmap Point ascii) :=
  match fuel with
  | O => None
  | S fuel' => if valid b g node then pour fuel' b (<[node := "|"%char]> g) (down node) else Some g
  end.

Definition pour_fuel (b : Bounds) (node : Point) : nat := S (Z.to_nat (max_y b + 2 - node.2)).

Definition flow_fuel (g : gmap Point ascii) : nat := S (size g).

(** One iteration of [while stack]. *)
Definition fill_step (b : Bounds) (st : FillState) : option FillState :=
  match stack st with
  | [] => Some st
  | curr :: rest =>
      let st := {| fgrid := fgrid st; stack := rest; traversed := traversed st |} in
      g1 ← (if passable (fgrid st) (down curr) then pour (pour_fuel b curr) b (fgrid st) curr
             else Some (fgrid st)) ;
      let st1 := {| fgrid := g1; stack := stack st; traversed := traversed st |} in
      '(st2, closed_left) ← flow (flow_fuel g1) b st1 curr left ;
      '(st3, closed_right) ← flow (flow_fuel (fgrid st2)) b st2 curr right ;
      if closed_left && closed_right then
        g4 ← settle (flow_fuel (fgrid st3)) b (fgrid st3) curr left ;
        g5 ← settle (flow_fuel g4) b g4 (right_of curr) right ;
        Some {| fgrid := g5; stack := up curr :: stack st3; traversed := traversed st3 |}
      else Some st3
  end.

(** [while stack:]: [None] when a loop runs out of its fuel. *)
Fixpoint fill_loop (fuel : nat) (b : Bounds) (st : FillState) : option FillState :=
  match fuel, stack st with
  | _, [] => Some st
  | O, _ :: _ => None
  | S fuel', _ :: _ => st' ← fill_step b st ; fill_loop fuel' b st'
  end.

(** [Reservoir.fill]: [AttributeError] when [bounds] is unset. *)
Definition fill (fuel : nat) (r : Reservoir) : res (option Reservoir) :=
  match bounds r with
  | None => Err AttributeError
  | Some b =>
      let first := ((spring r).1, (spring r).2 + 1) in
      Ok (st ← fill_loop fuel b {| fgrid := grid r; stack := [first]; traversed := ∅ |} ;
          Some {| spring := spring r; grid := fgrid st; bounds := bounds r |})
  end.

(** ** Counts *)

(** The [y] of the topmost clay: [min] of an empty sequence raises
    [ValueError]. *)
Definition min_clay (g : gmap Point ascii) : res Z :=
  py_min ((fun pc => pc.1.2) <$> filter (fun pc => pc.2 = "#"%char) (map_to_list g)).

Definition count_in (chars : list ascii) (r : Reservoir) : res nat :=
  match bounds r with
  | None => Err AttributeError
  | Some b =>
      mc <- min_clay (grid r) ;;
      Ok (length (filter (fun pc => bool_decide (pc.2 ∈ chars) && (mc <=? pc.1.2) && (pc.1.2 <=? max_y b))
                         (map_to_list (grid r))))
  end.

(** [wet_count] and [settled_count]. *)
Definition wet_count (r : Reservoir) : res nat := count_in ["|"; "~"]%char r.
Definition settled_count (r : Reservoir) : res nat := count_in ["~"]%char r.

(** The example of the puzzle text. *)
Definition sample_lines : list string :=
  ["x=495, y=2..7"; "y=7, x=495..501"; "x=501, y=3..7"; "x=498, y=2..4";
   "x=506, y=1..2"; "x=498, y=10..13"; "x=504, y=10..13"; "y=13, x=498..504"].

(** A leaking basin: walls at [x = 497] and [x = 502] down to [y = 5],
    a floor at [y = 6] from [x = 498] to [501]; the walls' lowest cells
    have sand below them. *)
Definition basin_lines : list string := ["x=502, y=1..5"; "y=6, x=498..501"; "x=497, y=1..5"].

(** [self.grid] with a [.] inserted at [p], as a [defaultdict] read of
    a missing point leaves it. *)
Definition with_sand (r : Reservoir) (p : Point) : Reservoir :=
  {| spring := spring r; grid := <[p := "."%char]> (grid r); bounds := bounds r |}.

(** The [k]-th cell from [step] in the direction [d]. *)
Definition walk_pt (step d : Point) (k : nat) : Point := (step.1 + Z.of_nat k * d.1, step.2 + Z.of_nat k * d.2).

(** The known cells of the row below [step] from [step] on in the
    direction [d]: a [flow] that goes on stands on one of them. *)
Definition ahead (g : gmap Point ascii) (step d : Point) : gset Point :=
  filter (fun q => q.2 = step.2 + 1 /\ 0 <= (q.1 - step.1) * d.1) (dom g).

(** ** Lemmas *)

Lemma not_passable_known g p : passable g p = false -> p ∈ dom g.
Proof.
  unfold passable, dd_get. intros H. apply elem_of_dom.
  destruct (g !! p); [done|]. discriminate H.
Qed.

Lemma ahead_shrinks g step d c :
  d = left \/ d = right -> down step ∈ dom g ->
  ahead (<[step := c]> g) (point_add step d) d ⊂ ahead g step d.
Proof.
  intros Hd Hdown. unfold ahead. apply strict_spec_alt. split.
  - intros q. rewrite !elem_of_filter, dom_insert_L, elem_of_union, elem_of_singleton.
    destruct Hd as [-> | ->]; simpl; intros [[Hy Hx] [->|Hq]]; [lia| |lia|]; split; auto; lia.
  - intros Heq. assert (Hin : down step ∈ filter (fun q => q.2 = step.2 + 1 /\ 0 <= (q.1 - step.1) * d.1) (dom g)).
    { apply elem_of_filter. unfold down. simpl. split; [lia|done]. }
    rewrite <- Heq, elem_of_filter in Hin. destruct Hin as [[_ Hx] _].
    destruct Hd as [-> | ->]; unfold down in Hx; simpl in Hx; lia.
Qed.

Lemma flow_enough n b st step d :
  d = left \/ d = right -> (size (ahead (fgrid st) step d) < n)%nat ->
  exists r, flow n b st step d = Some r.
Proof.
  intros Hd. revert st step. induction n as [|n IH]; intros st step Hn; [lia|]. cbn [flow].
  destruct (passable _ (down step)) eqn:Hdown; [eauto|].
  destruct (negb (in_bounds b step)); [eauto|]. destruct (negb (passable _ step)); [eauto|].
  apply IH. cbn [fgrid].
  pose proof (subset_size _ _ (ahead_shrinks (fgrid st) step d "|"%char Hd (not_passable_known _ _ Hdown))).
  lia.
Qed.


Lemma pour_enough b n g node :
  (Z.to_nat (max_y b + 2 - node.2) < n)%nat -> exists g', pour n b g node = Some g'.
Proof.
  revert g node. induction n as [|n IH]; intros g node Hn; [lia|]. cbn [pour].
  destruct (valid b g node) eqn:Ev; [|eauto]. apply andb_true_iff in Ev as [_ Hin].
  unfold in_bounds in Hin. apply andb_true_iff in Hin as [Hy _]. apply Z.leb_le in Hy.
  apply IH. unfold down. simpl. lia.
Qed.

Lemma dd_get_insert_sand g p q : g !! p = None -> dd_get (<[p := "."%char]> g) q = dd_get g q.
Proof.
  intros Hp. unfold dd_get. rewrite lookup_insert. case_decide as E; [subst; rewrite Hp|]; done.
Qed.

Lemma min_clay_insert_sand g p : g !! p = None -> min_clay (<[p := "."%char]> g) = min_clay g.
Proof.
  intros Hp. unfold min_clay. rewrite (map_to_list_insert _ _ _ Hp), filter_cons_False; [done|]. done.
Qed.

Lemma dd_get_insert_ne g p q c : p <> q -> dd_get (<[p := c]> g) q = dd_get g q.
Proof. intros Hne. unfold dd_get. rewrite lookup_insert_ne; done. Qed.

Lemma passable_insert_ne g p q c : p <> q -> passable (<[p := c]> g) q = passable g q.
Proof. intros Hne. unfold passable. rewrite !dd_get_insert_ne; done. Qed.

Lemma walk_pt_0 step d : walk_pt step d 0 = step.
Proof. unfold walk_pt. destruct step. simpl. f_equal; lia. Qed.

Lemma walk_pt_S step d k : walk_pt step d (S k) = walk_pt (point_add step d) d k.
Proof. unfold walk_pt, point_add. simpl. f_equal; lia. Qed.

(** Walking along a floor towards a clay cell with sand below it, [flow]
    reaches that cell and [fall] marks it as falling water. *)
Lemma flow_reaches_clay n fuel b st step d :
  d = left \/ d = right -> (n < fuel)%nat ->
  (forall k, (k < n)%nat -> passable (fgrid st) (walk_pt step d k) = true /\
                            passable (fgrid st) (down (walk_pt step d k)) = false /\
                            in_bounds b (walk_pt step d k) = true) ->
  passable (fgrid st) (down (walk_pt step d n)) = true ->
  exists st', flow fuel b st step d = Some (st', false) /\
              dd_get (fgrid st') (walk_pt step d n) = "|"%char.
Proof.
  intros Hd. revert fuel st step. induction n as [|n IH]; intros fuel st step Hf Hwalk Hfall;
    (destruct fuel as [|fuel]; [lia|]); cbn [flow].
  - rewrite walk_pt_0 in Hfall |- *. rewrite Hfall. eexists. split; [reflexivity|].
    unfold fall. destruct (_ && _); cbn [fgrid]; unfold dd_get; rewrite lookup_insert_eq; done.
  - destruct (Hwalk 0%nat ltac:(lia)) as (Hp & Hdn & Hin). rewrite walk_pt_0 in Hp, Hdn, Hin.
    rewrite Hdn, Hin, Hp. simpl. rewrite walk_pt_S.
    assert (Hne : forall k, step <> walk_pt step d (S k) /\ step <> down (walk_pt step d (S k))).
    { intros k. unfold walk_pt, down. destruct step as [sx sy]. destruct Hd as [-> | ->]; simpl; split; intros [=]; lia. }
    apply IH; [lia| |].
    + intros k Hk. cbn [fgrid]. rewrite <- !walk_pt_S.
      destruct (Hne k) as [Hne1 Hne2]. rewrite !passable_insert_ne by done.
      apply (Hwalk (S k)). lia.
    + cbn [fgrid]. rewrite <- walk_pt_S. destruct (Hne n) as [_ Hne2].
      rewrite passable_insert_ne by done. exact Hfall.
Qed.

(** ** Properties *)

(** The fall below a point always ends within its fuel: every cell it
    fills is within the bounds, at most [max_y + 2 - y] of them. *)
Theorem pour_total b g node : exists g', pour (pour_fuel b node) b g node = Some g'.
Proof. apply pour_enough. unfold pour_fuel. lia. Qed.

(** C31: [flow] ends within its fuel of [size grid + 1] steps: each step
    it goes on stands on a distinct known cell of the row below. *)
Theorem flow_total b st step d :
  d = left \/ d = right -> exists r, flow (flow_fuel (fgrid st)) b st step d = Some r.
Proof.
  intros Hd. apply flow_enough; [done|]. unfold flow_fuel, ahead. rewrite <- size_dom.
  assert (Hs : filter (fun q => q.2 = step.2 + 1 /\ 0 <= (q.1 - step.1) * d.1) (dom (fgrid st)) ⊆ dom (fgrid st))
    by (intros q; rewrite elem_of_filter; tauto).
  apply subseteq_size in Hs. lia.
Qed.

Lemma flow_total_witness :
  exists r, flow (flow_fuel ∅) {| min_y := 0; max_y := 3; min_x := 0; max_x := 3 |}
              {| fgrid := ∅; stack := []; traversed := ∅ |} (1, 1) left = Some r.
Proof. apply (flow_total _ {| fgrid := ∅; stack := []; traversed := ∅ |}). left. reflexivity. Defined.

(** Modelling the [defaultdict] without its insertion on reads is
    sound: a [.] entry at a missing point changes no read of the grid and
    neither count. *)
Theorem wet_count_insert_sand r p :
  grid r !! p = None ->
  (forall q, dd_get (grid (with_sand r p)) q = dd_get (grid r) q) /\
  wet_count (with_sand r p) = wet_count r /\ settled_count (with_sand r p) = settled_count r.
Proof.
  intros Hp. split; [intros q; apply dd_get_insert_sand, Hp|].
  unfold wet_count, settled_count, count_in, with_sand. simpl.
  destruct (bounds r) as [b|]; [|done]. rewrite min_clay_insert_sand by done.
  destruct (min_clay (grid r)) as [mc|]; [|done]. cbn [res_bind].
  rewrite (map_to_list_insert _ _ _ Hp).
  split; rewrite filter_cons_False; try done; vm_compute; congruence.
Qed.

Lemma wet_count_insert_sand_witness :
  let r := {| spring := (500, 0); grid := {[(500, 2) := "#"%char]};
              bounds := Some {| min_y := 0; max_y := 2; min_x := 500; max_x := 500 |} |} in
  grid r !! (500, 1) = None /\ wet_count (with_sand r (500, 1)) = wet_count r.
Proof.
  intros r. assert (H : grid r !! (500, 1) = None) by (vm_compute; reflexivity).
  split; [exact H|]. exact (proj1 (proj2 (wet_count_insert_sand r (500, 1) H))).
Defined.

(** [fill] on the example of the puzzle text: 57 tiles are wet and
    29 hold settled water, as the puzzle says. *)
Lemma reservoir_tests :
  (r <- reservoir_from_lines sample_lines ;; o <- fill 200 r ;;
   match o with Some r' => w <- wet_count r' ;; s <- settled_count r' ;; Ok (Some (w, s)) | None => Ok None end)
  = Ok (Some (57%nat, 29%nat)).
Proof. vm_compute. reflexivity. Qed.

(** On [basin_lines] the walls' cells (497, 5) and (502, 5) are washed
    out: their clay becomes [|] and nothing settles, where the puzzle's
    basin would fill. *)
Lemma leaking_basin_test :
  (r <- reservoir_from_lines basin_lines ;; o <- fill 100 r ;;
   match o with
   | Some r' => s <- settled_count r' ;;
       Ok (Some (dd_get (grid r) (497, 5), dd_get (grid r) (502, 5),
                 dd_get (grid r') (497, 5), dd_get (grid r') (502, 5), s))
   | None => Ok None end)
  = Ok (Some ("#", "#", "|", "|", 0%nat))%char.
Proof. vm_compute. reflexivity. Qed.

(** C32: [flow] asks whether the water can fall before it asks whether
    the cell is clay, so a clay wall whose cell has sand below it is
    washed out: flowing along a floor (open cells over non-passable
    ones, within the bounds) from [step] towards a clay cell [n] cells
    away with sand below it, [flow] reaches that cell, overwrites its
    clay with falling water [|], and reports the row as not enclosed. *)
Theorem clay_wall_washed_out fuel b st step d n :
  d = left \/ d = right -> (n < fuel)%nat ->
  (forall k, (k < n)%nat -> passable (fgrid st) (walk_pt step d k) = true /\
                            passable (fgrid st) (down (walk_pt step d k)) = false /\
                            in_bounds b (walk_pt step d k) = true) ->
  dd_get (fgrid st) (walk_pt step d n) = "#"%char ->
  passable (fgrid st) (down (walk_pt step d n)) = true ->
  exists st', flow fuel b st step d = Some (st', false) /\
              dd_get (fgrid st') (walk_pt step d n) = "|"%char.
Proof. intros Hd Hf Hwalk _ Hfall. exact (flow_reaches_clay n fuel b st step d Hd Hf Hwalk Hfall). Qed.

Lemma clay_wall_washed_out_witness :
  let b := {| min_y := 0; max_y := 5; min_x := 0; max_x := 5 |} in
  let st := {| fgrid := {[(2, 1) := "#"%char; (1, 2) := "#"%char]}; stack := []; traversed := ∅ |} in
  (forall k, (k < 1)%nat -> passable (fgrid st) (walk_pt (1, 1) right k) = true /\
                           passable (fgrid st) (down (walk_pt (1, 1) right k)) = false /\
                           in_bounds b (walk_pt (1, 1) right k) = true) /\
  dd_get (fgrid st) (walk_pt (1, 1) right 1) = "#"%char /\
  exists st', flow 5 b st (1, 1) right = Some (st', false) /\
              dd_get (fgrid st') (walk_pt (1, 1) right 1) = "|"%char.
Proof.
  intros b st.
  assert (Hw : forall k, (k < 1)%nat -> passable (fgrid st) (walk_pt (1, 1) right k) = true /\
                           passable (fgrid st) (down (walk_pt (1, 1) right k)) = false /\
                           in_bounds b (walk_pt (1, 1) right k) = true).
  { intros k Hk. destruct k as [|k]; [vm_compute; auto|lia]. }
  assert (Hc : dd_get (fgrid st) (walk_pt (1, 1) right 1) = "#"%char) by (vm_compute; reflexivity).
  split_and!; [exact Hw|exact Hc|].
  apply (clay_wall_washed_out 5 b st (1, 1) right 1); [right; reflexivity|lia|exact Hw|exact Hc|vm_compute; reflexivity].
Defined.

End ReservoirResearch.
