(* ===== verification/Day15Path.v ===== *)
(** * Day 15: the path search of [Cavern.find_path] (src/day_15.py)

    [find_path(start, goal)] is the A* search of the "straight wikipedia"
    pseudo-code over the cavern's [lines]: an [open_set] and a
    [closed_set], [came_from], and the [g_score]/[f_score] defaultdicts
    (default [10e6]) with the Manhattan heuristic.  Each iteration picks
    the first point of [open_set], in the set's iteration order, whose
    [f_score] is below every earlier one (and below [10e6]), stops at
    the goal by rebuilding the path through [came_from], and otherwise
    closes the point and relaxes its four neighbours; a neighbour whose
    tile is not [.] is closed at once.

    CPython iterates a set of tuples in an order fixed by the hashes and
    the table's history, which the model does not reproduce: the order
    is the class [SetOrder], any function listing a set's elements, and
    every theorem holds for every instance ([elements_order] runs the
    examples).  Tiles are read with Python indexing ([py_get], negative
    indices count from the end; [IndexError] outside).

    The loops run on fuel; the result is [None] when a fuel runs out, so
    the type is [fres A = option (res A)].  [find_path_total] shows the
    search never runs out with [astar_fuel lines start] iterations: each
    iteration closes a point that was open, and every point ever opened
    or closed is [start] or a cell that [tile] can read.  The rebuild of
    the path follows [came_from] towards decreasing [g_score], so
    [g_score[goal] + 1] steps are enough.  [find_path_sound] shows a
    returned [Path] is a walk of [length - 1] steps from [start] through
    open tiles to [goal]. *)

From Stdlib Require Import ZArith Ascii String Lia.
From stdpp Require Import base list gmap sets.
From S2P Require Import Prelude.

Open Scope Z_scope.
Open Scope py_scope.

(** ** Fuelled results

    [None]: a fuel ran out; [Some (Err e)]: the code raised [e]. *)
Definition fres (A : Type) : Type := option (res A).

Definition fbind {A B} (c : fres A) (k : A -> fres B) : fres B :=
  match c with
  | None => None
  | Some (Err e) => Some (Err e)
  | Some (Ok a) => k a
  end.

Notation "x <-- c ;; k" := (fbind c (fun x => k))
  (at level 100, c at next level, right associativity) : py_scope.

Definition lift {A} (r : res A) : fres A := Some r.

Module PathSearch.

Abbreviation Point := (Z * Z)%type.

(** [Point(x, y)]. *)
Definition x (p : Point) : Z := p.1.
Definition y (p : Point) : Z := p.2.

(** [Path]: the dataclass the search returns. *)
Record Path := mk_path {
  start : Point;
  goal : Point;
  first_step : Point;
  length : Z
}.

(** [Cavern.neighbors]: north, west, east, south, reading order. *)
Definition neighbors (p : Point) : list Point :=
  [(x p, y p - 1); (x p - 1, y p); (x p + 1, y p); (x p, y p + 1)].

(** [Cavern.tile]: [self.lines[point.y][point.x]]. *)
Definition tile (lines : list (list ascii)) (p : Point) : res ascii :=
  row <- py_get lines (y p) ;; py_get row (x p).

(** [heuristic_cost_estimate]: the Manhattan distance. *)
Definition heuristic_cost_estimate (a b : Point) : Z :=
  Z.abs (x a - x b) + Z.abs (y a - y b).

(** The defaults of [g_score] and [f_score]: [10e6]. *)
Definition big : Z := 10000000.

Definition score (m : gmap Point Z) (p : Point) : Z := default big (m !! p).

(** The iteration order of a Python [set]: some listing of its
    elements. *)
Class SetOrder := {
  set_iter : gset Point -> list Point;
  set_iter_perm s : set_iter s ≡ₚ elements s
}.

#[export] Instance elements_order : SetOrder := {| set_iter := elements; set_iter_perm s := reflexivity _ |}.

Section Search.
Context `{SetOrder}.
Variable lines : list (list ascii).
Variables (start goal : Point).

(** The state of the loop. *)
Record AStar := mk_astar {
  closed_set : gset Point;
  open_set : gset Point;
  came_from : gmap Point Point;
  g_score : gmap Point Z;
  f_score : gmap Point Z
}.

Definition astar_init : AStar :=
  {| closed_set := ∅; open_set := {[start]}; came_from := ∅;
     g_score := {[start := 0]}; f_score := {[start := heuristic_cost_estimate start goal]} |}.

(** [for point in open_set: if f_score[point] < lowest_score: ...]. *)
Fixpoint lowest_go (f : gmap Point Z) (l : list Point) (lowest : option Point) (lowest_score : Z) : option Point :=
  match l with
  | [] => lowest
  | p :: l' => if score f p <? lowest_score then lowest_go f l' (Some p) (score f p)
               else lowest_go f l' lowest lowest_score
  end.

Definition lowest (st : AStar) : option Point := lowest_go (f_score st) (set_iter (open_set st)) None big.

(** One neighbour of [current]: the body of [for neighbor in ...]. *)
Definition relax (current : Point) (st : AStar) (neighbor : Point) : res AStar :=
  t <- tile lines neighbor ;;
  let closed := if Ascii.eqb t "." then closed_set st else {[neighbor]} ∪ closed_set st in
  let st := {| closed_set := closed; open_set := open_set st; came_from := came_from st;
               g_score := g_score st; f_score := f_score st |} in
  if bool_decide (neighbor ∈ closed) then Ok st
  else
    let tentative_gscore := score (g_score st) current + 1 in
    if bool_decide (neighbor ∉ open_set st) || (tentative_gscore <? score (g_score st) neighbor) then
      Ok {| closed_set := closed;
            open_set := {[neighbor]} ∪ open_set st;
            came_from := <[neighbor := current]> (came_from st);
            g_score := <[neighbor := tentative_gscore]> (g_score st);
            f_score := <[neighbor := tentative_gscore + heuristic_cost_estimate neighbor goal]> (f_score st) |}
    else Ok st.

(** [reconstruct_path]: [while current in came_from.keys()]. *)
Fixpoint reconstruct_go (fuel : nat) (cf : gmap Point Point) (current : Point) (total_path : list Point) : option (list Point) :=
  match cf !! current with
  | None => Some total_path
  | Some prev => match fuel with
                 | O => None
                 | S fuel' => reconstruct_go fuel' cf prev (total_path ++ [prev])
                 end
  end.

Definition reconstruct_path (st : AStar) (current : Point) : fres Path :=
  match reconstruct_go (Z.to_nat (score (g_score st) current)) (came_from st) current [current] with
  | None => None
  | Some total_path =>
      lift (fs <- py_get total_path (-2) ;;
            Ok (mk_path start goal fs (Z.of_nat (List.length total_path))))
  end.

(** One iteration of [while open_set]: [inl] is the function's return. *)
Definition astar_step (st : AStar) : fres (fres (option Path) + AStar) :=
  match lowest st with
  | None => lift (Err KeyError)        (* open_set.remove(None) *)
  | Some current =>
      if bool_decide (current = goal) then Some (Ok (inl (p <-- reconstruct_path st current ;; Some (Ok (Some p)))))
      else
        let st := {| closed_set := {[current]} ∪ closed_set st; open_set := open_set st ∖ {[current]};
                     came_from := came_from st; g_score := g_score st; f_score := f_score st |} in
        lift (st' <- res_fold (relax current) (neighbors current) st ;; Ok (inr st'))
  end.

Fixpoint astar_loop (fuel : nat) (st : AStar) : fres (option Path) :=
  if bool_decide (open_set st = ∅) then Some (Ok None)
  else match fuel with
       | O => None
       | S fuel' =>
           r <-- astar_step st ;;
           match r with
           | inl ret => ret
           | inr st' => astar_loop fuel' st'
           end
       end.

End Search.

(** [find_path(start, goal)]; the fuel is [astar_fuel] iterations. *)
Definition find_path `{SetOrder} (lines : list (list ascii)) (start goal : Point) (fuel : nat) : fres (option Path) :=
  astar_loop lines start goal fuel (astar_init start goal).

(** The cells [tile] can read: [-len lines <= y < len lines] and
    [-len row <= x < len row]. *)
Definition cells (lines : list (list ascii)) : gset Point :=
  list_to_set (py_range (- Z.of_nat (List.length lines)) (Z.of_nat (List.length lines)) ≫= fun yv =>
    match py_get lines yv with
    | Ok row => (fun xv => (xv, yv)) <$> py_range (- Z.of_nat (List.length row)) (Z.of_nat (List.length row))
    | Err _ => []
    end).

(** Enough iterations for the search from [start]: one per readable
    cell and one for [start]. *)
Definition astar_fuel (lines : list (list ascii)) (start : Point) : nat := S (size (cells lines ∪ {[start]})).

(** ** The search's invariant *)

Section Invariant.
Context `{SetOrder}.
Variable lines : list (list ascii).
Variables (start goal : Point).

(** Every point the search opens or closes. *)
Definition universe : gset Point := cells lines ∪ {[start]}.

Definition open_tile (q : Point) : bool :=
  match tile lines q with Ok t => Ascii.eqb t "." | Err _ => false end.

(** [ps] walks from [p] through adjacent open tiles. *)
Fixpoint walk_from (p : Point) (ps : list Point) : bool :=
  match ps with
  | [] => true
  | q :: ps' => bool_decide (q ∈ neighbors p) && open_tile q && walk_from q ps'
  end.

Record astar_inv (st : AStar) : Prop := {
  inv_disj : open_set st ## closed_set st;
  inv_open : open_set st ⊆ universe;
  inv_closed : closed_set st ⊆ universe;
  inv_open_tile : forall p, p ∈ open_set st -> p = start \/ tile lines p = Ok "."%char;
  inv_open_g : forall p, p ∈ open_set st -> is_Some (g_score st !! p);
  inv_g_nonneg : forall p v, g_score st !! p = Some v -> 0 <= v;
  inv_g_start : g_score st !! start = Some 0;
  inv_started : start ∈ closed_set st \/ (closed_set st = ∅ /\ open_set st = {[start]} /\ came_from st = ∅);
  inv_cf : forall n c, came_from st !! n = Some c ->
             c ∈ closed_set st /\ n ∈ neighbors c /\ tile lines n = Ok "."%char /\
             exists gc, g_score st !! c = Some gc /\ g_score st !! n = Some (gc + 1);
  inv_g_cf : forall n, is_Some (g_score st !! n) -> n = start \/ is_Some (came_from st !! n)
}.

(** The state of the neighbour loop of [current]. *)
Definition relax_inv (current : Point) (gcur : Z) (closed0 : gset Point) (st : AStar) : Prop :=
  astar_inv st /\ start ∈ closed_set st /\ current ∈ closed_set st /\
  g_score st !! current = Some gcur /\ closed0 ⊆ closed_set st.

(** What a returned [Path] should be: from [start] to [goal], its
    [length] the number of points of a walk through open tiles, its
    [first_step] the walk's second point. *)
Definition path_walk (p : Path) : Prop :=
  PathSearch.start p = start /\ PathSearch.goal p = goal /\
  exists ws, walk_from start ws = true /\ last (start :: ws) = Some goal /\
             length p = Z.of_nat (S (List.length ws)) /\ ws !! 0%nat = Some (first_step p).

End Invariant.

Definition lines_of (raw : list string) : list (list ascii) := list_ascii_of_string <$> raw.

Definition sample_cave : list (list ascii) :=
  lines_of ["#######"; "#.G...#"; "#...EG#"; "#.#.#G#"; "#..G#E#"; "#.....#"; "#######"]%string.

(** ** Lemmas *)

Lemma tile_cells lines p t : tile lines p = Ok t -> p ∈ cells lines.
Proof.
  unfold tile, cells. intros Ht. apply res_bind_Ok in Ht as (row & Hrow & Hx).
  assert (Hy : - Z.of_nat (List.length lines) <= y p < Z.of_nat (List.length lines)) by (apply py_get_Ok_iff; eauto).
  assert (Hx' : - Z.of_nat (List.length row) <= x p < Z.of_nat (List.length row)) by (apply py_get_Ok_iff; eauto).
  apply elem_of_list_to_set, list_elem_of_bind. exists (y p). split.
  - rewrite Hrow. apply list_elem_of_fmap. exists (x p). split; [destruct p; done|].
    apply list_elem_of_In, in_py_range. exact Hx'.
  - apply list_elem_of_In, in_py_range. exact Hy.
Qed.

Lemma lowest_go_in f l lo sc p : lowest_go f l lo sc = Some p -> lo = Some p \/ p ∈ l.
Proof.
  revert lo sc. induction l as [|q l IH]; intros lo sc; simpl; [auto|].
  destruct (_ <? _); intros H; destruct (IH _ _ H) as [[= ->]|]; set_solver.
Qed.

Section Proofs.
Context `{SetOrder}.
Variable lines : list (list ascii).
Variables (start goal : Point).

Lemma lowest_in st p : lowest st = Some p -> p ∈ open_set st.
Proof.
  unfold lowest. intros Hl. destruct (lowest_go_in _ _ _ _ _ Hl) as [?|Hp]; [done|].
  rewrite (set_iter_perm _) in Hp. by apply elem_of_elements.
Qed.

Lemma astar_init_inv : astar_inv lines start (astar_init start goal).
Proof.
  unfold astar_init. split; cbn [closed_set open_set came_from g_score f_score];
    first [ set_solver
          | unfold universe; set_solver
          | intros p Hp; rewrite elem_of_singleton in Hp; subst; rewrite lookup_singleton_eq; eauto
          | intros p v; rewrite lookup_singleton_Some; lia
          | by rewrite lookup_singleton_eq
          | intros n; rewrite lookup_singleton_is_Some; auto
          | intros n c; rewrite lookup_empty; done
          | right; done ].
Qed.

(** Closing the point [open_set] yields keeps the invariant. *)
Lemma pop_inv st current :
  astar_inv lines start st -> current ∈ open_set st ->
  astar_inv lines start {| closed_set := {[current]} ∪ closed_set st; open_set := open_set st ∖ {[current]};
                          came_from := came_from st; g_score := g_score st; f_score := f_score st |}.
Proof.
  intros [] Hc. split; simpl; auto.
  - set_solver.
  - set_solver.
  - set_solver.
  - intros p Hp. apply inv_open_tile0. set_solver.
  - intros p Hp. apply inv_open_g0. set_solver.
  - left. destruct inv_started0 as [|(_ & Ho & _)]; [set_solver|]. rewrite Ho in Hc. set_solver.
  - intros n c Hn. destruct (inv_cf0 n c Hn) as (? & ?). split; [set_solver|done].
Qed.

(** The neighbour loop's update: [came_from], [g_score], [f_score]
    set at an open tile that is not closed. *)
Lemma relax_update_inv current gcur closed0 cl op cf g f n fn :
  relax_inv lines start current gcur closed0 (mk_astar cl op cf g f) ->
  n ∈ neighbors current -> tile lines n = Ok "."%char -> n ∉ cl ->
  relax_inv lines start current gcur closed0
    (mk_astar cl ({[n]} ∪ op) (<[n := current]> cf) (<[n := gcur + 1]> g) fn).
Proof.
  intros (Hinv & Hs & Hc & Hg & Hsub) Hn Ht Hcl.
  pose proof (tile_cells _ _ _ Ht) as Hcell.
  assert (Hnc : n <> current) by (intros ->; contradiction).
  assert (Hns : n <> start) by (intros ->; contradiction).
  pose proof (inv_g_nonneg _ _ _ Hinv current gcur Hg) as Hgcur.
  destruct Hinv as [Hdisj Hop Hclu Htile Hopg Hnn Hgs Hst Hcf Hgcf]; simpl in *.
  split; [split|]; cbn [closed_set open_set came_from g_score f_score].
  - clear - Hdisj Hcl. set_solver.
  - unfold universe in *. clear - Hop Hcell. set_solver.
  - done.
  - intros p Hp. apply elem_of_union in Hp as [->%elem_of_singleton|Hp]; auto.
  - intros p Hp. rewrite lookup_insert. case_decide; [done|]. apply Hopg.
    apply elem_of_union in Hp as [Hp|Hp]; [apply elem_of_singleton in Hp; congruence|done].
  - intros p v. rewrite lookup_insert_Some. intros [[_ <-]|[_ Hp]]; [lia|eauto].
  - rewrite lookup_insert_ne; done.
  - by left.
  - intros n' c. rewrite lookup_insert_Some. intros [[<- <-]|[Hne Hn']].
    + split_and!; try done. exists gcur. rewrite lookup_insert_ne, lookup_insert_eq; done.
    + destruct (Hcf n' c Hn') as (Hc' & Hnb & Ht' & gc & Hgc & Hgn).
      split_and!; try done. exists gc.
      rewrite !lookup_insert_ne; [done|done|by intros ->].
  - intros m. rewrite lookup_insert_is_Some, lookup_insert_is_Some. intros [->|[Hne Hm]]; [by right; left|].
    destruct (Hgcf m Hm); [by left|by right; right].
  - split_and!; try done. rewrite lookup_insert_ne; done.
Qed.

(** A neighbour whose tile is not [.] is closed. *)
Lemma relax_wall_inv current gcur closed0 cl op cf g f n t :
  relax_inv lines start current gcur closed0 (mk_astar cl op cf g f) ->
  tile lines n = Ok t -> t <> "."%char ->
  relax_inv lines start current gcur closed0 (mk_astar ({[n]} ∪ cl) op cf g f).
Proof.
  intros (Hinv & Hs & Hc & Hg & Hsub) Ht Hdot.
  pose proof (tile_cells _ _ _ Ht) as Hcell.
  destruct Hinv as [Hdisj Hop Hclu Htile Hopg Hnn Hgs Hst Hcf Hgcf]; simpl in *.
  assert (Hnop : n ∉ op).
  { intros Hnop. destruct (Htile n Hnop) as [->|Ht']; [|congruence].
    apply (Hdisj start); done. }
  split; [split|]; cbn [closed_set open_set came_from g_score f_score]; try done.
  - clear - Hdisj Hnop. set_solver.
  - unfold universe in *. clear - Hclu Hcell. set_solver.
  - left. clear - Hs. set_solver.
  - intros n' c Hn'. destruct (Hcf n' c Hn') as [? ?]. split; [|done]. clear - H0. set_solver.
  - split_and!; try done; clear - Hc Hs Hsub; set_solver.
Qed.

Lemma relax_preserves current gcur closed0 st n st' :
  n ∈ neighbors current -> relax_inv lines start current gcur closed0 st ->
  relax lines goal current st n = Ok st' -> relax_inv lines start current gcur closed0 st'.
Proof.
  destruct st as [cl op cf g f]. unfold relax. intros Hn Hinv Hr.
  apply res_bind_Ok in Hr as (t & Ht & Hr). cbn [closed_set open_set came_from g_score f_score] in Hr.
  destruct (Ascii.eqb t ".") eqn:Et.
  - apply Ascii.eqb_eq in Et as ->.
    case_bool_decide as Hcl; [by injection Hr as <-|].
    destruct (_ || _); injection Hr as <-; [|done].
    pose proof Hinv as (_ & _ & _ & Hg & _). cbn [g_score] in Hg. unfold score at 1. rewrite Hg. simpl.
    eapply relax_update_inv; eauto.
  - apply Ascii.eqb_neq in Et. rewrite bool_decide_true in Hr by set_solver. injection Hr as <-.
    eapply relax_wall_inv; eauto.
Qed.

Lemma relax_fold_inv current gcur closed0 st st' :
  relax_inv lines start current gcur closed0 st ->
  res_fold (relax lines goal current) (neighbors current) st = Ok st' ->
  relax_inv lines start current gcur closed0 st'.
Proof.
  intros Hinv. apply res_fold_inv; [done|].
  intros a b a' Hb. apply relax_preserves. by apply list_elem_of_In.
Qed.

Lemma walk_from_snoc p ws l q :
  walk_from lines p ws = true -> last (p :: ws) = Some l -> q ∈ neighbors l -> open_tile lines q = true ->
  walk_from lines p (ws ++ [q]) = true.
Proof.
  revert p. induction ws as [|w ws IH]; intros p Hw Hl Hq Ho; simpl in *.
  - injection Hl as <-. rewrite bool_decide_true, Ho; done.
  - apply andb_true_iff in Hw as [Hw1 Hw2]. rewrite Hw1. apply IH; done.
Qed.

Lemma py_get_second_last {A} (xs : list A) b a : py_get (xs ++ [b; a]) (-2) = Ok b.
Proof.
  unfold py_get, py_index. rewrite length_app. simpl.
  rewrite (proj2 (Z.leb_le _ _)) by lia. simpl.
  replace (Z.to_nat (Z.of_nat (List.length xs + 2) + -2)) with (List.length xs) by lia.
  rewrite lookup_app_r, Nat.sub_diag by lia. done.
Qed.

(** Following [came_from] from a scored point walks back to [start],
    one step per unit of [g_score]. *)
Lemma reconstruct_go_spec st fuel c gc rest :
  astar_inv lines start st -> g_score st !! c = Some gc -> (Z.to_nat gc <= fuel)%nat ->
  exists ws, reconstruct_go fuel (came_from st) c (rest ++ [c]) = Some (rest ++ reverse (start :: ws)) /\
             walk_from lines start ws = true /\ last (start :: ws) = Some c /\
             List.length ws = Z.to_nat gc.
Proof.
  intros Hinv. revert c gc rest. induction fuel as [|fuel IH]; intros c gc rest Hg Hf;
    simpl; destruct (came_from st !! c) as [prev|] eqn:Hcf.
  - destruct (inv_cf _ _ _ Hinv c prev Hcf) as (_ & _ & _ & gp & Hgp & Hgc).
    pose proof (inv_g_nonneg _ _ _ Hinv prev gp Hgp). rewrite Hg in Hgc. injection Hgc. lia.
  - destruct (inv_g_cf _ _ _ Hinv c ltac:(by eexists)) as [->|[? Hc]]; [|congruence].
    rewrite (inv_g_start _ _ _ Hinv) in Hg. injection Hg as <-. exists []. done.
  - destruct (inv_cf _ _ _ Hinv c prev Hcf) as (_ & Hnb & Ht & gp & Hgp & Hgc).
    pose proof (inv_g_nonneg _ _ _ Hinv prev gp Hgp). rewrite Hg in Hgc. injection Hgc as ->.
    destruct (IH prev gp (rest ++ [c]) Hgp) as (ws & Hr & Hw & Hl & Hlen); [lia|].
    exists (ws ++ [c]). rewrite Hr. split_and!.
    + rewrite app_comm_cons, reverse_snoc, <- app_assoc. done.
    + eapply walk_from_snoc; eauto. unfold open_tile. by rewrite Ht.
    + by rewrite app_comm_cons, last_snoc.
    + rewrite length_app, Hlen. simpl. lia.
  - destruct (inv_g_cf _ _ _ Hinv c ltac:(by eexists)) as [->|[? Hc]]; [|congruence].
    rewrite (inv_g_start _ _ _ Hinv) in Hg. injection Hg as <-. exists []. done.
Qed.

(** The rebuilt [Path] of a scored point: a walk back to [start], with
    [IndexError] from [total_path[-2]] when the point is [start]. *)
Lemma reconstruct_path_spec st c gc :
  astar_inv lines start st -> g_score st !! c = Some gc ->
  exists ws, walk_from lines start ws = true /\ last (start :: ws) = Some c /\
    reconstruct_path start goal st c =
      lift (match ws with
            | [] => Err IndexError
            | w :: _ => Ok (mk_path start goal w (Z.of_nat (S (List.length ws))))
            end).
Proof.
  intros Hinv Hg. unfold reconstruct_path, score. rewrite Hg. simpl.
  destruct (reconstruct_go_spec st (Z.to_nat gc) c gc [] Hinv Hg (Nat.le_refl _)) as (ws & Hr & Hw & Hl & _).
  simpl in Hr. rewrite Hr. exists ws. split_and!; [done|done|].
  destruct ws as [|w ws]; [done|]. rewrite !reverse_cons, <- app_assoc. simpl.
  rewrite py_get_second_last. simpl. rewrite length_app, length_reverse. simpl.
  do 3 f_equal. lia.
Qed.

(** One iteration: it raises, returns at the goal, or closes one more
    point of the universe, keeping the invariant. *)
Lemma astar_step_cases st :
  astar_inv lines start st ->
  (exists e, astar_step lines start goal st = Some (Err e)) \/
  (exists gg, g_score st !! goal = Some gg /\
     astar_step lines start goal st = Some (Ok (inl (p <-- reconstruct_path start goal st goal ;; Some (Ok (Some p)))))) \/
  (exists st', astar_step lines start goal st = Some (Ok (inr st')) /\ astar_inv lines start st' /\
     (size (universe lines start ∖ closed_set st') < size (universe lines start ∖ closed_set st))%nat).
Proof.
  intros Hinv. unfold astar_step. destruct (lowest st) as [c|] eqn:Hl; [|by left; eexists].
  pose proof (lowest_in _ _ Hl) as Hc.
  destruct (inv_open_g _ _ _ Hinv c Hc) as [gc Hgc].
  case_bool_decide as Hgoal; [subst c; right; left; by eexists|].
  set (st1 := {| closed_set := {[c]} ∪ closed_set st; open_set := open_set st ∖ {[c]};
                 came_from := came_from st; g_score := g_score st; f_score := f_score st |}).
  pose proof (pop_inv _ _ Hinv Hc) as Hinv1. fold st1 in Hinv1.
  destruct (res_fold (relax lines goal c) (neighbors c) st1) as [st'|e] eqn:Hf; simpl; [|by left; eexists].
  right; right. exists st'. split; [done|].
  assert (Hs1 : start ∈ closed_set st1).
  { destruct (inv_started _ _ _ Hinv1) as [|(He & _)]; [done|]. simpl in He. set_solver. }
  destruct (relax_fold_inv c gc (closed_set st1) st1 st') as (Hinv' & _ & _ & _ & Hsub); [|done|].
  { split_and!; simpl; try done; set_solver. }
  split; [done|]. apply subset_size.
  pose proof (inv_open _ _ _ Hinv) as Hu. pose proof (inv_disj _ _ _ Hinv) as Hd.
  simpl in Hsub. clear - Hc Hu Hd Hsub. set_solver.
Qed.

Lemma astar_loop_total n st :
  astar_inv lines start st -> (size (universe lines start ∖ closed_set st) < n)%nat ->
  astar_loop lines start goal n st <> None.
Proof.
  revert st. induction n as [|n IH]; intros st Hinv Hn; simpl; case_bool_decide; try done; [lia|].
  destruct (astar_step_cases st Hinv) as [[e ->]|[[gg [Hg ->]]|[st' (-> & Hinv' & Hlt)]]]; simpl; [done| |].
  - destruct (reconstruct_path_spec st goal gg Hinv Hg) as (ws & _ & _ & ->). by destruct ws.
  - apply IH; [done|lia].
Qed.

Lemma astar_loop_sound n st p :
  astar_inv lines start st -> astar_loop lines start goal n st = Some (Ok (Some p)) ->
  path_walk lines start goal p.
Proof.
  revert st. induction n as [|n IH]; intros st Hinv; simpl; case_bool_decide; try done.
  destruct (astar_step_cases st Hinv) as [[e ->]|[[gg [Hg ->]]|[st' (-> & Hinv' & _)]]]; simpl; [done| |by apply IH].
  destruct (reconstruct_path_spec st goal gg Hinv Hg) as (ws & Hw & Hl & ->).
  destruct ws as [|w ws]; simpl; [done|]. intros [= <-].
  split_and!; try done. exists (w :: ws). split_and!; done.
Qed.

Lemma fbind_Some_Ok {A B} (c : fres A) (k : A -> fres B) (b : B) :
  fbind c k = Some (Ok b) <-> exists a, c = Some (Ok a) /\ k a = Some (Ok b).
Proof. destruct c as [[a|e]|]; simpl; naive_solver. Qed.

Lemma fbind_None {A B} (c : fres A) (k : A -> fres B) :
  fbind c k = None <-> c = None \/ exists a, c = Some (Ok a) /\ k a = None.
Proof. destruct c as [[a|e]|]; simpl; naive_solver. Qed.

End Proofs.

(** C33: the A* loop of [find_path] never runs out of its fuel of one
    iteration per readable cell plus one: every iteration closes a point
    that was open, for any iteration order of [open_set]. *)
Theorem find_path_total `{SetOrder} lines start goal :
  find_path lines start goal (astar_fuel lines start) <> None.
Proof.
  apply astar_loop_total; [apply astar_init_inv|]. simpl. rewrite difference_empty_L.
  unfold universe, astar_fuel. lia.
Qed.

(** C34: a [Path] that [find_path] returns goes from [start] to [goal]:
    its [length] counts the points of a walk of adjacent open ([.])
    tiles from [start] to [goal], and [first_step] is the walk's second
    point, for any iteration order of [open_set]. *)
Theorem find_path_sound `{SetOrder} lines start goal fuel p :
  find_path lines start goal fuel = Some (Ok (Some p)) -> path_walk lines start goal p.
Proof. apply astar_loop_sound, astar_init_inv. Qed.

(** C35: [find_path(p, p)] raises [IndexError]: the goal is the first
    point taken, the rebuilt path is [[p]] and [total_path[-2]] does not
    exist. *)
Theorem find_path_same_point `{SetOrder} lines p fuel :
  find_path lines p p (S fuel) = Some (Err IndexError).
Proof.
  unfold find_path. simpl. rewrite bool_decide_false by set_solver.
  unfold astar_step, lowest. simpl.
  assert (Hs : set_iter ({[p]} : gset Point) = [p]).
  { apply Permutation_singleton_r. rewrite set_iter_perm. by rewrite elements_singleton. }
  rewrite Hs. unfold heuristic_cost_estimate. rewrite !Z.sub_diag. simpl.
  unfold score. rewrite lookup_singleton_eq. simpl.
  rewrite bool_decide_true by done. unfold reconstruct_path, astar_init. simpl.
  assert (Hr : forall k, reconstruct_go k (∅ : gmap Point Point) p [p] = Some [p])
    by (intros []; simpl; by rewrite lookup_empty).
  rewrite Hr. done.
Qed.


Lemma find_path_sound_witness :
  path_walk sample_cave (2, 1) (1, 5) (mk_path (2, 1) (1, 5) (1, 1) 6).
Proof.
  apply (find_path_sound sample_cave (2, 1) (1, 5) (astar_fuel sample_cave (2, 1))).
  vm_compute. reflexivity.
Defined.

(** The searches from the goblin at (2, 1) of the puzzle's first map:
    a path of three points to (4, 1), of six to (1, 5), none to a
    wall. *)
Lemma find_path_tests :
  find_path sample_cave (2, 1) (4, 1) (astar_fuel sample_cave (2, 1)) = Some (Ok (Some (mk_path (2, 1) (4, 1) (3, 1) 3))) /\
  find_path sample_cave (2, 1) (6, 5) (astar_fuel sample_cave (2, 1)) = Some (Ok None).
Proof. split; vm_compute; reflexivity. Qed.


End PathSearch.
